(* ===== verification/_CoqProject ===== *)
-Q . S2P
Prelude.v
PageAlloc.v
Sched.v
Machine.v
Switch.v
CpuFlag.v
SchedQueues.v
SchedInv.v
SchedOps.v
SchedMachine.v
TaskMachine.v
SchedTheorems.v
Ipc.v
Sync.v
Message.v
TaskFrame.v
IpcTheorems.v
Strings.v
Console.v
Stdio.v
Keyboard.v
Ps2.v
Timer.v
Paging.v
Irq.v
IsrStubs.v
Heap.v
HeapInv.v
HeapTiling.v
HeapOps.v
HeapAlloc.v
HeapFree.v
HeapClient.v
HeapTheorems.v
KernelMain.v
KernelMainTheorems.v
Boot.v
Shell.v
IpcSelfTests.v
IpcRendezvous.v
IpcSelfTestsTheorems.v
IpcContention.v
IpcContentionTheorems.v
KernelTasks.v
KernelTasksInv.v
KernelTasksTheorems.v
