(* ===== verification/Prelude.v ===== *)
(** * NoviumOS: a verification library

    NoviumOS is a small 32-bit x86 kernel in C. This library translates its
    code into executable definitions and proves what makes each part correct.
    File and function names below are those under src/; definitions keep the
    names of the functions they translate.

    ** The system and its model

    The kernel has one processor and no user mode. Its parts call each other
    directly and share static data; interrupts are the only concurrency.

    - Physical pages (mm/page_alloc.c): a bitmap of 2^20 pages and a counter.
      [PageAlloc.v]: [Pmm] is that state; the Multiboot memory map is read from
      byte memory; the kernel's bounds, which the linker gives, are arguments.
    - Heap (mm/heap.c): segments of pages cut into blocks with headers, the
      free ones on an address-ordered list. [Heap.v] keeps headers and links in
      byte memory and calls the allocator of [PageAlloc.v]. [HeapInv.v] reads
      that memory as a map of blocks and a list, [HeapTiling.v] says how the
      blocks tile the segments, [HeapOps.v] has the invariant and the growth,
      [HeapAlloc.v] kmalloc, [HeapFree.v] kfree; [HeapClient.v] is the abstract
      machine the clients see, and [HeapTheorems.v] the results.
    - Scheduler (kernel/sched.c): a table of 32 tasks threaded into ready,
      blocked and dead queues. [Sched.v] has every function; a [Task *] is an
      index into the table and the [Next] links are kept as links. A call that
      reaches SchedSwitch returns [Switched] with the return points its task
      still has to run. [SchedQueues.v] relates the links to lists,
      [SchedInv.v] and [SchedOps.v] hold the invariant and the specification of
      each operation, [SchedMachine.v] is the machine of many tasks (calls,
      switches, resumptions) with its reachable states, [TaskMachine.v] adds
      the code the tasks run, in turns between which the timer may interrupt,
      and the class [TaskInvariant] a client's invariant is an instance of;
      [SchedTheorems.v] states the results.
    - Processor (asm/cpu.h, arch/x86_32/kernel/switch.S, process.c):
      [Machine.v] is the part of the instruction set the assembly is written
      in, with registers, flags and byte memory. [Switch.v] has SchedSwitch as
      its instructions and the machine of many tasks that switch by it;
      [CpuFlag.v] has the inline assembly around the interrupt flag and shows
      that the field [irq_on] of the scheduler's state stands for it.
    - Blocking primitives (ipc/ipc.c, ipc/sync.c, ipc/message.c): wait queues,
      semaphores, mutexes, message ports. [Ipc.v] has the wait queues and
      IpcPark over the class [Parkable], which each object instantiates;
      [Sync.v] and [Message.v] have the objects; [IpcTheorems.v] the results.
      A blocking call is a function up to its sleep and a [_resume] function
      for the rest.
    - Interrupts and time (arch/x86_32/kernel/irq.c, pit.c): [Irq.v] has the
      descriptor table, the interrupt controllers and the dispatcher, which is
      written against the class [IrqClient] and instantiated with the kernel
      built from the other parts; [Timer.v] has the tick counter and sleeping.
      [IsrStubs.v] is isr.S: the delivery through a gate, the stubs and the
      common code around isr_dispatch, with the dispatcher as a parameter that
      keeps the calling convention.
    - Paging (mm/paging.c): [Paging.v] keeps the tables in byte memory, sends
      the kernel's own stores through them, and states what they mean by the
      processor's page walk with a TLB.
    - Library and devices (lib/string.c, lib/stdio.c, kernel/debug.c,
      drivers/video/vga_console.c, drivers/input/keyboard.c, ps2.c): [Strings.v],
      [Stdio.v], [Console.v], [Keyboard.v], and [Ps2.v], where the controller is
      a device behind the class [Controller].
    - Boot (multiboot.S, bootstrap.S, hw_init.c): [Boot.v] goes from the boot
      loader's jump to kernel_main: the header, the assembly that clears .bss,
      and hw_init over the interrupt controllers, the timer and the keyboard.
    - Kernel entry (init/main.c): [KernelMain.v] is kernel_main up to SchedInit
      (the boot report, the start of pages, heap and paging, the heap's self
      tests) and [KernelMainTheorems.v] what it prints. [IpcSelfTests.v] and
      [IpcContention.v] are the IPC self tests: the bodies of the test tasks
      are cut where the code can be switched away from, with a program counter
      per task, and run on [TaskMachine.v]. [IpcRendezvous.v] has the
      invariant of the consumer and the producer, [IpcSelfTestsTheorems.v] and
      [IpcContentionTheorems.v] the results; [TaskFrame.v] says what a turn of
      one task leaves alone of the others. [Shell.v] is the shell task over
      keyboard and console. [KernelTasks.v] puts all of it together: kernel_main
      from SchedInit on with every task of the kernel in one machine, under the
      timer and the keyboard; [KernelTasksInv.v] has its invariant, turn by
      turn, and [KernelTasksTheorems.v] the results.

    This file holds what they share: machine integers, byte-addressed memory,
    the loop combinator, counting and list lemmas.

    ** Conventions

    An unsigned 32-bit integer is a [Z] and the wrap-around is written out
    ([+w], [-w], [*w], [wrap32]); a cast to a signed one is [to_s32]. Memory is a
    map from addresses to bytes, read and written little-endian. Static data is
    a record passed along. A null pointer is [None], or 0 where the code
    compares addresses. A loop is [loop] with fuel, and an [option] result is
    [None] only where the fuel has run out (or, in [Stdio.v], an argument of
    the wrong kind was fetched, and in [Paging.v], the store faulted); each
    theorem about such a function says that it does return. The interrupt flag
    is the field [irq_on] of the scheduler's state.

    The fuels are enough because the loops are bounded by the data: 34 for the
    queues of 32 tasks, 2^20 + 2 for scans over the pages, the map's length
    divided by its smallest entry for the Multiboot map, 40 for the 16 entries
    of a wait queue, 33 for 32-bit numbers and for the keyboard's 32 bytes, 4
    for the nesting of console_putchar, 9 for the heap's 8 segments. strlen and
    strcmp take the fuel as an argument, and the theorems hold for any fuel
    beyond the strings' length; so do the walks of the heap's free list, for any
    fuel beyond the number of its blocks, or of calls, and one.

    ** What the theorems show

    - Pages: what PageAllocInit makes of a memory map, first fit at a hint,
      PageAlloc as the search for one page, free after allocate restores the
      bitmap, and the invariant over any sequence of calls.
    - Heap: kmalloc on every outcome; every call returns; and any program that
      asks for at most 65520 bytes at a time and touches only what it owns sees
      an abstract arena: aligned blocks and page runs that never overlap, bytes
      that read back. The bound on the size is what keeps kfree from giving
      pages back: [kfree_give_back_overlaps] shows that when it does, the same
      bytes get two owners.
    - Scheduler: the invariant (queues are disjoint lists that agree with the
      task states, one running task, unique ids, exact counts) in every
      reachable machine; SchedYield refines the abstract yield; round robin
      starves nobody; priorities, sleepers, creation, blocking and exit do
      exactly what they should. An exit while the scheduler is locked breaks
      the table, which is a theorem too.
    - IPC: ports are bounded FIFOs; sends and receives on every path, those
      that fail included; permits are conserved, and a post readies the oldest
      sleeper and leaves the permit on the counter, where a task that runs
      before the sleeper may take it; mutexes on every path, and the hand-over
      of a mutex to a waiter, which deadlocks.
    - Interrupts and time: every interrupt is acknowledged before a switch,
      ghosts are recognised, lines are masked exactly; a slice that is used up
      is preempted; a sleeper wakes at its tick, not before, and never if its
      deadline comes out as tick 0; the divisor and the rate of the timer. The
      stubs hand the dispatcher the interrupted state, and the interrupted code
      never notices.
    - Processor and boot: the switch's instructions do what the abstract switch
      does, and a task that is switched to goes on exactly where it stopped,
      whatever ran in between. From the boot loader's jump the machine gets to
      kernel_main with its arguments, its .bss cleared and its interrupts set
      up, and interrupts that come early are harmless.
    - Paging: the identity after PagingInit, and any sequence of maps and
      unmaps refines updates of a partial function on pages with no stale
      translation.
    - Kernel entry: on a machine with memory to spare the start returns and
      prints exactly the boot report, the page count and the OK lines of the
      heap tests. The rendezvous delivers every message in order under every
      interleaving with the timer, its set-up included, never deadlocks, and
      ends within 166 turns of its two tasks. The messages that arrive before
      the producer's id is stored are counted as bad, as many as arrive then
      and none afterwards. The mutex keeps the two lock tasks apart; but when a
      slice ends inside the critical section and the other task then comes to
      the mutex, both sleep for ever, and the test reports success when enough
      rounds had been counted. What is typed at the shell, as long as it fits
      the row of its prompt, is edited on the line behind the prompt, and
      nothing is left behind the cursor.
    - The whole kernel: from SchedInit on no run of all the tasks ever stops;
      the screen shows exactly what the self tests have to have printed by
      then, up to the outcome of the rendezvous (delivered, still under way, or
      some messages counted as bad); kernel_main is in its idle loop after at
      most 470 of its turns; and from then on what the user sees is what the
      shell alone makes of the keys.
    - Library and devices: memmove, strcmp; the console stays on its page, its
      cells and its state in their types, and text written is text shown; the
      driver hands every byte of the controller on once and in order; kprintf
      prints what the format stands for and its numbers read back; the scancode
      buffer is a FIFO and every printable text can be typed.

    ** What is not modelled

    The processor is modelled with flat segments, no paging and no faults,
    which is how the kernel sets it up; the assembler's encodings and the
    linker's layout are outside, the layout as arguments. Loops that wait for an
    interrupt (keyboard_getchar on an empty buffer, the in-place waits of
    timer_sleep_ms) are modelled up to the wait. The timer comes between the
    turns of the tasks. The lock tasks are cut down to the single accesses of
    their counter, and the set-ups of the rendezvous and of the contention at
    each SchedCreate and around the store of ProducerId; but a call of a
    function of ipc.c, sync.c or message.c is one turn up to its sleep. These
    functions mask interrupts in each critical section and not between two of
    them, so an interrupt between, say, MutexTryLock and IpcPark inside
    MutexLock is not exercised; nor is one inside the tests the idle task makes
    alone, which are one turn each. The page walk of [Paging.v] does not look at
    the write permission of an entry, which the processor ignores in the
    kernel's mode while CR0.WP is clear, and nothing under src/ sets it.
    The parts of kernel_main keep separate memories: heap, page tables, tasks
    and console cells are not one address space. fs/ and
    drivers/video/framebuffer.c are empty files. *)

From Stdlib Require Export ZArith Lia.
From stdpp Require Export prelude gmap.

#[global] Open Scope Z_scope.

(** ** Machine integers *)

(** A [u32] is a [Z] in [0, 2^32); C's unsigned arithmetic wraps. *)
Definition wrap32 (z : Z) : Z := z mod 4294967296.
Definition wrap64 (z : Z) : Z := z mod 18446744073709551616.

(** Reinterpretation of a [u32] as an [s32], the cast [(s32)x]. *)
Definition to_s32 (z : Z) : Z :=
  if z <? 2147483648 then z else z - 4294967296.

Definition is_u32 (z : Z) : Prop := 0 <= z < 4294967296.

Declare Scope u32_scope.
Delimit Scope u32_scope with u32.
Notation "a +w b" := (wrap32 (a + b)) (at level 50, left associativity) : u32_scope.
Notation "a -w b" := (wrap32 (a - b)) (at level 50, left associativity) : u32_scope.
Notation "a *w b" := (wrap32 (a * b)) (at level 40, left associativity) : u32_scope.
#[global] Open Scope u32_scope.

(** [~x] on a [u32]. *)
Definition u32_not (z : Z) : Z := Z.lxor z 4294967295.

Ltac u32 :=
  unfold wrap32, wrap64, is_u32 in *; Z.to_euclidean_division_equations; lia.

Lemma wrap32_small z : is_u32 z -> wrap32 z = z.
Proof. intros H. apply Z.mod_small. exact H. Qed.

Lemma wrap32_range z : is_u32 (wrap32 z).
Proof. apply Z.mod_pos_bound. lia. Qed.

(** Drop the wrap-arounds of the goal, innermost first, that [tac] shows to
    stay in range. *)
Ltac unwrap_with tac :=
  repeat match goal with
  | |- context [wrap32 ?z] =>
      lazymatch z with
      | context [wrap32 _] => fail
      | _ => rewrite (wrap32_small z) by (unfold is_u32 in *; tac)
      end
  end.
Ltac unwrap := unwrap_with lia.

Lemma wrap64_small z : 0 <= z < 18446744073709551616 -> wrap64 z = z.
Proof. intros H. apply Z.mod_small. exact H. Qed.

(** ** Byte-addressed memory *)

(** Memory is a finite map from byte addresses to byte values; an address
    that was never written reads as 0, as .bss and fresh pages do. *)
Abbreviation Mem := (gmap Z Z).

Definition load8 (m : Mem) (a : Z) : Z := default 0 (m !! a) mod 256.
Definition store8 (m : Mem) (a v : Z) : Mem := <[a := v mod 256]> m.

(** Little-endian accesses of the wider scalar types. *)
Definition load32 (m : Mem) (a : Z) : Z :=
  load8 m a + 256 * load8 m (a + 1)
  + 65536 * load8 m (a + 2) + 16777216 * load8 m (a + 3).

Definition store32 (m : Mem) (a v : Z) : Mem :=
  store8 (store8 (store8 (store8 m a v) (a + 1) (v / 256))
            (a + 2) (v / 65536)) (a + 3) (v / 16777216).

Definition load64 (m : Mem) (a : Z) : Z :=
  load32 m a + 4294967296 * load32 m (a + 4).

Lemma load8_store8 m a v b :
  load8 (store8 m a v) b = if decide (a = b) then v mod 256 else load8 m b.
Proof.
  unfold load8, store8. rewrite lookup_insert. case_decide; [|done].
  cbn [default from_option id]. apply Z.mod_mod. lia.
Qed.

Lemma load8_range m a : 0 <= load8 m a < 256.
Proof. apply Z.mod_pos_bound. lia. Qed.

Lemma load32_range m a : is_u32 (load32 m a).
Proof.
  unfold load32, is_u32.
  pose proof (load8_range m a). pose proof (load8_range m (a + 1)).
  pose proof (load8_range m (a + 2)). pose proof (load8_range m (a + 3)). lia.
Qed.

Lemma load64_range m a : 0 <= load64 m a < 18446744073709551616.
Proof.
  pose proof (load32_range m a). pose proof (load32_range m (a + 4)).
  unfold load64, is_u32 in *. lia.
Qed.

Lemma load8_store8_ne m a v b : a <> b -> load8 (store8 m a v) b = load8 m b.
Proof. intros. rewrite load8_store8. by case_decide. Qed.

Lemma load8_store8_eq m a v : load8 (store8 m a v) a = v mod 256.
Proof. rewrite load8_store8. by case_decide. Qed.

Lemma load8_store32_ne m a v b :
  b < a \/ a + 4 <= b -> load8 (store32 m a v) b = load8 m b.
Proof. intros. unfold store32. rewrite !load8_store8_ne by lia. done. Qed.

Lemma load32_store8_ne m a v b :
  a < b \/ b + 4 <= a -> load32 (store8 m a v) b = load32 m b.
Proof. intros. unfold load32. rewrite !load8_store8_ne by lia. done. Qed.

Lemma load32_store32_ne m a v b :
  b + 4 <= a \/ a + 4 <= b -> load32 (store32 m a v) b = load32 m b.
Proof. intros. unfold load32. rewrite !load8_store32_ne by lia. done. Qed.

Lemma load32_store32_eq m a v : load32 (store32 m a v) a = wrap32 v.
Proof.
  unfold load32, store32.
  rewrite !load8_store8.
  repeat (case_decide; try lia).
  unfold wrap32. Z.to_euclidean_division_equations; lia.
Qed.

(** The memories a heap or console operation leaves outside its footprint. *)
Definition mem_agree (P : Z -> Prop) (m m' : Mem) : Prop :=
  forall a, P a -> load8 m' a = load8 m a.

(** ** Sequencing of calls that may not return *)

(** Rewriting with this equation, instead of reducing the bind, keeps the
    kernel from evaluating the call on the right. *)
Lemma some_bind {A B} (x : A) (f : A -> option B) : (Some x ≫= f) = f x.
Proof. done. Qed.

(** ** Loops *)

(** One C loop: [body] either goes round again ([inl]) or leaves ([inr]).
    [None] means the fuel ran out (or the body itself did not return). *)
Fixpoint loop {S R} (fuel : nat) (body : S -> option (S + R)) (s : S) : option R :=
  match fuel with
  | O => None
  | Datatypes.S fuel' =>
      match body s with
      | None => None
      | Some (inl s') => loop fuel' body s'
      | Some (inr r) => Some r
      end
  end.

(** Total correctness of a loop: an invariant and a measure that decreases
    give a result, whatever fuel above the measure was provided. *)
Lemma loop_total {S R} (I : S -> Prop) (m : S -> Z) (Q : R -> Prop) body :
  (forall s, I s -> exists x, body s = Some x /\
     match x with
     | inl s' => I s' /\ m s' < m s
     | inr r => Q r
     end) ->
  (forall s, I s -> 0 <= m s) ->
  forall fuel s, I s -> m s < Z.of_nat fuel ->
  exists r, loop fuel body s = Some r /\ Q r.
Proof.
  intros Hb Hm fuel. induction fuel as [|fuel IH]; intros s HI Hf.
  - specialize (Hm s HI). lia.
  - destruct (Hb s HI) as ([s'|r] & E & H); cbn [loop]; rewrite E.
    + destruct H. apply IH; [done|lia].
    + eauto.
Qed.

(** The same principle with the body's obligations read off an equation. *)
Lemma loop_unfold {S R} fuel (body : S -> option (S + R)) s :
  loop (Datatypes.S fuel) body s =
  match body s with
  | None => None
  | Some (inl s') => loop fuel body s'
  | Some (inr r) => Some r
  end.
Proof. done. Qed.

(** ** Counting *)

Definition count {A} (f : A -> bool) (l : list A) : Z :=
  Z.of_nat (length (filter (fun x => f x = true) l)).

Lemma count_nil {A} (f : A -> bool) : count f [] = 0.
Proof. done. Qed.

Lemma count_cons {A} (f : A -> bool) x l :
  count f (x :: l) = (if f x then 1 else 0) + count f l.
Proof.
  unfold count. rewrite filter_cons.
  destruct (f x); case_decide; simplify_eq; cbn [length]; lia.
Qed.

Lemma count_bounds {A} (f : A -> bool) l : 0 <= count f l <= Z.of_nat (length l).
Proof.
  induction l; [rewrite count_nil; cbn [length]; lia|].
  rewrite count_cons. cbn [length]. destruct (f a); lia.
Qed.

Lemma count_ext {A} (f g : A -> bool) l :
  (forall x, x ∈ l -> f x = g x) -> count f l = count g l.
Proof.
  induction l as [|x l IH]; intros H; [done|].
  rewrite !count_cons. rewrite (H x) by set_solver.
  rewrite IH; [done|]. set_solver.
Qed.

Lemma count_false {A} (l : list A) : count (fun _ => false) l = 0.
Proof. induction l; [done|]. rewrite count_cons. lia. Qed.

Lemma count_app {A} (f : A -> bool) l1 l2 : count f (l1 ++ l2) = count f l1 + count f l2.
Proof. induction l1; [done|]. cbn [app]. rewrite !count_cons. lia. Qed.

Lemma count_perm {A} (f : A -> bool) l1 l2 : l1 ≡ₚ l2 -> count f l1 = count f l2.
Proof. intros H. unfold count. by rewrite H. Qed.

Lemma count_mono {A} (f g : A -> bool) l :
  (forall x, x ∈ l -> f x = true -> g x = true) -> count f l <= count g l.
Proof.
  induction l as [|x l IH]; intros H; [done|].
  rewrite !count_cons.
  assert (count f l <= count g l) by (apply IH; set_solver).
  destruct (f x) eqn:E; [rewrite (H x); [lia|set_solver|done]|].
  destruct (g x); lia.
Qed.

(** Two predicates that differ at one point of a duplicate-free list. *)
Lemma count_flip {A} (f g : A -> bool) l p :
  NoDup l -> p ∈ l -> f p = false -> g p = true ->
  (forall x, x ∈ l -> x <> p -> f x = g x) -> count g l = count f l + 1.
Proof.
  intros Hnd. induction Hnd as [|x l Hx Hnd IH]; intros Hp Hf Hg Heq; [set_solver|].
  rewrite !count_cons.
  apply elem_of_cons in Hp as [->|Hp].
  - rewrite Hf, Hg. rewrite (count_ext f g l); [lia|].
    intros y Hy. apply Heq; set_solver.
  - rewrite IH by (done || (intros; apply Heq; set_solver)).
    rewrite (Heq x); [lia|set_solver..].
Qed.

(** ** Lists *)

Lemma elem_of_list_singleton' {A} (x y : A) : x ∈ [y] <-> x = y.
Proof. set_solver. Qed.

Lemma NoDup_incl_length' {A} (l k : list A) :
  NoDup l -> (forall x, x ∈ l -> x ∈ k) -> (length l <= length k)%nat.
Proof. intros Hnd Hin. apply submseteq_length. by apply NoDup_submseteq. Qed.

Lemma elem_of_list_lookup_2' {A} (l : list A) i x : l !! i = Some x -> x ∈ l.
Proof. apply list_elem_of_lookup_2. Qed.

Lemma list_filter_iff' {A} (P1 P2 : A -> Prop)
    `{!forall x, Decision (P1 x), !forall x, Decision (P2 x)} (l : list A) :
  (forall x, x ∈ l -> P1 x <-> P2 x) -> filter P1 l = filter P2 l.
Proof.
  induction l as [|x l IH]; intros Hiff; [done|]. rewrite !filter_cons, IH by set_solver.
  pose proof (Hiff x ltac:(set_solver)). repeat case_decide; naive_solver.
Qed.

Lemma list_lookup_insert_if {A} (l : list A) i j x :
  (j < length l)%nat -> <[i := x]> l !! j = if decide (i = j) then Some x else l !! j.
Proof.
  intros Hj. case_decide; subst; [by apply list_lookup_insert_eq|by apply list_lookup_insert_ne].
Qed.

(** ** C strings *)

(** The characters of a C string: the bytes before the first zero. *)
Fixpoint c_str (l : list Z) : list Z :=
  match l with
  | [] => []
  | x :: l => if x =? 0 then [] else x :: c_str l
  end.

Lemma c_str_drop_zero i src : default 0 (src !! i) = 0 -> c_str (drop i src) = [].
Proof.
  intros H. destruct (src !! i) as [x|] eqn:E; cbn in H.
  - subst. rewrite (drop_S _ _ _ E). done.
  - rewrite drop_ge; [done|]. by apply lookup_ge_None_1.
Qed.

Lemma c_str_drop_nz i src :
  default 0 (src !! i) <> 0 ->
  c_str (drop i src) = default 0 (src !! i) :: c_str (drop (S i) src).
Proof.
  intros H. destruct (src !! i) as [x|] eqn:E; cbn in *; [|done].
  rewrite (drop_S _ _ _ E). cbn. by destruct (Z.eqb_spec x 0).
Qed.
