(* ===== verification/PageAlloc.v ===== *)
(** * The physical page allocator (mm/page_alloc.c)

    The bitmap of 2^20 page bits and the free-page counter, every operation of
    the file, and their correctness. *)

From S2P Require Import Prelude.

(** ** Data *)

Definition PAGE_SIZE : Z := 4096.
Definition PAGE_COUNT : Z := 1048576.
Definition BITMAP_WORDS : Z := PAGE_COUNT / 32.

Inductive PageState := PageStateUsed | PageStateAvailable.

#[global] Instance PageState_eq_dec : EqDecision PageState.
Proof. solve_decision. Defined.

Definition is_avail (st : PageState) : bool :=
  match st with PageStateAvailable => true | PageStateUsed => false end.

(** Enough for any loop that advances by at least one page per round. *)
Definition page_fuel : nat := Z.to_nat (PAGE_COUNT + 2).

Lemma page_fuel_eq : Z.of_nat page_fuel = 1048578.
Proof. apply Z2Nat.id. done. Qed.

#[global] Opaque page_fuel.

(** The file's static data. A word of [PageBitmap] that was never written is
    0, as in .bss. *)
Record Pmm := mkPmm { PageBitmap : gmap Z Z; FreePages : Z }.

Definition word (s : Pmm) (w : Z) : Z := default 0 (PageBitmap s !! w).

Definition set_word (w v : Z) (s : Pmm) : Pmm :=
  mkPmm (<[w := v]> (PageBitmap s)) (FreePages s).

Definition set_FreePages (v : Z) (s : Pmm) : Pmm := mkPmm (PageBitmap s) v.

(** [struct boot_info] and the fields of [struct multiboot_mmap] this file
    reads. On i386 a [u64] member is 4-aligned, so the fields lie at offsets
    0, 4, 12 and 20. *)
Record boot_info := {
  multiboot_magic : Z;
  multiboot_info_addr : Z;
  memory_map_addr : Z;
  memory_map_length : Z }.

Definition mmap_size (m : Mem) (e : Z) : Z := load32 m e.
Definition mmap_base_addr (m : Mem) (e : Z) : Z := load64 m (e + 4).
Definition mmap_length (m : Mem) (e : Z) : Z := load64 m (e + 12).
Definition mmap_type (m : Mem) (e : Z) : Z := load32 m (e + 20).

Definition MultibootMemoryAvailable : Z := 1.

(** ** Operations *)

Definition PageSet (Page : Z) (State : PageState) (s : Pmm) : Pmm :=
  let Word := Page / 32 in
  let Bit := Page mod 32 in
  match State with
  | PageStateAvailable =>
      if Z.land (word s Word) (Z.shiftl 1 Bit) =? 0 then
        set_FreePages (FreePages s +w 1)
          (set_word Word (Z.lor (word s Word) (Z.shiftl 1 Bit)) s)
      else s
  | PageStateUsed =>
      if negb (Z.land (word s Word) (Z.shiftl 1 Bit) =? 0) then
        set_FreePages (FreePages s -w 1)
          (set_word Word (Z.land (word s Word) (u32_not (Z.shiftl 1 Bit))) s)
      else s
  end.

(** [x & ~(u64)(PAGE_SIZE - 1u)]. *)
Definition page_mask64 (x : Z) : Z :=
  Z.land x (Z.lxor (PAGE_SIZE - 1) 18446744073709551615).

Definition PageSetRange_loop (State : PageState) (Last : Z) (fuel : nat)
    (First : Z) (s : Pmm) : option Pmm :=
  loop fuel (fun '(First, s) =>
    if First <? Last then
      let Page := wrap32 (First / PAGE_SIZE) in
      let s' := if Page <? PAGE_COUNT then PageSet Page State s else s in
      Some (inl (wrap64 (First + PAGE_SIZE), s'))
    else Some (inr s)) (First, s).

Definition PageSetRange (Base Length : Z) (State : PageState) (s : Pmm) : option Pmm :=
  let End := wrap64 (Base + Length) in
  if (End <? Base) || (4294967296 <=? Base) then Some s
  else
    let End := if 4294967296 <? End then 4294967296 else End in
    let '(First, Last) :=
      match State with
      | PageStateAvailable =>
          (page_mask64 (wrap64 (Base + PAGE_SIZE - 1)), page_mask64 End)
      | PageStateUsed =>
          (page_mask64 Base, page_mask64 (wrap64 (End + PAGE_SIZE - 1)))
      end in
    PageSetRange_loop State Last page_fuel First s.

(** The scan of GRUB's memory map (the [while] of PageAllocInit). *)
Definition PageAllocInit_scan (m : Mem) (addr len : Z) (fuel : nat)
    (Offset : Z) (s : Pmm) : option Pmm :=
  loop fuel (fun '(Offset, s) =>
    if Offset +w 4 <=? len then
      let Entry := addr +w Offset in
      let EntrySize := mmap_size m Entry in
      if (EntrySize <? 20) || (len -w Offset -w 4 <? EntrySize) then Some (inr s)
      else
        s' ← (if mmap_type m Entry =? MultibootMemoryAvailable then
                PageSetRange (mmap_base_addr m Entry) (mmap_length m Entry)
                  PageStateAvailable s
              else Some s);
        Some (inl (Offset +w (4 +w EntrySize), s'))
    else Some (inr s)) (Offset, s).

Definition clear_bitmap (bm : gmap Z Z) : gmap Z Z :=
  foldl (fun bm i => <[i := 0]> bm) bm (seqZ 0 BITMAP_WORDS).

(** [kstart] and [kend] are the addresses of the linker's [_kernel_start] and
    [_kernel_end]; [None] is a null [Boot]. *)
Definition PageAllocInit (kstart kend : Z) (m : Mem) (Boot : option boot_info)
    (s : Pmm) : option Pmm :=
  let s := mkPmm (clear_bitmap (PageBitmap s)) 0 in
  match Boot with
  | None => Some s
  | Some b =>
      if (memory_map_addr b =? 0) || (memory_map_length b =? 0) then Some s
      else
        s ← PageAllocInit_scan m (memory_map_addr b) (memory_map_length b)
              (Z.to_nat (memory_map_length b / 24 + 2)) 0 s;
        s ← PageSetRange 0 1048576 PageStateUsed s;
        PageSetRange kstart (kend -w kstart) PageStateUsed s
  end.

(** The inner loop of PageAlloc: the lowest set bit of a word. *)
Definition PageAlloc_bits (s : Pmm) (Word : Z) : option (option Z) :=
  loop 33 (fun Bit =>
    if Bit <? 32 then
      if negb (Z.land (word s Word) (Z.shiftl 1 Bit) =? 0)
      then Some (inr (Some Bit))
      else Some (inl (Bit +w 1))
    else Some (inr None)) 0.

Definition PageAlloc (s : Pmm) : option (Z * Pmm) :=
  loop (Z.to_nat (BITMAP_WORDS + 1)) (fun Word =>
    if Word <? BITMAP_WORDS then
      if word s Word =? 0 then Some (inl (Word +w 1))
      else
        ob ← PageAlloc_bits s Word;
        match ob with
        | Some Bit =>
            let Page := Word *w 32 +w Bit in
            Some (inr (Page *w PAGE_SIZE, PageSet Page PageStateUsed s))
        | None => Some (inl (Word +w 1))
        end
    else Some (inr (0, s))) 0.

(** [(PageBitmap[Page / 32u] & (1u << (Page % 32u))) == 0]. *)
Definition page_used (s : Pmm) (Page : Z) : bool :=
  Z.land (word s (Page / 32)) (Z.shiftl 1 (Page mod 32)) =? 0.

(** The first inner loop of the multi-page allocators: the number of free
    pages in a row from [Start], at most [count]. *)
Definition scan_run (s : Pmm) (Start count : Z) : option Z :=
  loop (Z.to_nat (count + 1)) (fun Run =>
    if Run <? count then
      if page_used s (Start +w Run) then Some (inr Run)
      else Some (inl (Run +w 1))
    else Some (inr Run)) 0.

(** The second inner loop: [PageSet] on [count] consecutive pages. *)
Definition set_run (Start count : Z) (State : PageState) (s : Pmm) : option Pmm :=
  loop (Z.to_nat (count + 1)) (fun '(Run, s) =>
    if Run <? count then Some (inl (Run +w 1, PageSet (Start +w Run) State s))
    else Some (inr s)) (0, s).

(** The outer loop, which PageAllocPages enters at 0 and PageAllocPagesAt at
    the hint's page. *)
Definition alloc_scan (start count : Z) (s : Pmm) : option (Z * Pmm) :=
  loop page_fuel (fun Start =>
    if Start <=? PAGE_COUNT -w count then
      Run ← scan_run s Start count;
      if Run =? count then
        s' ← set_run Start count PageStateUsed s;
        Some (inr (Start *w PAGE_SIZE, s'))
      else Some (inl (Start +w Run +w 1))
    else Some (inr (0, s))) start.

Definition PageAllocPages (count : Z) (s : Pmm) : option (Z * Pmm) :=
  if (count =? 0) || (FreePages s <? count) || (PAGE_COUNT <? count)
  then Some (0, s)
  else alloc_scan 0 count s.

Definition PageAllocPagesAt (start_hint count : Z) (s : Pmm) : option (Z * Pmm) :=
  if (count =? 0) || (FreePages s <? count) || (PAGE_COUNT <? count)
  then Some (0, s)
  else
    let hint_page := if start_hint =? 0 then 0 else start_hint / PAGE_SIZE in
    alloc_scan hint_page count s.

Definition PageFree (Address : Z) (s : Pmm) : Pmm :=
  if (Address =? 0) || negb (Z.land Address (PAGE_SIZE - 1) =? 0) then s
  else if PAGE_COUNT <=? Address / PAGE_SIZE then s
  else PageSet (Address / PAGE_SIZE) PageStateAvailable s.

Definition PageFreePages (Address Count : Z) (s : Pmm) : option Pmm :=
  if (Address =? 0) || negb (Z.land Address (PAGE_SIZE - 1) =? 0) || (Count =? 0)
  then Some s
  else
    let Start := Address / PAGE_SIZE in
    if (PAGE_COUNT <=? Start) || (PAGE_COUNT -w Start <? Count) then Some s
    else set_run Start Count PageStateAvailable s.

Definition PageAllocFreeCount (s : Pmm) : Z := FreePages s.

(** ** The abstract view: a set of free pages *)

Definition page_free (s : Pmm) (p : Z) : bool := Z.testbit (word s (p / 32)) (p mod 32).

Definition all_pages : list Z := seqZ 0 PAGE_COUNT.

Lemma all_pages_elem p : p ∈ all_pages <-> 0 <= p < PAGE_COUNT.
Proof. unfold all_pages. rewrite elem_of_seqZ. unfold PAGE_COUNT. lia. Qed.

Lemma all_pages_NoDup : NoDup all_pages.
Proof. apply NoDup_seqZ. Qed.

Lemma all_pages_length : Z.of_nat (length all_pages) = PAGE_COUNT.
Proof. unfold all_pages. rewrite length_seqZ. apply Z2Nat.id. unfold PAGE_COUNT. lia. Qed.

#[global] Opaque all_pages.

Definition free_count (s : Pmm) : Z := count (page_free s) all_pages.

#[global] Arguments free_count : simpl never.

(** Well-formed allocator: every word is a [u32], nothing lies outside the
    array, and the counter is the number of set bits. *)
Record pmm_wf (s : Pmm) : Prop := {
  wf_word : forall w, is_u32 (word s w);
  wf_out : forall p, ~ (0 <= p < PAGE_COUNT) -> page_free s p = false;
  wf_count : FreePages s = free_count s }.

(** [count] free pages in a row from [st]. *)
Definition run_free (s : Pmm) (st count : Z) : Prop :=
  forall p, st <= p < st + count -> page_free s p = true.

(** [st] is the lowest page at or above [lo] where such a run starts. *)
Definition first_run (s : Pmm) (lo count st : Z) : Prop :=
  lo <= st /\ st + count <= PAGE_COUNT /\ run_free s st count /\
  forall st', lo <= st' < st -> ~ run_free s st' count.

(** [s'] is [s] with the pages [st, st+count) put in state [State]. *)
Definition pages_set (st count : Z) (State : PageState) (s s' : Pmm) : Prop :=
  forall p, page_free s' p =
    if decide (st <= p < st + count)
    then is_avail State else page_free s p.

(** ** Bits *)

Lemma land_bit w b : 0 <= b -> (Z.land w (Z.shiftl 1 b) =? 0) = negb (Z.testbit w b).
Proof.
  intros Hb. rewrite Z.shiftl_1_l.
  destruct (Z.testbit w b) eqn:E; cbn.
  - apply Z.eqb_neq. intros H.
    assert (Z.testbit (Z.land w (2 ^ b)) b = false) as H' by (rewrite H; apply Z.bits_0).
    rewrite Z.land_spec, E, Z.pow2_bits_true in H' by lia. done.
  - apply Z.eqb_eq. apply Z.bits_inj'. intros n Hn.
    rewrite Z.land_spec, Z.bits_0, Z.pow2_bits_eqb by lia.
    destruct (Z.eqb_spec b n); subst; [by rewrite E|apply andb_false_r].
Qed.

Lemma lor_bit_test w b n :
  0 <= b -> 0 <= n ->
  Z.testbit (Z.lor w (Z.shiftl 1 b)) n = (b =? n) || Z.testbit w n.
Proof.
  intros. rewrite Z.shiftl_1_l, Z.lor_spec, Z.pow2_bits_eqb by lia. apply orb_comm.
Qed.

Lemma clear_bit_test w b n :
  0 <= b < 32 -> 0 <= n < 32 ->
  Z.testbit (Z.land w (u32_not (Z.shiftl 1 b))) n = negb (b =? n) && Z.testbit w n.
Proof.
  intros. unfold u32_not. change 4294967295 with (Z.ones 32).
  rewrite Z.shiftl_1_l, Z.land_spec, Z.lxor_spec, Z.pow2_bits_eqb by lia.
  rewrite Z.ones_spec_low by lia.
  destruct (b =? n), (Z.testbit w n); done.
Qed.

Lemma u32_bits w : (forall n, 32 <= n -> Z.testbit w n = false) -> 0 <= w -> is_u32 w.
Proof.
  intros H Hw. split; [done|]. change 4294967296 with (2 ^ 32).
  destruct (Z.eq_dec w 0) as [->|]; [done|].
  apply Z.log2_lt_pow2; [lia|].
  destruct (Z.lt_ge_cases (Z.log2 w) 32) as [|Hl]; [done|].
  pose proof (Z.bit_log2 w ltac:(lia)). specialize (H _ Hl). congruence.
Qed.

Lemma u32_high w n : is_u32 w -> 32 <= n -> Z.testbit w n = false.
Proof.
  intros [H0 H1] Hn. destruct (Z.eq_dec w 0) as [->|]; [apply Z.bits_0|].
  apply Z.bits_above_log2; [done|].
  apply Z.lt_le_trans with 32; [|done]. apply Z.log2_lt_pow2; [lia|]. apply H1.
Qed.

Lemma lor_bit_u32 w b : is_u32 w -> 0 <= b < 32 -> is_u32 (Z.lor w (Z.shiftl 1 b)).
Proof.
  intros Hw Hb. apply u32_bits.
  - intros n Hn. rewrite lor_bit_test, (u32_high w) by (done || lia).
    destruct (Z.eqb_spec b n); [lia|done].
  - apply Z.lor_nonneg. destruct Hw. split; [done|]. apply Z.shiftl_nonneg. lia.
Qed.

Lemma land_u32 w x : is_u32 w -> is_u32 (Z.land w x).
Proof.
  intros Hw. apply u32_bits.
  - intros n Hn. rewrite Z.land_spec, (u32_high w) by done. done.
  - apply Z.land_nonneg. destruct Hw. by left.
Qed.

(** ** PageSet *)

Ltac pg :=
  unfold PAGE_SIZE, BITMAP_WORDS, PAGE_COUNT in *; change (1048576 / 32) with 32768 in *.

Lemma word_set_word w v s w' :
  word (set_word w v s) w' = if decide (w = w') then v else word s w'.
Proof. unfold word, set_word. cbn. rewrite lookup_insert. by case_decide. Qed.

Lemma word_set_FreePages v s w : word (set_FreePages v s) w = word s w.
Proof. done. Qed.

Lemma page_used_free s p : page_used s p = negb (page_free s p).
Proof. apply land_bit. apply Z.mod_pos_bound. lia. Qed.

Lemma page_index_inj p q : p / 32 = q / 32 -> p mod 32 = q mod 32 -> p = q.
Proof. intros. rewrite (Z.div_mod p 32), (Z.div_mod q 32) by lia. congruence. Qed.

Lemma PageSet_free p st s q :
  page_free (PageSet p st s) q =
  if decide (p = q) then is_avail st else page_free s q.
Proof.
  pose proof (Z.mod_pos_bound p 32 ltac:(lia)).
  pose proof (Z.mod_pos_bound q 32 ltac:(lia)).
  unfold page_free, PageSet.
  rewrite land_bit, negb_involutive by lia.
  destruct (decide (p = q)) as [->|Hne].
  - destruct st, (Z.testbit (word s (q / 32)) (q mod 32)) eqn:E; cbn [negb is_avail];
      rewrite ?word_set_FreePages, ?word_set_word, ?decide_True by done;
      rewrite ?clear_bit_test, ?lor_bit_test, ?Z.eqb_refl by lia; done.
  - destruct st, (Z.testbit (word s (p / 32)) (p mod 32)); cbn [negb]; try done;
      rewrite ?word_set_FreePages, ?word_set_word; case_decide as Hw; try done;
      rewrite ?clear_bit_test, ?lor_bit_test by lia;
      (destruct (Z.eqb_spec (p mod 32) (q mod 32));
       [exfalso; eauto using page_index_inj|by rewrite Hw]).
Qed.

Lemma PageSet_word p st s w :
  (forall w, is_u32 (word s w)) -> is_u32 (word (PageSet p st s) w).
Proof.
  intros Hw. pose proof (Z.mod_pos_bound p 32 ltac:(lia)).
  unfold PageSet. destruct st; case_match; try apply Hw;
    rewrite word_set_FreePages, word_set_word; case_decide; auto using land_u32, lor_bit_u32.
Qed.

Lemma free_count_bounds s : 0 <= free_count s <= PAGE_COUNT.
Proof.
  pose proof (count_bounds (page_free s) all_pages) as H.
  rewrite all_pages_length in H. exact H.
Qed.

(** Counting only the pages below a bound above which nothing is free. *)
Lemma free_count_below s k :
  0 <= k <= PAGE_COUNT -> (forall p, k <= p -> page_free s p = false) ->
  free_count s = count (page_free s) (seqZ 0 k).
Proof.
  intros Hk Hout. unfold free_count.
  rewrite (count_perm _ all_pages (seqZ 0 k ++ seqZ k (PAGE_COUNT - k))).
  - rewrite count_app, (count_ext _ (fun _ => false) (seqZ k _)), count_false; [lia|].
    intros x Hx. apply elem_of_seqZ in Hx. apply Hout. lia.
  - apply NoDup_Permutation.
    + apply all_pages_NoDup.
    + apply NoDup_app. repeat split; try apply NoDup_seqZ.
      intros x. rewrite !elem_of_seqZ. lia.
    + intros x. rewrite elem_of_app, !elem_of_seqZ, all_pages_elem. lia.
Qed.

Lemma PageSet_FreePages p st s :
  0 <= p < PAGE_COUNT -> FreePages s = free_count s ->
  FreePages (PageSet p st s) = free_count (PageSet p st s) /\
  FreePages (PageSet p st s) =
    FreePages s + (if is_avail st then 1 else 0)
                - (if page_free s p then 1 else 0).
Proof.
  intros Hp Hc.
  pose proof (free_count_bounds s). pose proof (free_count_bounds (PageSet p st s)).
  assert (Hin : p ∈ all_pages) by (by apply all_pages_elem).
  assert (Hnd : NoDup all_pages) by apply all_pages_NoDup.
  assert (Hne : forall x, x <> p -> page_free s x = page_free (PageSet p st s) x).
  { intros x Hx. rewrite PageSet_free. by case_decide. }
  assert (Hat : page_free (PageSet p st s) p = is_avail st).
  { rewrite PageSet_free. by rewrite decide_True. }
  assert (Hdelta : free_count (PageSet p st s) =
    free_count s + (if is_avail st then 1 else 0)
                 - (if page_free s p then 1 else 0)).
  { unfold free_count.
    destruct (page_free s p) eqn:Ef, (is_avail st) eqn:Ea.
    - rewrite (count_ext (page_free s) (page_free (PageSet p st s))); [lia|].
      intros x _. destruct (decide (x = p)) as [->|]; [congruence|auto].
    - rewrite (count_flip (page_free (PageSet p st s)) (page_free s) all_pages p);
        [lia|done..|]. intros. symmetry. auto.
    - rewrite (count_flip (page_free s) (page_free (PageSet p st s)) all_pages p);
        [lia|done..|]. auto.
    - rewrite (count_ext (page_free s) (page_free (PageSet p st s))); [lia|].
      intros x _. destruct (decide (x = p)) as [->|]; [congruence|auto]. }
  assert (FreePages (PageSet p st s) = free_count (PageSet p st s)); [|lia].
  rewrite Hdelta in *. rewrite <- Hc in *. clear Hdelta Hne Hat Hc Hin Hnd.
  assert (Hb : 0 <= p mod 32) by (apply Z.mod_pos_bound; lia).
  unfold PageSet, page_free in *.
  rewrite land_bit, negb_involutive by done.
  destruct st, (Z.testbit _ _); cbn in *; pg; unfold wrap32;
    rewrite ?Z.mod_small by lia; lia.
Qed.

Lemma PageSet_wf p st s : 0 <= p < PAGE_COUNT -> pmm_wf s -> pmm_wf (PageSet p st s).
Proof.
  intros Hp [Hw Ho Hc]. split.
  - intros w. by apply PageSet_word.
  - intros q Hq. rewrite PageSet_free. case_decide; [subst; done|auto].
  - by apply PageSet_FreePages.
Qed.

Lemma PageSet_delta p st s :
  0 <= p < PAGE_COUNT -> pmm_wf s ->
  FreePages (PageSet p st s) =
    FreePages s + (if is_avail st then 1 else 0) - (if page_free s p then 1 else 0).
Proof. intros Hp [_ _ Hc]. by apply PageSet_FreePages. Qed.

Lemma FreePages_bounds s : pmm_wf s -> 0 <= FreePages s <= PAGE_COUNT.
Proof. intros [_ _ ->]. apply free_count_bounds. Qed.

(** ** Runs of pages *)

(** The write loop puts exactly the run in the state asked for, and the
    counter moves by the run's length when every page of it changed. *)
Lemma set_run_spec st cnt State s :
  pmm_wf s -> 0 <= st -> 0 <= cnt -> st + cnt <= PAGE_COUNT ->
  exists s', set_run st cnt State s = Some s' /\ pmm_wf s' /\
    pages_set st cnt State s s' /\
    ((forall p, st <= p < st + cnt -> page_free s p = negb (is_avail State)) ->
     FreePages s' = FreePages s + (if is_avail State then cnt else - cnt)).
Proof.
  intros Hwf Hst Hc Hle. unfold set_run.
  eapply (loop_total
    (fun '(Run, s1) => 0 <= Run <= cnt /\ pmm_wf s1 /\ pages_set st Run State s s1 /\
       ((forall p, st <= p < st + cnt -> page_free s p = negb (is_avail State)) ->
        FreePages s1 = FreePages s + (if is_avail State then Run else - Run)))
    (fun '(Run, _) => cnt - Run)).
  - intros [Run s1] (HR & Hwf1 & Hset & Hfp).
    destruct (Z.ltb_spec Run cnt); eexists; (split; [reflexivity|]); cbn beta iota.
    + unwrap_with ltac:(pg; lia).
      split; [|lia]. split; [lia|]. split; [apply PageSet_wf; [lia|done]|]. split.
      * intros p. rewrite PageSet_free, Hset.
        repeat case_decide; try lia; try done.
      * intros Hall. rewrite PageSet_delta by (done || lia).
        rewrite (Hfp Hall), Hset.
        destruct (decide _); [lia|]. rewrite Hall by lia. destruct (is_avail State); cbn; lia.
    + assert (Run = cnt) as -> by lia. done.
  - intros [Run s1] (? & ?). lia.
  - repeat split; try lia; try apply Hwf.
    + intros p. destruct (decide _); [lia|done].
    + destruct (is_avail State); lia.
  - pg. lia.
Qed.

Lemma scan_run_spec s st cnt :
  0 <= st -> 0 <= cnt -> st + cnt <= PAGE_COUNT ->
  exists run, scan_run s st cnt = Some run /\ 0 <= run <= cnt /\ run_free s st run /\
    (run < cnt -> page_free s (st + run) = false).
Proof.
  intros Hst Hc Hle. unfold scan_run.
  eapply (loop_total (fun Run => 0 <= Run <= cnt /\ run_free s st Run)
            (fun Run => cnt - Run)).
  - intros Run (HR & Hf).
    destruct (Z.ltb_spec Run cnt).
    + rewrite page_used_free, !wrap32_small by (unfold is_u32; pg; lia).
      destruct (page_free s (st + Run)) eqn:E; eexists; (split; [reflexivity|]);
        cbn beta iota; [|split; [lia|done]].
      repeat split; try lia. intros p Hp.
      destruct (decide (p = st + Run)) as [->|]; [done|apply Hf; lia].
    + eexists; (split; [reflexivity|]); cbn beta iota.
      split; [lia|]. split; [done|lia].
  - intros; lia.
  - split; [lia|]. intros p Hp. lia.
  - pg; lia.
Qed.

(** The multi-page scan: it stops at the lowest run that fits, and jumping
    past the first used page loses none. *)
Lemma alloc_scan_spec lo cnt s :
  pmm_wf s -> 0 <= lo <= PAGE_COUNT -> 1 <= cnt <= PAGE_COUNT ->
  exists r, alloc_scan lo cnt s = Some r /\
    ((exists st, first_run s lo cnt st /\ fst r = st * PAGE_SIZE /\
        pmm_wf (snd r) /\ pages_set st cnt PageStateUsed s (snd r) /\
        FreePages (snd r) = FreePages s - cnt /\ set_run st cnt PageStateUsed s = Some (snd r)) \/
     ((forall st, lo <= st -> ~ run_free s st cnt) /\ r = (0, s))).
Proof.
  intros Hwf Hlo Hc. unfold alloc_scan.
  eapply (loop_total
    (fun St => lo <= St <= PAGE_COUNT + 1 /\
               forall st', lo <= st' < St -> ~ run_free s st' cnt)
    (fun St => PAGE_COUNT + 1 - St)).
  - intros St (HS & Hno).
    rewrite (wrap32_small (PAGE_COUNT - cnt)) by (unfold is_u32; pg; lia).
    destruct (Z.leb_spec St (PAGE_COUNT - cnt)) as [Hle|Hgt].
    + destruct (scan_run_spec s St cnt) as (run & -> & Hr & Hrf & Hstop); [lia..|].
      rewrite ?some_bind. destruct (Z.eqb_spec run cnt) as [->|Hne].
      * destruct (set_run_spec St cnt PageStateUsed s) as (s' & Es & Hwf' & Hset & Hfp);
          [done|lia..|].
        rewrite Es, ?some_bind. eexists; (split; [reflexivity|]); cbn beta iota.
        left. exists St. cbn [fst snd]. unwrap_with ltac:(pg; lia).
        repeat split; try apply Hwf'; try done; try exact Es; try lia.
        rewrite Hfp; [cbn; lia|]. intros p Hp. apply Hrf. lia.
      * eexists; (split; [reflexivity|]); cbn beta iota.
        unwrap_with ltac:(pg; lia).
        split; [|lia]. split; [lia|]. intros st' Hst' Hrun.
        destruct (decide (st' < St)) as [|]; [eapply Hno; eauto; lia|].
        specialize (Hstop ltac:(lia)). rewrite Hrun in Hstop; [done|lia].
    + eexists; (split; [reflexivity|]); cbn beta iota. right. split; [|done].
      intros st Hst Hrun.
      destruct (decide (st < St)) as [|]; [eapply Hno; eauto; lia|].
      pose proof (wf_out s Hwf (st + cnt - 1) ltac:(lia)) as Hf.
      rewrite Hrun in Hf; [done|lia].
  - intros; lia.
  - split; [lia|]. intros; lia.
  - rewrite page_fuel_eq. pg; lia.
Qed.

(** A run is never longer than the free-page count, so the early return on
    [count > FreePages] refuses nothing that could be served. *)
Lemma run_free_count s st cnt :
  pmm_wf s -> 0 <= st -> 1 <= cnt -> run_free s st cnt ->
  st + cnt <= PAGE_COUNT /\ cnt <= FreePages s.
Proof.
  intros Hwf Hst Hc Hrun.
  assert (Hle : st + cnt <= PAGE_COUNT).
  { destruct (decide (st + cnt <= PAGE_COUNT)); [done|].
    destruct (decide (st < PAGE_COUNT)).
    - pose proof (wf_out s Hwf PAGE_COUNT ltac:(lia)) as H.
      rewrite Hrun in H; [done|lia].
    - pose proof (wf_out s Hwf st ltac:(lia)) as H. rewrite Hrun in H; [done|lia]. }
  split; [done|].
  destruct (set_run_spec st cnt PageStateUsed s) as (s' & _ & Hwf' & _ & Hfp); [done|lia..|].
  pose proof (FreePages_bounds s' Hwf'). specialize (Hfp Hrun). cbn in Hfp. lia.
Qed.

Lemma run_free_nonzero s st cnt :
  page_free s 0 = false -> 0 <= st -> 1 <= cnt -> run_free s st cnt -> st <> 0.
Proof. intros H0 Hst Hc Hrun ->. rewrite Hrun in H0; [done|lia]. Qed.

Lemma page_aligned_mask p : (Z.land (p * PAGE_SIZE) (PAGE_SIZE - 1) =? 0) = true.
Proof.
  apply Z.eqb_eq. pg. change (4096 - 1) with (Z.ones 12).
  rewrite Z.land_ones by lia. change (2 ^ 12) with 4096. apply Z.mod_mul. lia.
Qed.

(** What a multi-page allocation promises its caller. *)
Definition alloc_post (lo cnt : Z) (s : Pmm) (r : Z * Pmm) : Prop :=
  (exists st, first_run s lo cnt st /\ fst r = st * PAGE_SIZE /\ fst r <> 0 /\
     pmm_wf (snd r) /\ pages_set st cnt PageStateUsed s (snd r) /\
     FreePages (snd r) = FreePages s - cnt) \/
  (r = (0, s) /\ (cnt = 0 \/ forall st, lo <= st -> ~ run_free s st cnt)).

Lemma PageAllocPagesAt_post hint cnt s :
  pmm_wf s -> page_free s 0 = false -> is_u32 hint -> is_u32 cnt ->
  exists r, PageAllocPagesAt hint cnt s = Some r /\ alloc_post (hint / PAGE_SIZE) cnt s r.
Proof.
  intros Hwf H0 Hh Hc. unfold PageAllocPagesAt, is_u32 in *.
  assert (0 <= hint / PAGE_SIZE <= PAGE_COUNT) by (pg; Z.to_euclidean_division_equations; lia).
  pose proof (FreePages_bounds s Hwf).
  replace (if hint =? 0 then 0 else hint / PAGE_SIZE) with (hint / PAGE_SIZE)
    by (destruct (Z.eqb_spec hint 0) as [->|]; done).
  destruct (Z.eqb_spec cnt 0) as [->|]; [cbn; eexists; split; [done|]; right; auto|].
  destruct (Z.ltb_spec (FreePages s) cnt); [|destruct (Z.ltb_spec PAGE_COUNT cnt); [lia|]].
  - cbn. eexists; split; [done|]. right. split; [done|]. right. intros st Hst Hrun.
    apply run_free_count in Hrun; [lia|done|lia..].
  - cbn [orb].
    destruct (alloc_scan_spec (hint / PAGE_SIZE) cnt s) as (r & -> & [Hok|(Hno & ->)]);
      [done|lia..| |]; eexists; (split; [done|]).
    + left. destruct Hok as (st & Hfr & Hr & Hwf' & Hset & HF & _). exists st.
      split; [done|]. split; [done|]. split; [|done].
      rewrite Hr. destruct Hfr as (? & _ & Hrun & _).
      apply run_free_nonzero in Hrun; [pg; lia|done|lia..].
    + right. auto.
Qed.

(** Freeing a run writes its pages. *)
Lemma PageFreePages_run st cnt s :
  0 < st -> 0 < cnt -> st + cnt <= PAGE_COUNT ->
  PageFreePages (st * PAGE_SIZE) cnt s = set_run st cnt PageStateAvailable s.
Proof.
  intros Hst Hc Hle. unfold PageFreePages. rewrite (proj2 (Z.eqb_neq (st * PAGE_SIZE) 0)) by (pg; lia).
  rewrite page_aligned_mask. cbn [negb orb]. rewrite (proj2 (Z.eqb_neq cnt 0)) by lia.
  rewrite Z.div_mul by done. unwrap_with ltac:(pg; lia).
  rewrite (proj2 (Z.leb_gt PAGE_COUNT st)), (proj2 (Z.ltb_ge (PAGE_COUNT - st) cnt)) by lia. done.
Qed.

(** One page as a run. *)
Lemma run_free_1 s p : run_free s p 1 <-> page_free s p = true.
Proof. split; [intros Hr; apply Hr; lia|]. intros Hp q Hq. by replace q with p by lia. Qed.

Lemma set_run_1 p st s : 0 <= p < PAGE_COUNT -> set_run p 1 st s = Some (PageSet p st s).
Proof.
  intros Hp. unfold set_run. change (Z.to_nat (1 + 1)) with 2%nat. rewrite !loop_unfold.
  change (0 <? 1) with true. cbn iota beta. change (0 +w 1 <? 1) with false. cbn iota beta.
  rewrite loop_unfold, Z.add_0_r. cbn iota beta. rewrite (wrap32_small p) by (unfold is_u32; pg; lia). done.
Qed.

Lemma PageAllocPages_At cnt s : PageAllocPages cnt s = PageAllocPagesAt 0 cnt s.
Proof. done. Qed.

(** ** PageAlloc: the lowest free page *)

Lemma word_bit_index w b : 0 <= b < 32 -> (w * 32 + b) / 32 = w /\ (w * 32 + b) mod 32 = b.
Proof. intros. Z.to_euclidean_division_equations. lia. Qed.

Lemma PageAlloc_bits_spec s w :
  exists r, PageAlloc_bits s w = Some r /\
    match r with
    | Some b => 0 <= b < 32 /\ Z.testbit (word s w) b = true /\
                forall b', 0 <= b' < b -> Z.testbit (word s w) b' = false
    | None => forall b', 0 <= b' < 32 -> Z.testbit (word s w) b' = false
    end.
Proof.
  unfold PageAlloc_bits.
  eapply (loop_total
    (fun Bit => 0 <= Bit <= 32 /\ forall b', 0 <= b' < Bit -> Z.testbit (word s w) b' = false)
    (fun Bit => 32 - Bit)).
  - intros Bit (HB & Hno). destruct (Z.ltb_spec Bit 32).
    + rewrite land_bit, negb_involutive by lia.
      destruct (Z.testbit (word s w) Bit) eqn:E; eexists; (split; [reflexivity|]);
        cbn beta iota; [repeat split; auto; lia|].
      rewrite wrap32_small by (unfold is_u32; lia).
      split; [|lia]. split; [lia|]. intros b' Hb'.
      destruct (decide (b' = Bit)) as [->|]; [done|apply Hno; lia].
    + eexists; (split; [reflexivity|]). cbn beta iota. intros; apply Hno; lia.
  - intros; lia.
  - split; [lia|]. intros; lia.
  - lia.
Qed.

Lemma PageAlloc_spec s :
  pmm_wf s ->
  exists r, PageAlloc s = Some r /\
    ((exists p, 0 <= p < PAGE_COUNT /\ page_free s p = true /\
        (forall q, q < p -> page_free s q = false) /\
        fst r = p * PAGE_SIZE /\ snd r = PageSet p PageStateUsed s) \/
     ((forall q, page_free s q = false) /\ r = (0, s))).
Proof.
  intros Hwf. unfold PageAlloc.
  eapply (loop_total
    (fun Word => 0 <= Word <= BITMAP_WORDS /\ forall q, q / 32 < Word -> page_free s q = false)
    (fun Word => BITMAP_WORDS - Word)).
  - intros Word (HW & Hno).
    assert (Hskip : (forall b', 0 <= b' < 32 -> Z.testbit (word s Word) b' = false) ->
      Word < BITMAP_WORDS ->
      (0 <= Word +w 1 <= BITMAP_WORDS /\ forall q, q / 32 < Word +w 1 -> page_free s q = false) /\
      BITMAP_WORDS - (Word +w 1) < BITMAP_WORDS - Word).
    { intros Hz Hlt. unwrap_with ltac:(pg; lia).
      split; [|lia]. split; [lia|]. intros q Hq.
      destruct (decide (q / 32 = Word)) as [Hw|]; [|apply Hno; lia].
      unfold page_free. rewrite Hw. apply Hz. apply Z.mod_pos_bound. lia. }
    destruct (Z.ltb_spec Word BITMAP_WORDS) as [Hlt|].
    + destruct (Z.eqb_spec (word s Word) 0) as [Hz|].
      { eexists; (split; [reflexivity|]). apply Hskip; [|done]. intros. by rewrite Hz, Z.bits_0. }
      destruct (PageAlloc_bits_spec s Word) as ([b|] & -> & Hb); rewrite ?some_bind;
        eexists; (split; [reflexivity|]); cbn beta iota; [|auto].
      destruct Hb as (Hb & Hbit & Hbno). left. exists (Word * 32 + b).
      unwrap_with ltac:(pg; lia).
      destruct (word_bit_index Word b Hb) as [Hd Hm].
      split; [pg; lia|]. cbn [fst snd]. unfold page_free. rewrite Hd, Hm.
      split; [done|]. split; [|done]. intros q Hq.
      destruct (decide (q / 32 < Word)); [by apply Hno|].
      assert (q / 32 = Word) as Hqw by (Z.to_euclidean_division_equations; lia).
      rewrite Hqw. apply Hbno. Z.to_euclidean_division_equations; lia.
    + eexists; (split; [reflexivity|]); cbn beta iota. right. split; [|done]. intros q.
      destruct (decide (q / 32 < Word)); [by apply Hno|].
      apply (wf_out s Hwf). pg. Z.to_euclidean_division_equations; lia.
  - intros; lia.
  - split; [pg; lia|]. intros q Hq. apply (wf_out s Hwf).
    pg. Z.to_euclidean_division_equations; lia.
  - pg; lia.
Qed.

(** ** Ranges and initialisation *)

Lemma page_mask64_floor x :
  0 <= x < 18446744073709551616 -> page_mask64 x = x / 4096 * 4096.
Proof.
  intros Hx. unfold page_mask64. pg.
  transitivity (Z.ldiff x (Z.ones 12)).
  - change (4096 - 1) with (Z.ones 12). change 18446744073709551615 with (Z.ones 64).
    apply Z.bits_inj'. intros n Hn. rewrite Z.land_spec, Z.ldiff_spec, Z.lxor_spec.
    destruct (decide (n < 64)).
    + rewrite (Z.ones_spec_low 64) by lia. by destruct (Z.testbit x n), (Z.testbit (Z.ones 12) n).
    + replace (Z.testbit x n) with false; [done|]. symmetry.
      destruct (decide (x = 0)) as [->|]; [apply Z.bits_0|].
      apply Z.bits_above_log2; [lia|].
      apply Z.lt_le_trans with 64; [apply Z.log2_lt_pow2; lia|lia].
  - rewrite Z.ldiff_ones_r by lia. rewrite Z.shiftl_mul_pow2, Z.shiftr_div_pow2 by lia. done.
Qed.

Lemma PageSetRange_loop_spec State f l s fuel :
  pmm_wf s -> 0 <= f -> l <= PAGE_COUNT -> l - f < Z.of_nat fuel -> 0 < Z.of_nat fuel ->
  exists s', PageSetRange_loop State (l * 4096) fuel (f * 4096) s = Some s' /\ pmm_wf s' /\
    pages_set f (l - f) State s s'.
Proof.
  intros Hwf Hf Hl Hfuel Hpos. unfold PageSetRange_loop.
  assert (H : exists s', loop fuel (fun '(First, s) =>
    if First <? l * 4096 then
      Some (inl (wrap64 (First + PAGE_SIZE),
        if wrap32 (First / PAGE_SIZE) <? PAGE_COUNT
        then PageSet (wrap32 (First / PAGE_SIZE)) State s else s))
    else Some (inr s)) (f * 4096, s) = Some s' /\ pmm_wf s' /\ pages_set f (l - f) State s s');
    [|exact H].
  eapply (loop_total
    (fun '(First, s1) => exists g, First = g * 4096 /\ f <= g /\ (g <= l \/ g = f) /\
       pmm_wf s1 /\ pages_set f (g - f) State s s1)
    (fun '(First, _) => Z.max 0 (l - First / 4096))).
  - intros [First s1] (g & -> & Hg & Hgl & Hwf1 & Hset).
    destruct (Z.ltb_spec (g * 4096) (l * 4096)); eexists; (split; [reflexivity|]); cbn beta iota.
    + pg. rewrite Z.div_mul by lia. rewrite wrap32_small by (unfold is_u32; lia).
      rewrite wrap64_small by lia.
      destruct (Z.ltb_spec g 1048576); [|lia].
      replace (g * 4096 + 4096) with ((g + 1) * 4096) by lia.
      rewrite Z.div_mul by lia. split; [|lia].
      exists (g + 1). repeat split; try lia; try apply PageSet_wf; pg; try lia; try done.
      intros p. rewrite PageSet_free, Hset. repeat case_decide; try lia; done.
    + split; [done|]. intros p. rewrite Hset. repeat case_decide; try lia; done.
  - intros [First s1] _. lia.
  - exists f. repeat split; try lia; try apply Hwf.
    intros p. destruct (decide _); [lia|done].
  - rewrite Z.div_mul by lia. lia.
Qed.

(** The pages a range operation touches: the ones it contains entirely when
    freeing, every one it meets when reserving. *)
Definition range_first (State : PageState) (Base : Z) : Z :=
  if is_avail State then (Base + 4095) / 4096 else Base / 4096.
Definition range_last (State : PageState) (End : Z) : Z :=
  if is_avail State then End / 4096 else (End + 4095) / 4096.

Lemma PageSetRange_spec Base Length State s :
  pmm_wf s -> 0 <= Base < 18446744073709551616 -> 0 <= Length < 18446744073709551616 ->
  exists s', PageSetRange Base Length State s = Some s' /\ pmm_wf s' /\
    forall p, page_free s' p =
      if decide (Base + Length < 18446744073709551616 /\ Base < 4294967296 /\
                 range_first State Base <= p
                   < range_last State (Z.min (Base + Length) 4294967296))
      then is_avail State else page_free s p.
Proof.
  intros Hwf HB HL. unfold PageSetRange.
  destruct (decide (Base + Length < 18446744073709551616)) as [Hnw|Hw].
  2: { assert (wrap64 (Base + Length) < Base) by u32.
       destruct (Z.ltb_spec (wrap64 (Base + Length)) Base); [|lia]. cbn [orb].
       eexists; split; [done|]. split; [done|]. intros p. destruct (decide _); [lia|done]. }
  rewrite (wrap64_small (Base + Length)) by lia.
  destruct (Z.ltb_spec (Base + Length) Base); [lia|]. cbn [orb].
  destruct (Z.leb_spec 4294967296 Base).
  { eexists; split; [done|]. split; [done|]. intros p. destruct (decide _); [lia|done]. }
  replace (if 4294967296 <? Base + Length then 4294967296 else Base + Length)
    with (Z.min (Base + Length) 4294967296) by (destruct (Z.ltb_spec 4294967296 (Base + Length)); lia).
  set (End := Z.min (Base + Length) 4294967296).
  assert (Base <= End <= 4294967296) by lia.
  assert (Hrng : exists s', PageSetRange_loop State (range_last State End * 4096)
      page_fuel (range_first State Base * 4096) s = Some s' /\ pmm_wf s' /\
    pages_set (range_first State Base) (range_last State End - range_first State Base) State s s').
  { apply PageSetRange_loop_spec; [done|..]; rewrite ?page_fuel_eq; unfold range_first, range_last; pg;
      destruct (is_avail State); Z.to_euclidean_division_equations; lia. }
  destruct Hrng as (s' & Heq & Hwf' & Hset). exists s'. split; [|split; [done|]].
  - rewrite <- Heq. unfold range_first, range_last.
    replace (Base + PAGE_SIZE - 1) with (Base + 4095) by (pg; lia).
    replace (End + PAGE_SIZE - 1) with (End + 4095) by (pg; lia).
    destruct State; cbn [is_avail]; rewrite ?wrap64_small, !page_mask64_floor by lia; done.
  - intros p. rewrite Hset. repeat case_decide; try lia; done.
Qed.

(** The memory map as GRUB lays it out: an entry's [size] field does not count
    itself, and the next entry follows at [off + 4 + size]. *)
Definition entry_ok (m : Mem) (addr len off : Z) : Prop :=
  20 <= mmap_size m (addr + off) /\ off + 4 + mmap_size m (addr + off) <= len.

Inductive mmap_chain (m : Mem) (addr len : Z) : Z -> Z -> Prop :=
| chain_refl off : mmap_chain m addr len off off
| chain_step off off' :
    entry_ok m addr len off ->
    mmap_chain m addr len (off + 4 + mmap_size m (addr + off)) off' ->
    mmap_chain m addr len off off'.

(** Page [p] lies wholly inside an available region of the map. *)
Definition usable (m : Mem) (addr len p : Z) : Prop :=
  exists off, mmap_chain m addr len 0 off /\ entry_ok m addr len off /\
    mmap_type m (addr + off) = MultibootMemoryAvailable /\
    mmap_base_addr m (addr + off) + mmap_length m (addr + off) < 18446744073709551616 /\
    mmap_base_addr m (addr + off) <= p * PAGE_SIZE /\
    p * PAGE_SIZE + PAGE_SIZE <=
      mmap_base_addr m (addr + off) + mmap_length m (addr + off).

Lemma chain_snoc m addr len a off :
  mmap_chain m addr len a off -> entry_ok m addr len off ->
  mmap_chain m addr len a (off + 4 + mmap_size m (addr + off)).
Proof.
  intros Hc Hok. induction Hc; [econstructor; [done|constructor]|].
  econstructor; [done|auto].
Qed.

Lemma chain_le m addr len a b : mmap_chain m addr len a b -> a <= b.
Proof. induction 1 as [|? ? [? ?] ? IH]; lia. Qed.

(** The part of [usable] that comes from entries before [lim]. *)
Definition usable_upto (m : Mem) (addr len lim p : Z) : Prop :=
  exists off, off < lim /\ mmap_chain m addr len 0 off /\ entry_ok m addr len off /\
    mmap_type m (addr + off) = MultibootMemoryAvailable /\
    mmap_base_addr m (addr + off) + mmap_length m (addr + off) < 18446744073709551616 /\
    mmap_base_addr m (addr + off) <= p * PAGE_SIZE /\
    p * PAGE_SIZE + PAGE_SIZE <=
      mmap_base_addr m (addr + off) + mmap_length m (addr + off).

Lemma avail_range_iff Base Length p :
  0 <= Base -> 0 <= Length -> p < PAGE_COUNT ->
  (Base + Length < 18446744073709551616 /\ Base < 4294967296 /\
   range_first PageStateAvailable Base <= p
     < range_last PageStateAvailable (Z.min (Base + Length) 4294967296)) <->
  (Base + Length < 18446744073709551616 /\
   Base <= p * PAGE_SIZE /\ p * PAGE_SIZE + PAGE_SIZE <= Base + Length).
Proof.
  intros. unfold range_first, range_last. cbn [is_avail]. pg.
  Z.to_euclidean_division_equations. lia.
Qed.

(** What the scan has done when it stands at [Offset]. *)
Record scan_inv (m : Mem) (addr len Offset : Z) (s : Pmm) : Prop := {
  si_wf : pmm_wf s;
  si_off : 0 <= Offset <= len;
  si_here : mmap_chain m addr len 0 Offset;
  si_rest : forall off, mmap_chain m addr len 0 off ->
            off < Offset \/ mmap_chain m addr len Offset off;
  si_free : forall p, p < PAGE_COUNT ->
            (page_free s p = true <-> usable_upto m addr len Offset p) }.

Lemma scan_inv_step m addr len Offset s s' :
  scan_inv m addr len Offset s -> entry_ok m addr len Offset ->
  pmm_wf s' ->
  (forall p, p < PAGE_COUNT -> page_free s' p = true <->
     page_free s p = true \/
     (mmap_type m (addr + Offset) = MultibootMemoryAvailable /\
      mmap_base_addr m (addr + Offset) + mmap_length m (addr + Offset) < 18446744073709551616 /\
      mmap_base_addr m (addr + Offset) <= p * PAGE_SIZE /\
      p * PAGE_SIZE + PAGE_SIZE <=
        mmap_base_addr m (addr + Offset) + mmap_length m (addr + Offset))) ->
  scan_inv m addr len (Offset + 4 + mmap_size m (addr + Offset)) s'.
Proof.
  intros [Hwf Hoff Hhere Hrest Hfree] Hok Hwf' Hs'.
  pose proof Hok as [H20 Hend]. split.
  - done.
  - lia.
  - by apply chain_snoc.
  - intros off Hc. destruct (Hrest off Hc) as [|Hc']; [left; lia|].
    inversion Hc'; subst; [left; lia|by right].
  - intros p Hp. rewrite Hs', Hfree by done. split.
    + intros [(off & Hlt & H)|H]; [exists off|exists Offset]; split; try done; lia.
    + intros (off & Hlt & Hc & Hok' & H). destruct (Hrest off Hc) as [|Hc'].
      * left. exists off. done.
      * inversion Hc' as [|? ? _ Hc'']; subst; [by right|].
        apply chain_le in Hc''. lia.
Qed.

Lemma PageAllocInit_scan_spec m addr len s fuel :
  pmm_wf s -> (forall p, page_free s p = false) ->
  0 <= addr -> 0 <= len -> addr + len < 4294967296 -> len < 4294967292 ->
  len / 24 + 1 < Z.of_nat fuel ->
  exists s', PageAllocInit_scan m addr len fuel 0 s = Some s' /\ pmm_wf s' /\
    forall p, p < PAGE_COUNT -> (page_free s' p = true <-> usable m addr len p).
Proof.
  intros Hwf Hempty Ha Hl Hal Hl' Hfuel. unfold PageAllocInit_scan.
  eapply (loop_total (fun '(Offset, s1) => scan_inv m addr len Offset s1)
            (fun '(Offset, _) => (len - Offset) / 24)).
  - intros [Offset s1] Hinv. pose proof (si_off _ _ _ _ _ Hinv).
    assert (Hdone : ~ entry_ok m addr len Offset ->
      pmm_wf s1 /\ forall p, p < PAGE_COUNT -> (page_free s1 p = true <-> usable m addr len p)).
    { intros Hno. destruct Hinv as [Hwf1 _ _ Hrest Hfree]. split; [done|]. intros p Hp.
      rewrite Hfree by done. split; intros (off & H'); exists off; [apply H'|].
      split; [|exact H']. destruct H' as (Hc & Hok & _).
      destruct (Hrest off Hc) as [|Hc']; [done|]. inversion Hc'; subst; done. }
    unwrap. destruct (Z.leb_spec (Offset + 4) len) as [Hle|Hgt].
    2: { eexists; split; [reflexivity|]. apply Hdone. unfold entry_ok. lia. }
    unwrap. pose proof (load32_range m (addr + Offset)) as Hsz.
    fold (mmap_size m (addr + Offset)) in Hsz.
    destruct (Z.ltb_spec (mmap_size m (addr + Offset)) 20);
      [|destruct (Z.ltb_spec (len - Offset - 4) (mmap_size m (addr + Offset)))];
      cbn [orb]; [eexists; (split; [reflexivity|]); apply Hdone; unfold entry_ok; lia..|].
    assert (Hok : entry_ok m addr len Offset) by (unfold entry_ok; lia).
    destruct (PageSetRange_spec (mmap_base_addr m (addr + Offset)) (mmap_length m (addr + Offset))
                PageStateAvailable s1) as (s2 & Hs2 & Hwf2 & Hf2);
      [apply Hinv|apply load64_range..|].
    assert (Hstep : forall s2', pmm_wf s2' -> (forall p, p < PAGE_COUNT -> page_free s2' p = true <->
       page_free s1 p = true \/
       (mmap_type m (addr + Offset) = MultibootMemoryAvailable /\
        mmap_base_addr m (addr + Offset) + mmap_length m (addr + Offset) < 18446744073709551616 /\
        mmap_base_addr m (addr + Offset) <= p * PAGE_SIZE /\
        p * PAGE_SIZE + PAGE_SIZE <=
          mmap_base_addr m (addr + Offset) + mmap_length m (addr + Offset))) ->
      scan_inv m addr len (Offset +w (4 +w mmap_size m (addr + Offset))) s2' /\
      (len - (Offset +w (4 +w mmap_size m (addr + Offset)))) / 24 < (len - Offset) / 24).
    { intros s2' Hwf2' Hf. unwrap. rewrite Z.add_assoc. split; [by eapply scan_inv_step|].
      Z.to_euclidean_division_equations. lia. }
    destruct (Z.eqb_spec (mmap_type m (addr + Offset)) MultibootMemoryAvailable);
      [rewrite Hs2|]; rewrite ?some_bind; eexists; (split; [reflexivity|]);
      cbn beta iota; apply Hstep; try done; try apply Hinv; intros p Hp.
    + rewrite Hf2. pose proof (load64_range m (addr + Offset + 4)).
      pose proof (load64_range m (addr + Offset + 12)).
      rewrite <- avail_range_iff by (unfold mmap_base_addr, mmap_length; lia || done).
      cbn [is_avail]. clear Hf2. case_decide as Hd; (split; [intros Hx|intros [Hx|[_ Hx]]]); auto; done.
    + tauto.
  - intros [Offset s1] Hinv. apply Z.div_pos; [|lia].
    pose proof (si_off _ _ _ _ _ Hinv). lia.
  - split; [done|lia|constructor|by right|].
    intros p Hp. rewrite Hempty. split; [done|]. intros (off & Hlt & Hc & Hok & _).
    apply chain_le in Hc. lia.
  - rewrite Z.sub_0_r. lia.
Qed.

(** The static array holds nothing outside its bounds. *)
Definition bitmap_shape (s : Pmm) : Prop :=
  forall w, ~ (0 <= w < BITMAP_WORDS) -> PageBitmap s !! w = None.

Lemma foldl_insert0_lookup (l : list Z) : forall (bm : gmap Z Z) w,
  foldl (fun bm i => <[i := 0]> bm) bm l !! w =
  if decide (w ∈ l) then Some 0 else bm !! w.
Proof.
  induction l as [|x l IH]; intros bm w; cbn [foldl].
  - rewrite decide_False; [done|]. set_solver.
  - rewrite IH. destruct (decide (w ∈ l)).
    + rewrite decide_True; [done|]. set_solver.
    + rewrite lookup_insert. destruct (decide (x = w)) as [->|].
      * rewrite decide_True; [done|]. set_solver.
      * rewrite decide_False; [done|]. set_solver.
Qed.

Lemma clear_bitmap_free s p :
  bitmap_shape s -> page_free (mkPmm (clear_bitmap (PageBitmap s)) 0) p = false.
Proof.
  intros Hsh. unfold page_free, word, clear_bitmap. cbn [PageBitmap].
  rewrite foldl_insert0_lookup. case_decide as Hin; [apply Z.bits_0|].
  rewrite Hsh; [apply Z.bits_0|]. rewrite elem_of_seqZ in Hin. lia.
Qed.

Lemma cleared_wf s : bitmap_shape s -> pmm_wf (mkPmm (clear_bitmap (PageBitmap s)) 0).
Proof.
  intros Hsh. split.
  - intros w. unfold word, clear_bitmap. cbn [PageBitmap]. rewrite foldl_insert0_lookup.
    case_decide as Hin; [unfold is_u32; cbn; lia|].
    rewrite Hsh; [unfold is_u32; cbn; lia|]. rewrite elem_of_seqZ in Hin. lia.
  - intros p _. by apply clear_bitmap_free.
  - cbn [FreePages]. unfold free_count. symmetry.
    rewrite (count_ext _ (fun _ => false)) by (intros; by apply clear_bitmap_free).
    apply count_false.
Qed.

Lemma used_range_iff Base End p :
  0 <= Base < End -> End < 4294967296 ->
  (Base + (End - Base) < 18446744073709551616 /\ Base < 4294967296 /\
   range_first PageStateUsed Base <= p
     < range_last PageStateUsed (Z.min (Base + (End - Base)) 4294967296)) <->
  (Base < p * PAGE_SIZE + PAGE_SIZE /\ p * PAGE_SIZE < End).
Proof.
  intros. unfold range_first, range_last. cbn [is_avail]. pg.
  Z.to_euclidean_division_equations. lia.
Qed.

(** Reserving [Base, End) leaves exactly the pages that meet it unavailable. *)
Lemma PageSetRange_reserve Base End s :
  pmm_wf s -> 0 <= Base < End -> End < 4294967296 ->
  exists s', PageSetRange Base (End - Base) PageStateUsed s = Some s' /\ pmm_wf s' /\
    forall p, page_free s' p = true <->
      page_free s p = true /\ ~ (Base < p * PAGE_SIZE + PAGE_SIZE /\ p * PAGE_SIZE < End).
Proof.
  intros Hwf HB HE.
  destruct (PageSetRange_spec Base (End - Base) PageStateUsed s) as (s' & Hs & Hwf' & Hf);
    [done|lia..|].
  exists s'. split; [done|]. split; [done|]. intros p. rewrite Hf. clear Hf.
  rewrite <- used_range_iff by done. cbn [is_avail].
  case_decide as Hd; split; [done|intros [_ ?]; done|done|by intros [? _]].
Qed.

(** ** Sequences of calls *)

(** The calls other components make once the allocator is initialised. *)
Inductive pmm_call :=
| CallPageAlloc
| CallPageAllocPages (count : Z)
| CallPageAllocPagesAt (hint count : Z)
| CallPageFree (addr : Z)
| CallPageFreePages (addr count : Z).

Definition pmm_exec (c : pmm_call) (s : Pmm) : option Pmm :=
  match c with
  | CallPageAlloc => snd <$> PageAlloc s
  | CallPageAllocPages n => snd <$> PageAllocPages n s
  | CallPageAllocPagesAt h n => snd <$> PageAllocPagesAt h n s
  | CallPageFree a => Some (PageFree a s)
  | CallPageFreePages a n => PageFreePages a n s
  end.

(** The arguments are [u32] values. *)
Definition pmm_call_typed (c : pmm_call) : Prop :=
  match c with
  | CallPageAlloc => True
  | CallPageAllocPages n => is_u32 n
  | CallPageAllocPagesAt h n => is_u32 h /\ is_u32 n
  | CallPageFree a => is_u32 a
  | CallPageFreePages a n => is_u32 a /\ is_u32 n
  end.

Definition pmm_run (cs : list pmm_call) (s : Pmm) : option Pmm :=
  foldl (fun os c => os ≫= pmm_exec c) (Some s) cs.

(** What every caller relies on: page 0 is never handed out, so 0 means
    failure. *)
Definition pmm_inv (s : Pmm) : Prop := pmm_wf s /\ page_free s 0 = false.

Lemma alloc_post_inv lo cnt s r : 0 <= lo -> pmm_inv s -> alloc_post lo cnt s r -> pmm_inv (snd r).
Proof.
  intros Hlo [Hwf H0] [(st & (Hl & _) & _ & _ & Hwf' & Hset & _)|[-> _]]; [|done].
  split; [done|]. rewrite Hset. case_decide; [done|exact H0].
Qed.

Lemma mask_aligned a : (Z.land a (PAGE_SIZE - 1) =? 0) = true -> a = a / PAGE_SIZE * PAGE_SIZE.
Proof.
  intros H%Z.eqb_eq. pg. change (4096 - 1) with (Z.ones 12) in H.
  rewrite Z.land_ones in H by lia. change (2 ^ 12) with 4096 in H.
  Z.to_euclidean_division_equations. lia.
Qed.

Lemma PageFree_inv a s : is_u32 a -> pmm_inv s -> pmm_inv (PageFree a s).
Proof.
  intros Ha [Hwf H0]. unfold PageFree.
  destruct (Z.eqb_spec a 0); [done|]. cbn [orb].
  destruct (Z.land a (PAGE_SIZE - 1) =? 0) eqn:Hm; [|done]. apply mask_aligned in Hm.
  cbn [negb]. destruct (Z.leb_spec PAGE_COUNT (a / PAGE_SIZE)); [done|].
  assert (0 < a / PAGE_SIZE) by (unfold is_u32 in *; pg; lia).
  split; [apply PageSet_wf; [lia|done]|].
  rewrite PageSet_free. case_decide; [lia|done].
Qed.

Lemma PageFreePages_inv a n s :
  is_u32 a -> is_u32 n -> pmm_inv s ->
  exists s', PageFreePages a n s = Some s' /\ pmm_inv s'.
Proof.
  intros Ha Hn [Hwf H0]. unfold PageFreePages.
  destruct (Z.eqb_spec a 0); [by eexists|]. cbn [orb].
  destruct (Z.land a (PAGE_SIZE - 1) =? 0) eqn:Hm; [|by eexists]. apply mask_aligned in Hm.
  cbn [negb orb]. destruct (Z.eqb_spec n 0); [by eexists|].
  assert (0 < a / PAGE_SIZE) by (unfold is_u32 in *; pg; lia).
  destruct (Z.leb_spec PAGE_COUNT (a / PAGE_SIZE)); [by eexists|]. cbn [orb].
  unwrap_with ltac:(pg; lia).
  destruct (Z.ltb_spec (PAGE_COUNT - a / PAGE_SIZE) n); [by eexists|].
  destruct (set_run_spec (a / PAGE_SIZE) n PageStateAvailable s)
    as (s' & -> & Hwf' & Hset & _); [done|unfold is_u32 in *; lia..|].
  eexists; split; [done|]. split; [done|]. rewrite Hset. case_decide; [lia|done].
Qed.

Lemma pmm_exec_inv c s :
  pmm_call_typed c -> pmm_inv s -> exists s', pmm_exec c s = Some s' /\ pmm_inv s'.
Proof.
  intros Hc Hinv. pose proof Hinv as [Hwf H0]. destruct c; cbn [pmm_exec pmm_call_typed] in *.
  - destruct (PageAlloc_spec s Hwf) as ([a s'] & -> & [(p & Hp & Hf & _ & _ & Hs)|[_ [= _ ->]]]);
      (eexists; split; [reflexivity|]); [|done].
    cbn [snd] in *. subst s'. split; [by apply PageSet_wf|].
    rewrite PageSet_free. case_decide; [done|exact H0].
  - rewrite PageAllocPages_At.
    destruct (PageAllocPagesAt_post 0 count s) as (r & -> & Hp); [done|done|unfold is_u32; lia|done|].
    eexists; split; [reflexivity|]. by eapply alloc_post_inv; [|..|exact Hp].
  - destruct Hc as [Hh Hn].
    destruct (PageAllocPagesAt_post hint count s) as (r & -> & Hp); [done..|].
    eexists; split; [reflexivity|]. eapply alloc_post_inv; [|done|exact Hp].
    apply Z.div_pos; [apply Hh|done].
  - eexists; split; [reflexivity|]. by apply PageFree_inv.
  - destruct Hc. by apply PageFreePages_inv.
Qed.

(** PageAllocInit from a memory map. *)
Lemma PageAllocInit_spec kstart kend m b s :
  bitmap_shape s ->
  0 < memory_map_addr b -> 0 < memory_map_length b < 4294967292 ->
  memory_map_addr b + memory_map_length b < 4294967296 ->
  0 <= kstart < kend -> kend < 4294967296 ->
  exists s', PageAllocInit kstart kend m (Some b) s = Some s' /\ pmm_wf s' /\
    forall p, 0 <= p < PAGE_COUNT ->
      (page_free s' p = true <->
       usable m (memory_map_addr b) (memory_map_length b) p /\ 256 <= p /\
       ~ (kstart < p * PAGE_SIZE + PAGE_SIZE /\ p * PAGE_SIZE < kend)).
Proof.
  intros Hsh Ha Hl Hal Hk Hke. unfold PageAllocInit.
  destruct (Z.eqb_spec (memory_map_addr b) 0); [lia|].
  destruct (Z.eqb_spec (memory_map_length b) 0); [lia|]. cbn [orb].
  destruct (PageAllocInit_scan_spec m (memory_map_addr b) (memory_map_length b)
    (mkPmm (clear_bitmap (PageBitmap s)) 0) (Z.to_nat (memory_map_length b / 24 + 2)))
    as (s1 & -> & Hwf1 & Hf1);
    [by apply cleared_wf|intros; by apply clear_bitmap_free|lia..
    |pose proof (Z.div_pos (memory_map_length b) 24); lia|].
  rewrite ?some_bind.
  destruct (PageSetRange_reserve 0 1048576 s1) as (s2 & Hs2 & Hwf2 & Hf2); [done|lia..|].
  rewrite Z.sub_0_r in Hs2. rewrite Hs2. rewrite ?some_bind.
  destruct (PageSetRange_reserve kstart kend s2) as (s3 & Hs3 & Hwf3 & Hf3); [done|lia..|].
  unwrap. exists s3. split; [done|]. split; [done|]. intros p Hp.
  rewrite Hf3, Hf2, Hf1 by lia.
  assert (~ (0 < p * PAGE_SIZE + PAGE_SIZE /\ p * PAGE_SIZE < 1048576) <-> 256 <= p) as ->
    by (pg; lia).
  tauto.
Qed.


(** ** Properties *)

(** C1. PageAllocInit. After initialisation from a Multiboot memory map, a
    page is free exactly when it lies wholly inside an available entry of the
    map, outside the first MiB, and outside the kernel image; the free-page
    counter equals the number of free pages. The loop over the map
    terminates. *)
Theorem PageAllocInit_correct kstart kend m b s :
  bitmap_shape s ->
  0 < memory_map_addr b -> 0 < memory_map_length b < 4294967292 ->
  memory_map_addr b + memory_map_length b < 4294967296 ->
  0 <= kstart < kend -> kend < 4294967296 ->
  exists s', PageAllocInit kstart kend m (Some b) s = Some s' /\ pmm_wf s' /\
    forall p, 0 <= p < PAGE_COUNT ->
      (page_free s' p = true <->
       usable m (memory_map_addr b) (memory_map_length b) p /\ 256 <= p /\
       ~ (kstart < p * PAGE_SIZE + PAGE_SIZE /\ p * PAGE_SIZE < kend)).
Proof. apply PageAllocInit_spec. Qed.

(** A Multiboot map with one available region of 16 MiB at 1 MiB. *)
Definition sample_map : Mem :=
  store32 (store32 (store32 (store32 ∅ 4096 20) 4100 1048576) 4108 16777216) 4116 1.
Definition sample_boot : boot_info :=
  {| multiboot_magic := 732803074; multiboot_info_addr := 8192;
     memory_map_addr := 4096; memory_map_length := 24 |}.

Lemma PageAllocInit_correct_witness :
  exists s', PageAllocInit 1048576 2097152 sample_map (Some sample_boot) (mkPmm ∅ 0) = Some s' /\
    page_free s' 600 = true /\ page_free s' 300 = false.
Proof.
  destruct (PageAllocInit_correct 1048576 2097152 sample_map sample_boot (mkPmm ∅ 0))
    as (s' & Hs & _ & Hf); [done|vm_compute; intuition congruence..|].
  exists s'. split; [exact Hs|]. split.
  - apply Hf; [pg; lia|]. split; [|pg; lia].
    exists 0. split; [constructor|]. vm_compute. intuition congruence.
  - apply not_true_is_false. rewrite Hf by (pg; lia).
    intros (_ & _ & H). apply H. pg; lia.
Defined.

(** C2. first fit. PageAllocPagesAt terminates on every input; it either takes
    the lowest run of [count] consecutive free pages at or above the hint,
    marks exactly that run used, decreases the counter by [count] and returns
    the run's (non-zero) address, or it changes nothing, returns 0, and no
    such run exists. PageAllocPages is the same search from page 0. *)
Theorem PageAllocPagesAt_first_fit hint cnt s :
  pmm_wf s -> page_free s 0 = false -> is_u32 hint -> is_u32 cnt ->
  exists a s', PageAllocPagesAt hint cnt s = Some (a, s') /\
    (hint = 0 -> PageAllocPages cnt s = Some (a, s')) /\
    ((exists st, first_run s (hint / PAGE_SIZE) cnt st /\ a = st * PAGE_SIZE /\ a <> 0 /\
        pmm_wf s' /\ pages_set st cnt PageStateUsed s s' /\ FreePages s' = FreePages s - cnt) \/
     (a = 0 /\ s' = s /\
      (cnt = 0 \/ forall st, hint / PAGE_SIZE <= st -> ~ run_free s st cnt))).
Proof.
  intros Hwf H0 Hh Hc.
  destruct (PageAllocPagesAt_post hint cnt s) as ([a s'] & Hr & Hp); [done..|].
  exists a, s'. split; [done|]. split; [intros ->; by rewrite PageAllocPages_At|].
  destruct Hp as [Hp|[[= -> ->] Hno]]; [left; exact Hp|right; auto].
Qed.

(** Pages 1, 2, 4, 5 and 6 are free: a run of three starts at 4. *)
Definition sample_pmm : Pmm := mkPmm {[ 0 := 118 ]} 5.

Lemma sample_pmm_word w : word sample_pmm w = if decide (w = 0) then 118 else 0.
Proof.
  unfold word, sample_pmm. cbn [PageBitmap].
  destruct (decide (w = 0)) as [->|]; [by rewrite lookup_singleton_eq|].
  by rewrite lookup_singleton_ne.
Qed.

Lemma sample_pmm_out p : ~ (0 <= p < 7) -> page_free sample_pmm p = false.
Proof.
  intros Hp. unfold page_free. rewrite sample_pmm_word.
  case_decide; [|apply Z.bits_0].
  apply Z.bits_above_log2; [lia|]. change (Z.log2 118) with 6.
  Z.to_euclidean_division_equations. lia.
Qed.

Lemma sample_pmm_wf : pmm_wf sample_pmm.
Proof.
  split.
  - intros w. rewrite sample_pmm_word. unfold is_u32. case_decide; lia.
  - intros p Hp. apply sample_pmm_out. pg. lia.
  - rewrite (free_count_below _ 7); [vm_compute; done|pg; lia|].
    intros p Hp. apply sample_pmm_out. lia.
Qed.

Lemma PageAllocPagesAt_first_fit_witness :
  exists a s', PageAllocPagesAt 4096 3 sample_pmm = Some (a, s') /\ a = 16384 /\
    FreePages s' = 2.
Proof.
  destruct (PageAllocPagesAt_first_fit 4096 3 sample_pmm) as (a & s' & Hr & _ & Hcase);
    [apply sample_pmm_wf|done|unfold is_u32; lia..|].
  exists a, s'. split; [exact Hr|].
  assert (H4 : run_free sample_pmm 4 3).
  { intros p Hp. assert (p = 4 \/ p = 5 \/ p = 6) as [-> | [-> | ->]] by lia; done. }
  destruct Hcase as [(st & (Hlo & _ & Hrun & Hmin) & -> & _ & _ & _ & HF)|(_ & _ & [|Hno])];
    [|done|].
  - assert (st <= 4) by (apply Z.nlt_ge; intros Hlt; by apply (Hmin 4)).
    assert (st = 1 \/ st = 2 \/ st = 3 \/ st = 4) as [-> | [-> | [-> | ->]]].
    { change (4096 / PAGE_SIZE) with 1 in Hlo. lia. }
    + discriminate (Hrun 3 ltac:(lia)).
    + discriminate (Hrun 3 ltac:(lia)).
    + discriminate (Hrun 3 ltac:(lia)).
    + split; [done|]. rewrite HF. done.
  - exfalso. apply (Hno 4); [done|exact H4].
Defined.

(** Round trip: freeing the run an allocation returned gives back exactly
    the allocator state's free pages and counter. *)
Theorem PageFreePages_alloc_roundtrip hint cnt s a s1 :
  pmm_wf s -> page_free s 0 = false -> is_u32 hint -> is_u32 cnt ->
  PageAllocPagesAt hint cnt s = Some (a, s1) -> a <> 0 ->
  exists s2, PageFreePages a cnt s1 = Some s2 /\ pmm_wf s2 /\
    (forall p, page_free s2 p = page_free s p) /\
    PageAllocFreeCount s2 = PageAllocFreeCount s.
Proof.
  intros Hwf H0 Hh Hc Halloc Ha.
  destruct (PageAllocPagesAt_post hint cnt s) as (r & Hr & Hp); [done..|].
  rewrite Halloc in Hr. injection Hr as <-.
  destruct Hp as [(st & (Hlo & Hhi & Hrun & _) & Haddr & _ & Hwf1 & Hset & HF)|[[= ?] _]]; [|done].
  cbn [fst snd] in *. subst a.
  assert (0 <= st) by (pg; Z.to_euclidean_division_equations; unfold is_u32 in *; lia).
  assert (0 < cnt) by (unfold is_u32 in *; destruct (decide (cnt = 0)) as [->|]; [|lia];
    cbn in Halloc; simplify_eq; lia).
  assert (st < PAGE_COUNT) by lia.
  assert (st <> 0) by (intros ->; done). rewrite PageFreePages_run by lia.
  destruct (set_run_spec st cnt PageStateAvailable s1) as (s2 & Hs2 & Hwf2 & Hset2 & HF2);
    [done|lia..|].
  exists s2. split; [done|]. split; [done|]. split.
  - intros p. rewrite Hset2, Hset. case_decide; [|done]. symmetry. by apply Hrun.
  - unfold PageAllocFreeCount. rewrite HF2; [cbn; lia|].
    intros p Hp. rewrite Hset. by destruct (decide _).
Qed.

Lemma PageFreePages_alloc_roundtrip_witness :
  exists s1 s2, PageAllocPagesAt 4096 3 sample_pmm = Some (16384, s1) /\
    PageFreePages 16384 3 s1 = Some s2 /\ PageAllocFreeCount s2 = 5.
Proof.
  eexists. destruct (PageFreePages_alloc_roundtrip 4096 3 sample_pmm 16384
    (default sample_pmm (snd <$> PageAllocPagesAt 4096 3 sample_pmm))) as (s2 & H2 & _ & _ & Hc);
    [apply sample_pmm_wf|done|unfold is_u32; lia..|vm_compute; reflexivity|done|].
  exists s2. split; [vm_compute; reflexivity|]. split; [exact H2|exact Hc].
Defined.

(** C3. PageAlloc, which looks for a set bit word by word, is the multi-page
    search for one page: same address, same state, failure on the same states.
    So what is shown of PageAllocPages holds of it. *)
Theorem PageAlloc_is_PageAllocPages_1 s :
  pmm_wf s -> PageAlloc s = PageAllocPages 1 s.
Proof.
  intros Hwf. pose proof (FreePages_bounds s Hwf).
  destruct (PageAlloc_spec s Hwf) as (r & -> & Hcase). unfold PageAllocPages.
  change (PAGE_COUNT <? 1) with false. cbn [Z.eqb orb]. rewrite orb_false_r.
  destruct Hcase as [(p & Hp & Hf & Hmin & Hr1 & Hr2)|(Hno & ->)].
  - destruct (run_free_count s p 1 Hwf) as [_ HF]; [lia|lia|by apply run_free_1|].
    rewrite (proj2 (Z.ltb_ge (FreePages s) 1)) by lia.
    destruct (alloc_scan_spec 0 1 s Hwf) as ([a s'] & -> & [Hok|[Hno _]]); [pg; lia|pg; lia| |].
    + destruct Hok as (st & (Hst & Hle & Hr & Hlow) & Ha & _ & _ & _ & Hset). cbn [fst snd] in *.
      apply run_free_1 in Hr. assert (st = p) as ->.
      { destruct (Z.lt_total st p) as [Hl|[->|Hl]]; [|done|].
        - rewrite Hmin in Hr; done.
        - destruct (Hlow p); [lia|by apply run_free_1]. }
      rewrite set_run_1 in Hset by (pg; lia). destruct r as [a1 s1]. cbn [fst snd] in *. congruence.
    + destruct (Hno p); [lia|by apply run_free_1].
  - case_match; [done|].
    destruct (alloc_scan_spec 0 1 s Hwf) as (r & -> & [(st & (_ & _ & Hr & _) & _)|[_ ->]]); [pg; lia|pg; lia| |done].
    apply run_free_1 in Hr. by rewrite Hno in Hr.
Qed.

Lemma PageAlloc_is_PageAllocPages_1_witness :
  (PageAlloc sample_pmm = PageAllocPages 1 sample_pmm) /\ exists s', PageAlloc sample_pmm = Some (4096, s') /\ FreePages s' = 4.
Proof.
  split; [apply (PageAlloc_is_PageAllocPages_1 sample_pmm), sample_pmm_wf|].
  eexists. split; vm_compute; reflexivity.
Defined.

(** C4. the allocator invariant. Whatever sequence of calls the kernel makes,
    with any arguments, every call returns; the free-page counter stays equal
    to the number of free pages, and page 0 is never made available, so the
    address 0 always means failure. *)
Theorem pmm_run_invariant cs s :
  pmm_inv s -> Forall pmm_call_typed cs ->
  exists s', pmm_run cs s = Some s' /\ pmm_inv s' /\
    PageAllocFreeCount s' = free_count s'.
Proof.
  intros Hinv Hcs. revert s Hinv. unfold pmm_run.
  induction Hcs as [|c cs Hc _ IH]; intros s Hinv; cbn [foldl].
  - exists s. split; [done|]. split; [done|]. apply Hinv.
  - rewrite some_bind. destruct (pmm_exec_inv c s Hc Hinv) as (s' & -> & Hinv').
    by apply IH.
Qed.

Lemma pmm_run_invariant_witness :
  exists s', pmm_run [CallPageAlloc; CallPageFreePages 4096 7; CallPageFree 12288;
                      CallPageAllocPages 5] sample_pmm = Some s' /\
    page_free s' 0 = false /\ PageAllocFreeCount s' = 2.
Proof.
  destruct (pmm_run_invariant [CallPageAlloc; CallPageFreePages 4096 7; CallPageFree 12288;
                      CallPageAllocPages 5] sample_pmm) as (s' & Hr & [_ H0] & _).
  - split; [apply sample_pmm_wf|done].
  - repeat constructor; cbn; lia.
  - exists s'. split; [exact Hr|]. split; [exact H0|].
    apply (f_equal (fmap FreePages)) in Hr. vm_compute in Hr. by injection Hr.
Defined.
