(* ===== verification/Sched.v ===== *)
(** * The scheduler (kernel/sched.c, include/novium/sched.h)

    The task table, the three linked queues threaded through it, and every
    function of the file. A [Task *] is an index into [Tasks] ([None] is the
    null pointer). A function that reaches [SchedSwitch] does not return to its
    caller before the task is resumed: its result is then [Switched] with the
    stack of pending return points (innermost first), which [run_frame]
    executes when the task runs again. *)

From S2P Require Import Prelude.

(** ** Data *)

Definition SchedMaxTasks : Z := 32.
Definition SchedNameLength : Z := 32.

Inductive TaskState := TaskDead | TaskReady | TaskRunning | TaskBlocked.

#[global] Instance TaskState_eq_dec : EqDecision TaskState.
Proof. solve_decision. Defined.

Inductive SchedPolicy := SchedRoundRobin | SchedPriority.

#[global] Instance SchedPolicy_eq_dec : EqDecision SchedPolicy.
Proof. solve_decision. Defined.

Record Task := mkTask {
  Id : Z; ParentId : Z;
  Eip : Z; Esp : Z; Ebp : Z;
  Priority : Z; TimeSlice : Z; TimeUsed : Z;
  Runtime : Z; Switches : Z; WakeTick : Z;
  State : TaskState;
  Name : list Z;
  Next : option nat }.

(** An element of the zero-initialised [Tasks] array. *)
Definition zero_task : Task :=
  mkTask 0 0 0 0 0 0 0 0 0 0 0 TaskDead (replicate 32 0) None.

(** The file's static data, with the CPU's interrupt flag, the memory that
    holds the task stacks, and the stack pointer [SchedSwitch] will save for
    the running task (the C code cannot name it). *)
Record Sched := mkSched {
  Tasks : list Task;
  ReadyQueue : option nat; BlockedQueue : option nat; DeadQueue : option nat;
  CurrentTask : option nat;
  CurrentPolicy : SchedPolicy;
  TaskCountValue : Z; NextTaskId : Z; SchedulerTicks : Z; ContextSwitches : Z;
  SchedulerLocked : Z;
  PreemptPending : bool;
  irq_on : bool;
  stack_mem : Mem;
  switch_esp : Z }.

(** Field assignments. *)
Definition set_Tasks v s := mkSched v (ReadyQueue s) (BlockedQueue s) (DeadQueue s)
  (CurrentTask s) (CurrentPolicy s) (TaskCountValue s) (NextTaskId s) (SchedulerTicks s)
  (ContextSwitches s) (SchedulerLocked s) (PreemptPending s) (irq_on s) (stack_mem s) (switch_esp s).
Definition set_ReadyQueue v s := mkSched (Tasks s) v (BlockedQueue s) (DeadQueue s)
  (CurrentTask s) (CurrentPolicy s) (TaskCountValue s) (NextTaskId s) (SchedulerTicks s)
  (ContextSwitches s) (SchedulerLocked s) (PreemptPending s) (irq_on s) (stack_mem s) (switch_esp s).
Definition set_BlockedQueue v s := mkSched (Tasks s) (ReadyQueue s) v (DeadQueue s)
  (CurrentTask s) (CurrentPolicy s) (TaskCountValue s) (NextTaskId s) (SchedulerTicks s)
  (ContextSwitches s) (SchedulerLocked s) (PreemptPending s) (irq_on s) (stack_mem s) (switch_esp s).
Definition set_DeadQueue v s := mkSched (Tasks s) (ReadyQueue s) (BlockedQueue s) v
  (CurrentTask s) (CurrentPolicy s) (TaskCountValue s) (NextTaskId s) (SchedulerTicks s)
  (ContextSwitches s) (SchedulerLocked s) (PreemptPending s) (irq_on s) (stack_mem s) (switch_esp s).
Definition set_CurrentTask v s := mkSched (Tasks s) (ReadyQueue s) (BlockedQueue s) (DeadQueue s)
  v (CurrentPolicy s) (TaskCountValue s) (NextTaskId s) (SchedulerTicks s)
  (ContextSwitches s) (SchedulerLocked s) (PreemptPending s) (irq_on s) (stack_mem s) (switch_esp s).
Definition set_CurrentPolicy v s := mkSched (Tasks s) (ReadyQueue s) (BlockedQueue s) (DeadQueue s)
  (CurrentTask s) v (TaskCountValue s) (NextTaskId s) (SchedulerTicks s)
  (ContextSwitches s) (SchedulerLocked s) (PreemptPending s) (irq_on s) (stack_mem s) (switch_esp s).
Definition set_TaskCountValue v s := mkSched (Tasks s) (ReadyQueue s) (BlockedQueue s) (DeadQueue s)
  (CurrentTask s) (CurrentPolicy s) v (NextTaskId s) (SchedulerTicks s)
  (ContextSwitches s) (SchedulerLocked s) (PreemptPending s) (irq_on s) (stack_mem s) (switch_esp s).
Definition set_NextTaskId v s := mkSched (Tasks s) (ReadyQueue s) (BlockedQueue s) (DeadQueue s)
  (CurrentTask s) (CurrentPolicy s) (TaskCountValue s) v (SchedulerTicks s)
  (ContextSwitches s) (SchedulerLocked s) (PreemptPending s) (irq_on s) (stack_mem s) (switch_esp s).
Definition set_SchedulerTicks v s := mkSched (Tasks s) (ReadyQueue s) (BlockedQueue s) (DeadQueue s)
  (CurrentTask s) (CurrentPolicy s) (TaskCountValue s) (NextTaskId s) v
  (ContextSwitches s) (SchedulerLocked s) (PreemptPending s) (irq_on s) (stack_mem s) (switch_esp s).
Definition set_ContextSwitches v s := mkSched (Tasks s) (ReadyQueue s) (BlockedQueue s) (DeadQueue s)
  (CurrentTask s) (CurrentPolicy s) (TaskCountValue s) (NextTaskId s) (SchedulerTicks s)
  v (SchedulerLocked s) (PreemptPending s) (irq_on s) (stack_mem s) (switch_esp s).
Definition set_SchedulerLocked v s := mkSched (Tasks s) (ReadyQueue s) (BlockedQueue s) (DeadQueue s)
  (CurrentTask s) (CurrentPolicy s) (TaskCountValue s) (NextTaskId s) (SchedulerTicks s)
  (ContextSwitches s) v (PreemptPending s) (irq_on s) (stack_mem s) (switch_esp s).
Definition set_PreemptPending v s := mkSched (Tasks s) (ReadyQueue s) (BlockedQueue s) (DeadQueue s)
  (CurrentTask s) (CurrentPolicy s) (TaskCountValue s) (NextTaskId s) (SchedulerTicks s)
  (ContextSwitches s) (SchedulerLocked s) v (irq_on s) (stack_mem s) (switch_esp s).
Definition set_irq_on v s := mkSched (Tasks s) (ReadyQueue s) (BlockedQueue s) (DeadQueue s)
  (CurrentTask s) (CurrentPolicy s) (TaskCountValue s) (NextTaskId s) (SchedulerTicks s)
  (ContextSwitches s) (SchedulerLocked s) (PreemptPending s) v (stack_mem s) (switch_esp s).
Definition set_stack_mem v s := mkSched (Tasks s) (ReadyQueue s) (BlockedQueue s) (DeadQueue s)
  (CurrentTask s) (CurrentPolicy s) (TaskCountValue s) (NextTaskId s) (SchedulerTicks s)
  (ContextSwitches s) (SchedulerLocked s) (PreemptPending s) (irq_on s) v (switch_esp s).

Definition with_Id v t := mkTask v (ParentId t) (Eip t) (Esp t) (Ebp t) (Priority t) (TimeSlice t)
  (TimeUsed t) (Runtime t) (Switches t) (WakeTick t) (State t) (Name t) (Next t).
Definition with_ParentId v t := mkTask (Id t) v (Eip t) (Esp t) (Ebp t) (Priority t) (TimeSlice t)
  (TimeUsed t) (Runtime t) (Switches t) (WakeTick t) (State t) (Name t) (Next t).
Definition with_Eip v t := mkTask (Id t) (ParentId t) v (Esp t) (Ebp t) (Priority t) (TimeSlice t)
  (TimeUsed t) (Runtime t) (Switches t) (WakeTick t) (State t) (Name t) (Next t).
Definition with_Esp v t := mkTask (Id t) (ParentId t) (Eip t) v (Ebp t) (Priority t) (TimeSlice t)
  (TimeUsed t) (Runtime t) (Switches t) (WakeTick t) (State t) (Name t) (Next t).
Definition with_Ebp v t := mkTask (Id t) (ParentId t) (Eip t) (Esp t) v (Priority t) (TimeSlice t)
  (TimeUsed t) (Runtime t) (Switches t) (WakeTick t) (State t) (Name t) (Next t).
Definition with_Priority v t := mkTask (Id t) (ParentId t) (Eip t) (Esp t) (Ebp t) v (TimeSlice t)
  (TimeUsed t) (Runtime t) (Switches t) (WakeTick t) (State t) (Name t) (Next t).
Definition with_TimeSlice v t := mkTask (Id t) (ParentId t) (Eip t) (Esp t) (Ebp t) (Priority t) v
  (TimeUsed t) (Runtime t) (Switches t) (WakeTick t) (State t) (Name t) (Next t).
Definition with_TimeUsed v t := mkTask (Id t) (ParentId t) (Eip t) (Esp t) (Ebp t) (Priority t)
  (TimeSlice t) v (Runtime t) (Switches t) (WakeTick t) (State t) (Name t) (Next t).
Definition with_Runtime v t := mkTask (Id t) (ParentId t) (Eip t) (Esp t) (Ebp t) (Priority t)
  (TimeSlice t) (TimeUsed t) v (Switches t) (WakeTick t) (State t) (Name t) (Next t).
Definition with_Switches v t := mkTask (Id t) (ParentId t) (Eip t) (Esp t) (Ebp t) (Priority t)
  (TimeSlice t) (TimeUsed t) (Runtime t) v (WakeTick t) (State t) (Name t) (Next t).
Definition with_WakeTick v t := mkTask (Id t) (ParentId t) (Eip t) (Esp t) (Ebp t) (Priority t)
  (TimeSlice t) (TimeUsed t) (Runtime t) (Switches t) v (State t) (Name t) (Next t).
Definition with_State v t := mkTask (Id t) (ParentId t) (Eip t) (Esp t) (Ebp t) (Priority t)
  (TimeSlice t) (TimeUsed t) (Runtime t) (Switches t) (WakeTick t) v (Name t) (Next t).
Definition with_Name v t := mkTask (Id t) (ParentId t) (Eip t) (Esp t) (Ebp t) (Priority t)
  (TimeSlice t) (TimeUsed t) (Runtime t) (Switches t) (WakeTick t) (State t) v (Next t).
Definition with_Next v t := mkTask (Id t) (ParentId t) (Eip t) (Esp t) (Ebp t) (Priority t)
  (TimeSlice t) (TimeUsed t) (Runtime t) (Switches t) (WakeTick t) (State t) (Name t) v.

(** [*p] and an assignment through [p]. *)
Definition task (s : Sched) (p : nat) : Task := default zero_task (Tasks s !! p).
Definition upd (p : nat) (f : Task -> Task) (s : Sched) : Sched :=
  set_Tasks (alter f p (Tasks s)) s.

(** The queue heads, passed as [&ReadyQueue] and so on. *)
Inductive QueueId := QReady | QBlocked | QDead.

#[global] Instance QueueId_eq_dec : EqDecision QueueId.
Proof. solve_decision. Defined.

Definition queue (q : QueueId) (s : Sched) : option nat :=
  match q with
  | QReady => ReadyQueue s | QBlocked => BlockedQueue s | QDead => DeadQueue s
  end.

Definition set_queue (q : QueueId) (v : option nat) (s : Sched) : Sched :=
  match q with
  | QReady => set_ReadyQueue v s
  | QBlocked => set_BlockedQueue v s
  | QDead => set_DeadQueue v s
  end.

(** A queue threads through at most [SchedMaxTasks] descriptors. *)
Definition queue_fuel : nat := 34.

(** ** Control: what a call that may switch tasks leaves behind *)

Inductive SFrame :=
| FrSchedYield (was_enabled : bool)  (* SchedYield, after SchedSwitch *)
| FrSchedBlockTask (t : nat)         (* SchedBlockTask, after SchedYield *)
| FrSchedSleepUntil (t : nat)        (* SchedSleepUntil, after SchedBlockTask *)
| FrSchedExit.                       (* SchedExit, after SchedYield *)

Inductive Out := Done | Switched (frames : list SFrame).

(** ** Interrupt masking *)

Definition SchedLockIrq (s : Sched) : bool * Sched := (irq_on s, set_irq_on false s).
Definition SchedUnlockIrq (was_enabled : bool) (s : Sched) : Sched :=
  if was_enabled then set_irq_on true s else s.

(** ** Queues *)

Definition SchedQueueAdd (q : QueueId) (TaskItem : nat) (s : Sched) : option Sched :=
  let s := upd TaskItem (with_Next None) s in
  match queue q s with
  | None => Some (set_queue q (Some TaskItem) s)
  | Some head =>
      Current ← loop queue_fuel (fun Current =>
        match Next (task s Current) with
        | Some n => Some (inl n)
        | None => Some (inr Current)
        end) head;
      Some (upd Current (with_Next (Some TaskItem)) s)
  end.

Definition SchedQueueRemove (q : QueueId) (TaskItem : nat) (s : Sched) : option Sched :=
  match queue q s with
  | None => Some s
  | Some _ =>
      loop queue_fuel (fun '(Current, Previous) =>
        match Current with
        | None => Some (inr s)
        | Some c =>
            if decide (c = TaskItem) then
              let s := match Previous with
                       | None => set_queue q (Next (task s c)) s
                       | Some p => upd p (with_Next (Next (task s c))) s
                       end in
              Some (inr (upd c (with_Next None) s))
            else Some (inl (Next (task s c), Some c))
        end) (queue q s, None)
  end.

(** ** Choosing the next task *)

Definition SchedFindRoundRobin (s : Sched) : option (option nat) :=
  match CurrentTask s with
  | None => Some (ReadyQueue s)
  | Some cur =>
      loop queue_fuel (fun TaskItem =>
        match TaskItem with
        | None => Some (inr (ReadyQueue s))
        | Some t =>
            if Id (task s cur) <? Id (task s t) then Some (inr (Some t))
            else Some (inl (Next (task s t)))
        end) (ReadyQueue s)
  end.

Definition SchedFindPriority (s : Sched) : option (option nat) :=
  loop queue_fuel (fun '(Current, Best) =>
    match Current with
    | None => Some (inr Best)
    | Some c =>
        let Best := match Best with
                    | None => Some c
                    | Some b => if Priority (task s b) <? Priority (task s c)
                                then Some c else Some b
                    end in
        Some (inl (Next (task s c), Best))
    end) (ReadyQueue s, None).

Definition SchedFindNext (s : Sched) : option (option nat) :=
  match CurrentPolicy s with
  | SchedPriority => SchedFindPriority s
  | SchedRoundRobin => SchedFindRoundRobin s
  end.

(** ** Task descriptors *)

Definition SchedResetTask (t : Task) : Task :=
  mkTask 0 0 0 0 0 1 10 0 0 0 0 TaskDead (<[0%nat := 0]> (Name t)) None.

Definition idle_name (n : list Z) : list Z :=
  <[4%nat := 0]> (<[3%nat := 101]> (<[2%nat := 108]> (<[1%nat := 100]> (<[0%nat := 73]> n)))).

(** [NextTaskId++] and [CurrentTask = IdleTask] included. *)
Definition SchedInit (s : Sched) : Sched :=
  let s := set_ReadyQueue None (set_BlockedQueue None (set_DeadQueue None
             (set_CurrentTask None s))) in
  let s := set_TaskCountValue 0 (set_NextTaskId 0 (set_SchedulerTicks 0
             (set_ContextSwitches 0 (set_SchedulerLocked 0 (set_PreemptPending false s))))) in
  let s := set_Tasks (SchedResetTask <$> Tasks s) s in
  let s := upd 0 (fun t => with_Name (idle_name (Name t)) (with_State TaskRunning
             (with_TimeSlice 10 (with_Priority 0 (with_ParentId 0 (with_Id (NextTaskId s) t)))))) s in
  let s := set_NextTaskId (NextTaskId s +w 1) s in
  set_TaskCountValue 1 (set_CurrentTask (Some 0%nat) s).

(** [*--sp = v]. *)
Definition push32 (sp v : Z) (m : Mem) : Z * Mem := (sp -w 4, store32 m (sp -w 4) v).

(** [SchedExitStub] is the address the linker gives that function. *)
Definition SchedInitStack (SchedExitStub : Z) (TaskItem : nat) (Entry StackTop : Z)
    (s : Sched) : Sched :=
  let '(sp, m) := push32 StackTop Entry (stack_mem s) in
  let '(sp, m) := push32 sp 0 m in
  let '(sp, m) := push32 sp SchedExitStub m in
  let '(sp, m) := push32 sp 514 m in
  let '(sp, m) := push32 sp 0 m in
  let '(sp, m) := push32 sp 0 m in
  let '(sp, m) := push32 sp 0 m in
  let '(sp, m) := push32 sp 0 m in
  upd TaskItem (with_Esp sp) (set_stack_mem m s).

(** The copy of [Name] into the descriptor, cut at [SchedNameLength - 1]. A C
    string is the list of its bytes; the terminator reads as 0. *)
Definition copy_name (src dst : list Z) : option (list Z) :=
  loop 33 (fun '(i, dst) =>
    if (Z.of_nat i <? SchedNameLength - 1) && negb (default 0 (src !! i) =? 0)
    then Some (inl (S i, <[i := default 0 (src !! i)]> dst))
    else Some (inr (<[i := 0]> dst))) (0%nat, dst).

(** The first dead descriptor (the [for] of SchedCreate). *)
Definition find_dead (s : Sched) : option nat :=
  fst <$> list_find (fun t => State t = TaskDead) (Tasks s).

Definition SchedCreate (SchedExitStub : Z) (Nm : option (list Z)) (eip esp : Z) (s : Sched)
    : option (option nat * Sched) :=
  match Nm with
  | None => Some (None, s)
  | Some Nm =>
      if SchedMaxTasks <=? TaskCountValue s then Some (None, s)
      else
        let '(was_enabled, s) := SchedLockIrq s in
        match find_dead s with
        | None => Some (None, SchedUnlockIrq was_enabled s)
        | Some t =>
            s ← SchedQueueRemove QDead t s;
            let s := set_NextTaskId (NextTaskId s +w 1) (upd t (with_Id (NextTaskId s)) s) in
            let s := upd t (with_ParentId (match CurrentTask s with
                                           | Some c => Id (task s c)
                                           | None => 0
                                           end)) s in
            let s := SchedInitStack SchedExitStub t eip esp s in
            let s := upd t (with_Eip eip) s in
            let s := upd t (fun k => with_Ebp (Esp k) k) s in
            let s := upd t (fun k => with_State TaskReady (with_Switches 0 (with_Runtime 0
                       (with_TimeUsed 0 (with_TimeSlice 10 (with_Priority 1 k)))))) s in
            name ← copy_name Nm (Name (task s t));
            let s := upd t (with_Name name) s in
            s ← SchedQueueAdd QReady t s;
            let s := set_TaskCountValue (TaskCountValue s +w 1) s in
            Some (Some t, SchedUnlockIrq was_enabled s)
        end
  end.

Definition SchedCurrent (s : Sched) : option nat := CurrentTask s.

Definition SchedFind (id : Z) (s : Sched) : option nat :=
  fst <$> list_find (fun t => State t <> TaskDead /\ Id t = id) (Tasks s).

Definition SchedTaskCount (s : Sched) : Z := TaskCountValue s.

(** ** Switching *)

Definition SchedYield (s : Sched) : option (Out * Sched) :=
  let '(was_enabled, s) := SchedLockIrq s in
  if negb (SchedulerLocked s =? 0) then Some (Done, SchedUnlockIrq was_enabled s)
  else
    NextTask ← SchedFindNext s;
    match NextTask with
    | None => Some (Done, SchedUnlockIrq was_enabled s)
    | Some n =>
        if decide (Some n = CurrentTask s) then Some (Done, SchedUnlockIrq was_enabled s)
        else
          let PrevTask := CurrentTask s in
          s ← SchedQueueRemove QReady n s;
          s ← match PrevTask with
              | Some p =>
                  if decide (State (task s p) = TaskRunning)
                  then SchedQueueAdd QReady p (upd p (with_State TaskReady) s)
                  else Some s
              | None => Some s
              end;
          let s := upd n (fun k => with_Switches (Switches k +w 1)
                     (with_TimeUsed 0 (with_State TaskRunning k))) s in
          let s := set_ContextSwitches (ContextSwitches s +w 1) (set_CurrentTask (Some n) s) in
          (* SchedSwitch: the old context's esp is stored, control leaves *)
          let s := match PrevTask with
                   | Some p => upd p (with_Esp (switch_esp s)) s
                   | None => s
                   end in
          Some (Switched [FrSchedYield was_enabled], s)
    end.

(** [Regs] is the register frame's address; [None] is null. *)
Definition SchedTick (Regs : option Z) (s : Sched) : Sched :=
  match Regs with
  | None => s
  | Some _ =>
      if negb (SchedulerLocked s =? 0) then s
      else
        let s := set_SchedulerTicks (SchedulerTicks s +w 1) s in
        match CurrentTask s with
        | None => s
        | Some c =>
            let s := upd c (fun k => with_TimeUsed (TimeUsed k +w 1)
                       (with_Runtime (Runtime k +w 1) k)) s in
            if TimeSlice (task s c) <=? TimeUsed (task s c)
            then set_PreemptPending true (upd c (with_TimeUsed 0) s)
            else s
        end
  end.

Definition SchedPreempt (s : Sched) : option (Out * Sched) :=
  if negb (PreemptPending s) then Some (Done, s)
  else if negb (SchedulerLocked s =? 0) then Some (Done, s)
  else SchedYield (set_PreemptPending false s).

(** What remains of SchedBlockTask once its SchedYield has returned. *)
Definition SchedBlockTask_resume (t : nat) (s : Sched) : option Sched :=
  let '(was_enabled, s) := SchedLockIrq s in
  s ← (if decide (State (task s t) = TaskBlocked) then
         s ← SchedQueueRemove QBlocked t s;
         Some (upd t (with_State TaskRunning) s)
       else Some s);
  Some (SchedUnlockIrq was_enabled s).

Definition SchedBlockTask (id : Z) (s : Sched) : option (Out * Sched) :=
  let '(was_enabled, s) := SchedLockIrq s in
  match SchedFind id s with
  | None => Some (Done, SchedUnlockIrq was_enabled s)
  | Some t =>
      if decide (State (task s t) = TaskDead \/ Id (task s t) = 0 \/
                 State (task s t) = TaskBlocked)
      then Some (Done, SchedUnlockIrq was_enabled s)
      else if decide (Some t = CurrentTask s) then
        s ← SchedQueueRemove QReady t s;
        let s := upd t (with_State TaskBlocked) s in
        s ← SchedQueueAdd QBlocked t s;
        let s := SchedUnlockIrq was_enabled s in
        '(out, s) ← SchedYield s;
        match out with
        | Done => s ← SchedBlockTask_resume t s; Some (Done, s)
        | Switched fs => Some (Switched (fs ++ [FrSchedBlockTask t]), s)
        end
      else
        s ← (if decide (State (task s t) = TaskReady)
             then SchedQueueRemove QReady t s else Some s);
        let s := upd t (with_State TaskBlocked) s in
        s ← SchedQueueAdd QBlocked t s;
        Some (Done, SchedUnlockIrq was_enabled s)
  end.

Definition SchedBlock (s : Sched) : option (Out * Sched) :=
  match CurrentTask s with
  | None => Some (Done, s)
  | Some c => if Id (task s c) =? 0 then Some (Done, s)
              else SchedBlockTask (Id (task s c)) s
  end.

Definition SchedUnblock (TaskItem : option nat) (s : Sched) : option Sched :=
  match TaskItem with
  | None => Some s
  | Some t =>
      if decide (State (task s t) = TaskBlocked) then
        let '(was_enabled, s) := SchedLockIrq s in
        s ← SchedQueueRemove QBlocked t s;
        let s := upd t (with_State TaskReady) s in
        s ← SchedQueueAdd QReady t s;
        Some (SchedUnlockIrq was_enabled s)
      else Some s
  end.

Definition SchedWakeTask (id : Z) (s : Sched) : option Sched :=
  match SchedFind id s with
  | Some t => SchedUnblock (Some t) s
  | None => Some s
  end.

Definition SchedSleepUntil (tick : Z) (s : Sched) : option (Out * Sched) :=
  match CurrentTask s with
  | None => Some (Done, s)
  | Some t =>
      if Id (task s t) =? 0 then Some (Done, s)
      else
        let s := upd t (with_WakeTick tick) s in
        '(out, s) ← SchedBlockTask (Id (task s t)) s;
        match out with
        | Done => Some (Done, upd t (with_WakeTick 0) s)
        | Switched fs => Some (Switched (fs ++ [FrSchedSleepUntil t]), s)
        end
  end.

(** [TaskItem->WakeTick != 0 && (s32)(NowTick - TaskItem->WakeTick) >= 0]. *)
Definition wake_due (NowTick : Z) (t : Task) : bool :=
  negb (WakeTick t =? 0) && (0 <=? to_s32 (NowTick -w WakeTick t)).

Definition SchedWakeExpired (NowTick : Z) (s : Sched) : option (Z * Sched) :=
  let '(was_enabled, s) := SchedLockIrq s in
  '(woken, s) ← loop queue_fuel (fun '(TaskItem, Woken, s) =>
    match TaskItem with
    | None => Some (inr (Woken, s))
    | Some t =>
        let next := Next (task s t) in
        if wake_due NowTick (task s t) then
          let s := upd t (with_WakeTick 0) s in
          s ← SchedQueueRemove QBlocked t s;
          let s := upd t (with_State TaskReady) s in
          s ← SchedQueueAdd QReady t s;
          Some (inl (next, Woken +w 1, s))
        else Some (inl (next, Woken, s))
    end) (BlockedQueue s, 0, s);
  Some (woken, SchedUnlockIrq was_enabled s).

Definition SchedHasRunnable (s : Sched) : option (bool * Sched) :=
  let '(was_enabled, s) := SchedLockIrq s in
  r ← loop queue_fuel (fun TaskItem =>
    match TaskItem with
    | None => Some (inr false)
    | Some t => if decide (Some t <> CurrentTask s) then Some (inr true)
                else Some (inl (Next (task s t)))
    end) (ReadyQueue s);
  Some (r, SchedUnlockIrq was_enabled s).

(** The shared tail of SchedExit and SchedKill: unlink, reset, bury. *)
Definition bury (t : nat) (s : Sched) : option Sched :=
  s ← SchedQueueRemove QReady t s;
  s ← SchedQueueRemove QBlocked t s;
  let s := upd t SchedResetTask s in
  s ← SchedQueueAdd QDead t s;
  Some (if 0 <? TaskCountValue s then set_TaskCountValue (TaskCountValue s -w 1) s else s).

Definition SchedExit_resume (s : Sched) : Sched :=
  match CurrentTask s with
  | None => upd 0 (with_State TaskRunning) (set_CurrentTask (Some 0%nat) s)
  | Some _ => s
  end.

Definition SchedExit (s : Sched) : option (Out * Sched) :=
  match CurrentTask s with
  | None => Some (Done, s)
  | Some t =>
      if Id (task s t) =? 0 then Some (Done, s)
      else
        let '(was_enabled, s) := SchedLockIrq s in
        s ← bury t s;
        let s := SchedUnlockIrq was_enabled (set_CurrentTask None s) in
        '(out, s) ← SchedYield s;
        match out with
        | Done => Some (Done, SchedExit_resume s)
        | Switched fs => Some (Switched (fs ++ [FrSchedExit]), s)
        end
  end.

Definition SchedKill (id : Z) (s : Sched) : option (Out * Sched) :=
  if id =? 0 then Some (Done, s)
  else if match CurrentTask s with Some c => Id (task s c) =? id | None => false end
  then SchedExit s
  else
    let '(was_enabled, s) := SchedLockIrq s in
    match SchedFind id s with
    | None => Some (Done, SchedUnlockIrq was_enabled s)
    | Some t =>
        if Id (task s t) =? 0 then Some (Done, SchedUnlockIrq was_enabled s)
        else s ← bury t s; Some (Done, SchedUnlockIrq was_enabled s)
    end.

(** The argument is the enum's integer value. *)
Definition SchedSetPolicy (Policy : Z) (s : Sched) : Sched :=
  if Policy =? 0 then set_CurrentPolicy SchedRoundRobin s
  else if Policy =? 1 then set_CurrentPolicy SchedPriority s
  else s.

Definition SchedGetPolicy (s : Sched) : SchedPolicy := CurrentPolicy s.

Definition SchedSetPriority (TaskItem : option nat) (priority : Z) (s : Sched) : Sched :=
  match TaskItem with
  | None => s
  | Some t =>
      if decide (State (task s t) = TaskDead) then s
      else upd t (with_Priority (if 255 <? priority then 255 else priority)) s
  end.

Definition SchedGetPriority (TaskItem : option nat) (s : Sched) : Z :=
  match TaskItem with
  | None => 0
  | Some t => Priority (task s t)
  end.

Record SchedStats := mkStats {
  TotalTasks : Z; RunningTasks : Z; ReadyTasks : Z; BlockedTasks : Z; DeadTasks : Z;
  StatTicks : Z; StatSwitches : Z }.

Definition stat_add (st : TaskState) (x : SchedStats) : SchedStats :=
  match st with
  | TaskRunning => mkStats (TotalTasks x) (RunningTasks x +w 1) (ReadyTasks x)
                     (BlockedTasks x) (DeadTasks x) (StatTicks x) (StatSwitches x)
  | TaskReady => mkStats (TotalTasks x) (RunningTasks x) (ReadyTasks x +w 1)
                     (BlockedTasks x) (DeadTasks x) (StatTicks x) (StatSwitches x)
  | TaskBlocked => mkStats (TotalTasks x) (RunningTasks x) (ReadyTasks x)
                     (BlockedTasks x +w 1) (DeadTasks x) (StatTicks x) (StatSwitches x)
  | TaskDead => mkStats (TotalTasks x) (RunningTasks x) (ReadyTasks x)
                     (BlockedTasks x) (DeadTasks x +w 1) (StatTicks x) (StatSwitches x)
  end.

(** What is stored through a non-null [Stats]. The interrupt flag is put back,
    so the scheduler's own state does not change. *)
Definition SchedGetStats (s : Sched) : SchedStats :=
  foldl (fun x t => stat_add (State t) x)
    (mkStats (TaskCountValue s) 0 0 0 0 (SchedulerTicks s) (ContextSwitches s)) (Tasks s).

Definition SchedLock (s : Sched) : Sched := set_SchedulerLocked (SchedulerLocked s +w 1) s.
Definition SchedUnlock (s : Sched) : Sched :=
  if 0 <? SchedulerLocked s then set_SchedulerLocked (SchedulerLocked s -w 1) s else s.

(** ** Resuming *)

(** The rest of a suspended call, run when its task is resumed. *)
Definition run_frame (f : SFrame) (s : Sched) : option Sched :=
  match f with
  | FrSchedYield was_enabled => Some (SchedUnlockIrq was_enabled s)
  | FrSchedBlockTask t => SchedBlockTask_resume t s
  | FrSchedSleepUntil t => Some (upd t (with_WakeTick 0) s)
  | FrSchedExit => Some (SchedExit_resume s)
  end.

(** The machine state at power-on: .bss is zero. *)
Definition sched_bss : Sched :=
  mkSched (replicate 32 zero_task) None None None None SchedRoundRobin 0 0 0 0 0 false true ∅ 0.
