(* ===== verification/Machine.v ===== *)
(** * The processor, as far as the assembly uses it

    Registers, flags and byte memory of a 32-bit x86 in ring 0, and the
    instructions that switch.S, isr.S, bootstrap.S and the inline assembly of
    asm/cpu.h are written with. Segments are flat and paging is the identity,
    as the kernel sets them up, so that an address is its effective address and
    no instruction faults. *)

From S2P Require Import Prelude.

(** ** State *)

Inductive Reg := EAX | EBX | ECX | EDX | ESI | EDI | EBP | ESP.
Inductive SReg := CS | DS | ES | FS | GS | SS.

Record Gpr := mkGpr {
  r_eax : Z; r_ebx : Z; r_ecx : Z; r_edx : Z; r_esi : Z; r_edi : Z; r_ebp : Z; r_esp : Z }.
Record Segs := mkSegs { s_cs : Z; s_ds : Z; s_es : Z; s_fs : Z; s_gs : Z; s_ss : Z }.

Record Cpu := mkCpu {
  gpr : Gpr; segs : Segs; cpu_flags : Z; cpu_ip : Z; cpu_mem : Mem }.

Definition reg (r : Reg) (c : Cpu) : Z :=
  match r with
  | EAX => r_eax (gpr c) | EBX => r_ebx (gpr c) | ECX => r_ecx (gpr c) | EDX => r_edx (gpr c)
  | ESI => r_esi (gpr c) | EDI => r_edi (gpr c) | EBP => r_ebp (gpr c) | ESP => r_esp (gpr c)
  end.

Definition sreg (s : SReg) (c : Cpu) : Z :=
  match s with
  | CS => s_cs (segs c) | DS => s_ds (segs c) | ES => s_es (segs c)
  | FS => s_fs (segs c) | GS => s_gs (segs c) | SS => s_ss (segs c)
  end.

Definition put_reg (r : Reg) (v : Z) (g : Gpr) : Gpr :=
  let '(mkGpr a b c d si di bp sp) := g in
  match r with
  | EAX => mkGpr v b c d si di bp sp | EBX => mkGpr a v c d si di bp sp
  | ECX => mkGpr a b v d si di bp sp | EDX => mkGpr a b c v si di bp sp
  | ESI => mkGpr a b c d v di bp sp | EDI => mkGpr a b c d si v bp sp
  | EBP => mkGpr a b c d si di v sp | ESP => mkGpr a b c d si di bp v
  end.

Definition put_sreg (s : SReg) (v : Z) (g : Segs) : Segs :=
  let '(mkSegs c d e f g' s') := g in
  match s with
  | CS => mkSegs v d e f g' s' | DS => mkSegs c v e f g' s' | ES => mkSegs c d v f g' s'
  | FS => mkSegs c d e v g' s' | GS => mkSegs c d e f v s' | SS => mkSegs c d e f g' v
  end.

Definition set_reg (r : Reg) (v : Z) (c : Cpu) : Cpu :=
  mkCpu (put_reg r v (gpr c)) (segs c) (cpu_flags c) (cpu_ip c) (cpu_mem c).
Definition set_sreg (s : SReg) (v : Z) (c : Cpu) : Cpu :=
  mkCpu (gpr c) (put_sreg s v (segs c)) (cpu_flags c) (cpu_ip c) (cpu_mem c).
Definition set_flags (v : Z) (c : Cpu) : Cpu := mkCpu (gpr c) (segs c) v (cpu_ip c) (cpu_mem c).
Definition set_ip (v : Z) (c : Cpu) : Cpu := mkCpu (gpr c) (segs c) (cpu_flags c) v (cpu_mem c).
Definition set_mem (m : Mem) (c : Cpu) : Cpu := mkCpu (gpr c) (segs c) (cpu_flags c) (cpu_ip c) m.

(** ** Flags *)

Definition FLAG_IF : Z := 9.
Definition FLAG_DF : Z := 10.

(** The flags that a load of EFLAGS can set in this kernel (no virtual-8086
    mode, no debugging); bit 1 always reads as one. *)
Definition norm_flags (v : Z) : Z := Z.lor (Z.land v 2392021) 2.

Definition parity (v : Z) : bool :=
  Nat.even (length (filter (fun i => Z.testbit v i = true) [0; 1; 2; 3; 4; 5; 6; 7])).

(** The result flags CF, PF, AF, ZF, SF and OF; the other flags stay. *)
Definition put_flags (cf pf af zf sf ovf : bool) (f : Z) : Z :=
  Z.lor (Z.land f (Z.lnot 2261))
    (Z.b2z cf + 4 * Z.b2z pf + 16 * Z.b2z af + 64 * Z.b2z zf + 128 * Z.b2z sf + 2048 * Z.b2z ovf).

Definition add_flags (a b f : Z) : Z :=
  let r := a +w b in
  put_flags (4294967296 <=? a + b) (parity r) (16 <=? a mod 16 + b mod 16) (r =? 0) (Z.testbit r 31)
    (eqb (Z.testbit a 31) (Z.testbit b 31) && negb (eqb (Z.testbit r 31) (Z.testbit a 31))) f.

Definition sub_flags (a b f : Z) : Z :=
  let r := a -w b in
  put_flags (a <? b) (parity r) (a mod 16 <? b mod 16) (r =? 0) (Z.testbit r 31)
    (negb (eqb (Z.testbit a 31) (Z.testbit b 31)) && negb (eqb (Z.testbit r 31) (Z.testbit a 31))) f.

(** AF is undefined after xor; it is kept here. *)
Definition xor_flags (r f : Z) : Z :=
  put_flags false (parity r) (Z.testbit f 4) (r =? 0) (Z.testbit r 31) false f.

(** ** Instructions, in the order of operands of the source (source first) *)

Inductive place := Rg (r : Reg) | At (disp : Z) (base : Reg).
Inductive operand := Imm (v : Z) | Pl (p : place).

Inductive instr :=
| Movl (src : operand) (dst : place)
| Movw_imm (v : Z) (dst : Reg)
| Movw_seg (src : Reg) (dst : SReg)
| Pushl (src : operand)
| Popl (dst : Reg)
| Push_seg (src : SReg)
| Pop_seg (dst : SReg)
| Pushfl
| Popfl
| Pusha
| Popa
| Addl (v : Z) (dst : Reg)
| Subl (src dst : Reg)
| Xorl (src dst : Reg)
| Cli
| Sti
| Cld
| Rep_stosb
| Jmp (target : Z)
| Call (target ret : Z)   (* [ret] is the address of the next instruction *)
| Ret
| Iret.

Definition ea (disp : Z) (base : Reg) (c : Cpu) : Z := reg base c +w disp.

Definition fetch (o : operand) (c : Cpu) : Z :=
  match o with
  | Imm v => wrap32 v
  | Pl (Rg r) => reg r c
  | Pl (At disp base) => load32 (cpu_mem c) (ea disp base c)
  end.

Definition push (v : Z) (c : Cpu) : Cpu :=
  let sp := reg ESP c -w 4 in set_reg ESP sp (set_mem (store32 (cpu_mem c) sp v) c).

(** The word on top of the stack, and the state without it. *)
Definition top (c : Cpu) : Z := load32 (cpu_mem c) (reg ESP c).
Definition drop_top (c : Cpu) : Cpu := set_reg ESP (reg ESP c +w 4) c.

(** A 16-bit store: what processors do for a segment register pushed with a
    32-bit operand size. The upper half of the word keeps what it held. *)
Definition store16 (m : Mem) (a v : Z) : Mem := store8 (store8 m a v) (a + 1) (v / 256).

Definition push_seg (s : SReg) (c : Cpu) : Cpu :=
  let sp := reg ESP c -w 4 in
  set_reg ESP sp (set_mem (store16 (cpu_mem c) sp (sreg s c)) c).

Definition fill (a : Z) (n : nat) (v : Z) (m : Mem) : Mem :=
  foldl (fun m i => store8 m (a +w Z.of_nat i) v) m (seq 0 n).

Definition pusha (c : Cpu) : Cpu :=
  let sp := reg ESP c in
  push (reg EDI c) (push (reg ESI c) (push (reg EBP c) (push sp
    (push (reg EBX c) (push (reg EDX c) (push (reg ECX c) (push (reg EAX c) c))))))).

Definition pop_reg (r : Reg) (c : Cpu) : Cpu := let v := top c in set_reg r v (drop_top c).

(** popa skips the saved stack pointer. *)
Definition popa (c : Cpu) : Cpu :=
  pop_reg EAX (pop_reg ECX (pop_reg EDX (pop_reg EBX (drop_top
    (pop_reg EBP (pop_reg ESI (pop_reg EDI c))))))).

Definition step (i : instr) (c : Cpu) : Cpu :=
  match i with
  | Movl src (Rg r) => set_reg r (fetch src c) c
  | Movl src (At disp base) => set_mem (store32 (cpu_mem c) (ea disp base c) (fetch src c)) c
  | Movw_imm v dst => set_reg dst (reg dst c / 65536 * 65536 + v mod 65536) c
  | Movw_seg src dst => set_sreg dst (reg src c mod 65536) c
  | Pushl src => push (fetch src c) c
  | Popl dst => pop_reg dst c
  | Push_seg s => push_seg s c
  | Pop_seg s => let v := top c in set_sreg s (v mod 65536) (drop_top c)
  | Pushfl => push (cpu_flags c) c
  | Popfl => let v := top c in set_flags (norm_flags v) (drop_top c)
  | Pusha => pusha c
  | Popa => popa c
  | Addl v dst =>
      let v := wrap32 v in set_flags (add_flags (reg dst c) v (cpu_flags c)) (set_reg dst (reg dst c +w v) c)
  | Subl src dst =>
      set_flags (sub_flags (reg dst c) (reg src c) (cpu_flags c)) (set_reg dst (reg dst c -w reg src c) c)
  | Xorl src dst =>
      let r := Z.lxor (reg dst c) (reg src c) in
      set_flags (xor_flags r (cpu_flags c)) (set_reg dst r c)
  | Cli => set_flags (Z.clearbit (cpu_flags c) FLAG_IF) c
  | Sti => set_flags (Z.setbit (cpu_flags c) FLAG_IF) c
  | Cld => set_flags (Z.clearbit (cpu_flags c) FLAG_DF) c
  | Rep_stosb =>
      let n := Z.to_nat (reg ECX c) in
      let al := reg EAX c mod 256 in
      let up := negb (Z.testbit (cpu_flags c) FLAG_DF) in
      let lo := if up then reg EDI c else reg EDI c -w (reg ECX c - 1) in
      let di := if up then reg EDI c +w reg ECX c else reg EDI c -w reg ECX c in
      set_reg ECX 0 (set_reg EDI di (set_mem (fill lo n al (cpu_mem c)) c))
  | Jmp target => set_ip (wrap32 target) c
  | Call target ret => set_ip (wrap32 target) (push (wrap32 ret) c)
  | Ret => let v := top c in set_ip v (drop_top c)
  | Iret =>
      let ip := top c in let c := drop_top c in
      let cs := top c in let c := drop_top c in
      let f := top c in let c := drop_top c in
      set_flags (norm_flags f) (set_sreg CS (cs mod 65536) (set_ip ip c))
  end.

(** A straight run of instructions. The instruction pointer is only followed
    across control transfers, which end a run. *)
Definition exec (code : list instr) (c : Cpu) : Cpu := foldl (fun c i => step i c) c code.

Lemma exec_app k1 k2 c : exec (k1 ++ k2) c = exec k2 (exec k1 c).
Proof. apply foldl_app. Qed.

Lemma exec_cons i code c : exec (i :: code) c = exec code (step i c).
Proof. done. Qed.

(** ** Reading what was stored *)

Lemma load32_store32_at m a v b : a = b -> load32 (store32 m a v) b = wrap32 v.
Proof. intros ->. apply load32_store32_eq. Qed.

Lemma load32_store16_ne m a v b : b + 4 <= a \/ a + 2 <= b -> load32 (store16 m a v) b = load32 m b.
Proof. intros. unfold store16. rewrite !load32_store8_ne by lia. done. Qed.

Lemma load32_store16_at m a v b : a = b -> load32 (store16 m a v) b mod 65536 = v mod 65536.
Proof.
  intros ->. unfold load32, store16. rewrite !load8_store8. repeat (case_decide; try lia).
  Z.to_euclidean_division_equations; lia.
Qed.

(** A word read is determined by its bytes, and determines them. *)
Lemma load32_agree m m' a :
  (forall b, a <= b < a + 4 -> load8 m' b = load8 m b) -> load32 m' a = load32 m a.
Proof. intros H. unfold load32. rewrite !H by lia. done. Qed.

Lemma load32_bytes m m' a b :
  load32 m' a = load32 m a -> a <= b < a + 4 -> load8 m' b = load8 m b.
Proof.
  unfold load32. intros E Hb.
  pose proof (load8_range m a). pose proof (load8_range m (a + 1)).
  pose proof (load8_range m (a + 2)). pose proof (load8_range m (a + 3)).
  pose proof (load8_range m' a). pose proof (load8_range m' (a + 1)).
  pose proof (load8_range m' (a + 2)). pose proof (load8_range m' (a + 3)).
  assert (b = a \/ b = a + 1 \/ b = a + 2 \/ b = a + 3) as [->|[->|[->| ->]]] by lia; lia.
Qed.

(** Follow a read through the stores before it. *)
Ltac mem_simpl := repeat first
  [ rewrite load32_store32_at by lia | rewrite load32_store16_at by lia
  | rewrite load32_store32_ne by lia | rewrite load32_store16_ne by lia ].

(** ** Registers and flags *)

#[global] Instance Reg_eq_dec : EqDecision Reg.
Proof. solve_decision. Defined.
#[global] Instance SReg_eq_dec : EqDecision SReg.
Proof. solve_decision. Defined.

Lemma reg_set_reg r r' v c : reg r (set_reg r' v c) = if decide (r = r') then v else reg r c.
Proof. destruct c as [[] ? ? ? ?], r, r'; reflexivity. Qed.

Lemma sreg_set_sreg s s' v c : sreg s (set_sreg s' v c) = if decide (s = s') then v else sreg s c.
Proof. destruct c as [? [] ? ? ?], s, s'; reflexivity. Qed.

Definition flags_ok (f : Z) : Prop := norm_flags f = f.

Lemma norm_flags_ok v : flags_ok (norm_flags v).
Proof.
  unfold flags_ok, norm_flags. rewrite Z.land_lor_distr_l, <- Z.land_assoc, <- Z.lor_assoc. done.
Qed.

Lemma flags_ok_mask f k y :
  flags_ok f -> Z.land 2 (Z.lnot k) = 2 -> Z.land y 2392021 = y ->
  flags_ok (Z.lor (Z.land f (Z.lnot k)) y).
Proof.
  intros Hf Hk Hy. unfold flags_ok, norm_flags in *.
  set (g := Z.land f 2392021) in *.
  assert (E : Z.land f (Z.lnot k) = Z.lor (Z.land g (Z.lnot k)) 2)
    by (rewrite <- Hf, Z.land_lor_distr_l, Hk; done).
  assert (Eg : Z.land (Z.land g (Z.lnot k)) 2392021 = Z.land g (Z.lnot k)).
  { rewrite <- Z.land_assoc, (Z.land_comm (Z.lnot k)), Z.land_assoc. f_equal.
    unfold g. by rewrite <- Z.land_assoc, Z.land_diag. }
  rewrite E, !Z.land_lor_distr_l, Eg, Hy. change (Z.land 2 2392021) with 0.
  rewrite Z.lor_0_r, <- !Z.lor_assoc. f_equal. apply Z.lor_comm.
Qed.

(** Arithmetic leaves the control flags alone. *)
Lemma put_flags_control n cf pf af zf sf ovf f :
  n = FLAG_IF \/ n = FLAG_DF -> Z.testbit (put_flags cf pf af zf sf ovf f) n = Z.testbit f n.
Proof.
  intros Hn. unfold put_flags. rewrite Z.lor_spec, Z.land_spec.
  assert (E1 : Z.testbit (Z.lnot 2261) n = true) by by destruct Hn as [->| ->].
  rewrite E1, andb_true_r.
  destruct Hn as [->| ->], cf, pf, af, zf, sf, ovf; apply orb_false_r.
Qed.

Lemma put_flags_ok cf pf af zf sf ovf f : flags_ok f -> flags_ok (put_flags cf pf af zf sf ovf f).
Proof. intros Hf. apply flags_ok_mask; [done..|]. by destruct cf, pf, af, zf, sf, ovf. Qed.

Lemma clear_flag_ok n f : n = FLAG_IF \/ n = FLAG_DF -> flags_ok f -> flags_ok (Z.clearbit f n).
Proof.
  intros Hn Hf. rewrite Z.clearbit_spec', Z.ldiff_land.
  rewrite <- (Z.lor_0_r (Z.land f _)). apply flags_ok_mask; [done| |done]. by destruct Hn as [->| ->].
Qed.

Lemma set_if_ok f : flags_ok f -> flags_ok (Z.setbit f FLAG_IF).
Proof.
  intros Hf. rewrite Z.setbit_spec', <- (Z.land_m1_r f). by apply (flags_ok_mask f 0).
Qed.

Lemma flags_ok_u32 f : flags_ok f -> is_u32 f.
Proof.
  intros <-. unfold norm_flags.
  assert (E : Z.land (Z.lor (Z.land f 2392021) 2) (Z.ones 32) = Z.lor (Z.land f 2392021) 2)
    by (rewrite Z.land_lor_distr_l, <- Z.land_assoc; done).
  rewrite <- E, Z.land_ones by lia. apply wrap32_range.
Qed.

(** ** Well-formed states *)

(** Every register holds what its width allows. *)
Record cpu_wf (c : Cpu) : Prop := {
  w_reg : forall r, is_u32 (reg r c);
  w_sreg : forall s, 0 <= sreg s c < 65536;
  w_flags : flags_ok (cpu_flags c);
  w_ip : is_u32 (cpu_ip c) }.

Lemma set_reg_wf r v c : is_u32 v -> cpu_wf c -> cpu_wf (set_reg r v c).
Proof.
  intros Hv [Hr Hs Hf Hi]. split; [|exact Hs|exact Hf|exact Hi].
  intros r'. rewrite reg_set_reg. case_decide; [done|apply Hr].
Qed.

Lemma set_sreg_wf s v c : 0 <= v < 65536 -> cpu_wf c -> cpu_wf (set_sreg s v c).
Proof.
  intros Hv [Hr Hs Hf Hi]. split; [exact Hr| |exact Hf|exact Hi].
  intros s'. rewrite sreg_set_sreg. case_decide; [done|apply Hs].
Qed.

Lemma set_flags_wf v c : flags_ok v -> cpu_wf c -> cpu_wf (set_flags v c).
Proof. by intros Hv []. Qed.
Lemma set_ip_wf v c : is_u32 v -> cpu_wf c -> cpu_wf (set_ip v c).
Proof. by intros Hv []. Qed.
Lemma set_mem_wf m c : cpu_wf c -> cpu_wf (set_mem m c).
Proof. by intros []. Qed.
Lemma seg_range v : 0 <= v mod 65536 < 65536.
Proof. apply Z.mod_pos_bound. lia. Qed.
Lemma top_range c : is_u32 (top c).
Proof. apply load32_range. Qed.

Lemma zero_u32 : is_u32 0.
Proof. u32. Qed.

Create HintDb machine.
#[export] Hint Resolve set_reg_wf set_sreg_wf set_flags_wf set_ip_wf set_mem_wf seg_range
  wrap32_range top_range zero_u32 norm_flags_ok put_flags_ok clear_flag_ok set_if_ok w_reg w_flags w_ip
  load32_range : machine.

Lemma drop_top_wf c : cpu_wf c -> cpu_wf (drop_top c).
Proof. unfold drop_top. auto with machine. Qed.
Lemma push_wf v c : cpu_wf c -> cpu_wf (push v c).
Proof. unfold push. auto with machine. Qed.
Lemma pop_reg_wf r c : cpu_wf c -> cpu_wf (pop_reg r c).
Proof. unfold pop_reg, drop_top. auto with machine. Qed.
#[export] Hint Resolve drop_top_wf push_wf pop_reg_wf : machine.

Lemma fetch_u32 o c : cpu_wf c -> is_u32 (fetch o c).
Proof. intros H. destruct o as [v|[r|d b]]; cbn; auto with machine. Qed.
#[export] Hint Resolve fetch_u32 : machine.

Lemma xor_u32 a b : is_u32 a -> is_u32 b -> is_u32 (Z.lxor a b).
Proof.
  intros Ha Hb. assert (E : Z.land (Z.lxor a b) (Z.ones 32) = Z.lxor a b).
  { apply Z.bits_inj'. intros n Hn. rewrite Z.land_spec, Z.lxor_spec, Z.testbit_ones_nonneg by lia.
    destruct (Z.ltb_spec n 32); [by rewrite andb_true_r|].
    assert (Hz : forall z, is_u32 z -> Z.testbit z n = false).
    { intros z [? Hz]. apply Z.bits_above_log2; [done|].
      destruct (Z.eq_dec z 0) as [->|]; [cbn; lia|]. apply Z.log2_lt_pow2; [lia|].
      apply Z.lt_le_trans with (2 ^ 32); [done|]. by apply Z.pow_le_mono_r. }
    by rewrite !Hz. }
  rewrite <- E, Z.land_ones by lia. apply wrap32_range.
Qed.
#[export] Hint Resolve xor_u32 : machine.

Lemma step_wf i c : cpu_wf c -> cpu_wf (step i c).
Proof.
  intros Hc. destruct i as [src [r|d b]|v dst| | | | | | | | | |v dst| | | | | | | | | | ]; cbn [step];
    unfold pusha, popa, push_seg, add_flags, sub_flags, xor_flags; auto 12 with machine.
  - apply set_reg_wf; [|done]. pose proof (w_reg _ Hc dst). unfold is_u32 in *.
    Z.to_euclidean_division_equations; lia.
  - destruct (negb _); auto with machine.
Qed.

Lemma exec_wf code c : cpu_wf c -> cpu_wf (exec code c).
Proof. revert c. induction code; intros c Hc; [done|]. apply IHcode. by apply step_wf. Qed.

(** Run instructions on a state given by its fields, leaving memory accesses
    and arithmetic alone. *)
Ltac run_machine :=
  cbv beta iota zeta delta [exec foldl step fetch push pop_reg top drop_top push_seg pusha popa ea
    set_reg set_sreg set_flags set_ip set_mem put_reg put_sreg reg sreg
    gpr segs cpu_mem cpu_flags cpu_ip r_eax r_ebx r_ecx r_edx r_esi r_edi r_ebp r_esp
    s_cs s_ds s_es s_fs s_gs s_ss].

(** Add up the constants of an address. *)
Ltac add_consts :=
  rewrite <- ?Z.sub_add_distr, <- ?Z.add_assoc;
  repeat match goal with
  | |- context [Z.add (Zpos ?a) (Zpos ?b)] =>
      let r := eval compute in (Z.add (Zpos a) (Zpos b)) in change (Z.add (Zpos a) (Zpos b)) with r
  end.
