(* ===== verification/Switch.v ===== *)
(** * The context switch (arch/x86_32/kernel/switch.S)

    SchedSwitch as its instructions, what one switch does to the registers and
    the two stacks, and the machine of many tasks that switch among each other:
    every task goes on exactly where it stopped. *)

From S2P Require Import Prelude Sched Machine.

(** ** The code *)

Definition SchedSwitch : list instr :=
  [ Pushfl; Pushl (Pl (Rg EBP)); Pushl (Pl (Rg EBX)); Pushl (Pl (Rg ESI)); Pushl (Pl (Rg EDI));
    Movl (Pl (At 24 ESP)) (Rg EAX);
    Movl (Pl (Rg ESP)) (At 0 EAX);
    Movl (Pl (At 28 ESP)) (Rg ESP);
    Popl EDI; Popl ESI; Popl EBX; Popl EBP; Popfl;
    Ret ].

(** ** One switch *)

(** What the code of a task can tell of the processor after a call: the
    registers a call preserves, the flags, and where it is. *)
Record Context := mkCtx {
  c_edi : Z; c_esi : Z; c_ebx : Z; c_ebp : Z; c_flags : Z; c_eip : Z; c_esp : Z }.

Definition now (c : Cpu) : Context :=
  mkCtx (reg EDI c) (reg ESI c) (reg EBX c) (reg EBP c) (cpu_flags c) (cpu_ip c) (reg ESP c).

(** The context in which a call that is being entered will return. *)
Definition returning (c : Cpu) : Context :=
  mkCtx (reg EDI c) (reg ESI c) (reg EBX c) (reg EBP c) (cpu_flags c) (top c) (reg ESP c + 4).

(** The context stored on the stack of a task that was switched away from. *)
Definition suspended (m : Mem) (sp : Z) : Context :=
  mkCtx (load32 m sp) (load32 m (sp + 4)) (load32 m (sp + 8)) (load32 m (sp + 12))
    (norm_flags (load32 m (sp + 16))) (load32 m (sp + 20)) (sp + 24).

(** The arguments of the call: where to store the stack pointer, and the one
    to load. *)
Definition OldEsp (c : Cpu) : Z := load32 (cpu_mem c) (reg ESP c + 4).
Definition NewEsp (c : Cpu) : Z := load32 (cpu_mem c) (reg ESP c + 8).

(** Two ranges of bytes without a common one. *)
Definition apart (a n b k : Z) : Prop := a + n <= b \/ b + k <= a.

(** The call has room on its stack, and what it writes is apart from what it
    reads. *)
Record switch_ready (c : Cpu) : Prop := {
  sr_lo : 20 <= reg ESP c;
  sr_hi : reg ESP c + 12 < 4294967296;
  sr_frame : NewEsp c + 24 < 4294967296;
  sr_slot : apart (OldEsp c) 4 (reg ESP c - 20) 32;
  sr_new : apart (NewEsp c) 24 (reg ESP c - 20) 20;
  sr_new_slot : apart (NewEsp c) 24 (OldEsp c) 4 }.

(** Memory after the five pushes and the store of the stack pointer. *)
Definition switch_mem (c : Cpu) : Mem :=
  let sp := reg ESP c in
  let m := store32 (cpu_mem c) (sp - 4) (cpu_flags c) in
  let m := store32 m (sp - 8) (reg EBP c) in
  let m := store32 m (sp - 12) (reg EBX c) in
  let m := store32 m (sp - 16) (reg ESI c) in
  let m := store32 m (sp - 20) (reg EDI c) in
  store32 m (OldEsp c) (sp - 20).

Ltac apart_lia := unfold apart in *; lia.
Ltac mem_apart := unfold apart in *; mem_simpl.

Lemma switch_exec c :
  cpu_wf c -> switch_ready c ->
  exec SchedSwitch c =
    let k := suspended (cpu_mem c) (NewEsp c) in
    mkCpu (mkGpr (OldEsp c) (c_ebx k) (reg ECX c) (reg EDX c) (c_esi k) (c_edi k) (c_ebp k) (c_esp k))
      (segs c) (c_flags k) (c_eip k) (switch_mem c).
Proof.
  intros Hwf [Hlo Hhi Hfr Hsl Hnw Hns].
  pose proof (load32_range (cpu_mem c) (reg ESP c + 4)) as HO.
  pose proof (load32_range (cpu_mem c) (reg ESP c + 8)) as HN.
  unfold switch_mem. unfold OldEsp, NewEsp in *. destruct c as [[a b cx d si di bp sp] sg f ip m].
  cbn [reg gpr r_esp r_eax r_ebx r_ecx r_edx r_esi r_edi r_ebp cpu_mem cpu_flags segs] in *.
  set (O := load32 m (sp + 4)) in *. set (N := load32 m (sp + 8)) in *.
  unfold SchedSwitch. unfold is_u32 in *.
  run_machine. unwrap. add_consts.
  set (M := store32 (store32 (store32 (store32 (store32 m _ _) _ _) _ _) _ _) _ _).
  assert (Hm : forall a, apart a 4 (sp - 20) 20 -> load32 M a = load32 m a)
    by (intros; unfold M; mem_apart; done).
  rewrite !Hm by apart_lia.
  replace (sp - 20 + 24) with (sp + 4) by lia. fold O. rewrite (Z.add_0_r O), (wrap32_small O) by done.
  assert (E : load32 (store32 M O (sp - 20)) (sp - 20 + 28) = N).
  { mem_apart. rewrite Hm by apart_lia. unfold N. f_equal. lia. }
  rewrite E. unwrap. add_consts.
  assert (Hk : forall a, apart a 4 (sp - 20) 20 -> apart a 4 O 4 -> load32 (store32 M O (sp - 20)) a = load32 m a).
  { intros. mem_apart. apply Hm; apart_lia. }
  rewrite !Hk by apart_lia. done.
Qed.

(** The bytes one switch writes: the frame below the stack pointer and the
    slot. *)
Lemma switch_mem_other c a :
  ~ (reg ESP c - 20 <= a < reg ESP c) -> ~ (OldEsp c <= a < OldEsp c + 4) ->
  load8 (switch_mem c) a = load8 (cpu_mem c) a.
Proof. intros H1 H2. unfold switch_mem. rewrite !load8_store32_ne by lia. done. Qed.

Lemma switch_mem_slot c :
  cpu_wf c -> switch_ready c -> load32 (switch_mem c) (OldEsp c) = reg ESP c - 20.
Proof.
  intros Hwf [Hlo Hhi _ _ _ _]. unfold switch_mem. rewrite load32_store32_eq. unwrap. done.
Qed.

Lemma switch_mem_saved c :
  cpu_wf c -> switch_ready c -> suspended (switch_mem c) (reg ESP c - 20) = returning c.
Proof.
  intros Hwf [Hlo Hhi _ Hs _ _]. unfold suspended, returning, switch_mem, top.
  replace (reg ESP c - 20 + 24) with (reg ESP c + 4) by lia. mem_apart.
  rewrite (Z.sub_add 20 (reg ESP c)).
  rewrite (wrap32_small (cpu_flags c)) by (apply flags_ok_u32; apply Hwf).
  rewrite (w_flags _ Hwf), !wrap32_small by apply Hwf. done.
Qed.

Lemma suspended_agree m m' sp :
  (forall a, sp <= a < sp + 24 -> load8 m' a = load8 m a) -> suspended m' sp = suspended m sp.
Proof.
  intros H. unfold suspended. rewrite !(load32_agree m m') by (intros; apply H; lia). done.
Qed.

(** ** A fresh stack *)

(** Where a new task starts: in SchedExitStub, with interrupts on. *)
Definition fresh_context (SchedExitStub StackTop : Z) : Context :=
  mkCtx 0 0 0 0 514 SchedExitStub (StackTop - 8).

Lemma SchedInitStack_frame stub t Entry StackTop s :
  is_u32 stub -> is_u32 Entry -> 32 <= StackTop < 4294967296 ->
  let s' := SchedInitStack stub t Entry StackTop s in
  suspended (stack_mem s') (StackTop - 32) = fresh_context stub StackTop /\
  load32 (stack_mem s') (StackTop - 8) = 0 /\ load32 (stack_mem s') (StackTop - 4) = Entry /\
  (forall a, ~ (StackTop - 32 <= a < StackTop) -> load8 (stack_mem s') a = load8 (stack_mem s) a) /\
  ((t < length (Tasks s))%nat -> Esp (task s' t) = StackTop - 32).
Proof.
  intros Hst He Ht. cbv zeta. unfold SchedInitStack, push32. cbv beta iota zeta. unwrap. add_consts.
  cbn [stack_mem upd set_Tasks set_stack_mem]. unfold suspended, fresh_context.
  split; [|split; [|split; [|split]]].
  - replace (StackTop - 32 + 24) with (StackTop - 8) by lia. mem_apart.
    rewrite (wrap32_small stub) by done. done.
  - mem_apart. done.
  - mem_apart. by apply wrap32_small.
  - intros a Ha. rewrite !load8_store32_ne by lia. done.
  - intros Hlt. unfold task. cbn [Tasks upd set_Tasks set_stack_mem].
    destruct (Tasks s !! t) as [k|] eqn:E; [|by apply lookup_ge_None in E; lia].
    rewrite list_lookup_alter_eq, E. done.
Qed.

(** ** Many tasks *)

(** Task [i] has the stack [lo i, hi i) and its descriptor keeps its stack
    pointer at [slot i] (Tasks[i].Esp). *)
Record Layout := mkLayout { slot : nat -> Z; lo : nat -> Z; hi : nat -> Z; ntasks : nat }.

Record layout_ok (L : Layout) : Prop := {
  l_stack : forall i, (i < ntasks L)%nat -> 0 <= lo L i /\ lo L i + 32 <= hi L i < 4294967296;
  l_slot : forall i, (i < ntasks L)%nat -> 0 <= slot L i < 4294967292;
  l_stacks : forall i j, (i < ntasks L)%nat -> (j < ntasks L)%nat -> i <> j ->
    hi L i <= lo L j \/ hi L j <= lo L i;
  l_slots : forall i j, (i < ntasks L)%nat -> (j < ntasks L)%nat -> i <> j ->
    apart (slot L i) 4 (slot L j) 4;
  l_mixed : forall i j, (i < ntasks L)%nat -> (j < ntasks L)%nat ->
    slot L i + 4 <= lo L j \/ hi L j <= slot L i }.

(** What happens: the running task executes code of its own up to the state
    [c']; it gives task [j] a fresh stack, as SchedCreate does; it calls
    SchedSwitch to go over to task [j]. *)
Inductive event := Work (c' : Cpu) | Spawn (j : nat) (Entry : Z) | SwitchTo (j : nat).

(** *** The processor and its memory *)

Record System := mkSystem { cur : nat; cpu : Cpu }.

(** The bytes that the code of task [i] leaves alone: the stacks of the others
    and the saved stack pointers. *)
Definition foreign (L : Layout) (i : nat) (a : Z) : Prop :=
  exists j, (j < ntasks L)%nat /\
    ((j <> i /\ lo L j <= a < hi L j) \/ slot L j <= a < slot L j + 4).

(** SchedInitStack on the stack of task [j], and its store to Tasks[j].Esp. *)
Definition spawn_mem (L : Layout) (stub : Z) (j : nat) (Entry : Z) (m : Mem) : Mem :=
  let s := SchedInitStack stub 0 Entry (hi L j) (set_stack_mem m sched_bss) in
  store32 (stack_mem s) (slot L j) (Esp (task s 0)).

(** The call SchedSwitch(&Tasks[i].Esp, Tasks[j].Esp) with room on the stack. *)
Definition calls_switch (L : Layout) (i j : nat) (c : Cpu) : Prop :=
  OldEsp c = slot L i /\ NewEsp c = load32 (cpu_mem c) (slot L j) /\
  lo L i + 20 <= reg ESP c /\ reg ESP c + 12 <= hi L i.

Inductive system_step (L : Layout) (stub : Z) : System -> event -> System -> Prop :=
| step_work i c c' :
    cpu_wf c' -> mem_agree (foreign L i) (cpu_mem c) (cpu_mem c') ->
    system_step L stub (mkSystem i c) (Work c') (mkSystem i c')
| step_spawn i j Entry c :
    (j < ntasks L)%nat -> j <> i -> is_u32 Entry -> lo L i <= reg ESP c ->
    system_step L stub (mkSystem i c) (Spawn j Entry)
      (mkSystem i (set_mem (spawn_mem L stub j Entry (cpu_mem c)) c))
| step_switch i j c :
    j <> i -> calls_switch L i j c ->
    system_step L stub (mkSystem i c) (SwitchTo j) (mkSystem j (exec SchedSwitch c)).

(** *** What the tasks see *)

(** A thread is its context and the memory its stack is read from. *)
Definition Thread : Type := Context * Mem.
Record Threads := mkThreads { running : nat; thread : Thread; parked : gmap nat Thread }.

(** The context a call returns to, from that of its entry. *)
Definition after_call (th : Thread) : Thread :=
  let '(k, m) := th in
  (mkCtx (c_edi k) (c_esi k) (c_ebx k) (c_ebp k) (c_flags k) (load32 m (c_esp k)) (c_esp k + 4), m).

(** The stack of task [j] above the stack pointer of its context. *)
Definition stack_of (L : Layout) (j : nat) (k : Context) (a : Z) : Prop := c_esp k <= a < hi L j.

Definition fresh_thread (L : Layout) (stub : Z) (j : nat) (Entry : Z) : Thread :=
  (fresh_context stub (hi L j), store32 (store32 ∅ (hi L j - 4) Entry) (hi L j - 8) 0).

(** A switch takes up a parked thread as it was left and parks the running one
    at the return of its call. *)
Inductive threads_step (L : Layout) (stub : Z) : Threads -> event -> Threads -> Prop :=
| threads_work i th P c' :
    threads_step L stub (mkThreads i th P) (Work c') (mkThreads i (now c', cpu_mem c') P)
| threads_spawn i k m m' P j Entry :
    mem_agree (stack_of L i k) m m' ->
    threads_step L stub (mkThreads i (k, m) P) (Spawn j Entry)
      (mkThreads i (k, m') (<[j := fresh_thread L stub j Entry]> P))
| threads_switch i th P j k m m' :
    P !! j = Some (k, m) -> mem_agree (stack_of L j k) m m' ->
    threads_step L stub (mkThreads i th P) (SwitchTo j)
      (mkThreads j (k, m') (<[i := after_call th]> (delete j P))).

(** The saved stack pointers in memory lead to the parked threads. *)
Definition parked_at (L : Layout) (m : Mem) (j : nat) (th : Thread) : Prop :=
  let sp := load32 m (slot L j) in
  (j < ntasks L)%nat /\ lo L j <= sp /\ sp + 24 <= hi L j /\
  suspended m sp = th.1 /\ mem_agree (stack_of L j th.1) th.2 m.

Record represents (L : Layout) (s : System) (t : Threads) : Prop := {
  p_cur : running t = cur s;
  p_range : (cur s < ntasks L)%nat;
  p_wf : cpu_wf (cpu s);
  p_thread : thread t = (now (cpu s), cpu_mem (cpu s));
  p_parked : forall j th, parked t !! j = Some th -> j <> cur s /\ parked_at L (cpu_mem (cpu s)) j th }.

(** *** Sequences of events *)

Inductive steps {S : Type} (R : S -> event -> S -> Prop) : S -> list event -> S -> Prop :=
| steps_nil s : steps R s [] s
| steps_cons s1 e s2 es s3 : R s1 e s2 -> steps R s2 es s3 -> steps R s1 (e :: es) s3.

(** Only tasks that were given a stack are switched to: [P] are those that can
    be, [i] is running. *)
Fixpoint only_parked (i : nat) (P : gset nat) (es : list event) : bool :=
  match es with
  | [] => true
  | Work _ :: es => only_parked i P es
  | Spawn j _ :: es => only_parked i ({[j]} ∪ P) es
  | SwitchTo j :: es => bool_decide (j ∈ P) && only_parked j ({[i]} ∪ P ∖ {[j]}) es
  end.

(** *** The simulation *)

Section Simulation.
Context (L : Layout) (stub : Z) (HL : layout_ok L) (Hstub : is_u32 stub).

Lemma parked_at_agree m m' j th :
  parked_at L m j th ->
  (forall a, lo L j <= a < hi L j \/ slot L j <= a < slot L j + 4 -> load8 m' a = load8 m a) ->
  parked_at L m' j th.
Proof.
  intros (Hj & Hlo & Hhi & Hk & Hm) Ha. unfold parked_at.
  rewrite (load32_agree m m') by (intros; apply Ha; lia).
  split; [done|]. split; [done|]. split; [done|].
  assert (Esp : c_esp th.1 = load32 m (slot L j) + 24) by (rewrite <- Hk; done).
  split; [rewrite (suspended_agree m m'); [done|]; intros; apply Ha; lia|].
  intros a Hst. unfold stack_of in *. rewrite <- (Hm a Hst). apply Ha. lia.
Qed.

Lemma spawn_mem_spec j Entry m :
  (j < ntasks L)%nat -> is_u32 Entry ->
  parked_at L (spawn_mem L stub j Entry m) j (fresh_thread L stub j Entry) /\
  (forall a, ~ (lo L j <= a < hi L j) -> ~ (slot L j <= a < slot L j + 4) ->
    load8 (spawn_mem L stub j Entry m) a = load8 m a).
Proof.
  intros Hj He. destruct (l_stack _ HL j Hj) as [H0 H1]. pose proof (l_slot _ HL j Hj) as Hs.
  destruct (SchedInitStack_frame stub 0 Entry (hi L j) (set_stack_mem m sched_bss))
    as (Hf & Hz & HE & Ho & Hp); [done..|lia|].
  assert (Hsp : Esp (task (SchedInitStack stub 0 Entry (hi L j) (set_stack_mem m sched_bss)) 0) = hi L j - 32)
    by (apply Hp; cbn; lia). unfold spawn_mem. rewrite Hsp.
  set (M := stack_mem _) in *. pose proof (l_mixed _ HL j j Hj Hj) as Hmx.
  assert (Ha : forall a, lo L j <= a < hi L j -> load8 (store32 M (slot L j) (hi L j - 32)) a = load8 M a)
    by (intros; apply load8_store32_ne; lia).
  split.
  - unfold parked_at. rewrite load32_store32_eq, wrap32_small by (unfold is_u32; lia).
    split; [done|]. split; [lia|]. split; [lia|]. split.
    + rewrite (suspended_agree M); [done|]. intros; apply Ha; lia.
    + intros a Hst. unfold stack_of in Hst. cbn [fst snd fresh_thread fresh_context c_esp] in *.
      rewrite Ha by lia.
      destruct (Z.lt_ge_cases a (hi L j - 4)); [apply (load32_bytes _ _ (hi L j - 8))|
        apply (load32_bytes _ _ (hi L j - 4))]; try lia; mem_apart; [done|].
      by rewrite HE, wrap32_small.
  - intros a H2 H3. rewrite load8_store32_ne by lia. unfold M. rewrite Ho by lia. done.
Qed.

Lemma calls_switch_ready i j c th :
  (i < ntasks L)%nat -> j <> i -> cpu_wf c -> calls_switch L i j c ->
  parked_at L (cpu_mem c) j th -> switch_ready c.
Proof.
  intros Hi Hne Hwf (HO & HN & H1 & H2) (Hj & Hlo & Hhi & _). rewrite <- HN in Hlo, Hhi.
  destruct (l_stack _ HL i Hi), (l_stack _ HL j Hj).
  pose proof (l_stacks _ HL i j Hi Hj ltac:(done)). pose proof (l_mixed _ HL i i Hi Hi).
  pose proof (l_mixed _ HL i j Hi Hj).
  split; rewrite ?HO; unfold apart; lia.
Qed.

(** The parked threads stay as they are while a switch stores into the stack
    and the slot of the task that calls it. *)
Lemma switch_keeps_parked i j c j' th :
  (i < ntasks L)%nat -> cpu_wf c -> calls_switch L i j c -> j' <> i ->
  parked_at L (cpu_mem c) j' th -> parked_at L (switch_mem c) j' th.
Proof.
  intros Hi Hwf (HO & _ & H1 & H2) Hne Hp. assert (Hj' := Hp). destruct Hj' as [Hj' _].
  apply (parked_at_agree _ _ _ _ Hp). intros a Ha.
  pose proof (l_stacks _ HL i j' Hi Hj' ltac:(done)). pose proof (l_mixed _ HL i j' Hi Hj').
  pose proof (l_mixed _ HL j' i Hj' Hi). pose proof (l_slots _ HL i j' Hi Hj' ltac:(done)).
  apply switch_mem_other; rewrite ?HO; unfold apart in *; lia.
Qed.

(** The task that calls SchedSwitch is parked at the return of the call. *)
Lemma switch_parks i j c :
  (i < ntasks L)%nat -> cpu_wf c -> switch_ready c -> calls_switch L i j c ->
  parked_at L (switch_mem c) i (after_call (now c, cpu_mem c)).
Proof.
  intros Hi Hwf Hr (HO & HN & H1 & H2). unfold parked_at. rewrite <- HO, switch_mem_slot by done.
  split; [done|]. split; [lia|]. split; [lia|]. split; [by rewrite switch_mem_saved|].
  intros a Ha. unfold stack_of in Ha. cbn [fst c_esp after_call now] in Ha.
  pose proof (l_mixed _ HL i i Hi Hi).
  apply switch_mem_other; rewrite ?HO; lia.
Qed.

Lemma system_step_simulated s e s' t :
  system_step L stub s e s' -> represents L s t ->
  (forall j, e = SwitchTo j -> is_Some (parked t !! j)) ->
  exists t', threads_step L stub t e t' /\ represents L s' t'.
Proof.
  intros Hs [Hc Hi Hwf Ht Hp] Hok. destruct t as [r th P]. cbn [running thread parked] in *. subst r.
  destruct Hs as [i c c' Hwf' Hm|i j Entry c Hj Hne HE Hsp|i j c Hne Hcall]; cbn [cur cpu] in *.
  - eexists. split; [apply threads_work|]. split; cbn; [done..|]. intros j th' E.
    destruct (Hp j th' E) as [Hne H]. split; [done|]. apply (parked_at_agree _ _ _ _ H).
    intros a Ha. apply Hm. exists j. destruct H as [Hj _]. split; [done|]. naive_solver.
  - destruct (spawn_mem_spec j Entry (cpu_mem c) Hj HE) as [Hnew Hother]. subst th. eexists.
    split; [eapply threads_spawn with (m' := spawn_mem L stub j Entry (cpu_mem c))|].
    + intros a Ha. unfold stack_of in Ha. cbn [c_esp now] in Ha.
      pose proof (l_stacks _ HL i j Hi Hj ltac:(done)). pose proof (l_mixed _ HL j i Hj Hi).
      apply Hother; lia.
    + split; cbn [cur cpu running thread parked]; [done|done|by apply set_mem_wf|done|].
      intros j' th' E. apply lookup_insert_Some in E as [[-> <-]|[Hj' E]]; [done|].
      destruct (Hp j' th' E) as [Hn H]. split; [done|]. apply (parked_at_agree _ _ _ _ H).
      intros a Ha. destruct H as [Hjn _].
      pose proof (l_stacks _ HL j j' Hj Hjn ltac:(done)). pose proof (l_mixed _ HL j j' Hj Hjn).
      pose proof (l_mixed _ HL j' j Hjn Hj). pose proof (l_slots _ HL j j' Hj Hjn ltac:(done)).
      apply Hother; unfold apart in *; lia.
  - destruct (Hok j eq_refl) as [[k m0] E]. destruct (Hp j _ E) as [_ Hpj].
    pose proof (calls_switch_ready i j c _ Hi Hne Hwf Hcall Hpj) as Hr.
    pose proof (switch_keeps_parked i j c j _ Hi Hwf Hcall Hne Hpj) as Hpj'.
    destruct Hcall as (HO & HN & Hcall). assert (Hcall' : calls_switch L i j c) by done.
    assert (Hnow : now (exec SchedSwitch c) = k /\ cpu_mem (exec SchedSwitch c) = switch_mem c).
    { rewrite switch_exec by done. destruct Hpj as (_ & _ & _ & Hk & _). rewrite <- HN in Hk.
      cbv zeta. rewrite Hk. cbn [fst]. destruct k; done. }
    destruct Hnow as [Hnow Hmem]. subst th. eexists.
    split; [eapply threads_switch with (m' := switch_mem c); [done|]; apply Hpj'|].
    split; cbn [cur cpu running thread parked];
      [done|apply Hpj|by apply exec_wf|by rewrite Hnow, Hmem|].
    intros j' th' E'. rewrite Hmem.
    apply lookup_insert_Some in E' as [[-> <-]|[Hj' E']]; [split; [done|by apply (switch_parks j' j)]|].
    apply lookup_delete_Some in E' as [Hj'' E']. split; [done|].
    apply (switch_keeps_parked i j); [done..|]. by apply (Hp j').
Qed.

(** *** What follows for sequences *)

Definition keeps (i : nat) (e : event) : Prop :=
  match e with Work _ => True | Spawn j _ => j <> i | SwitchTo j => j <> i end.

(** A parked thread stays as it is until something is done with it. *)
Lemma threads_step_keeps i th t e t' :
  threads_step L stub t e t' -> keeps i e -> running t <> i ->
  parked t !! i = Some th -> parked t' !! i = Some th.
Proof.
  intros Hs Hk Hr E. destruct Hs; cbn [parked running keeps] in *; [done|by rewrite lookup_insert_ne|].
  by rewrite lookup_insert_ne, lookup_delete_ne.
Qed.

Lemma threads_step_dom i P t e es t' :
  threads_step L stub t e t' -> running t = i -> dom (parked t) = P ->
  only_parked i P (e :: es) = true -> only_parked (running t') (dom (parked t')) es = true.
Proof.
  intros Hs <- <- Hok. destruct Hs; cbn [parked running only_parked] in *; [done| |].
  - by rewrite dom_insert_L.
  - rewrite dom_insert_L, dom_delete_L. by apply andb_true_iff in Hok as [_ Hok].
Qed.

Lemma run_simulated s es s' t :
  steps (system_step L stub) s es s' -> represents L s t ->
  only_parked (cur s) (dom (parked t)) es = true ->
  exists t', steps (threads_step L stub) t es t' /\ represents L s' t' /\
    forall i th, Forall (keeps i) es -> parked t !! i = Some th -> parked t' !! i = Some th.
Proof.
  intros Hs. revert t. induction Hs as [s|s1 e s2 es s3 Hs Hss IH]; intros t Ht Hok.
  - exists t. split; [apply steps_nil|]. done.
  - destruct (system_step_simulated _ _ _ _ Hs Ht) as (t2 & Ht2 & Hr2).
    { intros j ->. apply elem_of_dom. cbn [only_parked] in Hok.
      apply andb_true_iff in Hok as [Hj _]. by apply bool_decide_eq_true in Hj. }
    destruct (IH t2 Hr2) as (t3 & Ht3 & Hr3 & Hk3).
    { rewrite <- (p_cur _ _ _ Hr2).
      eapply threads_step_dom; [done|apply (p_cur _ _ _ Ht)|done|done]. }
    exists t3. split; [by eapply steps_cons|]. split; [done|].
    intros i th Hk E. apply Forall_cons in Hk as [Hk Hks]. apply Hk3; [done|].
    eapply threads_step_keeps; [done..| |done]. rewrite (p_cur _ _ _ Ht).
    intros <-. by destruct (p_parked _ _ _ Ht _ _ E).
Qed.

(** What task [i] finds when it is switched to: the parked context, its stack. *)
Lemma switch_takes_up i s s' t k m :
  system_step L stub s (SwitchTo i) s' -> represents L s t -> parked t !! i = Some (k, m) ->
  cur s' = i /\ now (cpu s') = k /\ mem_agree (stack_of L i k) m (cpu_mem (cpu s')).
Proof.
  intros Hs Ht E. destruct (system_step_simulated _ _ _ _ Hs Ht) as (t' & Ht' & Hr').
  { intros j [= <-]. by eexists. }
  inversion Ht' as [| |r th P j k' m0 m' E' Hm]; subst. cbn [parked] in E. simplify_eq.
  pose proof (p_thread _ _ _ Hr') as Hth. pose proof (p_cur _ _ _ Hr') as Hc.
  cbn [thread running] in *. by simplify_eq.
Qed.
End Simulation.

(** *** An example *)

(** Two tasks with stacks of 100 bytes. *)
Definition duo : Layout :=
  mkLayout (fun i => match i with O => 100 | _ => 200 end)
    (fun i => match i with O => 1000 | _ => 2000 end)
    (fun i => match i with O => 1100 | _ => 2100 end) 2.

(** Task 0 at a call of SchedSwitch(&Tasks[0].Esp, Tasks[1].Esp). *)
Definition duo_mem : Mem := store32 (store32 (store32 ∅ 1060 4096) 1064 100) 1068 2068.
Definition duo_cpu (m : Mem) : Cpu :=
  mkCpu (mkGpr 1 2 3 4 5 6 7 1060) (mkSegs 16 24 24 24 24 24) 582 77 m.
Definition duo_start : System := mkSystem 0 (duo_cpu duo_mem).
Definition duo_spawned : System := mkSystem 0 (duo_cpu (spawn_mem duo 500 1 8192 duo_mem)).
Definition duo_switched : System := mkSystem 1 (exec SchedSwitch (cpu duo_spawned)).
(** Task 1 works and calls SchedSwitch(&Tasks[1].Esp, Tasks[0].Esp). *)
Definition duo_work : Cpu :=
  exec [Movl (Imm 99) (Rg EBX); Pushl (Imm 1040); Pushl (Imm 200); Pushl (Imm 9000)] (cpu duo_switched).
Definition duo_end : System := mkSystem 0 (exec SchedSwitch duo_work).
Definition duo_threads : Threads := mkThreads 0 (now (cpu duo_start), cpu_mem (cpu duo_start)) ∅.

Lemma duo_ok : layout_ok duo.
Proof.
  split; cbn [ntasks duo slot lo hi]; unfold apart;
    [intros [|[|]] ?; cbn; lia|intros [|[|]] ?; cbn; lia|intros [|[|]] [|[|]] ? ?; cbn; lia..].
Qed.

Lemma duo_cpu_wf m : cpu_wf (duo_cpu m).
Proof.
  split; [intros []; cbn; u32|intros []; cbn; lia|by vm_compute|cbn; u32].
Qed.

Lemma duo_represents : represents duo duo_start duo_threads.
Proof. split; [done|cbn; lia|apply duo_cpu_wf|done|]. intros j th E. cbn [parked duo_threads] in E. by apply lookup_empty_Some in E. Qed.

Lemma duo_spawn_step : system_step duo 500 duo_start (Spawn 1 8192) duo_spawned.
Proof. apply (step_spawn duo 500 0 1 8192 (duo_cpu duo_mem)); [cbn; lia|done|u32|cbn; lia]. Qed.

Lemma duo_switch_step : system_step duo 500 duo_spawned (SwitchTo 1) duo_switched.
Proof. apply step_switch; [done|]. split; [by vm_compute|]. split; [by vm_compute|]. cbn; lia. Qed.

Lemma duo_work_step : system_step duo 500 duo_switched (Work duo_work) (mkSystem 1 duo_work).
Proof.
  apply step_work.
  - repeat apply exec_wf. apply duo_cpu_wf.
  - assert (E : cpu_mem duo_work =
      store32 (store32 (store32 (cpu_mem (cpu duo_switched)) 2088 1040) 2084 200) 2080 9000)
      by (vm_compute; reflexivity).
    rewrite E. intros a (j & Hj & Ha). rewrite !load8_store32_ne; [done|..];
      destruct j as [|[|]]; cbn in *; lia.
Qed.

Lemma duo_back_step : system_step duo 500 (mkSystem 1 duo_work) (SwitchTo 0) duo_end.
Proof. apply step_switch; [done|]. split; [by vm_compute|]. split; [by vm_compute|]. by vm_compute. Qed.

(** *** Results *)

(** C35. SchedSwitch on the processor implements the switching of threads: from
    any state that represents parked threads, every sequence in which the
    running task works on its own stack, gives tasks fresh stacks and switches
    to parked ones is one the threads can do, where a switch takes up the
    parked context and its stack as they were left and parks the caller at the
    return of its call. *)
Theorem context_switch_refines L stub s es s' t :
  layout_ok L -> is_u32 stub -> steps (system_step L stub) s es s' -> represents L s t ->
  only_parked (cur s) (dom (parked t)) es = true ->
  exists t', steps (threads_step L stub) t es t' /\ represents L s' t'.
Proof.
  intros HL Hst Hs Ht Hok. destruct (run_simulated L stub HL Hst _ _ _ _ Hs Ht Hok) as (t' & H1 & H2 & _).
  by exists t'.
Qed.

Lemma context_switch_refines_witness :
  exists t', steps (threads_step duo 500) duo_threads
    [Spawn 1 8192; SwitchTo 1; Work duo_work; SwitchTo 0] t' /\ represents duo duo_end t'.
Proof.
  apply (context_switch_refines duo 500 duo_start); [exact duo_ok|u32| |exact duo_represents|by vm_compute].
  eapply steps_cons; [exact duo_spawn_step|]. eapply steps_cons; [exact duo_switch_step|].
  eapply steps_cons; [exact duo_work_step|]. eapply steps_cons; [exact duo_back_step|]. apply steps_nil.
Defined.

(** C36. A task that calls SchedSwitch comes back from the call with the
    registers a call preserves, its flags and its stack as they were, whatever
    the other tasks have done in between. *)
Theorem switch_round_trip L stub i j c s1 es s2 s3 t :
  layout_ok L -> is_u32 stub -> represents L (mkSystem i c) t ->
  system_step L stub (mkSystem i c) (SwitchTo j) s1 ->
  steps (system_step L stub) s1 es s2 -> Forall (keeps i) es ->
  only_parked i (dom (parked t)) (SwitchTo j :: es) = true ->
  system_step L stub s2 (SwitchTo i) s3 ->
  now (cpu s3) = returning c /\
  mem_agree (fun a => reg ESP c + 4 <= a < hi L i) (cpu_mem c) (cpu_mem (cpu s3)).
Proof.
  intros HL Hst Ht Hs1 Hes Hk Hok Hs3.
  destruct (system_step_simulated L stub HL Hst _ _ _ _ Hs1 Ht) as (t1 & Ht1 & Hr1).
  { intros j' [= <-]. apply elem_of_dom. cbn [only_parked] in Hok.
    apply andb_true_iff in Hok as [Hj _]. by apply bool_decide_eq_true in Hj. }
  assert (E1 : parked t1 !! i = Some (after_call (now c, cpu_mem c))).
  { inversion Ht1; subst. cbn [parked]. pose proof (p_thread _ _ _ Ht) as Hth.
    pose proof (p_cur _ _ _ Ht) as Hc. cbn [thread running cur cpu] in *. subst.
    apply lookup_insert_eq. }
  destruct (run_simulated L stub HL Hst _ _ _ _ Hes Hr1) as (t2 & _ & Hr2 & Hkeep).
  { rewrite <- (p_cur _ _ _ Hr1).
    eapply threads_step_dom; [done|apply (p_cur _ _ _ Ht)|done|done]. }
  destruct (switch_takes_up L stub HL Hst i s2 s3 t2 _ _ Hs3 Hr2 (Hkeep _ _ Hk E1)) as (_ & Hnow & Hm).
  by split.
Qed.

Lemma switch_round_trip_witness : now (cpu duo_end) = returning (cpu duo_spawned).
Proof.
  destruct (system_step_simulated duo 500 duo_ok ltac:(u32) _ _ _ _ duo_spawn_step duo_represents)
    as (t & Ht & Hr); [done|].
  assert (Hd : dom (parked t) = {[1%nat]}) by (inversion Ht; subst; cbn; set_solver).
  apply (switch_round_trip duo 500 0 1 (cpu duo_spawned) duo_switched [Work duo_work]
    (mkSystem 1 duo_work) duo_end t); [exact duo_ok|u32|exact Hr|exact duo_switch_step| | | |exact duo_back_step].
  - eapply steps_cons; [exact duo_work_step|]. apply steps_nil.
  - by repeat constructor.
  - rewrite Hd. by vm_compute.
Defined.

(** A task with a fresh stack starts in SchedExitStub, with interrupts on, a
    null return address and its entry point as the argument. *)
Theorem fresh_task_enters_stub L stub i Entry s0 s1 es s2 s3 t :
  layout_ok L -> is_u32 stub -> represents L s0 t ->
  system_step L stub s0 (Spawn i Entry) s1 ->
  steps (system_step L stub) s1 es s2 -> Forall (keeps i) es ->
  only_parked (cur s0) (dom (parked t)) (Spawn i Entry :: es) = true ->
  system_step L stub s2 (SwitchTo i) s3 ->
  cpu_ip (cpu s3) = stub /\ Z.testbit (cpu_flags (cpu s3)) FLAG_IF = true /\
  top (cpu s3) = 0 /\ load32 (cpu_mem (cpu s3)) (reg ESP (cpu s3) + 4) = Entry.
Proof.
  intros HL Hst Ht Hs1 Hes Hk Hok Hs3.
  destruct (system_step_simulated L stub HL Hst _ _ _ _ Hs1 Ht) as (t1 & Ht1 & Hr1); [done|].
  assert (E1 : parked t1 !! i = Some (fresh_thread L stub i Entry))
    by (inversion Ht1; subst; apply lookup_insert_eq).
  assert (Hi : (i < ntasks L)%nat /\ is_u32 Entry) by (inversion Hs1; subst; done).
  destruct Hi as [Hi He]. destruct (l_stack _ HL i Hi) as [Hlo Hhi].
  destruct (run_simulated L stub HL Hst _ _ _ _ Hes Hr1) as (t2 & _ & Hr2 & Hkeep).
  { rewrite <- (p_cur _ _ _ Hr1).
    eapply threads_step_dom; [done|apply (p_cur _ _ _ Ht)|done|done]. }
  destruct (switch_takes_up L stub HL Hst i s2 s3 t2 _ _ Hs3 Hr2 (Hkeep _ _ Hk E1)) as (_ & Hnow & Hm).
  assert (Hsp : reg ESP (cpu s3) = hi L i - 8) by exact (f_equal c_esp Hnow).
  assert (Hf : cpu_flags (cpu s3) = 514) by exact (f_equal c_flags Hnow).
  split; [exact (f_equal c_eip Hnow)|]. split; [by rewrite Hf|]. unfold top. rewrite Hsp.
  unfold stack_of in Hm. cbn [c_esp fresh_context] in Hm.
  split; (erewrite load32_agree; [|intros; apply Hm; lia]).
  - by rewrite load32_store32_eq.
  - mem_apart. by apply wrap32_small.
Qed.
