(* ===== verification/CpuFlag.v ===== *)
(** * The interrupt flag (asm/cpu.h, arch/x86_32/kernel/process.c)

    The inline assembly behind the kernel's use of interrupts, as instructions
    of [Machine.v], the wrappers of process.c, and the proof that the field
    [irq_on] of the scheduler's state stands for the processor's flag. *)

From S2P Require Import Prelude Sched Machine.

(** ** Code *)

Definition EflagsInterruptEnable : Z := 512.

Definition cpu_cli (c : Cpu) : Cpu := exec [Cli] c.
Definition cpu_sti (c : Cpu) : Cpu := exec [Sti] c.
(** The wait for the next interrupt; the state goes on as it was. *)
Definition cpu_hlt (c : Cpu) : Cpu := c.

(** "pushfl; popl %0": the flags through the stack into a register. *)
Definition cpu_irq_enabled (c : Cpu) : bool * Cpu :=
  let c := exec [Pushfl; Popl EAX] c in
  let flags := reg EAX c in
  (negb (Z.land flags EflagsInterruptEnable =? 0), c).

Definition cpu_idle (c : Cpu) : Cpu := cpu_hlt c.
Definition cpu_disable_irqs (c : Cpu) : Cpu := cpu_cli c.
Definition cpu_enable_irqs (c : Cpu) : Cpu := cpu_sti c.
Definition cpu_irqs_enabled (c : Cpu) : bool * Cpu := cpu_irq_enabled c.

(** ** The flag *)

Definition interrupts_on (c : Cpu) : bool := Z.testbit (cpu_flags c) FLAG_IF.

Lemma cli_off c : interrupts_on (cpu_cli c) = false.
Proof. unfold interrupts_on, cpu_cli. cbn [exec foldl step set_flags cpu_flags]. apply Z.clearbit_eq. Qed.

Lemma sti_on c : interrupts_on (cpu_sti c) = true.
Proof. unfold interrupts_on, cpu_sti. cbn [exec foldl step set_flags cpu_flags]. apply Z.setbit_eq. unfold FLAG_IF. lia. Qed.

Lemma flag_test f : negb (Z.land f EflagsInterruptEnable =? 0) = Z.testbit f FLAG_IF.
Proof.
  change EflagsInterruptEnable with (2 ^ 9). unfold FLAG_IF.
  destruct (Z.testbit f 9) eqn:E.
  - apply negb_true_iff, Z.eqb_neq. intros H.
    assert (Hb : Z.testbit (Z.land f (2 ^ 9)) 9 = true) by (by rewrite Z.land_spec, E, Z.pow2_bits_true).
    by rewrite H, Z.bits_0 in Hb.
  - apply negb_false_iff, Z.eqb_eq, Z.bits_inj'. intros n Hn.
    rewrite Z.land_spec, Z.pow2_bits_eqb, Z.bits_0 by lia.
    destruct (Z.eqb_spec 9 n) as [<-|]; [by rewrite E|apply andb_false_r].
Qed.

(** The test reads the flag and, but for the register it is read into and the
    word below the stack pointer, changes nothing. *)
Lemma cpu_irq_enabled_spec c :
  cpu_wf c -> 4 <= reg ESP c ->
  let '(on, c') := cpu_irq_enabled c in
  on = interrupts_on c /\ cpu_flags c' = cpu_flags c /\ cpu_ip c' = cpu_ip c /\ segs c' = segs c /\
  (forall r, r <> EAX -> reg r c' = reg r c) /\
  forall a, ~ (reg ESP c - 4 <= a < reg ESP c) -> load8 (cpu_mem c') a = load8 (cpu_mem c) a.
Proof.
  intros Hwf Hlo. pose proof (w_reg _ Hwf ESP) as Hsp. pose proof (flags_ok_u32 _ (w_flags _ Hwf)) as Hf.
  unfold cpu_irq_enabled, interrupts_on. destruct c as [[a b cx d si di bp sp] sg f ip m].
  cbn [reg gpr r_esp cpu_flags cpu_mem] in *. unfold is_u32 in *. run_machine. unwrap.
  rewrite load32_store32_eq, flag_test, wrap32_small by done. rewrite Z.sub_add.
  split; [done|]. split; [done|]. split; [done|]. split; [done|]. split; [by intros []|].
  intros x Hx. rewrite load8_store32_ne by lia. done.
Qed.

(** ** The scheduler's critical sections *)

(** The field of the model and the flag of the processor agree. *)
Definition flag_agrees (s : Sched) (c : Cpu) : Prop := irq_on s = interrupts_on c.

(** SchedLockIrq and SchedUnlockIrq on the processor. *)
Definition lock_irq (c : Cpu) : bool * Cpu :=
  let '(was_enabled, c) := cpu_irqs_enabled c in (was_enabled, cpu_disable_irqs c).
Definition unlock_irq (was_enabled : bool) (c : Cpu) : Cpu :=
  if was_enabled then cpu_enable_irqs c else c.

(** The model's critical sections are the processor's: locking answers the
    flag and clears it, unlocking sets it exactly if it was set; whatever runs
    in between with interrupts off, the flag comes back as it was. *)
Theorem critical_sections_agree s c :
  cpu_wf c -> 4 <= reg ESP c -> flag_agrees s c ->
  let '(was, s1) := SchedLockIrq s in
  let '(was', c1) := lock_irq c in
  was = was' /\ flag_agrees s1 c1 /\ interrupts_on c1 = false /\ cpu_wf c1 /\ reg ESP c1 = reg ESP c /\
  forall s2 c2, flag_agrees s2 c2 -> interrupts_on c2 = false ->
    flag_agrees (SchedUnlockIrq was s2) (unlock_irq was' c2) /\
    interrupts_on (unlock_irq was' c2) = interrupts_on c.
Proof.
  intros Hwf Hlo Ha. unfold SchedLockIrq, lock_irq, cpu_irqs_enabled.
  pose proof (cpu_irq_enabled_spec c Hwf Hlo) as Hs.
  assert (Hw : cpu_wf (cpu_irq_enabled c).2) by (by apply exec_wf).
  destruct (cpu_irq_enabled c) as [on c1]. cbn [snd] in Hw. destruct Hs as (Hon & Hf & _ & _ & Hr & _).
  unfold cpu_disable_irqs, flag_agrees in *. rewrite cli_off. rewrite Ha, Hon.
  split; [done|]. split; [done|]. split; [done|]. split; [by apply exec_wf|].
  split; [exact (Hr ESP ltac:(done))|].
  intros s2 c2 H2 Hoff. unfold SchedUnlockIrq, unlock_irq, cpu_enable_irqs.
  destruct (interrupts_on c); [|by rewrite H2, Hoff]. by rewrite sti_on.
Qed.
