(* ===== verification/SchedQueues.v ===== *)
(** * The scheduler's linked queues as lists

    The queues of sched.c are singly linked through [Task.Next]. This file
    relates them to lists of task indices ([qinv]) and shows that the two
    queue routines are list append and list removal, leave the other queues
    alone, and change nothing of a task but its [Next]. *)

From S2P Require Import Prelude Sched.

(** ** The representation relation *)

Definition nxt (s : Sched) (i : nat) : option nat := Next (task s i).

(** The chain from [h] visits exactly [l] and then stands at [e]. *)
Fixpoint lseg (n : nat -> option nat) (h : option nat) (l : list nat) (e : option nat) : Prop :=
  match l with
  | [] => h = e
  | x :: l' => h = Some x /\ lseg n (n x) l' e
  end.

(** The contents of the three queues. *)
Record Qs := mkQs { qR : list nat; qB : list nat; qD : list nat }.

Definition qget (q : QueueId) (Q : Qs) : list nat :=
  match q with QReady => qR Q | QBlocked => qB Q | QDead => qD Q end.
Definition qset (q : QueueId) (l : list nat) (Q : Qs) : Qs :=
  match q with
  | QReady => mkQs l (qB Q) (qD Q)
  | QBlocked => mkQs (qR Q) l (qD Q)
  | QDead => mkQs (qR Q) (qB Q) l
  end.

(** [t] taken out of a list. *)
Definition rem (t : nat) (l : list nat) : list nat := filter (fun x => x <> t) l.

#[global] Arguments rem : simpl never.

Record qinv (s : Sched) (Q : Qs) : Prop := {
  q_len : length (Tasks s) = 32%nat;
  q_seg : forall q, lseg (nxt s) (queue q s) (qget q Q) None;
  q_nodup : forall q, NoDup (qget q Q);
  q_disj : forall q q' i, i ∈ qget q Q -> i ∈ qget q' Q -> q = q';
  q_range : forall q i, i ∈ qget q Q -> (i < 32)%nat }.

Definition in_no_queue (t : nat) (Q : Qs) : Prop := forall q, t ∉ qget q Q.

(** Everything but the queues: what queue operations must not touch. *)
Definition erase (t : Task) : Task := with_Next None t.
Definition noq (s : Sched) : Sched :=
  set_ReadyQueue None (set_BlockedQueue None (set_DeadQueue None
    (set_Tasks (erase <$> Tasks s) s))).
Definition frame (s s' : Sched) : Prop := noq s' = noq s.

#[global] Instance frame_equiv : Equivalence frame.
Proof. unfold frame. split; red; congruence. Qed.

(** ** Lookup and assignment *)

Lemma task_upd p f s i :
  (i < length (Tasks s))%nat ->
  task (upd p f s) i = if decide (p = i) then f (task s i) else task s i.
Proof.
  intros Hi. unfold task, upd. cbn [Tasks set_Tasks].
  case_decide as Hp; [subst|by rewrite list_lookup_alter_ne].
  rewrite list_lookup_alter_eq. by destruct (lookup_lt_is_Some_2 _ _ Hi) as [t ->].
Qed.

Lemma task_upd_eq p f s :
  (p < length (Tasks s))%nat -> task (upd p f s) p = f (task s p).
Proof. intros. rewrite task_upd by done. by rewrite decide_True. Qed.

Lemma task_upd_ne p f s i : p <> i -> task (upd p f s) i = task s i.
Proof. intros. unfold task, upd. cbn [Tasks set_Tasks]. by rewrite list_lookup_alter_ne. Qed.

Lemma length_upd p f s : length (Tasks (upd p f s)) = length (Tasks s).
Proof. apply length_alter. Qed.

Lemma queue_upd q p f s : queue q (upd p f s) = queue q s.
Proof. by destruct q. Qed.

Lemma task_set_queue q v s i : task (set_queue q v s) i = task s i.
Proof. by destruct q. Qed.

Lemma length_set_queue q v s : length (Tasks (set_queue q v s)) = length (Tasks s).
Proof. by destruct q. Qed.

Lemma queue_set_queue q q' v s :
  queue q' (set_queue q v s) = if decide (q = q') then v else queue q' s.
Proof. by destruct q, q'. Qed.

Lemma qget_qset q q' l Q : qget q' (qset q l Q) = if decide (q = q') then l else qget q' Q.
Proof. by destruct q, q'. Qed.

Lemma frame_upd_Next p v s : frame s (upd p (with_Next v) s).
Proof.
  assert (H : erase <$> alter (with_Next v) p (Tasks s) = erase <$> Tasks s).
  { apply list_eq. intros i. rewrite !list_lookup_fmap.
    destruct (decide (p = i)) as [->|]; [|by rewrite list_lookup_alter_ne].
    rewrite list_lookup_alter_eq. by destruct (Tasks s !! i). }
  unfold frame, noq, upd. cbn. unfold set_Tasks at 2. cbn. by rewrite H.
Qed.

Lemma frame_set_queue q v s : frame s (set_queue q v s).
Proof. by destruct q. Qed.

Lemma frame_length s s' : frame s s' -> length (Tasks s') = length (Tasks s).
Proof.
  intros H. apply (f_equal (fun x => length (Tasks x))) in H. cbn in H.
  by rewrite !length_fmap in H.
Qed.

Lemma frame_erase s s' i : frame s s' -> erase (task s' i) = erase (task s i).
Proof.
  intros H. apply (f_equal (fun x => Tasks x !! i)) in H. cbn in H.
  rewrite !list_lookup_fmap in H. unfold task.
  assert (Hd : forall o : option Task,
    erase (default zero_task o) = default (erase zero_task) (erase <$> o)) by by intros [].
  by rewrite !Hd, H.
Qed.

(** ** Chains *)

(** The elements in front of the first [t]. *)
Fixpoint takeWhile_ne (t : nat) (l : list nat) : list nat :=
  match l with
  | [] => []
  | x :: l' => if decide (x = t) then [] else x :: takeWhile_ne t l'
  end.

Lemma takeWhile_ne_app t l1 l2 : t ∉ l1 -> takeWhile_ne t (l1 ++ t :: l2) = l1.
Proof.
  induction l1 as [|x l1 IH]; cbn; intros Ht; [by rewrite decide_True|].
  rewrite decide_False by set_solver. f_equal. apply IH. set_solver.
Qed.

Lemma lseg_ext n n' h l e : (forall i, i ∈ l -> n' i = n i) -> lseg n h l e -> lseg n' h l e.
Proof.
  revert h. induction l as [|x l IH]; intros h Hn; cbn; [done|].
  intros [-> Hl]. split; [done|]. rewrite Hn by set_solver. apply IH; [set_solver|done].
Qed.

Lemma lseg_app n h l1 l2 e :
  lseg n h (l1 ++ l2) e <-> exists m, lseg n h l1 m /\ lseg n m l2 e.
Proof.
  revert h. induction l1 as [|x l1 IH]; intros h; cbn.
  - split; [eauto|]. by intros (m & -> & ?).
  - rewrite IH. split.
    + intros (-> & m & ? & ?). eauto.
    + intros (m & (-> & ?) & ?). eauto.
Qed.

Lemma lseg_head n h l : lseg n h l None -> h = head l.
Proof. destruct l; cbn; [done|]. by intros [-> _]. Qed.

(** Redirecting the last link of a segment. *)
Lemma lseg_set_last n n' h l z e e' :
  (forall i, i ∈ l -> n' i = n i) -> n' z = e' ->
  lseg n h (l ++ [z]) e -> lseg n' h (l ++ [z]) e'.
Proof.
  intros Hn Hz. rewrite !lseg_app. intros (m & H1 & -> & _).
  exists (Some z). split; [|done]. by eapply lseg_ext.
Qed.

Lemma NoDup_snoc_notin {A} (l : list A) z : NoDup (l ++ [z]) -> z ∉ l.
Proof. intros H Hz. apply NoDup_app in H as (_ & Hd & _). apply (Hd z Hz). set_solver. Qed.

(** ** Walking to the tail *)

Lemma tail_loop s l : forall fuel h,
  lseg (nxt s) (Some h) l None -> (length l <= fuel)%nat ->
  exists l0 z, l = l0 ++ [z] /\
    loop fuel (fun Current =>
      match Next (task s Current) with
      | Some n => Some (inl n)
      | None => Some (inr Current)
      end) h = Some z.
Proof.
  induction l as [|x l IH]; intros fuel h Hl Hf; cbn in Hl; [done|].
  destruct Hl as [[= ->] Hl]. destruct fuel as [|fuel]; [cbn in Hf; lia|].
  destruct l as [|y l].
  - exists [], x. split; [done|]. rewrite loop_unfold. cbn in Hl. unfold nxt in Hl. by rewrite Hl.
  - pose proof Hl as [Hy _]. rewrite Hy in Hl.
    destruct (IH fuel y Hl) as (l0 & z & E & Hz); [cbn in *; lia|].
    exists (x :: l0), z. split; [by rewrite E|].
    rewrite loop_unfold. unfold nxt in Hy. by rewrite Hy.
Qed.

Lemma qinv_length s Q q : qinv s Q -> (length (qget q Q) <= 32)%nat.
Proof.
  intros Hq.
  enough (length (qget q Q) <= length (seq 0 32))%nat as H by by rewrite length_seq in H.
  apply NoDup_incl_length'; [apply Hq|].
  intros i Hi. apply elem_of_seq. pose proof (q_range s Q Hq q i Hi). lia.
Qed.

(** Field assignments other than to [Next] keep the queues. *)
Lemma qinv_upd s Q p f :
  (forall t, Next (f t) = Next t) -> qinv s Q -> qinv (upd p f s) Q.
Proof.
  intros Hf [H1 H2 H3 H4 H5]. split; try done; [by rewrite length_upd|].
  intros q. rewrite queue_upd. eapply lseg_ext; [|apply H2].
  intros i Hi. unfold nxt. rewrite task_upd by (rewrite H1; eauto).
  case_decide; [apply Hf|done].
Qed.

Lemma qinv_heads s s' Q :
  Tasks s' = Tasks s -> (forall q, queue q s' = queue q s) -> qinv s Q -> qinv s' Q.
Proof.
  intros HT Hq [H1 H2 H3 H4 H5]. split; try done; [by rewrite HT|].
  intros q. rewrite Hq. eapply lseg_ext; [|apply H2]. intros i _. unfold nxt, task. by rewrite HT.
Qed.

(** ** SchedQueueAdd is append *)

Lemma SchedQueueAdd_spec q t s Q :
  qinv s Q -> in_no_queue t Q -> (t < 32)%nat ->
  exists s', SchedQueueAdd q t s = Some s' /\
    qinv s' (qset q (qget q Q ++ [t]) Q) /\ frame s s'.
Proof.
  intros Hq Ht Hlt. pose proof Hq as [Hlen Hseg Hnd Hdj Hrg]. unfold SchedQueueAdd.
  set (s1 := upd t (with_Next None) s).
  assert (Hn1 : forall i, i <> t -> nxt s1 i = nxt s i)
    by (intros; unfold nxt, s1; by rewrite task_upd_ne).
  assert (Ht1 : nxt s1 t = None) by (unfold nxt, s1; rewrite task_upd_eq by lia; done).
  assert (Hseg1 : forall q', lseg (nxt s1) (queue q' s1) (qget q' Q) None).
  { intros q'. unfold s1. rewrite queue_upd. eapply lseg_ext; [|apply Hseg].
    intros i Hi. apply Hn1. intros ->. by apply (Ht q'). }
  assert (Hsets : (forall q', NoDup (qget q' (qset q (qget q Q ++ [t]) Q))) /\
    (forall q1 q2 i, i ∈ qget q1 (qset q (qget q Q ++ [t]) Q) ->
       i ∈ qget q2 (qset q (qget q Q ++ [t]) Q) -> q1 = q2) /\
    (forall q1 i, i ∈ qget q1 (qset q (qget q Q ++ [t]) Q) -> (i < 32)%nat)).
  { split; [|split].
    - intros q'. rewrite qget_qset. case_decide; [subst|done].
      apply NoDup_app. split; [done|]. split; [|apply NoDup_singleton].
      intros x Hx. rewrite elem_of_list_singleton'. intros ->. by apply (Ht q').
    - intros q1 q2 i. rewrite !qget_qset.
      repeat case_decide; subst; rewrite ?elem_of_app, ?elem_of_list_singleton'; try done;
        intros; destruct_or?; subst; eauto; exfalso; by eapply Ht.
    - intros q1 i. rewrite qget_qset. case_decide; [subst|apply Hrg].
      rewrite elem_of_app, elem_of_list_singleton'. intros [| ->]; eauto. }
  destruct Hsets as (HS1 & HS2 & HS3).
  destruct (queue q s1) as [h|] eqn:Eh.
  - pose proof (Hseg1 q) as Hsq. rewrite Eh in Hsq.
    destruct (tail_loop s1 (qget q Q) queue_fuel h Hsq) as (l0 & z & El & ->).
    { pose proof (qinv_length s Q q Hq). unfold queue_fuel. lia. }
    rewrite some_bind. eexists. split; [reflexivity|].
    assert (Hzin : z ∈ qget q Q) by (rewrite El; set_solver).
    assert (Hzt : z <> t) by (intros ->; by apply (Ht q)).
    assert (Hz32 : (z < 32)%nat) by eauto.
    assert (Hlen1 : length (Tasks s1) = 32%nat) by (unfold s1; by rewrite length_upd).
    split; [split; try done|].
    + by rewrite length_upd.
    + intros q'. rewrite queue_upd, qget_qset. case_decide as Hqq; [subst q'|].
      * rewrite Eh, El. apply lseg_app. exists (Some t). split.
        -- eapply lseg_set_last; [| |rewrite El in Hsq; exact Hsq].
           ++ intros i Hi. unfold nxt. rewrite task_upd_ne; [done|]. intros ->.
              pose proof (Hnd q) as Hndq. rewrite El in Hndq.
              by apply NoDup_snoc_notin in Hndq.
           ++ unfold nxt. rewrite task_upd_eq by lia. done.
        -- split; [done|]. cbn. unfold nxt. rewrite task_upd_ne by done. exact Ht1.
      * eapply lseg_ext; [|apply Hseg1]. intros i Hi. unfold nxt.
        rewrite task_upd_ne; [done|]. intros ->. apply Hqq. by eapply Hdj.
    + transitivity s1; [apply frame_upd_Next|apply frame_upd_Next].
  - eexists. split; [reflexivity|].
    pose proof (Hseg1 q) as Hsq. rewrite Eh in Hsq.
    assert (El : qget q Q = []) by (destruct (qget q Q); [done|]; cbn in Hsq; by destruct Hsq).
    split; [split; try done|].
    + rewrite length_set_queue. unfold s1. by rewrite length_upd.
    + intros q'. rewrite queue_set_queue, qget_qset. case_decide; [subst q'|].
      * rewrite El. cbn. split; [done|]. unfold nxt. rewrite task_set_queue. exact Ht1.
      * eapply lseg_ext; [|apply Hseg1]. intros i _. unfold nxt. by rewrite task_set_queue.
    + transitivity s1; [apply frame_upd_Next|apply frame_set_queue].
Qed.

(** ** SchedQueueRemove is list removal *)

Lemma rem_notin t l : t ∉ l -> rem t l = l.
Proof.
  induction l as [|x l IH]; intros Ht; [done|]. unfold rem. rewrite filter_cons.
  rewrite decide_True by set_solver. f_equal. apply IH. set_solver.
Qed.

Lemma rem_app t l1 l2 : rem t (l1 ++ l2) = rem t l1 ++ rem t l2.
Proof. apply filter_app. Qed.

Lemma rem_split t l1 l2 : NoDup (l1 ++ t :: l2) -> rem t (l1 ++ t :: l2) = l1 ++ l2.
Proof.
  intros Hnd. apply NoDup_app in Hnd as (_ & H1 & H2).
  apply NoDup_cons in H2 as [H2 _]. rewrite rem_app.
  rewrite (rem_notin t l1) by (intros H; apply (H1 t H); set_solver).
  f_equal. unfold rem. rewrite filter_cons, decide_False by auto.
  by apply rem_notin.
Qed.

Lemma elem_of_rem t x l : x ∈ rem t l <-> x ∈ l /\ x <> t.
Proof. unfold rem. rewrite list_elem_of_filter. tauto. Qed.

Lemma NoDup_rem t l : NoDup l -> NoDup (rem t l).
Proof. apply NoDup_filter. Qed.

(** The state SchedQueueRemove leaves when it finds [t] after [Previous]. *)
Definition unlink (q : QueueId) (t : nat) (Previous : option nat) (s : Sched) : Sched :=
  upd t (with_Next None)
    match Previous with
    | None => set_queue q (Next (task s t)) s
    | Some p => upd p (with_Next (Next (task s t))) s
    end.

Lemma remove_loop q t s l2 : forall l1 fuel,
  lseg (nxt s) (queue q s) (l1 ++ l2) None ->
  (length l2 < fuel)%nat -> t ∉ l1 ->
  loop fuel (fun '(Current, Previous) =>
    match Current with
    | None => Some (inr s)
    | Some c =>
        if decide (c = t) then
          let s := match Previous with
                   | None => set_queue q (Next (task s c)) s
                   | Some p => upd p (with_Next (Next (task s c))) s
                   end in
          Some (inr (upd c (with_Next None) s))
        else Some (inl (Next (task s c), Some c))
    end) (head l2, last l1)
  = Some (if decide (t ∈ l2) then unlink q t (last (l1 ++ takeWhile_ne t l2)) s else s).
Proof.
  induction l2 as [|x l2 IH]; intros l1 fuel Hl Hf Ht;
    (destruct fuel as [|fuel]; [cbn in Hf; lia|]); rewrite loop_unfold; cbn [head].
  - rewrite decide_False by set_solver. done.
  - destruct (decide (x = t)) as [->|Hxt].
    + rewrite (decide_True (P := t ∈ t :: l2)) by set_solver.
      cbn [takeWhile_ne]. rewrite decide_True, app_nil_r by done. done.
    + replace (l1 ++ x :: l2) with ((l1 ++ [x]) ++ l2) in Hl by by rewrite <- app_assoc.
      pose proof Hl as Hl'. apply lseg_app in Hl' as (m & H1 & H2).
      apply lseg_app in H1 as (m' & _ & -> & Hm). cbn in Hm. subst m.
      apply lseg_head in H2. unfold nxt in H2. rewrite H2.
      replace (Some x) with (last (l1 ++ [x])) by by rewrite last_snoc.
      rewrite IH; [|done|cbn in Hf; lia|set_solver].
      cbn [takeWhile_ne]. rewrite (decide_False (P := x = t)) by done.
      rewrite <- app_assoc. cbn [app].
      destruct (decide (t ∈ l2)); [rewrite decide_True by set_solver|
        rewrite decide_False by set_solver]; done.
Qed.

Lemma qset_id q Q : qset q (qget q Q) Q = Q.
Proof. by destruct q, Q. Qed.

Lemma rem_sets q t s Q :
  qinv s Q ->
  (forall q', NoDup (qget q' (qset q (rem t (qget q Q)) Q))) /\
  (forall q1 q2 i, i ∈ qget q1 (qset q (rem t (qget q Q)) Q) ->
     i ∈ qget q2 (qset q (rem t (qget q Q)) Q) -> q1 = q2) /\
  (forall q1 i, i ∈ qget q1 (qset q (rem t (qget q Q)) Q) -> (i < 32)%nat).
Proof.
  intros [_ _ Hnd Hdj Hrg].
  assert (Hsub : forall q1 i, i ∈ qget q1 (qset q (rem t (qget q Q)) Q) -> i ∈ qget q1 Q).
  { intros q1 i. rewrite qget_qset. case_decide; [subst|done]. rewrite elem_of_rem. tauto. }
  repeat split; [|eauto..].
  intros q'. rewrite qget_qset. case_decide; [by apply NoDup_rem|done].
Qed.

(** Unlinking the element between [l1] and [l2]. *)
Lemma unlink_spec q t s Q l1 l2 :
  qinv s Q -> qget q Q = l1 ++ t :: l2 ->
  qinv (unlink q t (last l1) s) (qset q (rem t (qget q Q)) Q) /\
  frame s (unlink q t (last l1) s).
Proof.
  intros Hq El. pose proof Hq as [Hlen Hseg Hnd Hdj Hrg].
  pose proof (rem_sets q t s Q Hq) as (HS1 & HS2 & HS3).
  pose proof (Hnd q) as Hndq. rewrite El in Hndq.
  assert (Ht32 : (t < 32)%nat) by (apply (Hrg q); rewrite El; set_solver).
  pose proof (Hseg q) as Hsq. rewrite El in Hsq.
  apply lseg_app in Hsq as (m & H1 & -> & H2).
  assert (Hnt : t ∉ l1 ++ l2).
  { apply NoDup_app in Hndq as (_ & Hd & Hc). apply NoDup_cons in Hc as [Hc _].
    rewrite elem_of_app. intros [H|H]; [apply (Hd t H); set_solver|done]. }
  assert (Hrem : rem t (qget q Q) = l1 ++ l2) by (rewrite El; by apply rem_split).
  destruct (last l1) as [p|] eqn:Elast.
  - apply last_Some in Elast as (l0 & ->).
    assert (Hp32 : (p < 32)%nat) by (apply (Hrg q); rewrite El; set_solver).
    assert (Hpt : p <> t) by (intros ->; apply Hnt; set_solver).
    assert (Hn : forall i, i <> t -> i <> p ->
      nxt (unlink q t (Some p) s) i = nxt s i).
    { intros. unfold unlink, nxt. by rewrite !task_upd_ne by done. }
    assert (Hnp : nxt (unlink q t (Some p) s) p = nxt s t).
    { unfold unlink, nxt. rewrite task_upd_ne, task_upd_eq by (done || lia). done. }
    split; [split; try done|].
    + unfold unlink. by rewrite !length_upd.
    + intros q'. unfold unlink at 2. rewrite !queue_upd, qget_qset.
      case_decide as Hqq; [subst q'|].
      * rewrite Hrem. apply lseg_app. exists (nxt s t). split.
        -- eapply (lseg_set_last (nxt s)); [|exact Hnp|exact H1].
           intros i Hi. apply Hn; [intros ->; apply Hnt; set_solver|].
           intros ->. apply NoDup_app in Hndq as (H & _). by apply NoDup_snoc_notin in H.
        -- eapply lseg_ext; [|exact H2]. intros i Hi. apply Hn; [intros ->; set_solver|].
           intros ->. apply NoDup_app in Hndq as (_ & Hd & _). apply (Hd p); set_solver.
      * eapply lseg_ext; [|apply Hseg]. intros i Hi.
        apply Hn; intros ->; apply Hqq; eapply Hdj; [|exact Hi| |exact Hi];
          rewrite El; set_solver.
    + unfold unlink. etrans; apply frame_upd_Next.
  - apply last_None in Elast as ->. cbn [app] in *. cbn in H1.
    assert (Hn : forall i, i <> t -> nxt (unlink q t None s) i = nxt s i).
    { intros. unfold unlink, nxt. rewrite task_upd_ne by done. by rewrite task_set_queue. }
    split; [split; try done|].
    + unfold unlink. by rewrite length_upd, length_set_queue.
    + intros q'. unfold unlink at 2. rewrite queue_upd, queue_set_queue, qget_qset.
      case_decide as Hqq; [subst q'|].
      * rewrite Hrem. eapply lseg_ext; [|exact H2]. intros i Hi. apply Hn. set_solver.
      * eapply lseg_ext; [|apply Hseg]. intros i Hi. apply Hn. intros ->.
        apply Hqq. eapply Hdj; [|exact Hi]. rewrite El. set_solver.
    + unfold unlink. etrans; [apply frame_set_queue|apply frame_upd_Next].
Qed.

Lemma SchedQueueRemove_spec q t s Q :
  qinv s Q ->
  exists s', SchedQueueRemove q t s = Some s' /\
    qinv s' (qset q (rem t (qget q Q)) Q) /\ frame s s'.
Proof.
  intros Hq. unfold SchedQueueRemove.
  pose proof (q_seg s Q Hq q) as Hsq. pose proof (lseg_head _ _ _ Hsq) as Hhd.
  destruct (queue q s) as [h|] eqn:Eh.
  - rewrite Hhd. change None with (last (@nil nat)).
    rewrite (remove_loop q t s (qget q Q) []); [|by rewrite Eh| |set_solver].
    2: { pose proof (qinv_length s Q q Hq). unfold queue_fuel. lia. }
    eexists. split; [reflexivity|]. cbn [app].
    destruct (decide (t ∈ qget q Q)) as [Hin|Hni].
    + apply list_elem_of_split_l in Hin as (l1 & l2 & El & Hl1).
      rewrite El at 1 3. rewrite takeWhile_ne_app by done. by eapply unlink_spec.
    + rewrite rem_notin, qset_id by done. split; [done|reflexivity].
  - eexists. split; [reflexivity|].
    assert (El : qget q Q = []) by (destruct (qget q Q); [done|discriminate]).
    rewrite El. change (rem t []) with (@nil nat). rewrite <- El, qset_id.
    split; [done|reflexivity].
Qed.
