(* ===== verification/SchedInv.v ===== *)
(** * The scheduler invariant

    [sched_inv] ties the task states, the queues, the current task, the ids and
    the task count together. Every public operation of sched.c returns (no
    queue walk runs away) and re-establishes it. *)

From S2P Require Import Prelude Sched SchedQueues.

(** ** The invariant *)

Definition alive (s : Sched) (i : nat) : bool := bool_decide (State (task s i) <> TaskDead).

Definition live_count (s : Sched) : Z := count (alive s) (seq 0 32).

(** What relates the states and ids to the queues' contents. *)
Record ginv (s : Sched) (Q : Qs) : Prop := {
  g_ready : forall i, (i < 32)%nat -> State (task s i) = TaskReady <-> i ∈ qR Q;
  g_blocked : forall i, (i < 32)%nat -> State (task s i) = TaskBlocked <-> i ∈ qB Q;
  g_dead : forall i, i ∈ qD Q -> State (task s i) = TaskDead;
  g_cur : forall c, CurrentTask s = Some c -> (c < 32)%nat /\ State (task s c) <> TaskDead;
  g_running : forall i, (i < 32)%nat -> State (task s i) = TaskRunning -> CurrentTask s = Some i;
  g_idle_id : Id (task s 0) = 0;
  g_idle : State (task s 0) = TaskReady \/ State (task s 0) = TaskRunning;
  g_ids : forall i, (i < 32)%nat -> i <> 0%nat -> State (task s i) <> TaskDead ->
          0 < Id (task s i) < NextTaskId s;
  g_uniq : forall i j, (i < 32)%nat -> (j < 32)%nat ->
           State (task s i) <> TaskDead -> State (task s j) <> TaskDead ->
           Id (task s i) = Id (task s j) -> i = j;
  g_next : 0 < NextTaskId s < 4294967296;
  g_count : TaskCountValue s = live_count s }.

(** The full invariant, between any two operations: in addition a task is
    current, and it is the running one. *)
Definition sched_inv (s : Sched) (Q : Qs) : Prop := qinv s Q /\ ginv s Q.
Definition cur_running (s : Sched) : Prop :=
  exists c, CurrentTask s = Some c /\ State (task s c) = TaskRunning.
Definition sched_ok (s : Sched) : Prop := exists Q, sched_inv s Q /\ cur_running s.

(** ** Projections through [frame] *)

Section FrameFacts.
Context {s s' : Sched} (F : frame s s').

Lemma fr_State i : State (task s' i) = State (task s i).
Proof. exact (f_equal State (frame_erase s s' i F)). Qed.
Lemma fr_Id i : Id (task s' i) = Id (task s i).
Proof. exact (f_equal Id (frame_erase s s' i F)). Qed.
Lemma fr_Priority i : Priority (task s' i) = Priority (task s i).
Proof. exact (f_equal Priority (frame_erase s s' i F)). Qed.
Lemma fr_WakeTick i : WakeTick (task s' i) = WakeTick (task s i).
Proof. exact (f_equal WakeTick (frame_erase s s' i F)). Qed.
Lemma fr_TimeUsed i : TimeUsed (task s' i) = TimeUsed (task s i).
Proof. exact (f_equal TimeUsed (frame_erase s s' i F)). Qed.
Lemma fr_TimeSlice i : TimeSlice (task s' i) = TimeSlice (task s i).
Proof. exact (f_equal TimeSlice (frame_erase s s' i F)). Qed.
Lemma fr_Pending : PreemptPending s' = PreemptPending s.
Proof. exact (f_equal PreemptPending F). Qed.
Lemma fr_Current : CurrentTask s' = CurrentTask s.
Proof. exact (f_equal CurrentTask F). Qed.
Lemma fr_Policy : CurrentPolicy s' = CurrentPolicy s.
Proof. exact (f_equal CurrentPolicy F). Qed.
Lemma fr_Count : TaskCountValue s' = TaskCountValue s.
Proof. exact (f_equal TaskCountValue F). Qed.
Lemma fr_NextId : NextTaskId s' = NextTaskId s.
Proof. exact (f_equal NextTaskId F). Qed.
Lemma fr_Locked : SchedulerLocked s' = SchedulerLocked s.
Proof. exact (f_equal SchedulerLocked F). Qed.
Lemma fr_irq : irq_on s' = irq_on s.
Proof. exact (f_equal irq_on F). Qed.
Lemma fr_Switches : ContextSwitches s' = ContextSwitches s.
Proof. exact (f_equal ContextSwitches F). Qed.
End FrameFacts.

(** What [ginv] looks at. *)
Record same_view (s s' : Sched) : Prop := {
  sv_State : forall i, State (task s' i) = State (task s i);
  sv_Id : forall i, Id (task s' i) = Id (task s i);
  sv_Current : CurrentTask s' = CurrentTask s;
  sv_NextId : NextTaskId s' = NextTaskId s;
  sv_Count : TaskCountValue s' = TaskCountValue s }.

Lemma frame_view s s' : frame s s' -> same_view s s'.
Proof.
  intros F. split; intros;
    [by apply fr_State|by apply fr_Id|by apply fr_Current|by apply fr_NextId|by apply fr_Count].
Qed.

#[global] Instance same_view_refl : Reflexive same_view.
Proof. done. Qed.
#[global] Instance same_view_trans : Transitive same_view.
Proof. intros x y z [] []. split; intros; congruence. Qed.

Lemma live_count_ext s s' :
  (forall i, State (task s' i) = State (task s i)) -> live_count s' = live_count s.
Proof. intros H. apply count_ext. intros i _. unfold alive. by rewrite H. Qed.

Lemma ginv_view s s' Q : same_view s s' -> ginv s Q -> ginv s' Q.
Proof.
  intros [HS HI HC HN HT] [G1 G2 G3 G4 G5 G6 G7 G8 G9 G10 G11].
  split; intros *; rewrite ?HS, ?HI, ?HC, ?HN, ?HT; try done; eauto.
  rewrite (live_count_ext s) by done. done.
Qed.

Lemma irq_same_view b s : same_view s (set_irq_on b s).
Proof. done. Qed.
Lemma unlock_same_view b s : same_view s (SchedUnlockIrq b s).
Proof. by destruct b. Qed.
Lemma qinv_irq b s Q : qinv s Q -> qinv (set_irq_on b s) Q.
Proof. apply qinv_heads; [done|]. by intros []. Qed.
Lemma qinv_unlock b s Q : qinv s Q -> qinv (SchedUnlockIrq b s) Q.
Proof. destruct b; [apply qinv_irq|done]. Qed.

Lemma qinv_CurrentTask v s Q : qinv s Q -> qinv (set_CurrentTask v s) Q.
Proof. apply qinv_heads; [done|]. by intros []. Qed.
Lemma qinv_ContextSwitches v s Q : qinv s Q -> qinv (set_ContextSwitches v s) Q.
Proof. apply qinv_heads; [done|]. by intros []. Qed.
Lemma qinv_TaskCountValue v s Q : qinv s Q -> qinv (set_TaskCountValue v s) Q.
Proof. apply qinv_heads; [done|]. by intros []. Qed.
Lemma qinv_NextTaskId v s Q : qinv s Q -> qinv (set_NextTaskId v s) Q.
Proof. apply qinv_heads; [done|]. by intros []. Qed.
Lemma qinv_SchedulerTicks v s Q : qinv s Q -> qinv (set_SchedulerTicks v s) Q.
Proof. apply qinv_heads; [done|]. by intros []. Qed.
Lemma qinv_PreemptPending v s Q : qinv s Q -> qinv (set_PreemptPending v s) Q.
Proof. apply qinv_heads; [done|]. by intros []. Qed.
Lemma qinv_stack_mem v s Q : qinv s Q -> qinv (set_stack_mem v s) Q.
Proof. apply qinv_heads; [done|]. by intros []. Qed.

(** Assignments that keep the queue structure. *)
Create HintDb sched.
#[export] Hint Resolve qinv_upd qinv_irq qinv_unlock qinv_CurrentTask qinv_ContextSwitches
  qinv_TaskCountValue qinv_NextTaskId qinv_SchedulerTicks qinv_PreemptPending
  qinv_stack_mem : sched.

Lemma upd_same_view s p f :
  length (Tasks s) = 32%nat ->
  (forall t, State (f t) = State t) -> (forall t, Id (f t) = Id t) ->
  same_view s (upd p f s).
Proof.
  intros Hlen HS HI. split; try done; intros i;
    (destruct (decide (i < 32)%nat);
     [rewrite task_upd by lia; case_decide; auto|
      unfold task, upd; cbn [Tasks set_Tasks]; rewrite !lookup_ge_None_2; rewrite ?length_alter; done || lia]).
Qed.

(** ** State changes at one task *)

(** A task that stays alive moves from one state to another. *)
Lemma ginv_move s s' Q Q' t :
  ginv s Q -> (t < 32)%nat ->
  (forall i, (i < 32)%nat -> i <> t -> State (task s' i) = State (task s i)) ->
  (forall i, (i < 32)%nat -> Id (task s' i) = Id (task s i)) ->
  (forall i, i <> t -> (i ∈ qR Q' <-> i ∈ qR Q) /\ (i ∈ qB Q' <-> i ∈ qB Q) /\
                       (i ∈ qD Q' -> i ∈ qD Q)) ->
  (forall i, i ∈ qD Q' -> (i < 32)%nat) ->
  State (task s t) <> TaskDead -> State (task s' t) <> TaskDead ->
  (State (task s' t) = TaskReady <-> t ∈ qR Q') ->
  (State (task s' t) = TaskBlocked <-> t ∈ qB Q') ->
  t ∉ qD Q' ->
  (t = 0%nat -> State (task s' t) <> TaskBlocked) ->
  NextTaskId s' = NextTaskId s -> TaskCountValue s' = TaskCountValue s ->
  (forall c, CurrentTask s' = Some c -> (c < 32)%nat /\ State (task s' c) <> TaskDead) ->
  (forall i, (i < 32)%nat -> State (task s' i) = TaskRunning -> CurrentTask s' = Some i) ->
  ginv s' Q'.
Proof.
  intros [G1 G2 G3 G4 G5 G6 G7 G8 G9 G10 G11] Ht HS HI HQ HD Ha Ha' HR HB HDn H0 HN HC Hc Hr.
  assert (Hal : forall i, (i < 32)%nat -> State (task s' i) <> TaskDead <-> State (task s i) <> TaskDead).
  { intros i Hi. destruct (decide (i = t)) as [->|]; [tauto|by rewrite HS]. }
  split.
  - intros i Hi. destruct (decide (i = t)) as [->|Hne]; [done|].
    rewrite HS, G1 by done. symmetry. by apply HQ.
  - intros i Hi. destruct (decide (i = t)) as [->|Hne]; [done|].
    rewrite HS, G2 by done. symmetry. by apply HQ.
  - intros i Hi. destruct (decide (i = t)) as [->|Hne]; [done|].
    rewrite HS by eauto. apply G3. by apply HQ.
  - done.
  - done.
  - by rewrite HI by lia.
  - destruct (decide (t = 0%nat)) as [->|]; [|rewrite HS by lia; done].
    specialize (H0 eq_refl). destruct (State (task s' 0)); tauto.
  - intros i Hi Hne Hd. rewrite HI, HN by done. apply G8; [done..|by apply Hal].
  - intros i j Hi Hj Hdi Hdj. rewrite !HI by done. apply G9; try done; by apply Hal.
  - by rewrite HN.
  - rewrite HC, G11. apply count_ext. intros i Hi. apply elem_of_seq in Hi.
    unfold alive. apply bool_decide_ext. symmetry. apply Hal. lia.
Qed.

(** A task dies. *)
Lemma ginv_die s s' Q Q' t :
  ginv s Q -> (t < 32)%nat -> t <> 0%nat ->
  (forall i, (i < 32)%nat -> i <> t -> State (task s' i) = State (task s i) /\
                                      Id (task s' i) = Id (task s i)) ->
  (forall i, i <> t -> (i ∈ qR Q' <-> i ∈ qR Q) /\ (i ∈ qB Q' <-> i ∈ qB Q) /\
                       (i ∈ qD Q' -> i ∈ qD Q)) ->
  (forall i, i ∈ qD Q' -> (i < 32)%nat) ->
  State (task s t) <> TaskDead -> State (task s' t) = TaskDead ->
  t ∉ qR Q' -> t ∉ qB Q' ->
  NextTaskId s' = NextTaskId s -> TaskCountValue s' = TaskCountValue s - 1 ->
  (forall c, CurrentTask s' = Some c -> CurrentTask s = Some c /\ c <> t) ->
  (forall i, (i < 32)%nat -> i <> t -> State (task s i) = TaskRunning -> CurrentTask s' = Some i) ->
  ginv s' Q'.
Proof.
  intros [G1 G2 G3 G4 G5 G6 G7 G8 G9 G10 G11] Ht Ht0 HS HQ HD Ha Ha' HR HB HN HC Hc Hr.
  assert (Hal : forall i, (i < 32)%nat -> State (task s' i) <> TaskDead ->
    i <> t /\ State (task s i) <> TaskDead /\ Id (task s' i) = Id (task s i)).
  { intros i Hi Hd. destruct (decide (i = t)) as [->|]; [done|].
    destruct (HS i) as [HSi ?]; [done..|]. rewrite HSi in Hd. done. }
  split.
  - intros i Hi. destruct (decide (i = t)) as [->|Hne]; [by rewrite Ha'|].
    destruct (HS i) as [-> _]; [done..|]. rewrite G1 by done. symmetry. by apply HQ.
  - intros i Hi. destruct (decide (i = t)) as [->|Hne]; [by rewrite Ha'|].
    destruct (HS i) as [-> _]; [done..|]. rewrite G2 by done. symmetry. by apply HQ.
  - intros i Hi. destruct (decide (i = t)) as [->|Hne]; [done|].
    destruct (HS i) as [-> _]; [eauto..|]. apply G3. by apply HQ.
  - intros c [Hcc Hne]%Hc. destruct (G4 c Hcc). split; [done|].
    destruct (HS c) as [-> _]; done.
  - intros i Hi Hrun. destruct (decide (i = t)) as [->|Hne]; [congruence|].
    apply Hr; [done..|]. destruct (HS i) as [<- _]; done.
  - destruct (HS 0%nat) as [_ ->]; [lia|done|done].
  - destruct (HS 0%nat) as [-> _]; [lia|done|done].
  - intros i Hi Hne Hd. destruct (Hal i Hi Hd) as (? & ? & ->). rewrite HN. by apply G8.
  - intros i j Hi Hj Hdi Hdj.
    destruct (Hal i Hi Hdi) as (? & ? & ->). destruct (Hal j Hj Hdj) as (? & ? & ->).
    by apply G9.
  - by rewrite HN.
  - rewrite HC, G11. unfold live_count.
    rewrite (count_flip (alive s') (alive s) (seq 0 32) t); [lia|..].
    + apply NoDup_seq.
    + apply elem_of_seq. lia.
    + apply bool_decide_eq_false. rewrite Ha'. tauto.
    + by apply bool_decide_eq_true.
    + intros i Hi%elem_of_seq Hne. unfold alive.
      destruct (HS i) as [-> _]; [lia|done|done].
Qed.

(** A dead descriptor comes to life as a ready task with a fresh id. *)
Lemma ginv_birth s s' Q Q' t :
  ginv s Q -> (t < 32)%nat -> t <> 0%nat ->
  (forall i, (i < 32)%nat -> i <> t -> State (task s' i) = State (task s i) /\
                                      Id (task s' i) = Id (task s i)) ->
  (forall i, i <> t -> (i ∈ qR Q' <-> i ∈ qR Q) /\ (i ∈ qB Q' <-> i ∈ qB Q) /\
                       (i ∈ qD Q' -> i ∈ qD Q)) ->
  (forall i, i ∈ qD Q' -> (i < 32)%nat) ->
  State (task s t) = TaskDead -> State (task s' t) = TaskReady ->
  t ∈ qR Q' -> t ∉ qB Q' -> t ∉ qD Q' ->
  Id (task s' t) = NextTaskId s -> NextTaskId s' = NextTaskId s + 1 ->
  NextTaskId s' < 4294967296 ->
  TaskCountValue s' = TaskCountValue s + 1 -> CurrentTask s' = CurrentTask s ->
  ginv s' Q'.
Proof.
  intros [G1 G2 G3 G4 G5 G6 G7 G8 G9 G10 G11] Ht Ht0 HS HQ HD Ha Ha' HR HB HDn HI HN HN2 HC Hc.
  assert (Hid : forall i, (i < 32)%nat -> i <> t -> State (task s' i) <> TaskDead ->
    State (task s i) <> TaskDead /\ Id (task s' i) = Id (task s i) /\ Id (task s i) < NextTaskId s).
  { intros i Hi Hne Hd. destruct (HS i) as [HSi ->]; [done..|]. rewrite HSi in Hd.
    split; [done|]. split; [done|].
    destruct (decide (i = 0%nat)) as [->|]; [lia|]. by apply G8. }
  split.
  - intros i Hi. destruct (decide (i = t)) as [->|Hne]; [by rewrite Ha'|].
    destruct (HS i) as [-> _]; [done..|]. rewrite G1 by done. symmetry. by apply HQ.
  - intros i Hi. destruct (decide (i = t)) as [->|Hne]; [by rewrite Ha'|].
    destruct (HS i) as [-> _]; [done..|]. rewrite G2 by done. symmetry. by apply HQ.
  - intros i Hi. destruct (decide (i = t)) as [->|Hne]; [done|].
    destruct (HS i) as [-> _]; [eauto..|]. apply G3. by apply HQ.
  - intros c Hcc. rewrite Hc in Hcc. destruct (G4 c Hcc) as [? Hd]. split; [done|].
    destruct (decide (c = t)) as [->|]; [done|]. destruct (HS c) as [-> _]; done.
  - intros i Hi Hrun. rewrite Hc. destruct (decide (i = t)) as [->|Hne]; [congruence|].
    apply G5; [done|]. destruct (HS i) as [<- _]; done.
  - destruct (HS 0%nat) as [_ ->]; [lia|done|done].
  - destruct (HS 0%nat) as [-> _]; [lia|done|done].
  - intros i Hi Hne Hd. destruct (decide (i = t)) as [->|Hnt]; [lia|].
    destruct (Hid i) as (Hd' & -> & ?); [done..|]. specialize (G8 i Hi Hne Hd'). lia.
  - intros i j Hi Hj Hdi Hdj Heq.
    destruct (decide (i = t)) as [->|Hit], (decide (j = t)) as [->|Hjt]; [done|..].
    + destruct (Hid j) as (? & ? & ?); [done..|]. lia.
    + destruct (Hid i) as (? & ? & ?); [done..|]. lia.
    + destruct (Hid i) as (? & E1 & _); [done..|]. destruct (Hid j) as (? & E2 & _); [done..|].
      rewrite E1, E2 in Heq. by apply G9.
  - lia.
  - rewrite HC, G11. unfold live_count.
    rewrite (count_flip (alive s) (alive s') (seq 0 32) t); [lia|..].
    + apply NoDup_seq.
    + apply elem_of_seq. lia.
    + apply bool_decide_eq_false. rewrite Ha. tauto.
    + apply bool_decide_eq_true. rewrite Ha'. done.
    + intros i Hi%elem_of_seq Hne. unfold alive.
      destruct (HS i) as [-> _]; [lia|done|done].
Qed.

(** ** Choosing the next task, on the list of ready tasks *)

(** Round robin: the first ready task with a larger id than the current one,
    or the head of the queue. *)
Definition rr_pick (s : Sched) (R : list nat) : option nat :=
  match CurrentTask s with
  | None => head R
  | Some c =>
      match list_find (fun t => Id (task s c) < Id (task s t)) R with
      | Some (_, t) => Some t
      | None => head R
      end
  end.

(** Priority: the running maximum, earlier tasks winning ties. *)
Definition better (s : Sched) (Best : option nat) (c : nat) : option nat :=
  match Best with
  | None => Some c
  | Some b => if Priority (task s b) <? Priority (task s c) then Some c else Some b
  end.
Definition prio_pick (s : Sched) (R : list nat) : option nat := foldl (better s) None R.

Definition pick (s : Sched) (R : list nat) : option nat :=
  match CurrentPolicy s with
  | SchedPriority => prio_pick s R
  | SchedRoundRobin => rr_pick s R
  end.

(** Walking a chain element by element: [body] at an element of the list. *)
Lemma rr_loop s cur R : forall fuel h,
  lseg (nxt s) h R None -> (length R < fuel)%nat ->
  loop fuel (fun TaskItem =>
    match TaskItem with
    | None => Some (inr (ReadyQueue s))
    | Some t =>
        if Id (task s cur) <? Id (task s t) then Some (inr (Some t))
        else Some (inl (Next (task s t)))
    end) h =
  Some match list_find (fun t => Id (task s cur) < Id (task s t)) R with
       | Some (_, t) => Some t
       | None => ReadyQueue s
       end.
Proof.
  induction R as [|x R IH]; intros fuel h Hl Hf;
    (destruct fuel as [|fuel]; [cbn in Hf; lia|]); rewrite loop_unfold.
  - cbn in Hl. by subst.
  - destruct Hl as [-> Hl]. cbn [list_find].
    destruct (Z.ltb_spec (Id (task s cur)) (Id (task s x))).
    + by rewrite decide_True.
    + rewrite decide_False by lia. rewrite IH; [|exact Hl|cbn in Hf; lia].
      destruct (list_find _ R) as [[]|]; done.
Qed.

Lemma prio_loop s R : forall fuel h Best,
  lseg (nxt s) h R None -> (length R < fuel)%nat ->
  loop fuel (fun '(Current, Best) =>
    match Current with
    | None => Some (inr Best)
    | Some c =>
        let Best := match Best with
                    | None => Some c
                    | Some b => if Priority (task s b) <? Priority (task s c)
                                then Some c else Some b
                    end in
        Some (inl (Next (task s c), Best))
    end) (h, Best) = Some (foldl (better s) Best R).
Proof.
  induction R as [|x R IH]; intros fuel h Best Hl Hf;
    (destruct fuel as [|fuel]; [cbn in Hf; lia|]); rewrite loop_unfold.
  - cbn in Hl. by subst.
  - destruct Hl as [-> Hl]. cbn [foldl]. apply IH; [exact Hl|cbn in Hf; lia].
Qed.

Lemma SchedFindNext_spec s Q :
  qinv s Q -> SchedFindNext s = Some (pick s (qR Q)).
Proof.
  intros Hq. pose proof (q_seg s Q Hq QReady) as Hl. cbn [queue qget] in Hl.
  pose proof (qinv_length s Q QReady Hq) as Hlen. cbn [qget] in Hlen.
  pose proof (lseg_head _ _ _ Hl) as Hhd.
  unfold SchedFindNext, pick. destruct (CurrentPolicy s).
  - unfold SchedFindRoundRobin, rr_pick. destruct (CurrentTask s) as [c|]; [|by rewrite Hhd].
    rewrite (rr_loop s c (qR Q)) by (done || (unfold queue_fuel; lia)).
    by rewrite <- Hhd.
  - unfold SchedFindPriority, prio_pick.
    apply prio_loop; [done|unfold queue_fuel; lia].
Qed.

Lemma foldl_better_in s R : forall b, exists x,
  foldl (better s) (Some b) R = Some x /\ (x = b \/ x ∈ R) /\
  Priority (task s b) <= Priority (task s x) /\
  (forall y, y ∈ R -> Priority (task s y) <= Priority (task s x)).
Proof.
  induction R as [|y R IH]; intros b; cbn [foldl].
  - exists b. split; [done|]. split; [by left|]. split; [lia|]. set_solver.
  - cbn [better]. destruct (Z.ltb_spec (Priority (task s b)) (Priority (task s y))).
    + destruct (IH y) as (x & -> & Hx & Hle & Hall). exists x. split; [done|].
      split; [set_solver|]. split; [lia|]. intros z [->|Hz]%elem_of_cons; auto.
    + destruct (IH b) as (x & -> & Hx & Hle & Hall). exists x. split; [done|].
      split; [set_solver|]. split; [lia|]. intros z [->|Hz]%elem_of_cons; [lia|auto].
Qed.

(** The pick is a ready task, and there is one unless the queue is empty. *)
Lemma pick_in s R : R <> [] -> exists n, pick s R = Some n /\ n ∈ R.
Proof.
  intros HR. destruct R as [|x R]; [done|]. unfold pick. destruct (CurrentPolicy s).
  - unfold rr_pick. destruct (CurrentTask s) as [c|]; [|exists x; set_solver].
    destruct (list_find _ (x :: R)) as [[i t]|] eqn:E; [|exists x; set_solver].
    apply list_find_Some in E as (E & _). exists t. split; [done|].
    by eapply elem_of_list_lookup_2'.
  - unfold prio_pick. cbn [foldl better].
    destruct (foldl_better_in s R x) as (y & -> & Hy & _). exists y. set_solver.
Qed.

Lemma pick_nil s : pick s [] = None.
Proof. unfold pick, rr_pick. by destruct (CurrentPolicy s), (CurrentTask s). Qed.

(** ** SchedYield *)

Lemma lock_unlock s : SchedUnlockIrq (irq_on s) (set_irq_on false s) = s.
Proof. unfold SchedUnlockIrq, set_irq_on. destruct s as [? ? ? ? ? ? ? ? ? ? ? ? []]; done. Qed.

(** Assignments that keep the queues and everything [ginv] looks at. *)
Ltac sched_len := rewrite ?length_upd, ?length_set_queue; done || lia.

(** The ready queue after a switch to [n]: the running task goes to the tail. *)
Definition yield_ready (s : Sched) (n : nat) (R : list nat) : list nat :=
  rem n R ++ match CurrentTask s with
             | Some p => if decide (State (task s p) = TaskRunning) then [p] else []
             | None => []
             end.

(** What the other tasks see of a descriptor: whether its task is blocked or
    dead, its id, and that no sleep is pending. *)
Record calm_task (a b : Task) : Prop := {
  cm_Blocked : State b = TaskBlocked <-> State a = TaskBlocked;
  cm_Dead : State b = TaskDead <-> State a = TaskDead;
  cm_Id : Id b = Id a;
  cm_WakeTick : WakeTick a = 0 -> WakeTick b = 0 }.

#[global] Instance calm_task_refl : Reflexive calm_task.
Proof. done. Qed.
#[global] Instance calm_task_trans : Transitive calm_task.
Proof. intros x y z [] []. split; [by etrans|by etrans|congruence|auto]. Qed.

Definition calm (i : nat) (s s' : Sched) : Prop := calm_task (task s i) (task s' i).

#[global] Instance calm_refl i : Reflexive (calm i).
Proof. intros s. unfold calm. done. Qed.
#[global] Instance calm_trans i : Transitive (calm i).
Proof. intros x y z. unfold calm. apply transitivity. Qed.

Lemma calm_same i s s' :
  State (task s' i) = State (task s i) -> Id (task s' i) = Id (task s i) ->
  WakeTick (task s' i) = WakeTick (task s i) -> calm i s s'.
Proof. intros E1 E2 E3. split; by rewrite ?E1, ?E2, ?E3. Qed.

Lemma frame_calm i s s' : frame s s' -> calm i s s'.
Proof. intros F. by apply calm_same; [apply fr_State|apply fr_Id|apply fr_WakeTick]. Qed.

(** What a switch from [s] to task [n] does. *)
Record switched_to (n : nat) (s s' : Sched) : Prop := {
  sw_cur : CurrentTask s' = Some n;
  sw_state : forall i, (i < 32)%nat -> State (task s' i) =
    if decide (i = n) then TaskRunning
    else if decide (CurrentTask s = Some i /\ State (task s i) = TaskRunning)
         then TaskReady else State (task s i);
  sw_Id : forall i, (i < 32)%nat -> Id (task s' i) = Id (task s i);
  sw_Priority : forall i, (i < 32)%nat -> Priority (task s' i) = Priority (task s i);
  sw_WakeTick : forall i, (i < 32)%nat -> WakeTick (task s' i) = WakeTick (task s i);
  sw_NextId : NextTaskId s' = NextTaskId s;
  sw_Count : TaskCountValue s' = TaskCountValue s;
  sw_Policy : CurrentPolicy s' = CurrentPolicy s;
  sw_Locked : SchedulerLocked s' = SchedulerLocked s;
  sw_irq : irq_on s' = false;
  sw_switches : ContextSwitches s' = ContextSwitches s +w 1 }.

(** Requeueing the running task before the switch. *)
Lemma requeue_spec s0 s n Q :
  ginv s Q -> same_view s s0 -> CurrentTask s <> Some n ->
  forall Q2, qinv s0 Q2 -> Q2 = qset QReady (rem n (qR Q)) Q ->
  exists s3,
    match CurrentTask s with
    | Some p =>
        if decide (State (task s0 p) = TaskRunning)
        then SchedQueueAdd QReady p (upd p (with_State TaskReady) s0)
        else Some s0
    | None => Some s0
    end = Some s3 /\
    qinv s3 (qset QReady (yield_ready s n (qR Q)) Q) /\
    frame (match CurrentTask s with
           | Some p => if decide (State (task s p) = TaskRunning)
                       then upd p (with_State TaskReady) s0 else s0
           | None => s0
           end) s3.
Proof.
  intros G V Hne Q2 Hq2 ->. unfold yield_ready.
  destruct (CurrentTask s) as [p|] eqn:Ec.
  2: { eexists. split; [done|]. rewrite app_nil_r. split; [done|reflexivity]. }
  rewrite (sv_State _ _ V).
  destruct (decide (State (task s p) = TaskRunning)) as [Hr|].
  2: { eexists. split; [done|]. rewrite app_nil_r. split; [done|reflexivity]. }
  destruct (g_cur s Q G p Ec) as [Hp _].
  destruct (SchedQueueAdd_spec QReady p (upd p (with_State TaskReady) s0)
              (qset QReady (rem n (qR Q)) Q)) as (s3 & -> & Hq3 & F3).
  - by apply qinv_upd.
  - intros q. destruct q; cbn [qget qset qR qB qD].
    + rewrite elem_of_rem, <- (g_ready s Q G) by done. intros [? _]. congruence.
    + rewrite <- (g_blocked s Q G) by done. congruence.
    + intros H%(g_dead s Q G). congruence.
  - done.
  - exists s3. split; [done|]. split; [exact Hq3|done].
Qed.

Lemma elem_yield_ready s n R i :
  i ∈ yield_ready s n R <->
  (i ∈ R /\ i <> n) \/ (CurrentTask s = Some i /\ State (task s i) = TaskRunning).
Proof.
  unfold yield_ready. rewrite elem_of_app, elem_of_rem.
  destruct (CurrentTask s) as [p|]; [case_decide|].
  - rewrite elem_of_list_singleton'. naive_solver.
  - set_solver.
  - set_solver.
Qed.

(** The tasks switched from and to are neither blocked nor dead. *)
Lemma switched_calm s s' Q n i :
  ginv s Q -> n ∈ qR Q -> (n < 32)%nat -> (i < 32)%nat -> switched_to n s s' -> calm i s s'.
Proof.
  intros G Hn Hn32 Hi Sw. assert (Hr : State (task s n) = TaskReady) by by apply (g_ready s Q G).
  pose proof (sw_state _ _ _ Sw i Hi) as Es.
  split; [| |by apply Sw|by rewrite (sw_WakeTick _ _ _ Sw)]; rewrite Es;
    repeat case_decide; subst; naive_solver congruence.
Qed.

Lemma switch_ginv s s' Q n :
  ginv s Q -> (forall q i, i ∈ qget q Q -> (i < 32)%nat) ->
  n ∈ qR Q -> CurrentTask s <> Some n -> switched_to n s s' ->
  ginv s' (qset QReady (yield_ready s n (qR Q)) Q).
Proof.
  intros G Hrg Hn Hne [S1 S2 S3 _ _ S4 S5 _ _ _ _].
  assert (Hn32 : (n < 32)%nat) by by apply (Hrg QReady).
  assert (Hnr : State (task s n) = TaskReady) by by apply (g_ready s Q G).
  assert (HnB : n ∉ qB Q) by (rewrite <- (g_blocked s Q G) by done; congruence).
  assert (Hal : forall i, (i < 32)%nat -> State (task s' i) <> TaskDead <-> State (task s i) <> TaskDead).
  { intros i Hi. rewrite S2 by done. repeat case_decide; subst; naive_solver congruence. }
  split; cbn [qset qR qB qD].
  - intros i Hi. rewrite S2, elem_yield_ready by done.
    rewrite <- (g_ready s Q G) by done. repeat case_decide; subst; naive_solver congruence.
  - intros i Hi. rewrite S2 by done. rewrite <- (g_blocked s Q G) by done.
    repeat case_decide; subst; naive_solver congruence.
  - intros i Hi. pose proof (g_dead s Q G i Hi). assert (i < 32)%nat by by apply (Hrg QDead).
    destruct (decide (State (task s' i) = TaskDead)) as [|Hd]; [done|].
    apply Hal in Hd; done.
  - intros c Hc. rewrite S1 in Hc. injection Hc as <-. split; [done|]. apply Hal; congruence.
  - intros i Hi Hr. rewrite S1. f_equal. rewrite S2 in Hr by done.
    case_decide; [done|]. case_decide as Hc; [done|]. exfalso. apply Hc. split; [|done].
    by apply (g_running s Q G).
  - rewrite S3 by lia. apply G.
  - rewrite S2 by lia. pose proof (g_idle s Q G). repeat case_decide; subst; tauto.
  - intros i Hi H0 Hd. rewrite S3, S4 by done. apply (g_ids s Q G); [done..|by apply Hal].
  - intros i j Hi Hj Hdi Hdj. rewrite !S3 by done. apply (g_uniq s Q G); try done; by apply Hal.
  - rewrite S4. apply G.
  - rewrite S5, (g_count s Q G). apply count_ext. intros i Hi%elem_of_seq.
    unfold alive. apply bool_decide_ext. symmetry. apply Hal. lia.
Qed.

(** The assignments at the end of SchedYield, [SchedSwitch]'s store included. *)
Definition finish_switch (n : nat) (prev : option nat) (s : Sched) : Sched :=
  let s := upd n (fun k => with_Switches (Switches k +w 1)
             (with_TimeUsed 0 (with_State TaskRunning k))) s in
  let s := set_ContextSwitches (ContextSwitches s +w 1) (set_CurrentTask (Some n) s) in
  match prev with
  | Some p => upd p (with_Esp (switch_esp s)) s
  | None => s
  end.

Lemma qinv_finish n prev s Q : qinv s Q -> qinv (finish_switch n prev s) Q.
Proof. intros Hq. unfold finish_switch. destruct prev as [p|]; auto 10 with sched. Qed.

Lemma finish_task n prev s i :
  length (Tasks s) = 32%nat -> (i < 32)%nat ->
  State (task (finish_switch n prev s) i) = (if decide (i = n) then TaskRunning else State (task s i)) /\
  Id (task (finish_switch n prev s) i) = Id (task s i) /\
  Priority (task (finish_switch n prev s) i) = Priority (task s i) /\
  WakeTick (task (finish_switch n prev s) i) = WakeTick (task s i).
Proof.
  intros Hlen Hi. unfold finish_switch.
  set (s1 := upd n _ s).
  assert (H1 : task s1 i = if decide (n = i)
    then with_Switches (Switches (task s i) +w 1) (with_TimeUsed 0 (with_State TaskRunning (task s i)))
    else task s i) by (unfold s1; by rewrite task_upd by lia).
  set (s2 := set_ContextSwitches _ _).
  assert (H2 : task s2 i = task s1 i) by done.
  assert (Hl2 : length (Tasks s2) = 32%nat) by (unfold s2, s1; cbn; by rewrite length_alter).
  destruct prev as [p|]; [rewrite task_upd by lia; destruct (decide (p = i))|];
    rewrite H2, H1; clear; repeat case_decide; subst; done.
Qed.

Lemma finish_switch_spec s s2 s3 n :
  length (Tasks s2) = 32%nat -> frame (set_irq_on false s) s2 ->
  frame (match CurrentTask s with
         | Some p => if decide (State (task s p) = TaskRunning)
                     then upd p (with_State TaskReady) s2 else s2
         | None => s2
         end) s3 ->
  switched_to n s (finish_switch n (CurrentTask s) s3).
Proof.
  intros Hlen F2 F3.
  set (sx := match CurrentTask s with
             | Some p => if decide (State (task s p) = TaskRunning)
                         then upd p (with_State TaskReady) s2 else s2
             | None => s2
             end) in *.
  assert (Hsx : forall i, (i < 32)%nat ->
    State (task sx i) = (if decide (CurrentTask s = Some i /\ State (task s i) = TaskRunning)
                         then TaskReady else State (task s i)) /\
    Id (task sx i) = Id (task s i) /\ Priority (task sx i) = Priority (task s i) /\
    WakeTick (task sx i) = WakeTick (task s i)).
  { intros i Hi. unfold sx.
    pose proof (fr_State F2 i) as E1. pose proof (fr_Id F2 i) as E2.
    pose proof (fr_Priority F2 i) as E3. pose proof (fr_WakeTick F2 i) as E4.
    change (task (set_irq_on false s)) with (task s) in *.
    destruct (CurrentTask s) as [p|]; [|by rewrite decide_False by naive_solver].
    destruct (decide (State (task s p) = TaskRunning)).
    - rewrite task_upd by lia. destruct (decide (p = i)) as [->|].
      + rewrite decide_True by done. done.
      + rewrite decide_False by naive_solver. done.
    - rewrite decide_False by naive_solver. done. }
  assert (Hlx : length (Tasks s3) = 32%nat).
  { rewrite (frame_length _ _ F3). unfold sx. destruct (CurrentTask s); [case_decide|]; sched_len. }
  assert (Hscal : NextTaskId sx = NextTaskId s /\ TaskCountValue sx = TaskCountValue s /\
    CurrentPolicy sx = CurrentPolicy s /\ SchedulerLocked sx = SchedulerLocked s /\
    irq_on sx = false /\ ContextSwitches sx = ContextSwitches s).
  { assert (noq2 : forall s', s' = s2 \/ (exists p, s' = upd p (with_State TaskReady) s2) ->
      NextTaskId s' = NextTaskId s /\ TaskCountValue s' = TaskCountValue s /\
      CurrentPolicy s' = CurrentPolicy s /\ SchedulerLocked s' = SchedulerLocked s /\
      irq_on s' = false /\ ContextSwitches s' = ContextSwitches s).
    { pose proof (fr_NextId F2). pose proof (fr_Count F2). pose proof (fr_Policy F2).
      pose proof (fr_Locked F2). pose proof (fr_irq F2). pose proof (fr_Switches F2).
      intros s' [->|(p & ->)]; done. }
    apply noq2. unfold sx. destruct (CurrentTask s); [case_decide|]; eauto. }
  destruct Hscal as (N1 & N2 & N3 & N4 & N5 & N6).
  assert (Hfin : forall i, (i < 32)%nat -> _) by exact (fun i Hi => finish_task n (CurrentTask s) s3 i Hlx Hi).
  split.
  - unfold finish_switch. by destruct (CurrentTask s).
  - intros i Hi. destruct (Hfin i Hi) as (-> & _). case_decide; [done|].
    rewrite (fr_State F3). by apply Hsx.
  - intros i Hi. destruct (Hfin i Hi) as (_ & -> & _). rewrite (fr_Id F3). by apply Hsx.
  - intros i Hi. destruct (Hfin i Hi) as (_ & _ & -> & _). rewrite (fr_Priority F3). by apply Hsx.
  - intros i Hi. destruct (Hfin i Hi) as (_ & _ & _ & ->). rewrite (fr_WakeTick F3). by apply Hsx.
  - rewrite <- N1, <- (fr_NextId F3). unfold finish_switch. by destruct (CurrentTask s).
  - rewrite <- N2, <- (fr_Count F3). unfold finish_switch. by destruct (CurrentTask s).
  - rewrite <- N3, <- (fr_Policy F3). unfold finish_switch. by destruct (CurrentTask s).
  - rewrite <- N4, <- (fr_Locked F3). unfold finish_switch. by destruct (CurrentTask s).
  - rewrite <- N5, <- (fr_irq F3). unfold finish_switch. by destruct (CurrentTask s).
  - rewrite <- N6, <- (fr_Switches F3). unfold finish_switch. by destruct (CurrentTask s).
Qed.

Lemma SchedYield_spec s Q :
  sched_inv s Q ->
  (SchedYield s = Some (Done, s) /\
   (SchedulerLocked s <> 0 \/ pick s (qR Q) = None \/ pick s (qR Q) = CurrentTask s)) \/
  (exists n s', SchedYield s = Some (Switched [FrSchedYield (irq_on s)], s') /\
     SchedulerLocked s = 0 /\ pick s (qR Q) = Some n /\ n ∈ qR Q /\
     CurrentTask s <> Some n /\ switched_to n s s' /\
     sched_inv s' (qset QReady (yield_ready s n (qR Q)) Q)).
Proof.
  intros [Hq G]. unfold SchedYield, SchedLockIrq. cbn [SchedulerLocked set_irq_on].
  destruct (Z.eqb_spec (SchedulerLocked s) 0) as [Hl|Hl]; cbn [negb].
  2: { left. rewrite lock_unlock. auto. }
  assert (Hq0 : qinv (set_irq_on false s) Q) by by apply qinv_irq.
  rewrite (SchedFindNext_spec _ Q Hq0), some_bind.
  change (pick (set_irq_on false s) (qR Q)) with (pick s (qR Q)).
  destruct (pick s (qR Q)) as [n|] eqn:Ep; [|left; rewrite lock_unlock; auto].
  change (CurrentTask (set_irq_on false s)) with (CurrentTask s).
  destruct (decide (Some n = CurrentTask s)) as [Hc|Hc]; [left; rewrite lock_unlock; auto|].
  assert (Hn : n ∈ qR Q).
  { destruct (decide (qR Q = [])) as [E|E]; [rewrite E, pick_nil in Ep; done|].
    destruct (pick_in s _ E) as (m & Hm & ?). congruence. }
  assert (Hn32 : (n < 32)%nat) by by apply (q_range s Q Hq QReady).
  assert (Hnc : CurrentTask s <> Some n) by congruence.
  right. exists n.
  destruct (SchedQueueRemove_spec QReady n _ Q Hq0) as (s2 & -> & Hq2 & F2).
  rewrite some_bind.
  assert (V2 : same_view s s2) by (etrans; [apply (irq_same_view false)|by apply frame_view]).
  destruct (requeue_spec s2 s n Q) with (Q2 := qset QReady (rem n (qR Q)) Q)
    as (s3 & -> & Hq3 & F3); try done.
  rewrite some_bind.
  eexists. split; [reflexivity|]. do 4 (split; [done|]).
  assert (Hsw : switched_to n s
    (finish_switch n (CurrentTask s) s3)) by by eapply finish_switch_spec; [apply Hq2|..].
  split; [exact Hsw|]. split; [|by eapply switch_ginv; [done|apply Hq|..]].
  apply qinv_finish. exact Hq3.
Qed.

(** ** Moving one task between queues *)

Lemma frame_upd p f s s' :
  (forall k, erase (f k) = f (erase k)) -> frame s s' -> frame (upd p f s) (upd p f s').
Proof.
  intros Hf F. unfold frame in *.
  assert (HA : forall l : list Task, erase <$> alter f p l = alter f p (erase <$> l)).
  { intros l. apply list_eq. intros i. rewrite list_lookup_fmap.
    destruct (decide (p = i)) as [->|].
    - rewrite !list_lookup_alter_eq, list_lookup_fmap. destruct (l !! i); [|done].
      cbn. by rewrite Hf.
    - by rewrite !list_lookup_alter_ne, list_lookup_fmap. }
  assert (HN : forall x, noq (upd p f x) = set_Tasks (alter f p (Tasks (noq x))) (noq x)).
  { intros x. change (Tasks (noq x)) with (erase <$> Tasks x). by rewrite <- HA. }
  by rewrite !HN, F.
Qed.

(** The tail common to blocking and waking: unlink, set the state, append. *)
Definition requeue (qf qt : QueueId) (st : TaskState) (t : nat) (s : Sched) : option Sched :=
  s ← SchedQueueRemove qf t s; SchedQueueAdd qt t (upd t (with_State st) s).

Definition moved (qf qt : QueueId) (t : nat) (Q : Qs) : Qs :=
  let Q1 := qset qf (rem t (qget qf Q)) Q in qset qt (qget qt Q1 ++ [t]) Q1.

Lemma requeue_frame qf qt st t s Q :
  qinv s Q -> (t < 32)%nat -> (forall q, q <> qf -> t ∉ qget q Q) ->
  exists s', requeue qf qt st t s = Some s' /\ qinv s' (moved qf qt t Q) /\
    frame (upd t (with_State st) s) s'.
Proof.
  intros Hq Ht Hno. unfold requeue.
  destruct (SchedQueueRemove_spec qf t s Q Hq) as (s1 & -> & Hq1 & F1). rewrite some_bind.
  destruct (SchedQueueAdd_spec qt t (upd t (with_State st) s1)
    (qset qf (rem t (qget qf Q)) Q)) as (s2 & -> & Hq2 & F2); [by apply qinv_upd| |done|].
  - intros q. rewrite qget_qset. case_decide; [rewrite elem_of_rem; tauto|auto].
  - exists s2. split; [done|]. split; [exact Hq2|].
    etrans; [|exact F2]. by apply frame_upd.
Qed.

(** Changing the state of a live task, with the queues changed to match. *)
Lemma set_state_ginv st t s Q Q' :
  ginv s Q -> length (Tasks s) = 32%nat -> (t < 32)%nat ->
  State (task s t) <> TaskDead -> st <> TaskDead -> (t = 0%nat -> st <> TaskBlocked) ->
  (st = TaskRunning -> CurrentTask s = Some t) ->
  (forall i, i <> t -> (i ∈ qR Q' <-> i ∈ qR Q) /\ (i ∈ qB Q' <-> i ∈ qB Q) /\
                       (i ∈ qD Q' -> i ∈ qD Q)) ->
  (forall i, i ∈ qD Q' -> (i < 32)%nat) ->
  (st = TaskReady <-> t ∈ qR Q') -> (st = TaskBlocked <-> t ∈ qB Q') -> t ∉ qD Q' ->
  ginv (upd t (with_State st) s) Q'.
Proof.
  intros G Hlen Ht Ha Hst H0 Hrun HQ HD HR HB HDn.
  assert (HS : forall i, (i < 32)%nat -> State (task (upd t (with_State st) s) i) =
    if decide (t = i) then st else State (task s i)).
  { intros i Hi. rewrite task_upd by lia. by case_decide. }
  eapply (ginv_move s _ Q Q' t); try done.
  - intros i Hi Hne. rewrite HS by done. by case_decide.
  - intros i Hi. rewrite task_upd by lia. by case_decide.
  - rewrite HS, decide_True by done. done.
  - rewrite HS, decide_True by done. done.
  - rewrite HS, decide_True by done. done.
  - rewrite HS, decide_True by done. done.
  - intros c Hc. cbn in Hc. destruct (g_cur s Q G c Hc). split; [done|].
    rewrite HS by done. by case_decide.
  - intros i Hi. rewrite HS by done. cbn [CurrentTask upd set_Tasks].
    case_decide; [intros Hs; subst; auto|]. by apply (g_running s Q G).
Qed.

Lemma elem_moved_ne qf qt t Q q i : i <> t -> i ∈ qget q (moved qf qt t Q) <-> i ∈ qget q Q.
Proof.
  intros Hne. unfold moved. rewrite !qget_qset.
  repeat case_decide; subst; rewrite ?elem_of_app, ?elem_of_list_singleton', ?elem_of_rem;
    naive_solver.
Qed.

Lemma elem_moved_eq qf qt t Q q :
  (forall q, q <> qf -> t ∉ qget q Q) -> t ∈ qget q (moved qf qt t Q) <-> q = qt.
Proof.
  intros Hno. unfold moved. rewrite !qget_qset.
  repeat case_decide; subst; rewrite ?elem_of_app, ?elem_of_list_singleton', ?elem_of_rem;
    naive_solver.
Qed.

(** Blocked and ready are exclusive, and neither is dead. *)
Lemma only_in q t s Q :
  ginv s Q -> (t < 32)%nat -> t ∈ qget q Q -> q <> QDead -> forall q', q' <> q -> t ∉ qget q' Q.
Proof.
  intros G Ht Hin Hq q' Hne Hin'.
  destruct q, q'; try done; cbn in Hin, Hin';
    (apply (g_ready s Q G) in Hin || apply (g_blocked s Q G) in Hin); try done;
    (apply (g_ready s Q G) in Hin' || apply (g_blocked s Q G) in Hin' || apply (g_dead s Q G) in Hin');
    try done; congruence.
Qed.

Lemma not_dead_queue s Q t : ginv s Q -> State (task s t) <> TaskDead -> t ∉ qD Q.
Proof. intros G Hd Hin%(g_dead s Q G). done. Qed.

(** The move as a whole. *)
Lemma requeue_spec' qf qt st t s Q :
  sched_inv s Q -> (t < 32)%nat -> State (task s t) <> TaskDead ->
  (forall q, q <> qf -> t ∉ qget q Q) -> qt <> QDead ->
  (st = TaskReady /\ qt = QReady \/ st = TaskBlocked /\ qt = QBlocked /\ t <> 0%nat) ->
  exists s', requeue qf qt st t s = Some s' /\ sched_inv s' (moved qf qt t Q) /\
    frame (upd t (with_State st) s) s'.
Proof.
  intros [Hq G] Ht Hd Hno Hqt Hst.
  destruct (requeue_frame qf qt st t s Q Hq Ht Hno) as (s' & Hs' & Hq' & F).
  exists s'. split; [done|]. split; [|done]. split; [done|].
  eapply ginv_view; [by apply frame_view|].
  eapply (set_state_ginv st t s Q); try done.
  - apply Hq.
  - by destruct Hst as [[-> _]|(-> & _)].
  - intros H0. by destruct Hst as [[-> _]|(-> & _ & ?)].
  - by destruct Hst as [[-> _]|(-> & _)].
  - intros i Hi. rewrite <- (elem_moved_ne qf qt t Q QReady) by done.
    rewrite <- (elem_moved_ne qf qt t Q QBlocked) by done.
    rewrite <- (elem_moved_ne qf qt t Q QDead) by done. done.
  - intros i Hi. by apply (q_range s' _ Hq' QDead).
  - change (qR (moved qf qt t Q)) with (qget QReady (moved qf qt t Q)).
    rewrite elem_moved_eq by done. naive_solver.
  - change (qB (moved qf qt t Q)) with (qget QBlocked (moved qf qt t Q)).
    rewrite elem_moved_eq by done. naive_solver.
  - change (qD (moved qf qt t Q)) with (qget QDead (moved qf qt t Q)).
    rewrite elem_moved_eq by done. naive_solver.
Qed.

(** ** The operations *)

Lemma set_irq_on_id s : set_irq_on (irq_on s) s = s.
Proof. by destruct s. Qed.

Lemma frame_unlock a b :
  frame (set_irq_on false a) b -> frame a (SchedUnlockIrq (irq_on a) b).
Proof.
  unfold frame. change (noq (set_irq_on false a)) with (set_irq_on false (noq a)). intros F.
  transitivity (set_irq_on (irq_on a) (noq b)).
  - destruct (irq_on a); [done|]. cbn [SchedUnlockIrq].
    change (noq b = set_irq_on false (noq b)). by rewrite F.
  - rewrite F. exact (set_irq_on_id (noq a)).
Qed.

Lemma sched_inv_irq b s Q : sched_inv s Q -> sched_inv (set_irq_on b s) Q.
Proof. intros [Hq G]. split; [auto with sched|]. eapply ginv_view; [apply irq_same_view|exact G]. Qed.

Lemma sched_inv_unlock b s Q : sched_inv s Q -> sched_inv (SchedUnlockIrq b s) Q.
Proof. destruct b; [apply sched_inv_irq|done]. Qed.

(** Assignments to fields of one task that the invariant does not mention. *)
Lemma sched_inv_upd p f s Q :
  (forall t, Next (f t) = Next t) -> (forall t, State (f t) = State t) ->
  (forall t, Id (f t) = Id t) -> sched_inv s Q -> sched_inv (upd p f s) Q.
Proof.
  intros HN HS HI [Hq G]. split; [by apply qinv_upd|].
  eapply ginv_view; [|done]. apply upd_same_view; [apply Hq|done..].
Qed.

Lemma SchedFind_Some id s t :
  SchedFind id s = Some t ->
  (t < length (Tasks s))%nat /\ State (task s t) <> TaskDead /\ Id (task s t) = id.
Proof.
  unfold SchedFind, task. intros (p & E & ->)%fmap_Some. destruct p as [i k]. cbn [fst].
  apply list_find_Some in E as (E & HP & _).
  split; [by eapply lookup_lt_Some|]. rewrite E. exact HP.
Qed.

Lemma SchedFind_alive s Q t :
  sched_inv s Q -> (t < 32)%nat -> State (task s t) <> TaskDead ->
  SchedFind (Id (task s t)) s = Some t.
Proof.
  intros [Hq G] Ht Hd. pose proof (q_len s Q Hq) as Hlen.
  destruct (SchedFind (Id (task s t)) s) as [t'|] eqn:E.
  - apply SchedFind_Some in E as (Ht' & Hd' & HI). f_equal.
    apply (g_uniq s Q G); [lia|lia|done|done|done].
  - exfalso. unfold SchedFind in E. apply fmap_None, list_find_None in E.
    rewrite Forall_forall in E. apply (E (task s t)); [|done].
    unfold task. destruct (lookup_lt_is_Some_2 (Tasks s) t) as [k Hk]; [lia|].
    rewrite Hk. by eapply elem_of_list_lookup_2'.
Qed.

Lemma SchedFind_None id s i :
  SchedFind id s = None -> (i < length (Tasks s))%nat ->
  State (task s i) <> TaskDead -> Id (task s i) <> id.
Proof.
  unfold SchedFind. intros E%fmap_None Hi Hd HI. apply list_find_None in E.
  rewrite Forall_forall in E. apply (E (task s i)); [|done].
  unfold task. destruct (lookup_lt_is_Some_2 _ _ Hi) as [k Hk].
  rewrite Hk. by eapply elem_of_list_lookup_2'.
Qed.

(** Waking: a blocked task goes to the tail of the ready queue. *)
Lemma SchedUnblock_spec t s Q :
  sched_inv s Q -> (t < 32)%nat ->
  (State (task s t) <> TaskBlocked /\ SchedUnblock (Some t) s = Some s) \/
  (State (task s t) = TaskBlocked /\
   exists s', SchedUnblock (Some t) s = Some s' /\
     sched_inv s' (moved QBlocked QReady t Q) /\ frame (upd t (with_State TaskReady) s) s').
Proof.
  intros Hinv Ht. unfold SchedUnblock.
  destruct (decide (State (task s t) = TaskBlocked)) as [Hb|]; [right|left; done].
  split; [done|]. cbn [SchedLockIrq].
  assert (Hin : t ∈ qget QBlocked Q) by by apply (g_blocked s Q (proj2 Hinv)).
  destruct (requeue_spec' QBlocked QReady TaskReady t (set_irq_on false s) Q)
    as (s1 & Hs1 & Hinv1 & F1).
  - by apply sched_inv_irq.
  - done.
  - change (State (task s t) <> TaskDead). congruence.
  - eapply (only_in QBlocked); [apply Hinv|done..].
  - done.
  - left. done.
  - unfold requeue in Hs1.
    destruct (SchedQueueRemove QBlocked t (set_irq_on false s)) as [s0|]; [|done].
    rewrite some_bind in Hs1. rewrite some_bind, Hs1, some_bind. eexists. split; [reflexivity|].
    split; [by apply sched_inv_unlock|].
    apply (frame_unlock (upd t (with_State TaskReady) s)). exact F1.
Qed.

(** The fallback of SchedBlockTask: the block is undone. *)
Lemma SchedBlockTask_resume_spec t s Q :
  sched_inv s Q -> CurrentTask s = Some t ->
  exists s' Q', SchedBlockTask_resume t s = Some s' /\ sched_inv s' Q' /\
    CurrentTask s' = Some t /\
    State (task s' t) = (if decide (State (task s t) = TaskBlocked) then TaskRunning
                         else State (task s t)) /\
    SchedulerLocked s' = SchedulerLocked s.
Proof.
  intros Hinv Hc. destruct (g_cur s Q (proj2 Hinv) t Hc) as [Ht Hd].
  unfold SchedBlockTask_resume. cbn [SchedLockIrq].
  change (task (set_irq_on false s)) with (task s).
  destruct (decide (State (task s t) = TaskBlocked)) as [Hb|Hb].
  - destruct (SchedQueueRemove_spec QBlocked t (set_irq_on false s) Q) as (s1 & -> & Hq1 & F1);
      [apply qinv_irq, Hinv|].
    rewrite !some_bind. eexists _, _. split; [reflexivity|].
    pose proof (q_len _ _ Hq1) as Hl1.
    assert (Hin : t ∈ qget QBlocked Q) by by apply (g_blocked s Q (proj2 Hinv)).
    split; [|split; [|split]].
    + apply sched_inv_unlock. split; [by apply qinv_upd|].
      eapply (set_state_ginv TaskRunning t s1 Q); try done.
      * eapply ginv_view; [apply (frame_view _ _ F1)|]. by apply (sched_inv_irq false).
      * rewrite (fr_State F1). done.
      * intros _. rewrite (fr_Current F1). done.
      * intros i Hi. cbn. rewrite elem_of_rem. naive_solver.
      * intros i Hi. by apply (q_range s Q (proj1 Hinv) QDead).
      * split; [done|]. cbn. intros H. exfalso.
        by apply (only_in QBlocked t s Q (proj2 Hinv) Ht Hin ltac:(done) QReady).
      * split; [done|]. cbn. rewrite elem_of_rem. naive_solver.
      * cbn. by eapply not_dead_queue; [apply Hinv|].
    + rewrite (sv_Current _ _ (unlock_same_view _ _)). cbn. by rewrite (fr_Current F1).
    + rewrite (sv_State _ _ (unlock_same_view _ _)), task_upd_eq by lia. done.
    + unfold SchedUnlockIrq. destruct (irq_on s); cbn; apply (fr_Locked F1).
  - rewrite some_bind, lock_unlock. exists s, Q. done.
Qed.

(** A yield never loses the current task. *)
Lemma SchedYield_keeps s Q :
  sched_inv s Q ->
  exists out s' Q', SchedYield s = Some (out, s') /\ sched_inv s' Q' /\
    SchedulerLocked s' = SchedulerLocked s /\
    match out with
    | Done => s' = s
    | Switched fs => fs = [FrSchedYield (irq_on s)] /\ cur_running s'
    end.
Proof.
  intros Hinv. destruct (SchedYield_spec s Q Hinv) as [[-> _]|(n & s' & -> & Hl & _ & Hn & _ & Sw & Hinv')].
  - exists Done, s, Q. done.
  - eexists _, s', _. split; [done|]. split; [exact Hinv'|].
    split; [apply Sw|]. split; [done|]. exists n. split; [apply Sw|].
    rewrite (sw_state _ _ _ Sw) by (by apply (q_range _ _ (proj1 Hinv) QReady)).
    by rewrite decide_True.
Qed.

(** A task that is neither dead nor blocked can be blocked. *)
Lemma block_requeue t s Q :
  sched_inv s Q -> (t < 32)%nat -> t <> 0%nat ->
  State (task s t) <> TaskDead -> State (task s t) <> TaskBlocked ->
  exists s', requeue QReady QBlocked TaskBlocked t s = Some s' /\
    sched_inv s' (moved QReady QBlocked t Q) /\
    frame (upd t (with_State TaskBlocked) s) s'.
Proof.
  intros Hinv Ht H0 Hd Hb. apply requeue_spec'; try done; [|by right].
  intros [] Hne; [done|..]; cbn.
  - by rewrite <- (g_blocked s Q (proj2 Hinv)).
  - by eapply not_dead_queue; [apply Hinv|].
Qed.

Lemma nonzero_id s Q t :
  sched_inv s Q -> (t < 32)%nat -> Id (task s t) <> 0 -> t <> 0%nat.
Proof. intros [_ G] _ HI ->. by rewrite (g_idle_id s Q G) in HI. Qed.

(** Blocking another task: it moves to the blocked queue and nothing else
    happens. *)
Lemma SchedBlockTask_other t s Q :
  sched_inv s Q -> (t < 32)%nat -> State (task s t) <> TaskDead -> Id (task s t) <> 0 ->
  State (task s t) <> TaskBlocked -> CurrentTask s <> Some t ->
  exists s', SchedBlockTask (Id (task s t)) s = Some (Done, s') /\
    sched_inv s' (moved QReady QBlocked t Q) /\ frame (upd t (with_State TaskBlocked) s) s'.
Proof.
  intros Hinv Ht Hd HI Hb Hc. unfold SchedBlockTask. cbn [SchedLockIrq].
  change (SchedFind (Id (task s t)) (set_irq_on false s)) with (SchedFind (Id (task s t)) s).
  rewrite (SchedFind_alive s Q t) by done.
  change (task (set_irq_on false s)) with (task s).
  rewrite decide_False by tauto.
  change (CurrentTask (set_irq_on false s)) with (CurrentTask s).
  rewrite decide_False by congruence.
  assert (Hr : State (task s t) = TaskReady).
  { destruct (State (task s t)) eqn:E; try done.
    by apply (g_running s Q (proj2 Hinv)) in E. }
  rewrite decide_True by done.
  destruct (block_requeue t (set_irq_on false s) Q) as (s1 & Hs1 & Hinv1 & F1);
    [by apply sched_inv_irq|done|by eapply nonzero_id|done|done|].
  unfold requeue in Hs1.
  destruct (SchedQueueRemove QReady t (set_irq_on false s)) as [s0|]; [|done].
  rewrite some_bind in Hs1. rewrite some_bind, Hs1, some_bind. eexists. split; [reflexivity|].
  split; [by apply sched_inv_unlock|].
  apply (frame_unlock (upd t (with_State TaskBlocked) s)). exact F1.
Qed.

(** Blocking the current task: it is queued as blocked, and either another
    task runs, or the block is undone. *)
Lemma SchedBlockTask_self t s Q :
  sched_inv s Q -> CurrentTask s = Some t -> Id (task s t) <> 0 ->
  State (task s t) <> TaskBlocked ->
  exists s1, sched_inv s1 (moved QReady QBlocked t Q) /\
    frame (upd t (with_State TaskBlocked) s) s1 /\
    SchedBlockTask (Id (task s t)) s =
      ('(out, s2) ← SchedYield s1;
       match out with
       | Done => s3 ← SchedBlockTask_resume t s2; Some (Done, s3)
       | Switched fs => Some (Switched (fs ++ [FrSchedBlockTask t]), s2)
       end).
Proof.
  intros Hinv Hc HI Hb. destruct (g_cur s Q (proj2 Hinv) t Hc) as [Ht Hd].
  unfold SchedBlockTask. cbn [SchedLockIrq].
  change (SchedFind (Id (task s t)) (set_irq_on false s)) with (SchedFind (Id (task s t)) s).
  rewrite (SchedFind_alive s Q t) by done.
  change (task (set_irq_on false s)) with (task s).
  rewrite decide_False by tauto.
  change (CurrentTask (set_irq_on false s)) with (CurrentTask s).
  rewrite decide_True by congruence.
  destruct (block_requeue t (set_irq_on false s) Q) as (s1 & Hs1 & Hinv1 & F1);
    [by apply sched_inv_irq|done|by eapply nonzero_id|done|done|].
  unfold requeue in Hs1.
  destruct (SchedQueueRemove QReady t (set_irq_on false s)) as [s0|]; [|done].
  rewrite some_bind in Hs1. rewrite some_bind, Hs1, some_bind.
  exists (SchedUnlockIrq (irq_on s) s1).
  split; [by apply sched_inv_unlock|]. split; [|done].
  apply (frame_unlock (upd t (with_State TaskBlocked) s)). exact F1.
Qed.

(** A pending return point of task [p]. *)
Definition own_frame (p : nat) (f : SFrame) : Prop :=
  match f with
  | FrSchedYield _ | FrSchedExit => True
  | FrSchedBlockTask t | FrSchedSleepUntil t => t = p
  end.

(** A call made in [s] returns or switches, the invariant holds then, and what
    it left pending belongs to the task that called. *)
Definition returns_ok (s : Sched) (r : option (Out * Sched)) : Prop :=
  exists out s', r = Some (out, s') /\ sched_ok s' /\
    match out with
    | Done => CurrentTask s' = CurrentTask s
    | Switched fs => exists p, CurrentTask s = Some p /\ Forall (own_frame p) fs
    end.

Lemma returns_ok_same s : sched_ok s -> returns_ok s (Some (Done, s)).
Proof. intros. by exists Done, s. Qed.

Lemma SchedBlockTask_self_ok t s Q :
  sched_inv s Q -> CurrentTask s = Some t -> Id (task s t) <> 0 ->
  State (task s t) <> TaskBlocked ->
  returns_ok s (SchedBlockTask (Id (task s t)) s).
Proof.
  intros Hinv Hc HI Hb.
  destruct (SchedBlockTask_self t s Q) as (s1 & Hinv1 & F1 & ->); try done.
  destruct (SchedYield_keeps s1 _ Hinv1) as (out & s2 & Q2 & -> & Hinv2 & _ & Hout).
  rewrite some_bind. destruct out as [|fs].
  - subst s2.
    destruct (SchedBlockTask_resume_spec t s1 Q2) as (s3 & Q3 & -> & Hinv3 & Hc3 & Hs3 & _);
      [done|by rewrite (fr_Current F1)|].
    rewrite some_bind. eexists _, _. split; [reflexivity|]. split; [|by rewrite Hc3].
    exists Q3. split; [done|]. exists t. split; [done|]. rewrite Hs3, decide_True; [done|].
    rewrite (fr_State F1), task_upd_eq; [done|]. rewrite (q_len _ _ (proj1 Hinv)).
    by eapply (g_cur _ _ (proj2 Hinv)).
  - destruct Hout as [-> Hout]. eexists _, _. split; [reflexivity|].
    split; [by exists Q2|]. exists t. split; [done|]. by repeat constructor.
Qed.

Lemma SchedBlockTask_ok id s : sched_ok s -> returns_ok s (SchedBlockTask id s).
Proof.
  intros Hok. pose proof (returns_ok_same s Hok) as Hskip. destruct Hok as (Q & Hinv & Hcur).
  destruct (SchedFind id s) as [t|] eqn:Ef.
  2: { unfold SchedBlockTask. cbn [SchedLockIrq].
       change (SchedFind id (set_irq_on false s)) with (SchedFind id s).
       by rewrite Ef, lock_unlock. }
  pose proof (SchedFind_Some id s t Ef) as (Ht & Hd & <-).
  rewrite (q_len s Q (proj1 Hinv)) in Ht.
  destruct (decide (Id (task s t) = 0 \/ State (task s t) = TaskBlocked)) as [Hs|Hs].
  { unfold SchedBlockTask. cbn [SchedLockIrq].
    change (SchedFind (Id (task s t)) (set_irq_on false s)) with (SchedFind (Id (task s t)) s).
    rewrite Ef. change (task (set_irq_on false s)) with (task s).
    rewrite decide_True by tauto. by rewrite lock_unlock. }
  destruct (decide (CurrentTask s = Some t)) as [Hc|Hc].
  - eapply SchedBlockTask_self_ok; [done|done|tauto|tauto].
  - destruct (SchedBlockTask_other t s Q) as (s' & -> & Hinv' & F); [done|done|done|tauto|tauto|done|].
    exists Done, s'. split; [done|]. split; [|by rewrite (fr_Current F)]. eexists. split; [done|].
    destruct Hcur as (c & Hcc & Hr). exists c. rewrite (fr_Current F), (fr_State F).
    split; [done|]. rewrite task_upd_ne; [done|congruence].
Qed.

Lemma SchedBlock_ok s : sched_ok s -> returns_ok s (SchedBlock s).
Proof.
  intros Hok. pose proof (returns_ok_same s Hok) as Hskip.
  unfold SchedBlock. destruct (CurrentTask s); [|done]. case_match; [done|].
  by apply SchedBlockTask_ok.
Qed.

Lemma sched_ok_upd p f s :
  (forall t, Next (f t) = Next t) -> (forall t, State (f t) = State t) ->
  (forall t, Id (f t) = Id t) -> sched_ok s -> sched_ok (upd p f s).
Proof. 
  intros H1 H2 H3 (Q & Hinv & c & Hc & Hr). exists Q. split; [by apply sched_inv_upd|].
  exists c. split; [done|]. rewrite (sv_State _ _ (upd_same_view s p f (q_len _ _ (proj1 Hinv)) H2 H3)).
  done.
Qed.

Lemma SchedSleepUntil_ok tick s : sched_ok s -> returns_ok s (SchedSleepUntil tick s).
Proof.
  intros Hok. pose proof (returns_ok_same s Hok) as Hskip.
  unfold SchedSleepUntil. destruct (CurrentTask s) as [t|] eqn:Hc; [|done]. case_match; [done|].
  destruct (SchedBlockTask_ok (Id (task (upd t (with_WakeTick tick) s) t))
              (upd t (with_WakeTick tick) s)) as (out & s' & -> & Hok' & Hf).
  { by apply sched_ok_upd. }
  change (CurrentTask (upd t (with_WakeTick tick) s)) with (CurrentTask s) in Hf. rewrite Hc in Hf.
  rewrite some_bind. destruct out; eexists _, _; (split; [reflexivity|]); rewrite Hc.
  - split; [by apply sched_ok_upd|done].
  - split; [done|]. destruct Hf as (p & [= <-] & Hf). exists t. split; [done|].
    apply Forall_app. split; [done|]. by repeat constructor.
Qed.

(** ** Dying *)

Lemma qinv_upd_out p f s Q : in_no_queue p Q -> qinv s Q -> qinv (upd p f s) Q.
Proof.
  intros Hout [H1 H2 H3 H4 H5]. split; try done; [by rewrite length_upd|].
  intros q. rewrite queue_upd. eapply lseg_ext; [|apply H2].
  intros i Hi. unfold nxt. rewrite task_upd_ne; [done|]. intros ->. by apply (Hout q).
Qed.

Definition buried (t : nat) (Q : Qs) : Qs := mkQs (rem t (qR Q)) (rem t (qB Q)) (qD Q ++ [t]).

Lemma live_count_bounds s : 0 <= live_count s <= 32.
Proof. apply (count_bounds (alive s) (seq 0 32)). Qed.

Lemma live_count_pos s t : (t < 32)%nat -> State (task s t) <> TaskDead -> 1 <= live_count s.
Proof.
  intros Ht Hd. unfold live_count.
  transitivity (count (fun i => bool_decide (i = t)) (seq 0 32)).
  - rewrite (count_flip (fun _ => false) _ _ t); [by rewrite count_false|apply NoDup_seq
      |apply elem_of_seq; lia|done|by apply bool_decide_eq_true|].
    intros x _ Hx. symmetry. by apply bool_decide_eq_false.
  - apply count_mono. intros x _ Hx%bool_decide_eq_true. subst.
    by apply bool_decide_eq_true.
Qed.

Lemma bury_spec t s Q :
  sched_inv s Q -> (t < 32)%nat -> t <> 0%nat -> State (task s t) <> TaskDead ->
  exists s', bury t s = Some s' /\ qinv s' (buried t Q) /\
    State (task s' t) = TaskDead /\
    (forall i, (i < 32)%nat -> i <> t -> State (task s' i) = State (task s i) /\
                                        Id (task s' i) = Id (task s i)) /\
    CurrentTask s' = CurrentTask s /\ NextTaskId s' = NextTaskId s /\
    TaskCountValue s' = TaskCountValue s - 1 /\
    SchedulerLocked s' = SchedulerLocked s /\ irq_on s' = irq_on s /\
    CurrentPolicy s' = CurrentPolicy s /\ (forall i, i <> t -> calm i s s') /\ WakeTick (task s' t) = 0.
Proof.
  intros [Hq G] Ht H0 Hd. unfold bury.
  destruct (SchedQueueRemove_spec QReady t s Q Hq) as (s1 & -> & Hq1 & F1).
  rewrite some_bind.
  destruct (SchedQueueRemove_spec QBlocked t s1 _ Hq1) as (s2 & -> & Hq2 & F2).
  rewrite some_bind. cbn [qset qget qR qB qD] in Hq2.
  assert (F12 : frame s s2) by (etrans; eauto).
  assert (Hout : in_no_queue t (mkQs (rem t (qR Q)) (rem t (qB Q)) (qD Q))).
  { intros []; cbn; rewrite ?elem_of_rem; [naive_solver..|]. by eapply not_dead_queue. }
  destruct (SchedQueueAdd_spec QDead t (upd t SchedResetTask s2) (mkQs (rem t (qR Q)) (rem t (qB Q)) (qD Q)))
    as (s3 & -> & Hq3 & F3); [by apply qinv_upd_out|done|done|].
  rewrite some_bind. pose proof (q_len _ _ Hq2) as Hl2.
  assert (Hc3 : TaskCountValue s3 = TaskCountValue s)
    by (rewrite (fr_Count F3); cbn; apply (fr_Count F12)).
  pose proof (live_count_pos s t Ht Hd). pose proof (live_count_bounds s).
  rewrite <- (g_count s Q G) in *.
  destruct (Z.ltb_spec 0 (TaskCountValue s3)); [|lia].
  eexists. split; [reflexivity|].
  assert (Hst : forall i, task (set_TaskCountValue (TaskCountValue s3 -w 1) s3) i = task s3 i) by done.
  split; [apply qinv_TaskCountValue; exact Hq3|]. split; [|split].
  - rewrite Hst, (fr_State F3), task_upd_eq by lia. done.
  - intros i Hi Hne. rewrite Hst, (fr_State F3), (fr_Id F3), task_upd_ne by done.
    by rewrite (fr_State F12), (fr_Id F12).
  - cbn [CurrentTask NextTaskId TaskCountValue SchedulerLocked irq_on CurrentPolicy set_TaskCountValue].
    rewrite Hc3. unwrap.
    rewrite (fr_Current F3), (fr_NextId F3), (fr_Locked F3), (fr_irq F3), (fr_Policy F3). cbn.
    rewrite (fr_Current F12), (fr_NextId F12), (fr_Locked F12), (fr_irq F12), (fr_Policy F12).
    do 6 (split; [done|]). split.
    + intros i Hne. etrans; [exact (frame_calm i _ _ F12)|].
      etrans; [|exact (frame_calm i _ _ F3)]. by apply calm_same; rewrite task_upd_ne.
    + change (WakeTick (task s3 t) = 0). rewrite (fr_WakeTick F3), task_upd_eq by lia. done.
Qed.

Lemma elem_buried_ne t Q i : i <> t ->
  (i ∈ qR (buried t Q) <-> i ∈ qR Q) /\ (i ∈ qB (buried t Q) <-> i ∈ qB Q) /\
  (i ∈ qD (buried t Q) -> i ∈ qD Q).
Proof. intros. cbn. rewrite !elem_of_rem, elem_of_app, elem_of_list_singleton'. naive_solver. Qed.

(** The idle task is ready whenever another task is current. *)
Lemma idle_ready s Q t :
  sched_inv s Q -> CurrentTask s = Some t -> t <> 0%nat -> 0%nat ∈ qR Q.
Proof.
  intros [_ G] Hc H0. apply (g_ready s Q G); [lia|].
  destruct (g_idle s Q G) as [|Hr]; [done|].
  apply (g_running s Q G) in Hr; [congruence|lia].
Qed.

(** Exit of the current task while the scheduler is not locked: the task is
    buried and another one runs. *)
Lemma SchedExit_spec t s Q :
  sched_inv s Q -> CurrentTask s = Some t -> Id (task s t) <> 0 -> SchedulerLocked s = 0 ->
  exists n s' fs, SchedExit s = Some (Switched fs, s') /\ Forall (own_frame t) fs /\
    CurrentTask s' = Some n /\ n <> t /\
    sched_inv s' (qset QReady (rem n (qR (buried t Q))) (buried t Q)) /\
    State (task s' t) = TaskDead /\ State (task s' n) = TaskRunning /\
    TaskCountValue s' = TaskCountValue s - 1 /\
    (forall i, (i < 32)%nat -> i <> t -> calm i s s') /\ SchedulerLocked s' = 0 /\
    NextTaskId s' = NextTaskId s /\ WakeTick (task s' t) = 0.
Proof.
  intros Hinv Hc HI Hl. destruct (g_cur s Q (proj2 Hinv) t Hc) as [Ht Hd].
  assert (Ht0 : t <> 0%nat) by by eapply nonzero_id.
  unfold SchedExit. rewrite Hc. destruct (Z.eqb_spec (Id (task s t)) 0) as [|HI0]; [done|].
  cbn [SchedLockIrq].
  destruct (bury_spec t (set_irq_on false s) Q)
    as (s1 & -> & Hq1 & Hd1 & Ho1 & Hc1 & Hn1 & Hk1 & Hl1 & Hi1 & _ & Hcm1 & Hw1);
    [by apply sched_inv_irq|done..|].
  rewrite some_bind. set (s2 := SchedUnlockIrq (irq_on s) (set_CurrentTask None s1)).
  assert (V2 : same_view (set_CurrentTask None s1) s2) by apply unlock_same_view.
  assert (Hinv2 : sched_inv s2 (buried t Q)).
  { split; [unfold s2; auto with sched|].
    eapply ginv_view; [exact V2|]. eapply (ginv_die s _ Q _ t); try done; try apply Hinv.
    - intros i Hi. by apply elem_buried_ne.
    - intros i Hi. by apply (q_range _ _ Hq1 QDead).
    - cbn. rewrite elem_of_rem. naive_solver.
    - cbn. rewrite elem_of_rem. naive_solver.
    - intros i Hi Hne Hr. apply (g_running s Q (proj2 Hinv)) in Hr; [congruence|done]. }
  assert (Hl2 : SchedulerLocked s2 = 0).
  { unfold s2, SchedUnlockIrq. destruct (irq_on s); cbn; by rewrite Hl1. }
  assert (Hcur2 : CurrentTask s2 = None) by (by rewrite (sv_Current _ _ V2)).
  assert (Hne : qR (buried t Q) <> []).
  { pose proof (idle_ready s Q t Hinv Hc Ht0) as H0. intros E.
    assert (0%nat ∈ qR (buried t Q)) as H; [|rewrite E in H; set_solver].
    cbn. by apply elem_of_rem. }
  destruct (SchedYield_spec s2 _ Hinv2)
    as [[_ [?|Hp]]|(n & s' & -> & _ & Hp & Hn & Hnc & Sw & Hinv')]; [done| |].
  { exfalso. destruct (pick_in s2 _ Hne) as (m & Hm & _). rewrite Hm, Hcur2 in Hp. naive_solver. }
  rewrite some_bind.
  assert (Hnt : n <> t) by (intros ->; cbn in Hn; by apply elem_of_rem in Hn as [_ ?]).
  assert (Hn32 : (n < 32)%nat) by by apply (q_range _ _ (proj1 Hinv2) QReady).
  eexists n, s', _. split; [reflexivity|]. split; [by repeat constructor|].
  split; [apply Sw|]. split; [done|].
  unfold yield_ready in Hinv'. rewrite Hcur2, app_nil_r in Hinv'. split; [exact Hinv'|].
  rewrite !(sw_state _ _ _ Sw) by done. rewrite Hcur2.
  split; [|split; [|split; [|split; [|split; [|split]]]]].
  - rewrite decide_False by done. rewrite decide_False by naive_solver.
    by rewrite (sv_State _ _ V2).
  - by rewrite decide_True.
  - rewrite (sw_Count _ _ _ Sw), (sv_Count _ _ V2). done.
  - intros i Hi Hit. etrans; [|by eapply switched_calm; [apply Hinv2|..]]. etrans; [by apply Hcm1|].
    apply calm_same; unfold s2; by destruct (irq_on s).
  - by rewrite (sw_Locked _ _ _ Sw).
  - by rewrite (sw_NextId _ _ _ Sw), (sv_NextId _ _ V2).
  - rewrite (sw_WakeTick _ _ _ Sw) by done. unfold s2. by destruct (irq_on s).
Qed.

Lemma SchedExit_ok s : sched_ok s -> SchedulerLocked s = 0 -> returns_ok s (SchedExit s).
Proof.
  intros Hok Hl. pose proof Hok as (Q & Hinv & t & Hc & Hr).
  destruct (decide (Id (task s t) = 0)) as [HI|HI].
  - unfold SchedExit. rewrite Hc, HI. by apply returns_ok_same.
  - destruct (SchedExit_spec t s Q) as (n & s' & fs & -> & Hf & Hc' & _ & Hinv' & _ & Hr' & _); [done..|].
    eexists _, _. split; [reflexivity|]. split; [|by exists t].
    eexists. split; [done|]. by exists n.
Qed.

Lemma SchedKill_ok id s : sched_ok s -> SchedulerLocked s = 0 -> returns_ok s (SchedKill id s).
Proof.
  intros Hok Hl. pose proof Hok as (Q & Hinv & c & Hc & Hr).
  pose proof (returns_ok_same s Hok) as Hskip.
  unfold SchedKill. destruct (id =? 0) eqn:Hid; [done|]. apply Z.eqb_neq in Hid.
  rewrite Hc. destruct (Z.eqb_spec (Id (task s c)) id) as [|Hne]; [by apply SchedExit_ok|].
  cbn [SchedLockIrq]. change (SchedFind id (set_irq_on false s)) with (SchedFind id s).
  destruct (SchedFind id s) as [t|] eqn:Ef; [|by rewrite lock_unlock].
  apply SchedFind_Some in Ef as (Ht & Hd & HI). rewrite (q_len s Q (proj1 Hinv)) in Ht.
  change (task (set_irq_on false s)) with (task s).
  destruct (Z.eqb_spec (Id (task s t)) 0) as [|HI0]; [by rewrite lock_unlock|].
  assert (Ht0 : t <> 0%nat) by by eapply nonzero_id.
  assert (Htc : t <> c) by congruence.
  destruct (bury_spec t (set_irq_on false s) Q)
    as (s1 & -> & Hq1 & Hd1 & Ho1 & Hc1 & Hn1 & Hk1 & _); [by apply sched_inv_irq|done..|].
  rewrite some_bind. eexists _, _. split; [reflexivity|].
  rewrite (sv_Current _ _ (unlock_same_view _ _)), Hc1. split; [|done]. exists (buried t Q).
  split; [|exists c; rewrite (sv_Current _ _ (unlock_same_view _ _)), (sv_State _ _ (unlock_same_view _ _)),
    Hc1; split; [done|]; destruct (Ho1 c) as [-> _];
    [by apply (g_cur _ _ (proj2 Hinv))|congruence|done]].
  apply sched_inv_unlock. split; [done|].
  eapply (ginv_die s _ Q _ t); try done; try apply Hinv.
  - intros i Hi. by apply elem_buried_ne.
  - intros i Hi. by apply (q_range _ _ Hq1 QDead).
  - cbn. rewrite elem_of_rem. naive_solver.
  - cbn. rewrite elem_of_rem. naive_solver.
  - intros c'. rewrite Hc1. cbn. intros E. rewrite Hc in E. split; congruence.
  - intros i Hi Hni Hri. rewrite Hc1. by apply (g_running s Q (proj2 Hinv)) in Hri.
Qed.
