(* ===== verification/SchedOps.v ===== *)
(** * The scheduler's remaining operations

    Waking sleepers, looking for a runnable task, creating tasks, start-up, the
    operations that leave the queues alone, and the blocking of the running
    task. *)

From S2P Require Import Prelude Sched SchedQueues SchedInv.

(** ** SchedWakeExpired *)

(** [s'] is [s] with exactly the tasks of [W] woken. *)
Record woken_from (W : list nat) (s s' : Sched) : Prop := {
  wk_state : forall i, (i < 32)%nat ->
    State (task s' i) = if decide (i ∈ W) then TaskReady else State (task s i);
  wk_tick : forall i, (i < 32)%nat ->
    WakeTick (task s' i) = if decide (i ∈ W) then 0 else WakeTick (task s i);
  wk_Id : forall i, (i < 32)%nat -> Id (task s' i) = Id (task s i);
  wk_slice : forall i, (i < 32)%nat -> TimeUsed (task s' i) = TimeUsed (task s i) /\
    TimeSlice (task s' i) = TimeSlice (task s i);
  wk_Pending : PreemptPending s' = PreemptPending s;
  wk_Current : CurrentTask s' = CurrentTask s;
  wk_irq : irq_on s' = irq_on s;
  wk_Locked : SchedulerLocked s' = SchedulerLocked s;
  wk_NextId : NextTaskId s' = NextTaskId s }.

Lemma woken_nil s : woken_from [] s s.
Proof. split; try done; intros; by rewrite decide_False by set_solver. Qed.

Lemma woken_cons t W s s1 s' :
  t ∉ W -> (t < 32)%nat -> length (Tasks s) = 32%nat ->
  frame (upd t (with_State TaskReady) (upd t (with_WakeTick 0) s)) s1 ->
  woken_from W s1 s' -> woken_from (t :: W) s s'.
Proof.
  intros Ht Ht32 Hlen F [HS HT HI HU HP HC HQ HL HN]. split.
  - intros i Hi. rewrite HS, (fr_State F), task_upd, task_upd by (rewrite ?length_upd; lia || done).
    repeat case_decide; subst; set_solver.
  - intros i Hi. rewrite HT, (fr_WakeTick F), task_upd, task_upd by (rewrite ?length_upd; lia || done).
    repeat case_decide; subst; set_solver.
  - intros i Hi. rewrite HI, (fr_Id F), task_upd, task_upd by (rewrite ?length_upd; lia || done).
    by repeat case_decide.
  - intros i Hi. destruct (HU i Hi) as [-> ->]. rewrite (fr_TimeUsed F), (fr_TimeSlice F).
    rewrite !task_upd by (rewrite ?length_upd; lia || done). by repeat case_decide.
  - by rewrite HP, (fr_Pending F).
  - by rewrite HC, (fr_Current F).
  - by rewrite HQ, (fr_irq F).
  - by rewrite HL, (fr_Locked F).
  - by rewrite HN, (fr_NextId F).
Qed.

(** The link of an element of a queue leads to the element after it. *)
Lemma qinv_next s Q q l1 t l2 :
  qinv s Q -> qget q Q = l1 ++ t :: l2 -> Next (task s t) = head l2.
Proof.
  intros Hq E. pose proof (q_seg s Q Hq q) as Hs. rewrite E in Hs.
  apply lseg_app in Hs as (m & _ & _ & Hs). by apply lseg_head in Hs.
Qed.

Definition due (NowTick : Z) (s : Sched) (i : nat) : Prop := wake_due NowTick (task s i) = true.
#[global] Instance due_dec n s i : Decision (due n s i) := bool_eq_dec _ _.

Definition wake_body (NowTick : Z) : option nat * Z * Sched ->
    option ((option nat * Z * Sched) + (Z * Sched)) :=
  fun '(TaskItem, Woken, s) =>
    match TaskItem with
    | None => Some (inr (Woken, s))
    | Some t =>
        let next := Next (task s t) in
        if wake_due NowTick (task s t) then
          let s := upd t (with_WakeTick 0) s in
          s ← SchedQueueRemove QBlocked t s;
          let s := upd t (with_State TaskReady) s in
          s ← SchedQueueAdd QReady t s;
          Some (inl (next, Woken +w 1, s))
        else Some (inl (next, Woken, s))
    end.

Lemma wake_loop NowTick : forall todo fuel s kept R D W,
  sched_inv s (mkQs R (kept ++ todo) D) -> (length todo < fuel)%nat ->
  0 <= W -> W + Z.of_nat (length todo) <= 32 ->
  exists s',
    loop fuel (wake_body NowTick) (head todo, W, s) =
      Some (W + Z.of_nat (length (filter (due NowTick s) todo)), s') /\
    sched_inv s' (mkQs (R ++ filter (due NowTick s) todo)
                       (kept ++ filter (fun i => ~ due NowTick s i) todo) D) /\
    woken_from (filter (due NowTick s) todo) s s'.
Proof.
  induction todo as [|t todo IH]; intros fuel s kept R D W Hinv Hf HW HW32;
    (destruct fuel as [|fuel]; [cbn in Hf; lia|]); rewrite loop_unfold; cbn [head wake_body].
  { exists s. rewrite !filter_nil, !app_nil_r. cbn. rewrite app_nil_r in Hinv.
    rewrite Z.add_0_r. split; [done|]. split; [done|apply woken_nil]. }
  pose proof (proj1 Hinv) as Hq.
  assert (Ht : (t < 32)%nat) by (apply (q_range _ _ Hq QBlocked); cbn; set_solver).
  assert (Htb : State (task s t) = TaskBlocked)
    by (apply (g_blocked _ _ (proj2 Hinv) t Ht); cbn; set_solver).
  pose proof (q_nodup _ _ Hq QBlocked) as Hnd. cbn in Hnd.
  rewrite (qinv_next s _ QBlocked kept t todo Hq eq_refl), !filter_cons. cbn [length] in *.
  destruct (wake_due NowTick (task s t)) eqn:Ed.
  - rewrite decide_True by done. rewrite (decide_False (P := ~ due _ _ _)) by (intros H; by apply H).
    destruct (requeue_spec' QBlocked QReady TaskReady t (upd t (with_WakeTick 0) s) _
      (sched_inv_upd t (with_WakeTick 0) s _ (fun _ => eq_refl) (fun _ => eq_refl) (fun _ => eq_refl) Hinv))
      as (s1 & Hs1 & Hinv1 & F1); [done| | |done|by left|].
    { rewrite task_upd_eq by (rewrite (q_len _ _ Hq); lia). cbn. by rewrite Htb. }
    { apply (only_in QBlocked t s); [apply Hinv|done|cbn; set_solver|done]. }
    unfold requeue in Hs1. destruct (SchedQueueRemove _ _ _) as [s0|]; [|done].
    rewrite some_bind in Hs1. rewrite some_bind, Hs1, some_bind.
    unfold moved in Hinv1. cbn [qset qget qR qB qD] in Hinv1.
    rewrite rem_split in Hinv1 by done.
    assert (Hnt : t ∉ todo).
    { apply NoDup_app in Hnd as (_ & _ & Hnd). by apply NoDup_cons in Hnd as [? _]. }
    assert (Hdue : forall i, i ∈ todo -> due NowTick s1 i <-> due NowTick s i).
    { intros i Hi. assert (i <> t) by (intros ->; done).
      unfold due, wake_due. rewrite (fr_WakeTick F1), !task_upd_ne by done. done. }
    destruct (IH fuel s1 kept (R ++ [t]) D (W +w 1)) as (s' & -> & Hinv' & Hw);
      [done|lia|unwrap; lia|unwrap; lia|].
    rewrite (list_filter_iff' (due NowTick s1) (due NowTick s)) in * by done.
    rewrite (list_filter_iff' (fun i => ~ due NowTick s1 i) (fun i => ~ due NowTick s i)) in Hinv'
      by (intros i Hi; by rewrite Hdue).
    exists s'. split; [|split].
    + f_equal. f_equal. unwrap. cbn [length]. lia.
    + by rewrite <- app_assoc in Hinv'.
    + eapply woken_cons; [|done| |exact F1|done]; [|by apply Hq].
      rewrite list_elem_of_filter. naive_solver.
  - rewrite decide_False by (unfold due; congruence).
    rewrite (decide_True (P := ~ due _ _ _)) by (unfold due; congruence).
    destruct (IH fuel s (kept ++ [t]) R D W) as (s' & -> & Hinv' & Hw); [|lia|done|lia|].
    { by rewrite <- app_assoc. }
    exists s'. split; [done|]. split; [|done]. by rewrite <- app_assoc in Hinv'.
Qed.

Lemma SchedWakeExpired_spec NowTick s Q :
  sched_inv s Q ->
  exists s',
    SchedWakeExpired NowTick s =
      Some (Z.of_nat (length (filter (due NowTick s) (qB Q))), s') /\
    sched_inv s' (mkQs (qR Q ++ filter (due NowTick s) (qB Q))
                       (filter (fun i => ~ due NowTick s i) (qB Q)) (qD Q)) /\
    woken_from (filter (due NowTick s) (qB Q)) s s'.
Proof.
  intros Hinv. pose proof (qinv_length _ _ QBlocked (proj1 Hinv)) as HL. cbn in HL.
  unfold SchedWakeExpired. cbn [SchedLockIrq].
  destruct (wake_loop NowTick (qB Q) queue_fuel (set_irq_on false s) [] (qR Q) (qD Q) 0)
    as (s' & E & Hinv' & Hw); [|unfold queue_fuel; lia|lia|lia|].
  { destruct Q. by apply sched_inv_irq. }
  change (due NowTick (set_irq_on false s)) with (due NowTick s) in *.
  pose proof (lseg_head _ _ _ (q_seg _ _ (proj1 Hinv) QBlocked)) as Hh. cbn in Hh.
  change (BlockedQueue (set_irq_on false s)) with (BlockedQueue s). rewrite Hh.
  change (fun '(TaskItem, Woken, s) => _) with (wake_body NowTick).
  rewrite E, some_bind. eexists. split; [done|]. split; [by apply sched_inv_unlock|].
  destruct Hw as [H1 H2 H3 H4 H5 H6 H7 H8]. cbn in *.
  split; unfold SchedUnlockIrq; destruct (irq_on s) eqn:Ei; cbn; auto; congruence.
Qed.

(** ** SchedHasRunnable *)

Lemma runnable_loop s : forall R fuel,
  (forall l1 t l2, R = l1 ++ t :: l2 -> Next (task s t) = head l2) -> (length R < fuel)%nat ->
  loop fuel (fun TaskItem =>
    match TaskItem with
    | None => Some (inr false)
    | Some t => if decide (Some t <> CurrentTask s) then Some (inr true)
                else Some (inl (Next (task s t)))
    end) (head R) =
  Some (bool_decide (Exists (fun i => CurrentTask s <> Some i) R)).
Proof.
  intros R. induction R as [|t R IH]; intros fuel Hn Hf;
    (destruct fuel as [|fuel]; [cbn in Hf; lia|]); rewrite loop_unfold; cbn [head].
  - rewrite bool_decide_eq_false_2; [done|]. intros HE. by inversion HE.
  - destruct (decide _) as [Hd|Hd].
    + rewrite bool_decide_eq_true_2; [done|]. apply Exists_cons. left. congruence.
    + rewrite (Hn [] t R eq_refl), IH; [|intros l1 x l2 ->; by apply (Hn (t :: l1))|cbn in Hf; lia].
      f_equal. apply bool_decide_ext. assert (Some t = CurrentTask s) by by apply dec_stable.
      rewrite Exists_cons. naive_solver.
Qed.

Lemma SchedHasRunnable_spec s Q :
  sched_inv s Q ->
  SchedHasRunnable s = Some (bool_decide (Exists (fun i => CurrentTask s <> Some i) (qR Q)), s).
Proof.
  intros [Hq _]. unfold SchedHasRunnable. cbn [SchedLockIrq].
  pose proof (lseg_head _ _ _ (q_seg _ _ Hq QReady)) as Hh. cbn in Hh.
  change (ReadyQueue (set_irq_on false s)) with (ReadyQueue s). rewrite Hh.
  pose proof (qinv_length _ _ QReady Hq) as HL. cbn in HL.
  change (CurrentTask (set_irq_on false s)) with (CurrentTask s).
  change (task (set_irq_on false s)) with (task s).
  rewrite runnable_loop; [by rewrite some_bind, lock_unlock| |unfold queue_fuel; lia].
  intros l1 t l2 E. by apply (qinv_next s Q QReady l1 t l2 Hq).
Qed.

(** ** SchedCreate *)

(** The name kept in a descriptor: at most 31 characters. *)
Definition kept_name (src : list Z) : list Z := take 31 (c_str src).

Lemma copy_loop src : forall fuel i dst,
  (31 - i < fuel)%nat -> (i <= 31)%nat ->
  exists r, loop fuel (fun '(i, dst) =>
      if (Z.of_nat i <? SchedNameLength - 1) && negb (default 0 (src !! i) =? 0)
      then Some (inl (S i, <[i := default 0 (src !! i)]> dst))
      else Some (inr (<[i := 0]> dst))) (i, dst) = Some r /\
    length r = length dst /\
    forall k, (k < length dst)%nat -> r !! k =
      let nm := take (31 - i) (c_str (drop i src)) in
      if decide (k < i)%nat then dst !! k
      else if decide (k < i + length nm)%nat then nm !! (k - i)%nat
      else if decide (k = i + length nm)%nat then Some 0 else dst !! k.
Proof.
  unfold SchedNameLength. induction fuel as [|fuel IH]; intros i dst Hf Hi; [lia|].
  rewrite loop_unfold. cbv zeta. destruct ((_ <? _) && _) eqn:E.
  - apply andb_true_iff in E as [E1%Z.ltb_lt E2%negb_true_iff%Z.eqb_neq].
    rewrite (c_str_drop_nz i src E2).
    destruct (IH (S i) (<[i := default 0 (src !! i)]> dst)) as (r & -> & Hl & Hr); [lia|lia|].
    exists r. split; [done|]. rewrite length_insert in *. split; [done|].
    intros k Hk. rewrite Hr by done. cbv zeta. rewrite list_lookup_insert_if by done.
    replace (31 - i)%nat with (S (31 - S i)) by lia. cbn [take length].
    repeat case_decide; try lia; try done.
    + subst k. by replace (i - i)%nat with 0%nat by lia.
    + by replace (k - i)%nat with (S (k - S i)) by lia.
  - eexists. split; [done|]. rewrite length_insert. split; [done|].
    assert (En : take (31 - i) (c_str (drop i src)) = []).
    { apply andb_false_iff in E as [E%Z.ltb_ge|E%negb_false_iff%Z.eqb_eq].
      - by replace (31 - i)%nat with 0%nat by lia.
      - by rewrite c_str_drop_zero, take_nil. }
    intros k Hk. rewrite En, list_lookup_insert_if by done. cbn [length].
    repeat case_decide; done || lia.
Qed.

Lemma copy_name_spec src dst :
  exists r, copy_name src dst = Some r /\ length r = length dst /\
    forall k, (k < length dst)%nat -> r !! k =
      if decide (k < length (kept_name src))%nat then kept_name src !! k
      else if decide (k = length (kept_name src)) then Some 0 else dst !! k.
Proof.
  destruct (copy_loop src 33 0 dst) as (r & E & Hl & Hr); [lia|lia|].
  exists r. split; [exact E|]. split; [done|]. intros k Hk. rewrite Hr by done. cbv zeta.
  rewrite decide_False by lia.
  change (take (31 - 0) (c_str (drop 0 src))) with (kept_name src).
  by rewrite Nat.sub_0_r.
Qed.

Lemma count_all {A} (f : A -> bool) l :
  (forall x, x ∈ l -> f x = true) -> count f l = Z.of_nat (length l).
Proof.
  induction l as [|x l IH]; intros H; [done|]. rewrite count_cons, (H x), IH by set_solver.
  cbn [length]. lia.
Qed.

(** A full table is the only reason not to find a dead descriptor. *)
Lemma find_dead_spec s Q :
  sched_inv s Q -> TaskCountValue s < 32 ->
  exists t, find_dead s = Some t /\ (t < 32)%nat /\ t <> 0%nat /\
    State (task s t) = TaskDead /\ (forall j, (j < t)%nat -> State (task s j) <> TaskDead).
Proof.
  intros [Hq G] Hc. unfold find_dead. pose proof (q_len _ _ Hq) as Hlen.
  assert (Htask : forall i x, Tasks s !! i = Some x -> task s i = x)
    by (intros i x E; unfold task; by rewrite E).
  destruct (list_find _ _) as [[t x]|] eqn:E.
  - apply list_find_Some in E as (Hx & Hd & Hb). cbn. exists t. split; [done|].
    pose proof (lookup_lt_Some _ _ _ Hx). rewrite (Htask _ _ Hx).
    split; [lia|]. split; [|split; [done|]].
    + intros ->. destruct (g_idle _ _ G) as [H'|H']; rewrite (Htask _ _ Hx) in H'; congruence.
    + intros j Hj. destruct (lookup_lt_is_Some_2 (Tasks s) j) as [y Hy]; [lia|].
      rewrite (Htask _ _ Hy). by eapply Hb.
  - exfalso. apply list_find_None in E. rewrite Forall_forall in E.
    rewrite (g_count _ _ G) in Hc. unfold live_count in Hc.
    rewrite count_all in Hc by (intros i Hi%elem_of_seq;
      destruct (lookup_lt_is_Some_2 (Tasks s) i) as [y Hy]; [lia|];
      apply bool_decide_eq_true; rewrite (Htask _ _ Hy); apply E; by eapply elem_of_list_lookup_2').
    rewrite length_seq in Hc. lia.
Qed.

(** The descriptor SchedCreate fills in. *)
Record created (eip esp : Z) (t : nat) (s s' : Sched) : Prop := {
  cr_Id : Id (task s' t) = NextTaskId s;
  cr_Parent : ParentId (task s' t) = match CurrentTask s with Some c => Id (task s c) | None => 0 end;
  cr_regs : Eip (task s' t) = eip /\ Esp (task s' t) = wrap32 (esp - 32) /\
            Ebp (task s' t) = wrap32 (esp - 32);
  cr_sched : Priority (task s' t) = 1 /\ TimeSlice (task s' t) = 10 /\ TimeUsed (task s' t) = 0 /\
             Runtime (task s' t) = 0 /\ Switches (task s' t) = 0;
  cr_State : State (task s' t) = TaskReady;
  cr_Wake : WakeTick (task s' t) = WakeTick (task s t);
  cr_other : forall i, i <> t -> erase (task s' i) = erase (task s i);
  cr_Next : NextTaskId s' = NextTaskId s + 1;
  cr_Count : TaskCountValue s' = TaskCountValue s + 1;
  cr_Current : CurrentTask s' = CurrentTask s;
  cr_Locked : SchedulerLocked s' = SchedulerLocked s;
  cr_irq : irq_on s' = irq_on s }.

Lemma wrap32_sub_sub a b c : wrap32 (wrap32 (a - b) - c) = wrap32 (a - (b + c)).
Proof.
  unfold wrap32. rewrite Zminus_mod_idemp_l. f_equal. lia.
Qed.

(** The bookkeeping between the two queue operations of SchedCreate, up to
    the name. *)
Definition fill (SchedExitStub : Z) (eip esp : Z) (t : nat) (s : Sched) : Sched :=
  let s := set_NextTaskId (NextTaskId s +w 1) (upd t (with_Id (NextTaskId s)) s) in
  let s := upd t (with_ParentId (match CurrentTask s with
                                 | Some c => Id (task s c)
                                 | None => 0
                                 end)) s in
  let s := SchedInitStack SchedExitStub t eip esp s in
  let s := upd t (with_Eip eip) s in
  let s := upd t (fun k => with_Ebp (Esp k) k) s in
  upd t (fun k => with_State TaskReady (with_Switches 0 (with_Runtime 0
             (with_TimeUsed 0 (with_TimeSlice 10 (with_Priority 1 k)))))) s.

Definition born (eip esp id parent : Z) (k : Task) : Task :=
  mkTask id parent eip (wrap32 (esp - 32)) (wrap32 (esp - 32)) 1 10 0 0 0
         (WakeTick k) TaskReady (Name k) (Next k).

Lemma alter_alter {A} (f g : A -> A) i (l : list A) :
  alter f i (alter g i l) = alter (fun x => f (g x)) i l.
Proof.
  revert i. induction l as [|x l IH]; intros [|i]; [done..|]. cbn. f_equal. apply IH.
Qed.

Lemma fill_Tasks stub eip esp t s :
  CurrentTask s <> Some t ->
  Tasks (fill stub eip esp t s) =
  alter (born eip esp (NextTaskId s)
    match CurrentTask s with Some c => Id (task s c) | None => 0 end) t (Tasks s).
Proof.
  intros Hc. unfold fill, SchedInitStack, push32. cbv beta iota zeta.
  set (parent := match CurrentTask (set_NextTaskId _ _) with Some c => _ | None => 0 end).
  assert (parent = match CurrentTask s with Some c => Id (task s c) | None => 0 end) as <-.
  { unfold parent. cbn [CurrentTask set_NextTaskId upd set_Tasks].
    destruct (CurrentTask s) as [c|] eqn:E; [|done].
    change (Id (task (upd t (with_Id (NextTaskId s)) s) c) = Id (task s c)).
    rewrite task_upd_ne; [done|congruence]. }
  generalize parent as p. clear parent. intros p. rewrite !wrap32_sub_sub.
  cbn [Tasks set_Tasks upd set_stack_mem set_NextTaskId]. rewrite !alter_alter.
  apply list_alter_ext; [|done]. intros k _. by destruct k.
Qed.

Lemma qinv_fill stub eip esp t s Q : qinv s Q -> qinv (fill stub eip esp t s) Q.
Proof.
  intros Hq. unfold fill, SchedInitStack, push32. cbv beta iota zeta.
  repeat first [apply qinv_upd; [done|] | apply qinv_stack_mem | apply qinv_NextTaskId]. done.
Qed.

Lemma SchedCreate_full stub nm eip esp s :
  32 <= TaskCountValue s -> SchedCreate stub nm eip esp s = Some (None, s).
Proof.
  intros Hc. unfold SchedCreate, SchedMaxTasks. destruct nm; [|done].
  by rewrite (proj2 (Z.leb_le _ _)).
Qed.

(** What the unlocked state looks like, from the fields of the locked one. *)
Lemma created_intro eip esp t s s3 r k :
  erase (task s3 t) = with_Name r (erase (born eip esp (NextTaskId s)
    match CurrentTask s with Some c => Id (task s c) | None => 0 end k)) ->
  WakeTick k = WakeTick (task s t) ->
  (forall i, i <> t -> erase (task s3 i) = erase (task s i)) ->
  NextTaskId s3 = NextTaskId s + 1 -> TaskCountValue s3 +w 1 = TaskCountValue s + 1 ->
  CurrentTask s3 = CurrentTask s -> SchedulerLocked s3 = SchedulerLocked s -> irq_on s3 = false ->
  created eip esp t s
    (SchedUnlockIrq (irq_on s) (set_TaskCountValue (TaskCountValue s3 +w 1) s3)).
Proof.
  intros Ht Hk Ho Hn Hc Hcur Hl Hi.
  set (s4 := SchedUnlockIrq _ _).
  assert (T4 : forall i, task s4 i = task s3 i) by (intros; unfold s4; by destruct (irq_on s)).
  assert (V4 : same_view (set_TaskCountValue (TaskCountValue s3 +w 1) s3) s4)
    by apply unlock_same_view.
  split; intros; rewrite ?T4; try (by apply Ho).
  - exact (f_equal Id Ht).
  - exact (f_equal ParentId Ht).
  - split; [exact (f_equal Eip Ht)|]. split; [exact (f_equal Esp Ht)|exact (f_equal Ebp Ht)].
  - split; [exact (f_equal Priority Ht)|]. split; [exact (f_equal TimeSlice Ht)|].
    split; [exact (f_equal TimeUsed Ht)|]. split; [exact (f_equal Runtime Ht)|exact (f_equal Switches Ht)].
  - exact (f_equal State Ht).
  - rewrite <- Hk. exact (f_equal WakeTick Ht).
  - by rewrite (sv_NextId _ _ V4).
  - by rewrite (sv_Count _ _ V4).
  - by rewrite (sv_Current _ _ V4).
  - unfold s4. by destruct (irq_on s).
  - unfold s4, SchedUnlockIrq. by destruct (irq_on s).
Qed.

Lemma created_ginv eip esp t s s' Q :
  ginv s Q -> created eip esp t s s' -> (t < 32)%nat -> t <> 0%nat ->
  State (task s t) = TaskDead -> NextTaskId s + 1 < 4294967296 ->
  t ∉ qB Q -> (forall i, i ∈ rem t (qD Q) -> (i < 32)%nat) ->
  ginv s' (mkQs (qR Q ++ [t]) (qB Q) (rem t (qD Q))).
Proof.
  intros G Hcr Ht Ht0 Hd Hn HB HD. eapply (ginv_birth s s' Q _ t); try done; try apply Hcr.
  - intros i Hi Hne. pose proof (cr_other _ _ _ _ _ Hcr i Hne) as E.
    split; [exact (f_equal State E)|exact (f_equal Id E)].
  - intros i Hne. cbn. rewrite elem_of_rem, elem_of_app, elem_of_list_singleton'. naive_solver.
  - cbn. set_solver.
  - cbn. rewrite elem_of_rem. naive_solver.
  - rewrite (cr_Next _ _ _ _ _ Hcr). lia.
Qed.

(** The descriptor filled in and queued; [s] has [t] in no queue. *)
Lemma create_core stub nm eip esp t s Q :
  qinv s Q -> in_no_queue t Q -> (t < 32)%nat -> CurrentTask s <> Some t ->
  exists s' r, copy_name nm (Name (task s t)) = Some r /\
    (name ← copy_name nm (Name (task (fill stub eip esp t s) t));
     SchedQueueAdd QReady t (upd t (with_Name name) (fill stub eip esp t s))) = Some s' /\
    qinv s' (qset QReady (qR Q ++ [t]) Q) /\
    erase (task s' t) = with_Name r (erase (born eip esp (NextTaskId s)
      match CurrentTask s with Some c => Id (task s c) | None => 0 end (task s t))) /\
    (forall i, i <> t -> erase (task s' i) = erase (task s i)) /\
    NextTaskId s' = NextTaskId s +w 1 /\ TaskCountValue s' = TaskCountValue s /\
    CurrentTask s' = CurrentTask s /\ SchedulerLocked s' = SchedulerLocked s /\
    irq_on s' = irq_on s /\ stack_mem s' = stack_mem (SchedInitStack stub t eip esp s).
Proof.
  intros Hq Hno Ht Htc. pose proof (q_len _ _ Hq) as Hl. set (s2 := fill stub eip esp t s).
  pose proof (fill_Tasks stub eip esp t s Htc) as ET. fold s2 in ET.
  assert (Hl2 : length (Tasks s2) = 32%nat) by (rewrite ET, length_alter; done).
  match type of ET with _ = alter ?b _ _ =>
    assert (E2 : forall i, task s2 i = task (upd t b s) i) by (intros i; unfold task; by rewrite ET)
  end.
  assert (En : Name (task s2 t) = Name (task s t)) by (rewrite E2, task_upd_eq by lia; done).
  rewrite En. destruct (copy_name_spec nm (Name (task s t))) as (r & -> & _). rewrite some_bind.
  destruct (SchedQueueAdd_spec QReady t (upd t (with_Name r) s2) Q) as (s3 & -> & Hq3 & F3);
    [apply qinv_upd; [done|]; by apply qinv_fill|done|done|].
  exists s3, r. split; [done|]. split; [done|]. split; [done|]. split; [|split].
  - rewrite (frame_erase _ _ t F3), task_upd_eq, E2, task_upd_eq by lia. done.
  - intros i Hi. by rewrite (frame_erase _ _ i F3), task_upd_ne, E2, task_upd_ne by done.
  - rewrite (fr_NextId F3), (fr_Count F3), (fr_Current F3), (fr_Locked F3), (fr_irq F3).
    rewrite (f_equal stack_mem F3 : stack_mem s3 = _). done.
Qed.

Lemma SchedCreate_spec stub nm eip esp s Q :
  sched_inv s Q -> TaskCountValue s < 32 -> NextTaskId s + 1 < 4294967296 ->
  exists t s', SchedCreate stub (Some nm) eip esp s = Some (Some t, s') /\
    find_dead s = Some t /\ (t < 32)%nat /\ t <> 0%nat /\ State (task s t) = TaskDead /\
    sched_inv s' (mkQs (qR Q ++ [t]) (qB Q) (rem t (qD Q))) /\ created eip esp t s s' /\
    copy_name nm (Name (task s t)) = Some (Name (task s' t)) /\
    stack_mem s' = stack_mem (SchedInitStack stub t eip esp s).
Proof.
  intros Hinv Hc Hn. destruct (find_dead_spec s Q Hinv Hc) as (t & Ef & Ht & Ht0 & Hd & _).
  exists t. unfold SchedCreate, SchedMaxTasks. destruct (Z.leb_spec 32 (TaskCountValue s)); [lia|].
  cbn [SchedLockIrq]. change (find_dead (set_irq_on false s)) with (find_dead s). rewrite Ef.
  pose proof Hinv as [Hq G]. pose proof (g_next _ _ G) as HN.
  destruct (SchedQueueRemove_spec QDead t (set_irq_on false s) Q) as (s1 & -> & Hq1 & F1);
    [by apply qinv_irq|]. rewrite some_bind. cbn [qset qget] in Hq1.
  assert (HR : t ∉ qR Q) by (rewrite <- (g_ready _ _ G t Ht); by rewrite Hd).
  assert (HB : t ∉ qB Q) by (rewrite <- (g_blocked _ _ G t Ht); by rewrite Hd).
  assert (HD : t ∉ rem t (qD Q)) by (rewrite elem_of_rem; naive_solver).
  destruct (create_core stub nm eip esp t s1 _ Hq1)
    as (s3 & r & Er & Ha & Hq3 & Ht3 & Ho3 & Hn3 & Hc3 & Hcur3 & Hl3 & Hi3 & Hm3);
    [by intros []|done|rewrite (fr_Current F1); intros Hcur; by destruct (g_cur _ _ G t Hcur)|].
  fold (fill stub eip esp t s1). cbv zeta.
  destruct (copy_name nm (Name (task (fill _ _ _ _ _) t))) as [n1|]; [|done].
  rewrite some_bind in Ha. rewrite some_bind, Ha, some_bind.
  eexists. split; [reflexivity|]. do 4 (split; [done|]).
  rewrite (fr_NextId F1) in *. rewrite (fr_Current F1) in *. rewrite (fr_Count F1) in Hc3.
  rewrite (fr_Locked F1) in Hl3. rewrite (fr_irq F1) in Hi3. cbn in Hn3, Hc3, Hcur3, Hl3, Hi3.
  rewrite (f_equal Name (frame_erase _ _ t F1) : Name (task s1 t) = Name (task s t)) in Er.
  assert (Ho : forall i, i <> t -> erase (task s3 i) = erase (task s i)).
  { intros i Hi. rewrite (Ho3 i Hi). apply (frame_erase _ _ i F1). }
  assert (Hm : stack_mem s3 = stack_mem (SchedInitStack stub t eip esp s)).
  { rewrite Hm3. unfold SchedInitStack, push32. cbn [stack_mem upd set_Tasks set_stack_mem].
    by rewrite (f_equal stack_mem F1 : stack_mem s1 = stack_mem s). }
  assert (HP : match CurrentTask s with Some c => Id (task s1 c) | None => 0 end =
               match CurrentTask s with Some c => Id (task s c) | None => 0 end)
    by (destruct (CurrentTask s); [apply (fr_Id F1)|done]).
  cbn [CurrentTask NextTaskId set_irq_on] in Ht3. rewrite HP in Ht3.
  pose proof (live_count_bounds s) as HLB. rewrite <- (g_count _ _ G) in HLB.
  set (s4 := SchedUnlockIrq (irq_on s) (set_TaskCountValue (TaskCountValue s3 +w 1) s3)).
  assert (Hcr : created eip esp t s s4) 
    by (eapply created_intro; [exact Ht3|apply (fr_WakeTick F1)|exact Ho|rewrite Hn3; by unwrap|rewrite Hc3; by unwrap|done..]).
  assert (T4 : forall i, task s4 i = task s3 i) by (intros; unfold s4; by destruct (irq_on s)).
  split; [|split; [done|]].
  - split; [unfold s4; auto with sched|]. eapply created_ginv; eauto.
    intros i Hi. by apply (q_range _ _ Hq3 QDead).
  - rewrite T4. split; [|unfold s4; by destruct (irq_on s)].
    rewrite Er. f_equal. symmetry. exact (f_equal Name Ht3).
Qed.

(** ** SchedInit *)

Lemma SchedInit_tasks s :
  length (Tasks s) = 32%nat ->
  length (Tasks (SchedInit s)) = 32%nat /\
  State (task (SchedInit s) 0) = TaskRunning /\ Id (task (SchedInit s) 0) = 0 /\
  forall i, i <> 0%nat -> State (task (SchedInit s) i) = TaskDead.
Proof.
  intros Hl. unfold SchedInit. cbv zeta.
  set (s1 := set_Tasks (SchedResetTask <$> _) _).
  assert (H1 : length (Tasks s1) = 32%nat) by (unfold s1; cbn; by rewrite length_fmap).
  assert (HT : forall v w x y i, task (set_TaskCountValue v (set_CurrentTask w (set_NextTaskId x y))) i
                               = task y i) by done.
  split; [cbn [Tasks set_TaskCountValue set_CurrentTask set_NextTaskId]; by rewrite length_upd|].
  rewrite HT, task_upd_eq by lia. split; [done|]. split; [done|]. intros i Hi.
  rewrite HT, task_upd_ne by done. unfold task, s1. cbn [Tasks set_Tasks]. rewrite list_lookup_fmap.
  by destruct (_ !! i).
Qed.

Lemma SchedInit_inv s :
  length (Tasks s) = 32%nat -> sched_inv (SchedInit s) (mkQs [] [] []).
Proof.
  intros Hl. destruct (SchedInit_tasks s Hl) as (Hl' & H0 & HI & HD). split.
  - split; [done|by intros []| |intros ? ? i Hi; destruct q; cbn in Hi; set_solver|].
    + intros []; constructor.
    + intros [] i Hi; cbn in Hi; set_solver.
  - assert (Hst : forall i, State (task (SchedInit s) i) = if decide (i = 0%nat) then TaskRunning else TaskDead).
    { intros i. case_decide; [by subst|by apply HD]. }
    assert (Hlive : forall i, State (task (SchedInit s) i) <> TaskDead -> i = 0%nat).
    { intros i. rewrite Hst. by case_decide. }
    split; try done.
    + intros i Hi. rewrite Hst. case_decide; cbn; set_solver.
    + intros i Hi. rewrite Hst. case_decide; cbn; set_solver.
    + intros i Hi. cbn in Hi. set_solver.
    + intros c. cbn. intros [= <-]. split; [lia|by rewrite Hst].
    + intros i Hi. rewrite Hst. case_decide; [by subst|done].
    + by right.
    + intros i Hi Hne Hd. by apply Hlive in Hd.
    + intros i j _ _ Hi%Hlive Hj%Hlive _. congruence.
    + cbn. symmetry. unfold live_count.
      rewrite (count_ext _ (fun i => bool_decide (i = 0%nat))); [done|].
      intros i _. apply bool_decide_ext. rewrite Hst. case_decide; naive_solver.
Qed.

Lemma SchedInit_ok s : length (Tasks s) = 32%nat -> sched_ok (SchedInit s).
Proof.
  intros Hl. eexists. split; [by apply SchedInit_inv|]. exists 0%nat. split; [done|].
  by apply SchedInit_tasks.
Qed.

(** ** The operations that leave the queues alone *)

(** [sched_ok] only looks at the tasks and these fields. *)
Lemma sched_ok_view s s' :
  Tasks s' = Tasks s -> (forall q, queue q s' = queue q s) -> CurrentTask s' = CurrentTask s ->
  NextTaskId s' = NextTaskId s -> TaskCountValue s' = TaskCountValue s ->
  sched_ok s -> sched_ok s'.
Proof.
  intros HT HQ HC HN HK (Q & [Hq G] & c & Hc & Hr).
  assert (Ht : forall i, task s' i = task s i) by (intros; unfold task; by rewrite HT).
  exists Q. split; [split|exists c; by rewrite HC, Ht].
  - by eapply qinv_heads.
  - eapply ginv_view; [|exact G]. split; intros; by rewrite ?Ht.
Qed.

Lemma SchedTick_ok Regs s :
  sched_ok s -> sched_ok (SchedTick Regs s) /\ CurrentTask (SchedTick Regs s) = CurrentTask s.
Proof.
  intros Hok. unfold SchedTick. destruct Regs; [|done]. case_match; [done|].
  assert (Hok1 : sched_ok (set_SchedulerTicks (SchedulerTicks s +w 1) s))
    by (eapply sched_ok_view; [..|exact Hok]; done).
  set (s1 := set_SchedulerTicks _ s) in *. destruct (CurrentTask s1) as [c|] eqn:Hc; [|done].
  assert (Hok2 := sched_ok_upd c (fun k => with_TimeUsed (TimeUsed k +w 1)
                       (with_Runtime (Runtime k +w 1) k)) s1 (fun _ => eq_refl) (fun _ => eq_refl)
                       (fun _ => eq_refl) Hok1).
  case_match; [|done]. split; [|done].
  eapply sched_ok_view; [..|apply (sched_ok_upd c (with_TimeUsed 0)); [done..|exact Hok2]];
    done || by intros [].
Qed.

Lemma SchedYield_ok s : sched_ok s -> returns_ok s (SchedYield s).
Proof.
  intros Hok. pose proof Hok as (Q & Hinv & c & Hc & Hr).
  destruct (SchedYield_keeps s Q Hinv) as (out & s' & Q' & -> & Hinv' & _ & Hout).
  eexists _, _. split; [reflexivity|]. destruct out as [|fs]; [by subst|].
  destruct Hout as [-> Hout]. split; [by exists Q'|]. exists c. split; [done|]. by repeat constructor.
Qed.

Lemma SchedPreempt_ok s : sched_ok s -> returns_ok s (SchedPreempt s).
Proof.
  intros Hok. unfold SchedPreempt. case_match; [by apply returns_ok_same|].
  case_match; [by apply returns_ok_same|].
  apply (SchedYield_ok (set_PreemptPending false s)). eapply sched_ok_view; [..|exact Hok]; done.
Qed.

Lemma SchedSetPriority_ok t p s :
  sched_ok s -> sched_ok (SchedSetPriority t p s) /\ CurrentTask (SchedSetPriority t p s) = CurrentTask s.
Proof.
  intros Hok. unfold SchedSetPriority. destruct t as [t|]; [|done]. case_match; [done|].
  split; [by apply sched_ok_upd|done].
Qed.

(** Moving a blocked task to the ready queue keeps who runs. *)
Lemma SchedUnblock_ok t s :
  sched_ok s -> (forall i, t = Some i -> (i < 32)%nat) ->
  exists s', SchedUnblock t s = Some s' /\ sched_ok s' /\ CurrentTask s' = CurrentTask s.
Proof.
  intros Hok Ht. destruct t as [t|]; [|by exists s]. pose proof Hok as (Q & Hinv & c & Hc & Hr).
  destruct (SchedUnblock_spec t s Q Hinv) as [[_ ->]|(Hb & s' & -> & Hinv' & F)];
    [by apply Ht|by exists s|].
  exists s'. split; [done|]. split; [|apply (fr_Current F)]. eexists. split; [done|].
  exists c. rewrite (fr_Current F), (fr_State F). split; [done|].
  rewrite task_upd_ne; [done|congruence].
Qed.

Lemma SchedWakeTask_ok id s :
  sched_ok s -> exists s', SchedWakeTask id s = Some s' /\ sched_ok s' /\ CurrentTask s' = CurrentTask s.
Proof.
  intros Hok. unfold SchedWakeTask. destruct (SchedFind id s) as [t|] eqn:E; [|by exists s].
  apply SchedUnblock_ok; [done|]. intros i [= <-]. apply SchedFind_Some in E as [Ht _].
  destruct Hok as (Q & Hinv & _). by rewrite (q_len _ _ (proj1 Hinv)) in Ht.
Qed.

Lemma SchedWakeExpired_ok now s :
  sched_ok s ->
  exists n s', SchedWakeExpired now s = Some (n, s') /\ sched_ok s' /\ CurrentTask s' = CurrentTask s.
Proof.
  intros (Q & Hinv & c & Hc & Hr).
  destruct (SchedWakeExpired_spec now s Q Hinv) as (s' & -> & Hinv' & Hw).
  eexists _, s'. split; [done|]. split; [|by rewrite (wk_Current _ _ _ Hw)].
  eexists. split; [done|]. exists c. rewrite (wk_Current _ _ _ Hw). split; [done|].
  destruct (g_cur _ _ (proj2 Hinv) c Hc) as [Hc32 _].
  rewrite (wk_state _ _ _ Hw), decide_False by
    (done || (rewrite list_elem_of_filter; intros [_ Hb];
              apply (g_blocked _ _ (proj2 Hinv)) in Hb; [congruence|done])). done.
Qed.

Lemma SchedCreate_ok stub nm eip esp s :
  sched_ok s -> NextTaskId s + 1 < 4294967296 ->
  exists t s', SchedCreate stub nm eip esp s = Some (t, s') /\ sched_ok s' /\
    CurrentTask s' = CurrentTask s.
Proof.
  intros Hok Hn. destruct nm as [nm|]; [|by exists None, s].
  destruct (decide (TaskCountValue s < 32)) as [Hc|Hc].
  - pose proof Hok as (Q & Hinv & c & Hcc & Hr).
    destruct (SchedCreate_spec stub nm eip esp s Q Hinv Hc Hn)
      as (t & s' & -> & _ & Ht & _ & Hd & Hinv' & Hcr & _).
    eexists _, s'. split; [done|]. split; [|apply Hcr]. eexists. split; [done|].
    exists c. rewrite (cr_Current _ _ _ _ _ Hcr). split; [done|].
    rewrite <- Hr. refine (f_equal State (cr_other _ _ _ _ _ Hcr c _ : erase _ = erase _)). congruence.
  - rewrite SchedCreate_full by lia. by exists None, s.
Qed.

(** ** SchedBlock *)

(** Blocking the running task while the scheduler is free hands the CPU to the
    chosen task; the caller stays blocked with its return points pending. *)
Lemma block_self_switches t s Q :
  sched_inv s Q -> CurrentTask s = Some t -> Id (task s t) <> 0 ->
  State (task s t) = TaskRunning -> SchedulerLocked s = 0 ->
  exists n s', SchedBlockTask (Id (task s t)) s =
      Some (Switched [FrSchedYield (irq_on s); FrSchedBlockTask t], s') /\
    n ∈ qR Q /\ CurrentTask s' = Some n /\ State (task s' n) = TaskRunning /\
    State (task s' t) = TaskBlocked /\
    sched_inv s' (mkQs (rem n (qR Q)) (qB Q ++ [t]) (qD Q)) /\
    (forall i, (i < 32)%nat -> Id (task s' i) = Id (task s i) /\ WakeTick (task s' i) = WakeTick (task s i)) /\
    (forall i, (i < 32)%nat -> i <> t -> calm i s s') /\ SchedulerLocked s' = SchedulerLocked s /\
    NextTaskId s' = NextTaskId s.
Proof.
  intros Hinv Hc HI Hr Hl. pose proof (nonzero_id s Q t Hinv) as H0.
  destruct (g_cur _ _ (proj2 Hinv) t Hc) as [Ht Hd].
  destruct (SchedBlockTask_self t s Q) as (s1 & Hinv1 & F1 & ->); [done..|congruence|].
  assert (HtR : t ∉ qR Q) by (intros Hin; apply (g_ready _ _ (proj2 Hinv)) in Hin; [congruence|done]).
  assert (HtB : t ∉ qB Q) by (intros Hin; apply (g_blocked _ _ (proj2 Hinv)) in Hin; [congruence|done]).
  unfold moved in Hinv1. cbn [qset qget qR qB qD] in Hinv1. rewrite rem_notin in Hinv1 by done.
  assert (Hst : State (task s1 t) = TaskBlocked).
  { rewrite (fr_State F1), task_upd_eq; [done|]. by rewrite (q_len _ _ (proj1 Hinv)). }
  pose proof (idle_ready s Q t Hinv Hc (H0 Ht HI)) as Hidle.
  assert (Hne : qR Q <> []) by (intros E; rewrite E in Hidle; set_solver).
  destruct (pick_in s1 (qR Q) Hne) as (n & Hp & Hn).
  destruct (SchedYield_spec s1 _ Hinv1)
    as [[_ Hno]|(n' & s' & -> & _ & Hp' & Hn' & Hcn & Sw & Hinv')]; cbn [qR] in *.
  { exfalso. rewrite (fr_Locked F1), (fr_Current F1), Hp in Hno. cbn in Hno. rewrite Hc in Hno.
    destruct Hno as [?|[?|[= ->]]]; done. }
  exists n', s'. rewrite some_bind.
  rewrite (fr_irq F1 : irq_on s1 = irq_on s). split; [done|]. split; [done|].
  split; [apply Sw|]. assert (Hn32 : (n' < 32)%nat) by by apply (q_range _ _ (proj1 Hinv) QReady).
  rewrite !(sw_state _ _ _ Sw) by done. rewrite decide_True by done. split; [done|].
  rewrite decide_False by (intros ->; done). rewrite decide_False by (rewrite Hst; naive_solver).
  split; [done|]. unfold yield_ready in Hinv'.
  split; [|split; [|split; [|split]]].
  5: by rewrite (sw_NextId _ _ _ Sw), (fr_NextId F1).
  2: { intros i Hi. rewrite (sw_Id _ _ _ Sw), (sw_WakeTick _ _ _ Sw), (fr_Id F1), (fr_WakeTick F1),
         task_upd by (done || by rewrite (q_len _ _ (proj1 Hinv))). by case_decide. }
  2: { intros i Hi Hit. etrans; [|by eapply switched_calm; [apply Hinv1|..]].
       etrans; [|exact (frame_calm i _ _ F1)]. by apply calm_same; rewrite task_upd_ne. }
  2: { by rewrite (sw_Locked _ _ _ Sw), (fr_Locked F1). }
  rewrite (fr_Current F1 : CurrentTask s1 = CurrentTask s), Hc, decide_False, app_nil_r in Hinv'
    by (rewrite Hst; done). exact Hinv'.
Qed.

Lemma SchedBlock_switches t s Q :
  sched_inv s Q -> CurrentTask s = Some t -> Id (task s t) <> 0 ->
  State (task s t) = TaskRunning -> SchedulerLocked s = 0 ->
  exists n s', SchedBlock s =
      Some (Switched [FrSchedYield (irq_on s); FrSchedBlockTask t], s') /\
    n ∈ qR Q /\ CurrentTask s' = Some n /\ State (task s' n) = TaskRunning /\
    State (task s' t) = TaskBlocked /\
    sched_inv s' (mkQs (rem n (qR Q)) (qB Q ++ [t]) (qD Q)) /\
    (forall i, (i < 32)%nat -> Id (task s' i) = Id (task s i) /\ WakeTick (task s' i) = WakeTick (task s i)) /\
    (forall i, (i < 32)%nat -> i <> t -> calm i s s') /\ SchedulerLocked s' = SchedulerLocked s /\
    NextTaskId s' = NextTaskId s.
Proof.
  intros Hinv Hc HI Hr Hl. unfold SchedBlock. rewrite Hc, (proj2 (Z.eqb_neq _ _) HI).
  by apply block_self_switches.
Qed.

(** While the scheduler is locked the block is undone: SchedBlock returns with
    the caller current and running. *)
Lemma SchedBlock_undone t s Q :
  sched_inv s Q -> CurrentTask s = Some t -> Id (task s t) <> 0 ->
  State (task s t) = TaskRunning -> SchedulerLocked s <> 0 ->
  exists s' Q', SchedBlock s = Some (Done, s') /\ sched_inv s' Q' /\ CurrentTask s' = Some t /\
    State (task s' t) = TaskRunning /\ Id (task s' t) <> 0 /\ SchedulerLocked s' = SchedulerLocked s.
Proof.
  intros Hinv Hc HI Hr Hl. unfold SchedBlock. rewrite Hc, (proj2 (Z.eqb_neq _ _) HI).
  pose proof (g_cur _ _ (proj2 Hinv) t Hc) as [Ht _].
  destruct (SchedBlockTask_self t s Q) as (s1 & Hinv1 & F1 & ->); [done..|congruence|].
  destruct (SchedYield_spec s1 _ Hinv1) as [[-> _]|(n & s' & _ & H0 & _)];
    [|by rewrite (fr_Locked F1) in H0].
  rewrite some_bind.
  destruct (SchedBlockTask_resume_spec t s1 _ Hinv1) as (s2 & Q2 & -> & Hinv2 & Hc2 & Hs2 & Hl2);
    [by rewrite (fr_Current F1)|].
  rewrite some_bind. exists s2, Q2. split; [done|]. split; [done|]. split; [done|].
  rewrite (fr_State F1), task_upd_eq, decide_True in Hs2 by (done || by rewrite (q_len _ _ (proj1 Hinv))).
  split; [done|]. split; [|by rewrite Hl2, (fr_Locked F1)].
  pose proof (g_ids _ _ (proj2 Hinv2) t Ht) as Hid. rewrite Hs2 in Hid.
  specialize (Hid (nonzero_id s Q t Hinv Ht HI) ltac:(done)). lia.
Qed.
