(* ===== verification/SchedMachine.v ===== *)
(** * The scheduler as a machine

    A machine is the scheduler with, for every task that was switched out, the
    return points it still has to run. A step is one call made by the running
    task or by an interrupt; when the call switches, the step also resumes the
    task that was picked. Reachability starts from SchedInit. *)

From S2P Require Import Prelude Sched SchedQueues SchedInv SchedOps.

(** ** Steps *)

Record Machine := mkMachine { m_sched : Sched; m_saved : gmap nat (list SFrame) }.

Inductive sched_op :=
| OpYield | OpPreempt | OpBlock | OpBlockTask (id : Z) | OpSleepUntil (tick : Z)
| OpExit | OpKill (id : Z)
| OpUnblock (t : option nat) | OpWakeTask (id : Z) | OpWakeExpired (now : Z)
| OpCreate (name : option (list Z)) (eip esp : Z)
| OpTick (regs : option Z) | OpSetPolicy (p : Z) | OpSetPriority (t : option nat) (p : Z)
| OpLock | OpUnlock.

(** A call without a switch. *)
Definition returned (r : option Sched) : option (Out * Sched) := s ← r; Some (Done, s).

Definition exec_op (SchedExitStub : Z) (op : sched_op) (s : Sched) : option (Out * Sched) :=
  match op with
  | OpYield => SchedYield s
  | OpPreempt => SchedPreempt s
  | OpBlock => SchedBlock s
  | OpBlockTask id => SchedBlockTask id s
  | OpSleepUntil tick => SchedSleepUntil tick s
  | OpExit => SchedExit s
  | OpKill id => SchedKill id s
  | OpUnblock t => returned (SchedUnblock t s)
  | OpWakeTask id => returned (SchedWakeTask id s)
  | OpWakeExpired now => returned (snd <$> SchedWakeExpired now s)
  | OpCreate name eip esp => returned (snd <$> SchedCreate SchedExitStub name eip esp s)
  | OpTick regs => returned (Some (SchedTick regs s))
  | OpSetPolicy p => returned (Some (SchedSetPolicy p s))
  | OpSetPriority t p => returned (Some (SchedSetPriority t p s))
  | OpLock => returned (Some (SchedLock s))
  | OpUnlock => returned (Some (SchedUnlock s))
  end.

Fixpoint run_frames (fs : list SFrame) (s : Sched) : option Sched :=
  match fs with
  | [] => Some s
  | f :: fs => s ← run_frame f s; run_frames fs s
  end.

(** What the task switched to does first: finish its pending calls, or, when it
    is new, enter SchedExitStub, which enables interrupts. *)
Definition resume (saved : option (list SFrame)) (s : Sched) : option Sched :=
  match saved with
  | Some fs => run_frames fs s
  | None => Some (set_irq_on true s)
  end.

(** A descriptor that SchedCreate takes has a new stack. *)
Definition forget_dead (s : Sched) (op : sched_op) (saved : gmap nat (list SFrame)) :=
  match op with
  | OpCreate _ _ _ => match find_dead s with Some t => delete t saved | None => saved end
  | _ => saved
  end.

(** After a call made in [before] that left [s]: a call that switched leaves the
    caller's return points behind and resumes the task that was picked. *)
Definition settle (before : Sched) (saved : gmap nat (list SFrame)) (out : Out) (s : Sched) : option Machine :=
  match out with
  | Done => Some (mkMachine s saved)
  | Switched fs =>
      match CurrentTask before, CurrentTask s with
      | Some p, Some n =>
          s ← resume (saved !! n) s;
          Some (mkMachine s (<[p := fs]> saved))
      | _, _ => None
      end
  end.

Definition step (SchedExitStub : Z) (op : sched_op) (m : Machine) : option Machine :=
  '(out, s) ← exec_op SchedExitStub op (m_sched m);
  settle (m_sched m) (forget_dead (m_sched m) op (m_saved m)) out s.

(** What a caller owes: task ids have not run out, a task pointer points into
    the table, and nobody exits while the scheduler is locked. *)
Definition op_pre (op : sched_op) (s : Sched) : Prop :=
  match op with
  | OpExit | OpKill _ => SchedulerLocked s = 0
  | OpCreate _ _ _ => NextTaskId s + 1 < 4294967296
  | OpUnblock (Some t) => (t < 32)%nat
  | _ => True
  end.

Definition machine_init : Machine := mkMachine (SchedInit sched_bss) ∅.

Inductive reach (SchedExitStub : Z) : Machine -> Prop :=
| reach_init : reach SchedExitStub machine_init
| reach_step m m' op : reach SchedExitStub m -> op_pre op (m_sched m) ->
    step SchedExitStub op m = Some m' -> reach SchedExitStub m'.

Definition machine_ok (m : Machine) : Prop :=
  sched_ok (m_sched m) /\ forall t fs, m_saved m !! t = Some fs -> Forall (own_frame t) fs.

(** ** Every step is defined and keeps the invariant *)

(** What the resumption of the running task keeps. *)
Record resumed (s s' : Sched) : Prop := {
  rs_view : same_view s s';
  rs_Policy : CurrentPolicy s' = CurrentPolicy s;
  rs_Locked : SchedulerLocked s' = SchedulerLocked s;
  rs_calm : forall i, (i < 32)%nat -> calm i s s' }.

#[global] Instance resumed_refl : Reflexive resumed.
Proof. done. Qed.
#[global] Instance resumed_trans : Transitive resumed.
Proof. intros x y z [] []. split; [by etrans|congruence|congruence|intros; etrans; eauto]. Qed.

Lemma run_frame_spec n f s Q :
  sched_inv s Q -> CurrentTask s = Some n -> State (task s n) = TaskRunning -> own_frame n f ->
  exists s', run_frame f s = Some s' /\ sched_inv s' Q /\ resumed s s'.
Proof.
  intros Hinv Hc Hr Hown. pose proof (q_len _ _ (proj1 Hinv)) as Hlen.
  destruct f as [w|t|t|]; cbn [run_frame own_frame] in *; subst.
  - eexists. split; [done|]. split; [by apply sched_inv_unlock|].
    split; [apply unlock_same_view|by destruct w|by destruct w|]. intros i _. apply calm_same; by destruct w.
  - unfold SchedBlockTask_resume. cbn [SchedLockIrq].
    change (task (set_irq_on false s)) with (task s). rewrite decide_False by congruence.
    rewrite some_bind, lock_unlock. by exists s.
  - eexists. split; [done|]. split; [by apply sched_inv_upd|].
    split; [by apply upd_same_view|done|done|]. intros i Hi. unfold calm.
    rewrite task_upd by (done || by rewrite Hlen). by case_decide.
  - unfold SchedExit_resume. rewrite Hc. by exists s.
Qed.

Lemma run_frames_spec n fs : forall s Q,
  sched_inv s Q -> CurrentTask s = Some n -> State (task s n) = TaskRunning ->
  Forall (own_frame n) fs ->
  exists s', run_frames fs s = Some s' /\ sched_inv s' Q /\ resumed s s'.
Proof.
  induction fs as [|f fs IH]; intros s Q Hinv Hc Hr Hf; [by exists s|].
  inversion Hf as [|? ? H1 H2]; subst. cbn [run_frames].
  destruct (run_frame_spec n f s Q) as (s1 & -> & Hinv1 & R1); [done..|]. rewrite some_bind.
  pose proof (rs_view _ _ R1) as V.
  destruct (IH s1 Q) as (s' & -> & Hinv' & R'); [done| | |done|].
  - by rewrite (sv_Current _ _ V).
  - by rewrite (sv_State _ _ V).
  - exists s'. split; [done|]. split; [done|]. by etrans.
Qed.

Lemma resume_spec n saved s Q :
  sched_inv s Q -> CurrentTask s = Some n -> State (task s n) = TaskRunning ->
  (forall fs, saved = Some fs -> Forall (own_frame n) fs) ->
  exists s', resume saved s = Some s' /\ sched_inv s' Q /\ resumed s s'.
Proof.
  intros Hinv Hc Hr Hf. destruct saved as [fs|]; [by eapply run_frames_spec; eauto|].
  eexists. split; [done|]. split; [by apply sched_inv_irq|]. by split; [apply irq_same_view|..].
Qed.

(** A call that cannot switch, through [returned]. *)
Lemma returned_ok s r :
  (exists s', r = Some s' /\ sched_ok s' /\ CurrentTask s' = CurrentTask s) ->
  returns_ok s (returned r).
Proof. intros (s' & -> & ? & ?). by exists Done, s'. Qed.

Lemma view_returned s s' :
  Tasks s' = Tasks s -> (forall q, queue q s' = queue q s) -> CurrentTask s' = CurrentTask s ->
  NextTaskId s' = NextTaskId s -> TaskCountValue s' = TaskCountValue s ->
  sched_ok s -> returns_ok s (returned (Some s')).
Proof.
  intros. apply returned_ok. exists s'. split; [done|]. split; [|done]. by eapply sched_ok_view.
Qed.

#[export] Hint Resolve SchedYield_ok SchedPreempt_ok SchedBlock_ok SchedBlockTask_ok
  SchedSleepUntil_ok SchedExit_ok SchedKill_ok SchedUnblock_ok SchedWakeTask_ok returned_ok : sched.

Lemma exec_op_ok stub op s : sched_ok s -> op_pre op s -> returns_ok s (exec_op stub op s).
Proof.
  intros Hok Hpre. destruct op; cbn [exec_op op_pre] in *; auto with sched.
  - apply returned_ok, SchedUnblock_ok; [done|]. intros i ->. done.
  - destruct (SchedWakeExpired_ok now s Hok) as (n & s' & -> & H). apply returned_ok. by exists s'.
  - destruct (SchedCreate_ok stub name eip esp s Hok Hpre) as (n & s' & -> & H).
    apply returned_ok. by exists s'.
  - destruct (SchedTick_ok regs s Hok). apply returned_ok. by eexists.
  - unfold SchedSetPolicy. repeat case_match; by apply view_returned; [..|exact Hok].
  - destruct (SchedSetPriority_ok t p s Hok). apply returned_ok. by eexists.
  - by apply view_returned.
  - unfold SchedUnlock. case_match; by apply view_returned.
Qed.

Lemma forget_dead_sub s op saved t fs :
  forget_dead s op saved !! t = Some fs -> saved !! t = Some fs.
Proof.
  destruct op; try done. cbn. destruct (find_dead s); [|done]. by intros [_ ?]%lookup_delete_Some.
Qed.

Definition saved_ok (saved : gmap nat (list SFrame)) : Prop :=
  forall t fs, saved !! t = Some fs -> Forall (own_frame t) fs.

(** The outcome of a call, resumption included. *)
Lemma settle_ok before saved out s :
  saved_ok saved -> sched_ok s -> 
  match out with Done => True | Switched fs => exists p, CurrentTask before = Some p /\ Forall (own_frame p) fs end ->
  exists m', settle before saved out s = Some m' /\ machine_ok m' /\ resumed s (m_sched m').
Proof.
  intros Hsv Hok Hout. destruct out as [|fs]; [by eexists|].
  destruct Hout as (p & Hp & Hfs). destruct Hok as (Q & Hinv & n & Hn & Hr). cbn [settle]. rewrite Hp, Hn.
  destruct (resume_spec n (saved !! n) s Q) as (s2 & -> & Hinv2 & R); [done..|by apply Hsv|].
  pose proof (rs_view _ _ R) as V. rewrite some_bind. eexists. split; [done|]. split; [|done]. split; cbn.
  - exists Q. split; [done|]. exists n. by rewrite (sv_Current _ _ V), (sv_State _ _ V).
  - intros t fs' [[-> <-]|[_ H]]%lookup_insert_Some; [done|by apply Hsv].
Qed.

Lemma step_ok stub op m :
  machine_ok m -> op_pre op (m_sched m) ->
  exists m', step stub op m = Some m' /\ machine_ok m'.
Proof.
  intros [Hok Hsv] Hpre.
  destruct (exec_op_ok stub op _ Hok Hpre) as (out & s' & E & Hok' & Hout).
  unfold step. rewrite E, some_bind.
  destruct (settle_ok (m_sched m) (forget_dead (m_sched m) op (m_saved m)) out s')
    as (m' & -> & Hm & _); [by intros t fs H%forget_dead_sub; eauto|done|by destruct out|]. by exists m'.
Qed.

Lemma machine_init_ok : machine_ok machine_init.
Proof. split; [by apply SchedInit_ok|]. intros t fs. cbn. by rewrite lookup_empty. Qed.

Lemma reach_ok stub m : reach stub m -> machine_ok m.
Proof.
  induction 1 as [|m m' op Hr IH Hpre Hs]; [apply machine_init_ok|].
  destruct (step_ok stub op m IH Hpre) as (m'' & E & ?). congruence.
Qed.

(** ** Round robin does not starve *)

Fixpoint yields (stub : Z) (k : nat) (m : Machine) : option Machine :=
  match k with
  | O => Some m
  | S k => m ← step stub OpYield m; yields stub k m
  end.

Lemma count_rem f n R : NoDup R -> n ∈ R -> count f R = (if f n then 1 else 0) + count f (rem n R).
Proof.
  intros Hnd Hn. rewrite <- count_cons. apply count_perm.
  apply NoDup_Permutation; [done| |].
  - constructor; [rewrite elem_of_rem; naive_solver|by apply NoDup_rem].
  - intros i. rewrite elem_of_cons, elem_of_rem. destruct (decide (i = n)); naive_solver.
Qed.

(** The running machine between two yields, as the abstract scheduler sees it:
    [c] runs and [R] waits, in queue order. *)
Record running (c : nat) (Q : Qs) (m : Machine) : Prop := {
  ru_inv : sched_inv (m_sched m) Q;
  ru_cur : CurrentTask (m_sched m) = Some c;
  ru_state : State (task (m_sched m) c) = TaskRunning;
  ru_saved : forall t fs, m_saved m !! t = Some fs -> Forall (own_frame t) fs;
  ru_policy : CurrentPolicy (m_sched m) = SchedRoundRobin;
  ru_locked : SchedulerLocked (m_sched m) = 0 }.

Lemma yield_step stub c Q m :
  running c Q m -> qR Q <> [] ->
  exists n m', rr_pick (m_sched m) (qR Q) = Some n /\ n ∈ qR Q /\
    step stub OpYield m = Some m' /\
    running n (qset QReady (rem n (qR Q) ++ [c]) Q) m' /\
    (forall i, (i < 32)%nat -> Id (task (m_sched m') i) = Id (task (m_sched m) i)).
Proof.
  intros [Hinv Hc Hr Hsv Hp Hl] Hne. pose proof (q_range _ _ (proj1 Hinv)) as Hrg.
  destruct (pick_in (m_sched m) (qR Q) Hne) as (n & Hpick & Hn).
  assert (Hcn : CurrentTask (m_sched m) <> Some n).
  { rewrite Hc. intros [= ->]. apply (g_ready _ _ (proj2 Hinv)) in Hn; [congruence|].
    by apply (Hrg QReady). }
  destruct (SchedYield_spec (m_sched m) Q Hinv)
    as [[_ [?|[?|?]]]|(n' & s1 & Es & _ & Hpick' & _ & _ & Sw & Hinv1)]; [congruence..|].
  assert (n' = n) as -> by congruence. exists n. unfold yield_ready in Hinv1.
  rewrite Hc, decide_True in Hinv1 by done.
  assert (Hs1 : State (task s1 n) = TaskRunning).
  { rewrite (sw_state _ _ _ Sw) by by apply (Hrg QReady). by rewrite decide_True. }
  destruct (resume_spec n (m_saved m !! n) s1 _ Hinv1 (sw_cur _ _ _ Sw) Hs1)
    as (s2 & E2 & Hinv2 & [V HP HL]); [by apply Hsv|].
  eexists. unfold pick in Hpick. rewrite Hp in Hpick. split; [done|]. split; [done|].
  unfold step. cbn [exec_op forget_dead]. rewrite Es, some_bind. cbn [settle].
  rewrite Hc, (sw_cur _ _ _ Sw), E2, some_bind. split; [reflexivity|]. split.
  - split; cbn; [done|by rewrite (sv_Current _ _ V), (sw_cur _ _ _ Sw)|by rewrite (sv_State _ _ V)| |
      rewrite HP; rewrite (sw_Policy _ _ _ Sw); done|rewrite HL, (sw_Locked _ _ _ Sw); done].
    intros t fs [[<- <-]|[_ H]]%lookup_insert_Some; [by repeat constructor|by apply Hsv].
  - intros i Hi. cbn. rewrite (sv_Id _ _ V). by apply (sw_Id _ _ _ Sw).
Qed.

(** How long [x] may still wait: its place in the queue first, then how many
    ready tasks come after the current one in the order of ids. *)
Definition above (s : Sched) (c : nat) (i : nat) : bool := Id (task s c) <? Id (task s i).
Definition wait_bound (s : Sched) (c : nat) (l1 : list nat) (R : list nat) : Z :=
  Z.of_nat (length l1) * 33 + count (above s c) R.

Lemma rr_progress stub c Q m x l1 l2 :
  running c Q m -> qR Q = l1 ++ x :: l2 ->
  exists n m' Q', step stub OpYield m = Some m' /\ running n Q' m' /\
    (n = x \/ exists l1' l2', qR Q' = l1' ++ x :: l2' /\
       wait_bound (m_sched m') n l1' (qR Q') < wait_bound (m_sched m) c l1 (qR Q)).
Proof.
  intros Hru HR. destruct (yield_step stub c Q m Hru) as (n & m' & Hp & Hn & Es & Hru' & HI);
    [rewrite HR; by destruct l1|].
  pose proof (proj1 (ru_inv _ _ _ Hru)) as Hq. pose proof (q_nodup _ _ Hq QReady) as Hnd. cbn in Hnd.
  assert (Hrg : forall i, i ∈ qR Q -> (i < 32)%nat) by apply (q_range _ _ Hq QReady).
  assert (Hnx : NoDup (l1 ++ x :: l2)) by congruence.
  apply NoDup_app in Hnx as (Hn1 & Hd & Hn2). apply NoDup_cons in Hn2 as [Hx2 Hn2].
  eexists n, m', _. split; [done|]. split; [done|].
  destruct (decide (n = x)) as [|Hne]; [by left|right]. cbn [qset qR].
  exists (rem n l1), (rem n l2 ++ [c]). split.
  { rewrite HR, rem_app. rewrite <- app_assoc. f_equal. unfold rem at 1. rewrite filter_cons.
    by rewrite decide_True by done. }
  pose proof (count_bounds (above (m_sched m) c) (qR Q)) as HB0.
  pose proof (count_bounds (above (m_sched m') n) (rem n (qR Q) ++ [c])) as HB.
  pose proof (qinv_length _ _ QReady (proj1 (ru_inv _ _ _ Hru'))) as HL. cbn in HL.
  unfold wait_bound. destruct (decide (n ∈ l1)) as [H1|H1].
  { assert (Z.of_nat (length l1) = 1 + Z.of_nat (length (rem n l1))) as ->; [|lia].
    pose proof (count_rem (fun _ => true) n l1 Hn1 H1) as E.
    by rewrite !count_all in E by done. }
  rewrite (rem_notin n l1 H1). apply Z.add_lt_mono_l.
  assert (Hup : Id (task (m_sched m) c) < Id (task (m_sched m) n)).
  { unfold rr_pick in Hp. rewrite (ru_cur _ _ _ Hru) in Hp.
    destruct (list_find _ _) as [[k y]|] eqn:E.
    - injection Hp as ->. by apply list_find_Some in E as (_ & ? & _).
    - exfalso. rewrite HR in Hp. destruct l1; cbn in Hp; [congruence|].
      injection Hp as ->. set_solver. }
  destruct (g_cur _ _ (proj2 (ru_inv _ _ _ Hru)) c (ru_cur _ _ _ Hru)) as [Hc32 _].
  rewrite (count_rem _ n (qR Q) Hnd Hn). unfold above at 2.
  rewrite (proj2 (Z.ltb_lt _ _) Hup), count_app, count_cons, count_nil.
  unfold above at 2. rewrite !HI by auto. destruct (Z.ltb_spec (Id (task (m_sched m) n))
    (Id (task (m_sched m) c))); [lia|].
  enough (count (above (m_sched m') n) (rem n (qR Q)) <= count (above (m_sched m) c) (rem n (qR Q)))
    by lia.
  apply count_mono. intros i [Hi _]%elem_of_rem. unfold above. rewrite !HI by auto.
  rewrite !Z.ltb_lt. lia.
Qed.

Lemma rr_reaches stub x : forall b c Q m l1 l2,
  running c Q m -> qR Q = l1 ++ x :: l2 -> wait_bound (m_sched m) c l1 (qR Q) < Z.of_nat b ->
  exists k m', (k <= b)%nat /\ yields stub k m = Some m' /\ CurrentTask (m_sched m') = Some x.
Proof.
  induction b as [|b IH]; intros c Q m l1 l2 Hru HR Hb.
  { unfold wait_bound in Hb. pose proof (count_bounds (above (m_sched m) c) (qR Q)). lia. }
  destruct (rr_progress stub c Q m x l1 l2 Hru HR) as (n & m1 & Q1 & E & Hru1 & [->|(l1' & l2' & HR1 & Hlt)]).
  - exists 1%nat, m1. split; [lia|]. cbn [yields]. rewrite E, some_bind. split; [done|exact (ru_cur _ _ _ Hru1)].
  - destruct (IH n Q1 m1 l1' l2') as (k & m' & Hk & Ek & Hc); [done|done|lia|].
    exists (S k), m'. split; [lia|]. cbn [yields]. by rewrite E, some_bind.
Qed.

(** ** The statistics *)

Lemma stats_fold (l : list Task) : forall x,
  (forall v, v ∈ [RunningTasks x; ReadyTasks x; BlockedTasks x; DeadTasks x] ->
     0 <= v /\ v + Z.of_nat (length l) < 4294967296) ->
  let n st := count (fun t => bool_decide (State t = st)) l in
  foldl (fun x t => stat_add (State t) x) x l =
  mkStats (TotalTasks x) (RunningTasks x + n TaskRunning) (ReadyTasks x + n TaskReady)
    (BlockedTasks x + n TaskBlocked) (DeadTasks x + n TaskDead) (StatTicks x) (StatSwitches x).
Proof.
  induction l as [|t l IH]; intros x Hb; cbv zeta.
  - cbn. rewrite !count_nil, !Z.add_0_r. by destruct x.
  - rewrite length_cons, Nat2Z.inj_succ in Hb.
    cbn [foldl]. rewrite !count_cons. rewrite IH.
    + cbv zeta. destruct x as [a r rd b d k w]. cbn [RunningTasks ReadyTasks BlockedTasks DeadTasks] in Hb.
      pose proof (Hb r ltac:(set_solver)). pose proof (Hb rd ltac:(set_solver)).
      pose proof (Hb b ltac:(set_solver)). pose proof (Hb d ltac:(set_solver)).
      destruct (State t); cbn [stat_add TotalTasks RunningTasks ReadyTasks BlockedTasks DeadTasks
        StatTicks StatSwitches]; unwrap; repeat case_bool_decide; try done; f_equal; lia.
    + intros v Hv. destruct x as [a r rd b d k w]. cbn [RunningTasks ReadyTasks BlockedTasks DeadTasks] in Hb.
      pose proof (Hb r ltac:(set_solver)). pose proof (Hb rd ltac:(set_solver)).
      pose proof (Hb b ltac:(set_solver)). pose proof (Hb d ltac:(set_solver)).
      destruct (State t); cbn [stat_add RunningTasks ReadyTasks BlockedTasks DeadTasks] in Hv;
        unwrap; set_unfold in Hv; destruct_or?; subst; unwrap; lia.
Qed.

(** Counting over the table is counting over the indices. *)
Lemma count_tasks s f :
  length (Tasks s) = 32%nat -> count f (Tasks s) = count (fun i => f (task s i)) (seq 0 32).
Proof.
  intros Hl.
  assert (E : Tasks s = task s <$> seq 0 32).
  { apply list_eq. intros i. rewrite list_lookup_fmap. destruct (decide (i < 32)%nat).
    - rewrite lookup_seq_lt by done. cbn. unfold task.
      destruct (lookup_lt_is_Some_2 (Tasks s) i) as [y ->]; [lia|done].
    - rewrite !lookup_ge_None_2 by (rewrite ?length_seq; lia). done. }
  rewrite E at 1. generalize (seq 0 32) as l. induction l as [|i l IH]; [done|].
  cbn [fmap list_fmap]. rewrite !count_cons. by rewrite IH.
Qed.

(** A queue holds exactly the indices in a state. *)
Lemma count_queue s st R :
  NoDup R -> (forall i, i ∈ R -> (i < 32)%nat) ->
  (forall i, (i < 32)%nat -> State (task s i) = st <-> i ∈ R) ->
  count (fun i => bool_decide (State (task s i) = st)) (seq 0 32) = Z.of_nat (length R).
Proof.
  intros Hnd Hr Hiff. unfold count. f_equal. apply Permutation_length, NoDup_Permutation; [|done|].
  - apply NoDup_filter, NoDup_seq.
  - intros i. rewrite list_elem_of_filter, elem_of_seq, bool_decide_eq_true. split.
    + intros [H1 H2]. apply Hiff; [lia|done].
    + intros Hi. pose proof (Hr i Hi). split; [by apply Hiff|lia].
Qed.
