(* ===== verification/TaskMachine.v ===== *)
(** * Tasks with bodies

    The machine of [SchedMachine.v] with the code the tasks run. The state the
    tasks share is a parameter, their program counters included; [body] is what
    a task does from where it is to the next place at which another task may
    run. The timer interrupt comes between any two such turns. *)

From S2P Require Import Prelude Sched SchedQueues SchedInv SchedOps SchedMachine.

(** ** Steps *)

(** A turn of the running task, or a part of the timer interrupt: waking the
    expired sleepers, the tick, the preemption at its end. *)
Inductive event := Turn | Expire (now : Z) | Tick (Regs : option Z) | Preempt.

Definition interrupt (e : event) : option sched_op :=
  match e with
  | Turn => None
  | Expire now => Some (OpWakeExpired now)
  | Tick Regs => Some (OpTick Regs)
  | Preempt => Some OpPreempt
  end.

Record World (A : Type) := mkWorld { machine : Machine; shared : A }.
Arguments mkWorld {_}.
Arguments machine {_}.
Arguments shared {_}.

Definition sched {A} (w : World A) : Sched := m_sched (machine w).

Section Tasks.
Context {A : Type} (SchedExitStub : Z) (body : nat -> A -> Sched -> option (Out * A * Sched)).

Definition world_step (e : event) (w : World A) : option (World A) :=
  match interrupt e with
  | Some op => m ← step SchedExitStub op (machine w); Some (mkWorld m (shared w))
  | None =>
      match CurrentTask (sched w) with
      | None => None
      | Some t =>
          '(out, a, s) ← body t (shared w) (sched w);
          m ← settle (sched w) (m_saved (machine w)) out s;
          Some (mkWorld m a)
      end
  end.

Fixpoint world_run (es : list event) (w : World A) : option (World A) :=
  match es with
  | [] => Some w
  | e :: es => w ← world_step e w; world_run es w
  end.

(** How many of the events are turns of the tasks that [T] names at the time. *)
Fixpoint turns_of (T : A -> list nat) (es : list event) (w : World A) : nat :=
  match es with
  | [] => 0
  | e :: es =>
      match e, CurrentTask (sched w) with
      | Turn, Some t => if decide (t ∈ T (shared w)) then 1 else 0
      | _, _ => 0
      end + match world_step e w with Some w => turns_of T es w | None => 0 end
  end.
End Tasks.

(** ** The timer interrupt disturbs nobody without a deadline *)

(** No sleep is pending for task [i]. *)
Definition untimed (i : nat) (s : Sched) : Prop := State (task s i) = TaskBlocked -> WakeTick (task s i) = 0.

Lemma SchedYield_calm s Q i out s' :
  sched_inv s Q -> (i < 32)%nat -> SchedYield s = Some (out, s') ->
  calm i s s' /\ SchedulerLocked s' = SchedulerLocked s /\ NextTaskId s' = NextTaskId s.
Proof.
  intros Hinv Hi E.
  destruct (SchedYield_spec s Q Hinv) as [[E' _]|(n & s2 & E' & _ & _ & Hn & _ & Sw & _)];
    rewrite E' in E; injection E as <- <-; [done|].
  split; [|split; apply Sw]. eapply switched_calm; [apply Hinv|done| |done|done].
  by apply (q_range _ _ (proj1 Hinv) QReady).
Qed.

Lemma SchedTick_calm Regs s i :
  length (Tasks s) = 32%nat -> (i < 32)%nat ->
  calm i s (SchedTick Regs s) /\ SchedulerLocked (SchedTick Regs s) = SchedulerLocked s /\
  NextTaskId (SchedTick Regs s) = NextTaskId s.
Proof.
  intros Hl Hi. unfold SchedTick. destruct Regs; [|done]. case_match; [done|].
  set (s1 := set_SchedulerTicks _ s). change (CurrentTask s1) with (CurrentTask s).
  destruct (CurrentTask s) as [c|]; [|done]. cbv zeta. set (s2 := upd c _ s1).
  assert (H2 : calm i s s2) by (unfold calm, s2; rewrite task_upd by (cbn; lia); by case_decide).
  case_match; [|done]. split; [|done]. etrans; [exact H2|].
  unfold calm. change (task (set_PreemptPending true ?x)) with (task x).
  rewrite task_upd by (unfold s2; rewrite length_upd; cbn; lia). by case_decide.
Qed.

Lemma interrupt_step stub e op m :
  interrupt e = Some op -> machine_ok m ->
  exists m', step stub op m = Some m' /\ machine_ok m' /\
    SchedulerLocked (m_sched m') = SchedulerLocked (m_sched m) /\ NextTaskId (m_sched m') = NextTaskId (m_sched m) /\
    (forall i, (i < 32)%nat -> State (task (m_sched m') i) = TaskDead <-> State (task (m_sched m) i) = TaskDead) /\
    forall i, (i < 32)%nat -> untimed i (m_sched m) -> calm i (m_sched m) (m_sched m').
Proof.
  intros He Hm.
  assert (Hpre : op_pre op (m_sched m)) by (by destruct e; simplify_eq/=).
  pose proof Hm as [Hok Hsv]. destruct (exec_op_ok stub op _ Hok Hpre) as (out & s' & E & Hok' & Hout).
  destruct (settle_ok (m_sched m) (m_saved m) out s') as (m' & Es & Hm' & R); [done|done|by destruct out|].
  exists m'. split.
  { unfold step. rewrite E, some_bind. by destruct e; simplify_eq/=. }
  split; [done|]. destruct Hok as (Q & Hinv & _). pose proof (q_len _ _ (proj1 Hinv)) as Hl.
  rewrite (rs_Locked _ _ R), (sv_NextId _ _ (rs_view _ _ R)).
  assert (H : SchedulerLocked s' = SchedulerLocked (m_sched m) /\ NextTaskId s' = NextTaskId (m_sched m) /\
    (forall i, (i < 32)%nat -> State (task s' i) = TaskDead <-> State (task (m_sched m) i) = TaskDead) /\
    forall i, (i < 32)%nat -> untimed i (m_sched m) -> calm i (m_sched m) s').
  2: { destruct H as (-> & -> & HD & H). split; [done|]. split; [done|].
       split; [intros i Hi; rewrite <- (HD i Hi); apply (cm_Dead _ _ (rs_calm _ _ R i Hi))|].
       intros i Hi Hu. etrans; [by apply H|by apply R]. }
  destruct e as [|now|Regs|]; [done|injection He as <-; cbn [exec_op returned] in E..].
  - destruct (SchedWakeExpired_spec now _ Q Hinv) as (s2 & E2 & _ & Hw). unfold returned in E. rewrite E2 in E. cbn in E. injection E as _ <-.
    split; [apply Hw|]. split; [apply Hw|]. split.
    { intros i Hi. rewrite (wk_state _ _ _ Hw i Hi). case_decide as Hd; [|done].
      apply list_elem_of_filter in Hd as [_ ->%(g_blocked _ _ (proj2 Hinv) i Hi)]. by split. }
    intros i Hi Hu.
    assert (Hn : i ∉ filter (due now (m_sched m)) (qB Q)).
    { rewrite list_elem_of_filter. intros [Hd Hb%(g_blocked _ _ (proj2 Hinv) i Hi)].
      unfold due, wake_due in Hd. by rewrite (Hu Hb) in Hd. }
    apply calm_same; [rewrite (wk_state _ _ _ Hw)|apply Hw|rewrite (wk_tick _ _ _ Hw)]; try done; by rewrite decide_False.
  - unfold returned in E. injection E as _ <-. split; [by apply (SchedTick_calm Regs (m_sched m) 0); [|lia]|].
    split; [by apply (SchedTick_calm Regs (m_sched m) 0); [|lia]|].
    split; intros i Hi; [|intros _]; by apply (SchedTick_calm Regs (m_sched m) i).
  - unfold SchedPreempt in E. clear Hout Es.
    destruct (negb (PreemptPending _)); [by injection E as _ <-|].
    destruct (negb (SchedulerLocked _ =? 0)); [by injection E as _ <-|].
    assert (Hinv1 : sched_inv (set_PreemptPending false (m_sched m)) Q).
    { destruct Hinv as [Hq G]. split; [auto with sched|]. by eapply ginv_view; [|exact G]. }
    destruct (SchedYield_calm _ Q 0 out s' Hinv1 ltac:(lia) E) as (_ & HL & HN). split; [done|]. split; [done|].
    split; intros i Hi; [|intros _]; by destruct (SchedYield_calm _ Q i out s' Hinv1 Hi E) as [[] _].
Qed.

(** ** Invariants of worlds *)

(** What a client shows of its bodies: [I] looks at the scheduler only through
    what the timer leaves alone, every turn returns and keeps [I], and a turn of
    the tasks in [T] lowers [cost]. *)
Class TaskInvariant {A} (body : nat -> A -> Sched -> option (Out * A * Sched)) (I : A -> Sched -> Prop)
    (T : A -> list nat) (cost : A -> Z) : Prop := {
  ti_ok : forall a s, I a s -> sched_ok s;
  ti_calm : forall a s s', I a s -> sched_ok s' -> SchedulerLocked s' = SchedulerLocked s ->
    NextTaskId s' = NextTaskId s ->
    (forall i, (i < 32)%nat -> State (task s' i) = TaskDead <-> State (task s i) = TaskDead) ->
    (forall i, (i < 32)%nat -> untimed i s -> calm i s s') -> I a s';
  ti_turn : forall t a s, I a s -> CurrentTask s = Some t ->
    exists out a' s', body t a s = Some (out, a', s') /\ I a' s' /\
      match out with Done => True | Switched fs => Forall (own_frame t) fs end /\
      cost a' + (if decide (t ∈ T a) then 1 else 0) <= cost a }.

Section Invariant.
Context {A : Type} (stub : Z) (body : nat -> A -> Sched -> option (Out * A * Sched)).
Context (I : A -> Sched -> Prop) (T : A -> list nat) (cost : A -> Z) `{!TaskInvariant body I T cost}.

Definition world_inv (w : World A) : Prop := machine_ok (machine w) /\ I (shared w) (sched w).

(** After a body's turn, the resumption included. *)
Lemma settle_inv s saved t out a' s' :
  CurrentTask s = Some t -> saved_ok saved -> I a' s' ->
  match out with Done => True | Switched fs => Forall (own_frame t) fs end ->
  exists m, settle s saved out s' = Some m /\ world_inv (mkWorld m a').
Proof.
  intros Ht Hsv H Hout.
  destruct (settle_ok s saved out s' Hsv) as (m & -> & Hm & R); [by eapply ti_ok|destruct out; [done|by exists t]|].
  exists m. split; [done|]. split; [done|].
  apply (ti_calm _ _ _ H); [apply Hm|apply R|apply R|..]; intros i Hi; [|intros _]; by apply R.
Qed.

Lemma world_step_inv e w :
  world_inv w ->
  exists w', world_step stub body e w = Some w' /\ world_inv w' /\
    cost (shared w') + Z.of_nat (turns_of stub body T [e] w) <= cost (shared w).
Proof.
  intros [Hm H]. cbn [turns_of].
  destruct (interrupt e) as [op|] eqn:Ei.
  - destruct (interrupt_step stub e op (machine w) Ei Hm) as (m' & Es & Hm' & Hl & HN & HD & Hc).
    exists (mkWorld m' (shared w)). unfold world_step. rewrite Ei, Es, some_bind.
    split; [done|]. split; [split; [done|]|destruct e; [done|cbn; lia..]].
    by apply (ti_calm _ _ _ H); [apply Hm'|..].
  - assert (e = Turn) as -> by by destruct e.
    destruct (ti_ok _ _ H) as (Q & _ & t & Ht & _).
    destruct (ti_turn t (shared w) (sched w) H Ht) as (out & a' & s' & Eb & Hx & Hf & Hl).
    destruct (settle_inv (sched w) (m_saved (machine w)) t out a' s') as (m & Es & Hw);
      [done|exact (proj2 Hm)|done..|].
    exists (mkWorld m a'). unfold world_step. cbn [interrupt]. rewrite Ht, Eb, some_bind, Es, some_bind.
    split; [done|]. split; [done|]. cbn [shared]. case_decide; lia.
Qed.

Lemma world_run_inv es : forall w,
  world_inv w ->
  exists w', world_run stub body es w = Some w' /\ world_inv w' /\
    cost (shared w') + Z.of_nat (turns_of stub body T es w) <= cost (shared w).
Proof.
  induction es as [|e es IH]; intros w Hw; [exists w; cbn; repeat (split; [done|]); lia|].
  destruct (world_step_inv e w Hw) as (w1 & E1 & H1 & L1).
  destruct (IH w1 H1) as (w' & E & H & L). exists w'. cbn [world_run turns_of] in *.
  rewrite E1, some_bind in *. split; [done|]. split; [done|]. lia.
Qed.
End Invariant.
