(* ===== verification/SchedTheorems.v ===== *)
(** * What the scheduler guarantees

    The properties of kernel/sched.c, each with a witness that runs it. [demo]
    is a table with two created tasks, built by the operations themselves. *)

From S2P Require Import Prelude Sched SchedQueues SchedInv SchedOps SchedMachine.

(** ** Facts used below *)

(** The priority choice splits the queue: strictly lower priorities before it,
    none higher after it. *)
Lemma foldl_better_split s : forall R b, exists l1 n l2,
  b :: R = l1 ++ n :: l2 /\ foldl (better s) (Some b) R = Some n /\
  Forall (fun y => Priority (task s y) < Priority (task s n)) l1 /\
  Forall (fun y => Priority (task s y) <= Priority (task s n)) l2.
Proof.
  induction R as [|y R IH]; intros b; [by exists [], b, []|]. cbn [foldl better].
  destruct (Z.ltb_spec (Priority (task s b)) (Priority (task s y))) as [Hlt|Hge].
  - destruct (IH y) as (l1 & n & l2 & E & -> & H1 & H2).
    exists (b :: l1), n, l2. rewrite E. do 2 (split; [done|]). split; [|done].
    constructor; [|done]. destruct l1 as [|z l1]; injection E as -> _; [done|].
    inversion H1; subst; lia.
  - destruct (IH b) as (l1 & n & l2 & E & -> & H1 & H2). destruct l1 as [|z l1].
    + injection E as -> ->. exists [], n, (y :: l2). do 3 (split; [done|]). by constructor.
    + injection E as <- ->. exists (b :: y :: l1), n, l2. do 2 (split; [done|]). split; [|done].
      inversion H1; subst. constructor; [done|]. constructor; [lia|done].
Qed.

Lemma stats_spec s Q c :
  sched_inv s Q -> CurrentTask s = Some c -> State (task s c) = TaskRunning ->
  SchedGetStats s =
  mkStats (1 + Z.of_nat (length (qR Q)) + Z.of_nat (length (qB Q))) 1
    (Z.of_nat (length (qR Q))) (Z.of_nat (length (qB Q)))
    (31 - Z.of_nat (length (qR Q)) - Z.of_nat (length (qB Q))) (SchedulerTicks s) (ContextSwitches s).
Proof.
  intros [Hq G] Hc Hr. pose proof (q_len _ _ Hq) as Hl. unfold SchedGetStats.
  rewrite stats_fold by (intros v Hv; cbn in Hv; set_unfold in Hv; destruct_or?; subst; rewrite Hl; lia).
  cbv zeta. cbn [TotalTasks RunningTasks ReadyTasks BlockedTasks DeadTasks StatTicks StatSwitches].
  rewrite !count_tasks by done.
  assert (ER := count_queue s TaskReady (qR Q) (q_nodup _ _ Hq QReady) (q_range _ _ Hq QReady) (g_ready _ _ G)).
  assert (EB := count_queue s TaskBlocked (qB Q) (q_nodup _ _ Hq QBlocked) (q_range _ _ Hq QBlocked) (g_blocked _ _ G)).
  assert (E1 : count (fun i => bool_decide (State (task s i) = TaskRunning)) (seq 0 32) = 1).
  { rewrite (count_queue s TaskRunning [c]); [done|by apply NoDup_singleton|..].
    - intros i ->%elem_of_list_singleton'. by apply (g_cur _ _ G).
    - intros i Hi. rewrite elem_of_list_singleton'. split; [|by intros ->].
      intros Hri%(g_running _ _ G); [congruence|done]. }
  rewrite (g_count _ _ G). unfold live_count.
  assert (Hsum : forall l, count (alive s) l =
    count (fun i => bool_decide (State (task s i) = TaskRunning)) l +
    count (fun i => bool_decide (State (task s i) = TaskReady)) l +
    count (fun i => bool_decide (State (task s i) = TaskBlocked)) l /\
    count (fun i => bool_decide (State (task s i) = TaskDead)) l = Z.of_nat (length l) - count (alive s) l).
  { induction l as [|i l [IH1 IH2]]; [done|]. rewrite !count_cons. unfold alive at 1 3.
    cbn [length]. destruct (State (task s i)); repeat case_bool_decide; try done; lia. }
  destruct (Hsum (seq 0 32)) as [Ha Hd]. rewrite length_seq in Hd.
  rewrite Hd, Ha, E1, ER, EB. f_equal; lia.
Qed.

(** ** A concrete table *)

Definition demo_name : list Z := [65; 0].
Definition demo1 : Sched :=
  default sched_bss (snd <$> SchedCreate 64 (Some demo_name) 4096 65536 (SchedInit sched_bss)).
Definition demo : Sched :=
  default sched_bss (snd <$> SchedCreate 64 (Some demo_name) 8192 131072 demo1).

Lemma demo1_inv : sched_inv demo1 (mkQs [1%nat] [] []).
Proof.
  destruct (SchedCreate_spec 64 demo_name 4096 65536 (SchedInit sched_bss) (mkQs [] [] []))
    as (t & s' & E & Ef & _ & _ & _ & Hinv & _); [by apply SchedInit_inv|by vm_compute..|].
  assert (t = 1%nat) as -> by (vm_compute in Ef; congruence).
  unfold demo1. by rewrite E.
Qed.

Lemma demo_inv : sched_inv demo (mkQs [1%nat; 2%nat] [] []).
Proof.
  destruct (SchedCreate_spec 64 demo_name 8192 131072 demo1 _ demo1_inv)
    as (t & s' & E & Ef & _ & _ & _ & Hinv & _); [by vm_compute..|].
  assert (t = 2%nat) as -> by (vm_compute in Ef; congruence).
  unfold demo. by rewrite E.
Qed.

(** Task 1 asleep until tick 5. *)
Definition demo_sleep : Sched :=
  default sched_bss (snd <$> SchedBlockTask 1 (upd 1 (with_WakeTick 5) demo)).

Lemma demo_sleep_inv : sched_inv demo_sleep (mkQs [2%nat] [1%nat] []).
Proof.
  destruct (SchedBlockTask_other 1 (upd 1 (with_WakeTick 5) demo) (mkQs [1%nat; 2%nat] [] []))
    as (s' & E & Hinv & _); [by apply sched_inv_upd, demo_inv|lia|by vm_compute..|].
  change (Id (task (upd 1 (with_WakeTick 5) demo) 1)) with 1 in E.
  unfold demo_sleep. by rewrite E.
Qed.

(** Task 1 running, tasks 2 and 0 ready. *)
Definition demo_run : Sched := default sched_bss (snd <$> SchedYield demo).

Lemma demo_run_inv : sched_inv demo_run (mkQs [2%nat; 0%nat] [] []).
Proof.
  destruct (SchedYield_spec demo _ demo_inv) as [[_ H]|(n & s' & E & _ & Hp & _ & _ & _ & Hinv)].
  - exfalso. vm_compute in H. naive_solver.
  - assert (n = 1%nat) as -> by (vm_compute in Hp; congruence). unfold demo_run. by rewrite E.
Qed.

(** A reachable machine: the two tasks created by task 0. *)
Definition demo_m1 : Machine := mkMachine demo1 ∅.
Definition demo_m : Machine := mkMachine demo ∅.

Lemma demo_reach : reach 64 demo_m.
Proof.
  apply (reach_step 64 demo_m1 demo_m (OpCreate (Some demo_name) 8192 131072)); [|by vm_compute..].
  apply (reach_step 64 machine_init demo_m1 (OpCreate (Some demo_name) 4096 65536));
    [constructor|by vm_compute..].
Qed.

(** ** The theorems *)

(** C9. In every machine reachable from SchedInit through any sequence of
    scheduler calls, the scheduler invariant holds: the three queues are
    acyclic and disjoint, a task is in the ready (blocked) queue exactly when
    its state says so, exactly the current task is running, live ids are
    unique and the task count is the number of live tasks. And no permitted
    call gets stuck: each returns or switches, into a state with the
    invariant. *)
Theorem sched_reachable_invariant stub m op :
  reach stub m -> op_pre op (m_sched m) ->
  sched_ok (m_sched m) /\ exists m', step stub op m = Some m' /\ sched_ok (m_sched m').
Proof.
  intros Hr Hpre. pose proof (reach_ok stub m Hr) as Hok. split; [apply Hok|].
  destruct (step_ok stub op m Hok Hpre) as (m' & E & Hok' & _). by exists m'.
Qed.

Lemma sched_reachable_invariant_witness :
  sched_ok (m_sched demo_m) /\ exists m', step 64 OpYield demo_m = Some m' /\ sched_ok (m_sched m').
Proof. exact (sched_reachable_invariant 64 demo_m OpYield demo_reach I). Defined.

(** C10. Round robin starves nobody: from any reachable machine whose policy is
    round robin and whose scheduler is not locked, a ready task runs after at
    most 1056 consecutive yields, whoever is running at each of them. *)
Theorem rr_no_starvation stub m x :
  reach stub m -> CurrentPolicy (m_sched m) = SchedRoundRobin ->
  SchedulerLocked (m_sched m) = 0 -> (x < 32)%nat -> State (task (m_sched m) x) = TaskReady ->
  exists k m', (k <= 1056)%nat /\ yields stub k m = Some m' /\ CurrentTask (m_sched m') = Some x.
Proof.
  intros Hre Hp Hl Hx Hs. destruct (reach_ok stub m Hre) as [(Q & Hinv & c & Hc & Hr) Hsv].
  apply (g_ready _ _ (proj2 Hinv)) in Hs; [|done].
  apply list_elem_of_split in Hs as (l1 & l2 & HR).
  apply (rr_reaches stub x 1056 c Q m l1 l2); [done|done|].
  pose proof (qinv_length _ _ QReady (proj1 Hinv)) as HL. cbn in HL.
  pose proof (count_bounds (above (m_sched m) c) (qR Q)). unfold wait_bound.
  rewrite HR, length_app in HL. cbn in HL.
  assert (length (qR Q) <= 32)%nat by (rewrite HR, length_app; cbn; lia). lia.
Qed.

Lemma rr_no_starvation_witness :
  exists k m', (k <= 1056)%nat /\ yields 64 k demo_m = Some m' /\
    CurrentTask (m_sched m') = Some 2%nat.
Proof. apply rr_no_starvation; [apply demo_reach|by vm_compute..|lia|by vm_compute]. Defined.

(** C11. SchedYield implements the abstract yield on (current task, ready list):
    it leaves everything as it was when the scheduler is locked or the policy
    picks nobody else; otherwise the picked task leaves the ready list and
    runs, the task that was running (if it still is) goes to the tail, and no
    other task changes state. *)
Theorem SchedYield_refines s Q :
  sched_inv s Q ->
  (SchedYield s = Some (Done, s) /\
   (SchedulerLocked s <> 0 \/ pick s (qR Q) = None \/ pick s (qR Q) = CurrentTask s)) \/
  (exists n s', SchedYield s = Some (Switched [FrSchedYield (irq_on s)], s') /\
     SchedulerLocked s = 0 /\ pick s (qR Q) = Some n /\ n ∈ qR Q /\
     CurrentTask s <> Some n /\ switched_to n s s' /\
     sched_inv s' (qset QReady (yield_ready s n (qR Q)) Q)).
Proof. apply SchedYield_spec. Qed.

Lemma SchedYield_refines_witness :
  exists n s', SchedYield demo = Some (Switched [FrSchedYield true], s') /\ n = 1%nat /\
    sched_inv s' (mkQs [2%nat; 0%nat] [] []).
Proof.
  destruct (SchedYield_refines demo (mkQs [1%nat; 2%nat] [] []) demo_inv)
    as [[_ H]|(n & s' & E & _ & Hp & _ & _ & _ & Hinv)].
  - exfalso. vm_compute in H. naive_solver.
  - assert (n = 1%nat) as -> by (vm_compute in Hp; congruence).
    exists 1%nat, s'. split; [exact E|]. split; [done|exact Hinv].
Defined.

(** SchedFindPriority returns the ready task of highest priority, and among
    equals the one that has waited longest: every task before it in the ready
    queue has a strictly lower priority, none after it a higher one. On an
    empty queue it returns null. *)
Theorem SchedFindPriority_max s Q :
  qinv s Q ->
  (qR Q = [] /\ SchedFindPriority s = Some None) \/
  exists l1 n l2, qR Q = l1 ++ n :: l2 /\ SchedFindPriority s = Some (Some n) /\
    Forall (fun y => Priority (task s y) < Priority (task s n)) l1 /\
    Forall (fun y => Priority (task s y) <= Priority (task s n)) l2.
Proof.
  intros Hq. pose proof (qinv_length _ _ QReady Hq) as HL. cbn in HL.
  assert (E : SchedFindPriority s = Some (prio_pick s (qR Q))).
  { apply prio_loop; [apply (q_seg _ _ Hq QReady)|unfold queue_fuel; lia]. }
  destruct (qR Q) as [|b R]; [by left|right].
  destruct (foldl_better_split s R b) as (l1 & n & l2 & HR & Hf & H).
  exists l1, n, l2. rewrite E. split; [done|]. split; [|done]. by f_equal.
Qed.

Lemma SchedFindPriority_max_witness :
  let s := SchedSetPriority (Some 2%nat) 9 demo in
  exists l1 n l2, [1%nat; 2%nat] = l1 ++ n :: l2 /\ SchedFindPriority s = Some (Some n) /\
    Forall (fun y => Priority (task s y) < Priority (task s n)) l1.
Proof.
  destruct (SchedFindPriority_max (SchedSetPriority (Some 2%nat) 9 demo) (mkQs [1%nat; 2%nat] [] []))
    as [[H _]|(l1 & n & l2 & H1 & H2 & H3 & _)].
  - apply qinv_upd; [done|apply demo_inv].
  - done.
  - by exists l1, n, l2.
Defined.

(** SchedWakeExpired wakes exactly the sleepers whose wake tick has come:
    those of the blocked queue with a wake tick that is due (compared as a
    signed 32-bit difference, so across the wrap of the tick counter) move to
    the tail of the ready queue in order with their wake tick cleared; the
    others stay blocked in order; the result is the number woken. *)
Theorem SchedWakeExpired_exact NowTick s Q :
  sched_inv s Q ->
  exists s',
    SchedWakeExpired NowTick s =
      Some (Z.of_nat (length (filter (due NowTick s) (qB Q))), s') /\
    sched_inv s' (mkQs (qR Q ++ filter (due NowTick s) (qB Q))
                       (filter (fun i => ~ due NowTick s i) (qB Q)) (qD Q)) /\
    woken_from (filter (due NowTick s) (qB Q)) s s'.
Proof. apply SchedWakeExpired_spec. Qed.

Lemma SchedWakeExpired_exact_witness :
  exists s', SchedWakeExpired 7 demo_sleep = Some (1, s') /\
    sched_inv s' (mkQs [2%nat; 1%nat] [] []).
Proof.
  destruct (SchedWakeExpired_exact 7 demo_sleep _ demo_sleep_inv) as (s' & E & Hinv & _).
  exists s'. split; [exact E|exact Hinv].
Defined.

(** C12. SchedCreate with a free slot and ids left takes the first dead
    descriptor, makes it a ready task at the tail of the ready queue with the
    next id, the caller as parent, default priority and slice and the initial
    stack, and changes no other task; the invariant is kept. *)
Theorem SchedCreate_correct stub nm eip esp s Q :
  sched_inv s Q -> TaskCountValue s < 32 -> NextTaskId s + 1 < 4294967296 ->
  exists t s', SchedCreate stub (Some nm) eip esp s = Some (Some t, s') /\
    find_dead s = Some t /\ (t < 32)%nat /\ t <> 0%nat /\ State (task s t) = TaskDead /\
    sched_inv s' (mkQs (qR Q ++ [t]) (qB Q) (rem t (qD Q))) /\ created eip esp t s s' /\
    copy_name nm (Name (task s t)) = Some (Name (task s' t)) /\
    stack_mem s' = stack_mem (SchedInitStack stub t eip esp s).
Proof. apply SchedCreate_spec. Qed.

Lemma SchedCreate_correct_witness :
  exists s', SchedCreate 64 (Some demo_name) 0 8192 demo = Some (Some 3%nat, s') /\
    sched_inv s' (mkQs [1%nat; 2%nat; 3%nat] [] []).
Proof.
  destruct (SchedCreate_correct 64 demo_name 0 8192 demo _ demo_inv)
    as (t & s' & E & Ef & _ & _ & _ & Hinv & _); [by vm_compute..|].
  assert (t = 3%nat) as -> by (vm_compute in Ef; congruence). by exists s'.
Defined.

(** The name SchedCreate stores is the argument cut to 31 characters,
    always terminated, and nothing after the terminator changes. *)
Theorem copy_name_correct src dst :
  exists r, copy_name src dst = Some r /\ length r = length dst /\
    forall k, (k < length dst)%nat -> r !! k =
      if decide (k < length (kept_name src))%nat then kept_name src !! k
      else if decide (k = length (kept_name src)) then Some 0 else dst !! k.
Proof. apply copy_name_spec. Qed.

(** SchedGetStats is exact: one running task, as many ready and blocked
    ones as their queues hold, their sum as the total, and the rest of the 32
    descriptors dead. *)
Theorem SchedGetStats_exact s Q c :
  sched_inv s Q -> CurrentTask s = Some c -> State (task s c) = TaskRunning ->
  SchedGetStats s =
  mkStats (1 + Z.of_nat (length (qR Q)) + Z.of_nat (length (qB Q))) 1
    (Z.of_nat (length (qR Q))) (Z.of_nat (length (qB Q)))
    (31 - Z.of_nat (length (qR Q)) - Z.of_nat (length (qB Q))) (SchedulerTicks s) (ContextSwitches s).
Proof. apply stats_spec. Qed.

Lemma SchedGetStats_exact_witness : SchedGetStats demo = mkStats 3 1 2 0 29 0 0.
Proof. exact (SchedGetStats_exact demo _ 0%nat demo_inv eq_refl eq_refl). Defined.

(** A task that exits while the scheduler is free never runs again: its
    descriptor is reset and appended to the dead queue, the count drops by
    one, and another task runs. *)
Theorem SchedExit_correct t s Q :
  sched_inv s Q -> CurrentTask s = Some t -> Id (task s t) <> 0 -> SchedulerLocked s = 0 ->
  exists n s' fs, SchedExit s = Some (Switched fs, s') /\ Forall (own_frame t) fs /\
    CurrentTask s' = Some n /\ n <> t /\
    sched_inv s' (qset QReady (rem n (qR (buried t Q))) (buried t Q)) /\
    State (task s' t) = TaskDead /\ State (task s' n) = TaskRunning /\
    TaskCountValue s' = TaskCountValue s - 1.
Proof.
  intros Hinv Hc HI HL.
  destruct (SchedExit_spec t s Q Hinv Hc HI HL) as (n & s' & fs & H1 & H2 & H3 & H4 & H5 & H6 & H7 & H8 & _).
  exists n, s', fs. auto 10.
Qed.

Lemma SchedExit_correct_witness :
  exists n s' fs, SchedExit demo_run = Some (Switched fs, s') /\ CurrentTask s' = Some n /\
    n <> 1%nat /\ TaskCountValue s' = 2.
Proof.
  destruct (SchedExit_correct 1 demo_run _ demo_run_inv)
    as (n & s' & fs & E & _ & Hc & Hn & _ & _ & _ & Hk); [by vm_compute..|].
  exists n, s', fs. do 3 (split; [done|]). exact Hk.
Defined.

(** A queue is determined by its head and the links. *)
Lemma lseg_det nx h l l' : lseg nx h l None -> lseg nx h l' None -> l = l'.
Proof.
  revert h l'. induction l as [|x l IH]; intros h [|y l']; cbn; [done|intros ->; by intros [? _]| |].
  - by intros [-> _] ?.
  - intros [-> H] [[= <-] H']. f_equal. by eapply IH.
Qed.

(** C13. A task that exits while the scheduler is locked breaks the table, from
    every state of the invariant: the task is buried, but SchedYield returns
    at once, so SchedExit returns to the dead task's code with the idle task
    marked current and running while it is still linked in the ready queue
    (the queues are those of [buried t Q]), so that no choice of queues
    satisfies the invariant any more. *)
Theorem SchedExit_locked_breaks t s Q :
  sched_inv s Q -> CurrentTask s = Some t -> Id (task s t) <> 0 -> SchedulerLocked s <> 0 ->
  exists s', SchedExit s = Some (Done, s') /\ CurrentTask s' = Some 0%nat /\
    State (task s' 0) = TaskRunning /\ State (task s' t) = TaskDead /\
    TaskCountValue s' = TaskCountValue s - 1 /\
    qinv s' (buried t Q) /\ 0%nat ∈ qR (buried t Q) /\ ~ sched_ok s'.
Proof.
  intros Hinv Hc HI Hl. destruct (g_cur s Q (proj2 Hinv) t Hc) as [Ht Hd].
  assert (Ht0 : t <> 0%nat) by by eapply nonzero_id.
  assert (H0 : 0%nat ∈ qR (buried t Q)) by (cbn; apply elem_of_rem; split; [by eapply idle_ready|done]).
  unfold SchedExit. rewrite Hc. destruct (Z.eqb_spec (Id (task s t)) 0) as [|_]; [done|].
  cbn [SchedLockIrq].
  destruct (bury_spec t (set_irq_on false s) Q)
    as (s1 & -> & Hq1 & Hd1 & _ & Hc1 & _ & Hk1 & Hl1 & _);
    [by apply sched_inv_irq|done..|].
  rewrite some_bind. set (s2 := SchedUnlockIrq (irq_on s) (set_CurrentTask None s1)).
  assert (Hq2 : qinv s2 (buried t Q)) by (unfold s2; auto with sched).
  assert (Hl2 : SchedulerLocked s2 = SchedulerLocked s) by (unfold s2; by destruct (irq_on s)).
  assert (Hc2 : CurrentTask s2 = None) by (unfold s2; by destruct (irq_on s)).
  assert (Hs2 : State (task s2 t) = TaskDead) by (unfold s2; by destruct (irq_on s)).
  assert (Hk2 : TaskCountValue s2 = TaskCountValue s - 1) by (unfold s2; by destruct (irq_on s)).
  clearbody s2. unfold SchedYield. cbn [SchedLockIrq].
  change (SchedulerLocked (set_irq_on false s2)) with (SchedulerLocked s2).
  destruct (Z.eqb_spec (SchedulerLocked s2) 0) as [|_]; [congruence|]. cbn [negb]. rewrite some_bind.
  set (s3 := SchedUnlockIrq (irq_on s2) (set_irq_on false s2)).
  assert (V3 : same_view s2 s3) by (etrans; [|apply unlock_same_view]; apply irq_same_view).
  assert (Hq3 : qinv s3 (buried t Q)) by (unfold s3; auto with sched).
  unfold SchedExit_resume. rewrite (sv_Current _ _ V3), Hc2. eexists. split; [reflexivity|].
  set (s4 := set_CurrentTask (Some 0%nat) s3).
  assert (Hlen : (0 < length (Tasks s4))%nat) by (pose proof (q_len _ _ Hq3); cbn; lia).
  assert (Hq4 : qinv (upd 0 (with_State TaskRunning) s4) (buried t Q)) by (unfold s4; auto with sched).
  assert (Hrun : State (task (upd 0 (with_State TaskRunning) s4) 0) = TaskRunning) by by rewrite task_upd_eq.
  split; [done|]. split; [done|]. split; [|split; [|split; [done|split; [done|]]]].
  - rewrite task_upd_ne by done. change (task s4 t) with (task s3 t). by rewrite (sv_State _ _ V3).
  - change (TaskCountValue s3 = TaskCountValue s - 1). by rewrite (sv_Count _ _ V3).
  - intros (Q' & [Hq G] & _).
    assert (E : qR Q' = qR (buried t Q))
      by exact (lseg_det _ _ _ _ (q_seg _ _ Hq QReady) (q_seg _ _ Hq4 QReady)).
    rewrite <- E in H0. apply (g_ready _ _ G) in H0; [congruence|lia].
Qed.

Lemma SchedExit_locked_breaks_witness :
  exists s', SchedExit (SchedLock demo_run) = Some (Done, s') /\ CurrentTask s' = Some 0%nat /\
    State (task s' 0) = TaskRunning /\ ~ sched_ok s'.
Proof.
  destruct (SchedExit_locked_breaks 1 (SchedLock demo_run) (mkQs [2%nat; 0%nat] [] []))
    as (s' & E & Hc & Hr & _ & _ & _ & _ & Hn);
    [|by vm_compute..|exists s'; auto].
  pose proof demo_run_inv as [Hq G]. revert Hq G. generalize demo_run. intros d Hq G.
  split; [revert Hq; apply qinv_heads; [done|by intros []]|]. revert G. by apply ginv_view.
Defined.
