(* ===== verification/Ipc.v ===== *)
(** * Wait queues and parking (ipc/ipc.c, include/novium/ipc.h)

    Ports, semaphores and mutexes each embed wait queues; [Parkable] says how
    an object exposes one and when a parked task may go on. A call that sleeps
    is split where SchedBlock switches: [IpcPark_loop] runs to the switch and
    [IpcPark_woken] is what the task does when it runs again. *)

From S2P Require Import Prelude Sched SchedQueues SchedInv SchedOps.

(** ** Data *)

Definition IpcMaxWaiters : Z := 16.

Inductive IpcStatus :=
| IpcOk | IpcErrInvalid | IpcErrFull | IpcErrEmpty | IpcErrBusy | IpcErrOwner | IpcErrNoTask.

#[global] Instance IpcStatus_eq_dec : EqDecision IpcStatus.
Proof. solve_decision. Defined.

Record IpcWait := mkWait { Ids : list Z; WCount : Z }.

(** A wait queue with no entries, as the init functions leave it. *)
Definition wait_empty : IpcWait := mkWait (replicate 16 0) 0.

Definition IpcSelfId (s : Sched) : Z :=
  match SchedCurrent s with None => 0 | Some c => Id (task s c) end.

(** ** Queue operations *)

(** The entries in use, which the loops over [Index < Count] walk. *)
Definition entries (w : IpcWait) : list Z := take (Z.to_nat (WCount w)) (Ids w).

Definition IpcWaitAdd (w : IpcWait) (id : Z) : bool * IpcWait :=
  if IpcMaxWaiters <=? WCount w then (false, w)
  else match list_find (fun x => x = id) (entries w) with
       | Some _ => (true, w)
       | None => (true, mkWait (<[Z.to_nat (WCount w) := id]> (Ids w)) (WCount w +w 1))
       end.

Definition IpcWaitRemove (w : IpcWait) (id : Z) : IpcWait :=
  match list_find (fun x => x = id) (entries w) with
  | None => w
  | Some (Index, _) =>
      let last := Z.to_nat (WCount w -w 1) in
      let ids := <[Index := default 0 (Ids w !! last)]> (Ids w) in
      mkWait (<[last := 0]> ids) (WCount w -w 1)
  end.

Definition IpcWaitIsLive (id : Z) (s : Sched) : bool :=
  negb (id =? 0) && bool_decide (SchedFind id s <> None).

(** The loop that drops stale entries; [Index--] then [Index++] at u32 width. *)
Definition drop_stale (s : Sched) (w : IpcWait) : option IpcWait :=
  loop 40 (fun '(Index, w) =>
    if Index <? WCount w then
      let id := default 0 (Ids w !! Z.to_nat Index) in
      if negb (id =? 0) && negb (IpcWaitIsLive id s)
      then Some (inl (Index -w 1 +w 1, IpcWaitRemove w id))
      else Some (inl (Index +w 1, w))
    else Some (inr w)) (0, w).

Definition IpcWaitTakeLive (w : IpcWait) (s : Sched) : option (Z * IpcWait) :=
  match list_find (fun id => negb (id =? 0) && IpcWaitIsLive id s = true) (entries w) with
  | Some (_, id) => Some (id, IpcWaitRemove w id)
  | None => w ← drop_stale s w; Some (0, w)
  end.

(** ** Parking *)

(** An object one can park on: its wait queue, and the [IpcReadyFn] passed with
    it. *)
Class Parkable (Obj : Type) := {
  get_wait : Obj -> IpcWait;
  set_wait : IpcWait -> Obj -> Obj;
  ready : Obj -> bool }.

(** How a call that may sleep comes back. [Parked] carries the scheduler's
    pending return points and the interrupt state the park loop saved. *)
Inductive ParkOut := ParkRet (st : IpcStatus) | Parked (fs : list SFrame) (was_enabled : bool).

Section Park.
  Context {Obj : Type} `{!Parkable Obj}.

(** After SchedBlock returned. *)
Definition IpcPark_woken (Self : Z) (was_enabled : bool) (o : Obj) (s : Sched) : Obj * Sched :=
  let s := set_irq_on false s in
  let o := set_wait (IpcWaitRemove (get_wait o) Self) o in
  (o, SchedUnlockIrq was_enabled s).

(** The [for (;;)] of IpcPark, until it returns or the task is switched out. *)
Fixpoint IpcPark_loop (fuel : nat) (Self : Z) (o : Obj) (s : Sched) : option (ParkOut * Obj * Sched) :=
  match fuel with
  | O => None
  | S fuel =>
      let was_enabled := irq_on s in
      let s := set_irq_on false s in
      if ready o then Some (ParkRet IpcOk, o, SchedUnlockIrq was_enabled s)
      else
        let '(added, w) := IpcWaitAdd (get_wait o) Self in
        if negb added then Some (ParkRet IpcErrFull, o, SchedUnlockIrq was_enabled s)
        else
          let o := set_wait w o in
          '(out, s) ← SchedBlock s;
          match out with
          | Switched fs => Some (Parked fs was_enabled, o, s)
          | Done => let '(o, s) := IpcPark_woken Self was_enabled o s in
                    IpcPark_loop fuel Self o s
          end
  end.

Definition IpcPark (fuel : nat) (o : Obj) (s : Sched) : option (ParkOut * Obj * Sched) :=
  let Self := IpcSelfId s in
  if Self =? 0 then Some (ParkRet IpcErrNoTask, o, s) else IpcPark_loop fuel Self o s.

(** The rest of IpcPark for a task that was switched out in it. [Self] was read
    before it slept. *)
Definition IpcPark_resume (fuel : nat) (Self : Z) (was_enabled : bool) (o : Obj) (s : Sched)
    : option (ParkOut * Obj * Sched) :=
  let '(o, s) := IpcPark_woken Self was_enabled o s in IpcPark_loop fuel Self o s.

End Park.

Definition IpcWakeOne (w : IpcWait) (s : Sched) : option (IpcWait * Sched) :=
  let was_enabled := irq_on s in
  let s := set_irq_on false s in
  '(id, w) ← IpcWaitTakeLive w s;
  let s := SchedUnlockIrq was_enabled s in
  if negb (id =? 0) then s ← SchedWakeTask id s; Some (w, s) else Some (w, s).

(** ** Wait queues as lists *)

Record wait_wf (w : IpcWait) : Prop := {
  w_len : length (Ids w) = 16%nat;
  w_count : 0 <= WCount w <= 16;
  w_nodup : NoDup (entries w);
  w_nz : forall i, i ∈ entries w -> i <> 0 }.

Lemma wait_empty_wf : wait_wf wait_empty.
Proof. split; [done|cbn; lia|constructor|]. cbn. set_solver. Qed.

Lemma length_entries w : wait_wf w -> length (entries w) = Z.to_nat (WCount w).
Proof. intros [Hl Hc _ _]. unfold entries. rewrite length_take. lia. Qed.

Lemma list_find_eq_Some (l : list Z) x i y :
  list_find (fun z => z = x) l = Some (i, y) -> y = x /\ l !! i = Some x.
Proof. by intros (H & -> & _)%list_find_Some. Qed.

Lemma list_find_eq_None (l : list Z) x : list_find (fun z => z = x) l = None <-> x ∉ l.
Proof.
  rewrite list_find_None, Forall_forall. split; [intros H Hx; by apply (H x)|].
  intros H y Hy ->. done.
Qed.

Lemma IpcWaitAdd_full w id : wait_wf w -> WCount w = 16 -> IpcWaitAdd w id = (false, w).
Proof. intros _ H. unfold IpcWaitAdd, IpcMaxWaiters. by rewrite H. Qed.

Lemma IpcWaitAdd_new w id :
  wait_wf w -> WCount w < 16 -> id ∉ entries w -> id <> 0 ->
  exists w', IpcWaitAdd w id = (true, w') /\ wait_wf w' /\ entries w' = entries w ++ [id].
Proof.
  intros Hw Hc Hid H0. unfold IpcWaitAdd, IpcMaxWaiters. rewrite (proj2 (Z.leb_gt _ _)) by lia.
  rewrite (proj2 (list_find_eq_None _ _) Hid). eexists. split; [reflexivity|].
  pose proof (w_count _ Hw) as Hcn.
  set (n := Z.to_nat (WCount w)).
  assert (E : entries (mkWait (<[n:=id]> (Ids w)) (WCount w +w 1)) = entries w ++ [id]).
  { unfold entries. cbn [WCount Ids]. unwrap. replace (Z.to_nat (WCount w + 1)) with (S n) by lia.
    rewrite (take_S_r _ _ id).
    - by rewrite take_insert_ge by lia.
    - apply list_lookup_insert_eq. rewrite (w_len _ Hw). lia. }
  split; [|exact E]. split.
  - cbn. by rewrite length_insert, (w_len _ Hw).
  - cbn. unwrap. lia.
  - rewrite E. apply NoDup_app. split; [apply Hw|]. split; [|by apply NoDup_singleton].
    intros x Hx ->%elem_of_list_singleton'. done.
  - rewrite E. intros i [Hi| ->%elem_of_list_singleton']%elem_of_app; [by apply Hw|done].
Qed.

Lemma IpcWaitAdd_present w id :
  wait_wf w -> WCount w < 16 -> id ∈ entries w -> IpcWaitAdd w id = (true, w).
Proof.
  intros Hw Hc Hid. unfold IpcWaitAdd, IpcMaxWaiters. rewrite (proj2 (Z.leb_gt _ _)) by lia.
  destruct (list_find _ _) eqn:E; [done|]. by apply list_find_eq_None in E.
Qed.

Lemma entries_last w :
  wait_wf w -> 0 < WCount w ->
  exists l, Ids w !! Z.to_nat (WCount w -w 1) = Some l /\
    entries w = take (Z.to_nat (WCount w -w 1)) (Ids w) ++ [l].
Proof.
  intros Hw Hc. pose proof (w_count _ Hw). unwrap.
  destruct (lookup_lt_is_Some_2 (Ids w) (Z.to_nat (WCount w - 1))) as [l Hl].
  { rewrite (w_len _ Hw). lia. }
  exists l. split; [done|]. unfold entries.
  replace (Z.to_nat (WCount w)) with (S (Z.to_nat (WCount w - 1))) by lia. by apply take_S_r.
Qed.

Lemma IpcWaitRemove_spec w id :
  wait_wf w -> id ∈ entries w ->
  wait_wf (IpcWaitRemove w id) /\ id :: entries (IpcWaitRemove w id) ≡ₚ entries w /\
  WCount (IpcWaitRemove w id) = WCount w - 1.
Proof.
  intros Hw Hid. unfold IpcWaitRemove.
  destruct (list_find _ _) as [[i y]|] eqn:E; [|by apply list_find_eq_None in E].
  apply list_find_eq_Some in E as [_ Hi]. pose proof (w_count _ Hw) as Hc.
  assert (0 < WCount w).
  { destruct (decide (WCount w = 0)) as [H0|]; [|lia]. unfold entries in Hid. rewrite H0 in Hid. set_solver. }
  destruct (entries_last w Hw) as (l & Hl & Ee); [done|]. rewrite Hl. cbn [default].
  set (n := Z.to_nat (WCount w -w 1)) in *.
  set (w' := mkWait (<[n:=0]> (<[i:=l]> (Ids w))) (WCount w -w 1)).
  assert (Hn : (n < 16)%nat) by (unfold n; unwrap; lia).
  assert (Ht : take n (Ids w') = <[i:=l]> (take n (Ids w)) \/ (i = n /\ take n (Ids w') = take n (Ids w))).
  { cbn [w' Ids]. rewrite take_insert_ge by done.
    destruct (decide (i < n)%nat); [left; by rewrite take_insert_lt|right].
    pose proof (lookup_lt_Some _ _ _ Hi) as Hlt. rewrite Ee, length_app, length_take, (w_len _ Hw) in Hlt.
    cbn in Hlt. split; [lia|]. rewrite take_insert_ge by lia. done. }
  assert (P : id :: entries w' ≡ₚ entries w).
  { rewrite Ee in Hi |- *. change (entries w') with (take n (Ids w')).
    assert (Ln : length (take n (Ids w)) = n) by (rewrite length_take, (w_len _ Hw); lia).
    destruct Ht as [->|[-> ->]].
    - destruct (decide (i < n)%nat).
      + rewrite lookup_app_l in Hi by lia. apply list_elem_of_split_length in Hi as (l1 & l2 & E1 & E2).
        rewrite E1. subst i. rewrite (insert_app_r_alt _ _ (length l1)), Nat.sub_diag by done.
        cbn. rewrite <- app_assoc. cbn. solve_Permutation.
      + rewrite list_insert_ge by lia. rewrite lookup_app_r in Hi by lia.
        apply list_lookup_singleton_Some in Hi as [_ ->]. apply Permutation_cons_append.
    - rewrite lookup_app_r, Ln, Nat.sub_diag in Hi by lia. injection Hi as ->.
      apply Permutation_cons_append. }
  split; [|split; [done|cbn; by unwrap]]. split.
  - cbn. by rewrite !length_insert, (w_len _ Hw).
  - cbn. unwrap. lia.
  - pose proof (w_nodup _ Hw) as Hnd. rewrite <- P in Hnd. by apply NoDup_cons in Hnd as [_ ?].
  - intros x Hx. apply (w_nz _ Hw). rewrite <- P. set_solver.
Qed.

Lemma IpcWaitRemove_absent w id : id ∉ entries w -> IpcWaitRemove w id = w.
Proof. intros H. unfold IpcWaitRemove. by rewrite (proj2 (list_find_eq_None _ _) H). Qed.

Lemma IpcWaitRemove_gone w id :
  wait_wf w -> wait_wf (IpcWaitRemove w id) /\ id ∉ entries (IpcWaitRemove w id).
Proof.
  intros Hw. destruct (decide (id ∈ entries w)) as [Hin|Hin].
  - destruct (IpcWaitRemove_spec w id Hw Hin) as (H & P & _). split; [done|].
    pose proof (w_nodup _ Hw) as Hnd. rewrite <- P in Hnd. by apply NoDup_cons in Hnd as [? _].
  - by rewrite IpcWaitRemove_absent.
Qed.

(** A queue with room takes the caller, once, and gives it back. *)
Lemma IpcWaitAdd_keeps w id :
  wait_wf w -> WCount w < 16 -> id <> 0 ->
  exists w', IpcWaitAdd w id = (true, w') /\ wait_wf w' /\ id ∈ entries w' /\
    wait_wf (IpcWaitRemove w' id) /\ WCount (IpcWaitRemove w' id) < 16.
Proof.
  intros Hw Hc H0.
  assert (H : exists w', IpcWaitAdd w id = (true, w') /\ wait_wf w' /\ id ∈ entries w').
  { destruct (decide (id ∈ entries w)) as [Hin|Hin]; [exists w; by rewrite IpcWaitAdd_present|].
    destruct (IpcWaitAdd_new w id Hw Hc Hin H0) as (w' & E & Hw' & Ee). exists w'.
    split; [done|]. split; [done|]. rewrite Ee. set_solver. }
  destruct H as (w' & E & Hw' & Hin). exists w'. do 3 (split; [done|]).
  destruct (IpcWaitRemove_spec w' id Hw' Hin) as (Hr & _ & Hcr). split; [done|].
  pose proof (w_count _ Hw'). lia.
Qed.

Definition live (s : Sched) (id : Z) : Prop := IpcWaitIsLive id s = true.

Lemma drop_stale_loop s : forall fuel w,
  wait_wf w -> (forall id, id ∈ entries w -> ~ live s id) -> (Z.to_nat (WCount w) < fuel)%nat ->
  exists w', loop fuel (fun '(Index, w) =>
    if Index <? WCount w then
      let id := default 0 (Ids w !! Z.to_nat Index) in
      if negb (id =? 0) && negb (IpcWaitIsLive id s)
      then Some (inl (Index -w 1 +w 1, IpcWaitRemove w id))
      else Some (inl (Index +w 1, w))
    else Some (inr w)) (0, w) = Some w' /\ wait_wf w' /\ entries w' = [].
Proof.
  induction fuel as [|fuel IH]; intros w Hw Hst Hf; [lia|]. rewrite loop_unfold.
  destruct (Z.ltb_spec 0 (WCount w)) as [Hc|Hc].
  - pose proof (length_entries w Hw) as Hle. cbv zeta.
    destruct (entries w) as [|id l] eqn:E; [cbn in Hle; lia|].
    assert (E0 : Ids w !! Z.to_nat 0 = Some id).
    { unfold entries in E. destruct (Ids w); [by destruct (Z.to_nat (WCount w))|].
      destruct (Z.to_nat (WCount w)); [done|]. by injection E as -> _. }
    rewrite E0. change (default 0 (Some id)) with id.
    assert (Hid : id ∈ entries w) by (rewrite E; set_solver).
    rewrite (proj2 (Z.eqb_neq id 0)) by by apply (w_nz _ Hw).
    destruct (IpcWaitIsLive id s) eqn:El; [by destruct (Hst id ltac:(set_solver))|].
    cbn [negb andb]. destruct (IpcWaitRemove_spec w id Hw Hid) as (Hw' & P & Hc').
    change (0 -w 1 +w 1) with 0. apply IH; [done| |rewrite Hc'; lia].
    intros x Hx. apply Hst. rewrite <- E, <- P. set_solver.
  - exists w. split; [done|]. split; [done|]. unfold entries.
    by replace (Z.to_nat (WCount w)) with 0%nat by lia.
Qed.

Lemma IpcWaitTakeLive_spec w s :
  wait_wf w ->
  (exists id l1 l2 w', IpcWaitTakeLive w s = Some (id, w') /\ entries w = l1 ++ id :: l2 /\
     live s id /\ (forall x, x ∈ l1 -> ~ live s x) /\ wait_wf w' /\ id :: entries w' ≡ₚ entries w) \/
  (exists w', IpcWaitTakeLive w s = Some (0, w') /\ (forall x, x ∈ entries w -> ~ live s x) /\
     wait_wf w' /\ entries w' = []).
Proof.
  intros Hw. unfold IpcWaitTakeLive.
  assert (Hl : forall id, id ∈ entries w ->
    negb (id =? 0) && IpcWaitIsLive id s = IpcWaitIsLive id s).
  { intros id Hid. rewrite (proj2 (Z.eqb_neq id 0)) by by apply (w_nz _ Hw). done. }
  destruct (list_find _ _) as [[i id]|] eqn:E.
  - left. apply list_find_Some in E as (Hi & Hlive & Hb).
    pose proof (elem_of_list_lookup_2' _ _ _ Hi) as Hid. rewrite Hl in Hlive by done.
    destruct (IpcWaitRemove_spec w id Hw Hid) as (Hw' & P & _).
    apply list_elem_of_split_length in Hi as (l1 & l2 & E1 & ->).
    exists id, l1, l2, (IpcWaitRemove w id). split; [done|]. split; [done|]. split; [done|].
    split; [|done]. intros x Hx Hxl.
    apply list_elem_of_lookup_1 in Hx as [j Hj]. pose proof (lookup_lt_Some _ _ _ Hj).
    assert (Hj' : entries w !! j = Some x) by (rewrite E1; by apply lookup_app_l_Some).
    apply (Hb j x Hj'); [lia|]. rewrite Hl; [done|]. by eapply elem_of_list_lookup_2'.
  - right. apply list_find_None in E. rewrite Forall_forall in E.
    assert (Hst : forall x, x ∈ entries w -> ~ live s x).
    { intros x Hx Hxl. apply (E x Hx). by rewrite Hl. }
    pose proof (w_count _ Hw).
    destruct (drop_stale_loop s 40 w Hw Hst) as (w' & E' & Hw' & He); [lia|].
    assert (drop_stale s w = Some w') as -> by exact E'. rewrite some_bind. by exists w'.
Qed.

(** ** Waking *)

(** A live id names exactly one task. *)
Lemma live_task s Q id :
  sched_inv s Q -> live s id <-> id <> 0 /\ exists t, SchedFind id s = Some t.
Proof.
  intros _. unfold live, IpcWaitIsLive. rewrite andb_true_iff, negb_true_iff, Z.eqb_neq, bool_decide_eq_true.
  destruct (SchedFind id s); naive_solver.
Qed.

(** The state after the task [id] was woken. *)
Definition wake (id : Z) (s s' : Sched) : Prop :=
  exists t, SchedFind id s = Some t /\
    (State (task s t) <> TaskBlocked /\ s' = s \/
     State (task s t) = TaskBlocked /\ frame (upd t (with_State TaskReady) s) s').

Lemma SchedWakeTask_spec id s Q :
  sched_inv s Q -> live s id ->
  exists s', SchedWakeTask id s = Some s' /\ wake id s s' /\ (exists Q', sched_inv s' Q').
Proof.
  intros Hinv Hl. apply (live_task s Q) in Hl as (H0 & t & Ht); [|done].
  unfold SchedWakeTask. rewrite Ht. pose proof (SchedFind_Some _ _ _ Ht) as (Hlt & _).
  rewrite (q_len _ _ (proj1 Hinv)) in Hlt.
  destruct (SchedUnblock_spec t s Q Hinv Hlt) as [[Hb ->]|(Hb & s' & -> & Hinv' & F)].
  - exists s. split; [done|]. split; [|by exists Q]. exists t. split; [done|]. by left.
  - exists s'. split; [done|]. split; [|by eexists]. exists t. split; [done|]. by right.
Qed.

Lemma IpcWakeOne_spec w s Q :
  wait_wf w -> sched_inv s Q ->
  (exists id l1 l2 w' s', IpcWakeOne w s = Some (w', s') /\ entries w = l1 ++ id :: l2 /\
     live s id /\ (forall x, x ∈ l1 -> ~ live s x) /\ wait_wf w' /\ id :: entries w' ≡ₚ entries w /\
     wake id s s' /\ (exists Q', sched_inv s' Q')) \/
  (exists w', IpcWakeOne w s = Some (w', s) /\ (forall x, x ∈ entries w -> ~ live s x) /\
     wait_wf w' /\ entries w' = []).
Proof.
  intros Hw Hinv. unfold IpcWakeOne. cbv zeta.
  assert (HL : forall x, live (set_irq_on false s) x <-> live s x) by done.
  destruct (IpcWaitTakeLive_spec w (set_irq_on false s) Hw)
    as [(id & l1 & l2 & w' & -> & E & Hl & Hb & Hw' & P)|(w' & -> & Hst & Hw' & He)].
  - left. rewrite some_bind, lock_unlock.
    destruct (SchedWakeTask_spec id s Q Hinv Hl) as (s' & Es & Hwk & HQ).
    rewrite (proj2 (Z.eqb_neq id 0)) by (by apply (live_task s Q id Hinv) in Hl as [? _]).
    cbn [negb]. rewrite Es, some_bind. exists id, l1, l2, w', s'. repeat (split; [done|]). done.
  - right. rewrite some_bind, lock_unlock. cbn. exists w'. done.
Qed.

Lemma wake_ok id s s' : sched_ok s -> wake id s s' -> (exists Q', sched_inv s' Q') -> 
  sched_ok s' /\ CurrentTask s' = CurrentTask s.
Proof.
  intros Hok (t & Ht & [[_ ->]|[Hb F]]) (Q' & Hinv'); [done|].
  destruct Hok as (Q & Hinv & c & Hc & Hr). split; [|by rewrite (fr_Current F)].
  exists Q'. split; [done|]. exists c. rewrite (fr_Current F), (fr_State F). split; [done|].
  rewrite task_upd_ne; [done|congruence].
Qed.

Lemma wake_not_blocked id s s' t :
  length (Tasks s) = 32%nat -> wake id s s' -> SchedFind id s = Some t -> State (task s' t) <> TaskBlocked.
Proof.
  intros Hl (t' & Ht' & H) Ht. assert (t' = t) as -> by congruence.
  pose proof (SchedFind_Some _ _ _ Ht) as (Hlt & _).
  destruct H as [[Hb ->]|[_ F]]; [done|]. rewrite (fr_State F), task_upd_eq by done. done.
Qed.

(** ** Parking, for any object *)

Class ParkableLaws (Obj : Type) `{!Parkable Obj} : Prop := {
  get_set_wait : forall w (o : Obj), get_wait (set_wait w o) = w;
  ready_set_wait : forall w (o : Obj), ready (set_wait w o) = ready o }.

(** A task that can sleep: it runs, it is not the idle task, and the scheduler
    is free. *)
Record can_sleep (t : nat) (s : Sched) (Q : Qs) : Prop := {
  cs_inv : sched_inv s Q;
  cs_cur : CurrentTask s = Some t;
  cs_run : State (task s t) = TaskRunning;
  cs_id : Id (task s t) <> 0;
  cs_free : SchedulerLocked s = 0 }.

(** The caller [t] is asleep in the park loop and [n] runs. *)
Record asleep (t : nat) (s s' : Sched) (Q : Qs) : Prop := {
  as_next : exists n, n ∈ qR Q /\ n <> t /\ CurrentTask s' = Some n /\
            State (task s' n) = TaskRunning /\
            sched_inv s' (mkQs (rem n (qR Q)) (qB Q ++ [t]) (qD Q));
  as_blocked : State (task s' t) = TaskBlocked;
  as_ids : forall i, (i < 32)%nat -> Id (task s' i) = Id (task s i);
  as_tick : WakeTick (task s' t) = WakeTick (task s t);
  as_others : forall i, (i < 32)%nat -> i <> t -> calm i s s';
  as_Locked : SchedulerLocked s' = SchedulerLocked s;
  as_NextId : NextTaskId s' = NextTaskId s }.

Lemma lock_unlock_view b s : same_view s (SchedUnlockIrq b (set_irq_on false s)).
Proof. etrans; [apply (irq_same_view false)|apply unlock_same_view]. Qed.

Section ParkFacts.
Context {Obj : Type} `{ParkableLaws Obj}.
Implicit Types (o : Obj).

Lemma can_sleep_irq b t s Q : can_sleep t s Q -> can_sleep t (set_irq_on b s) Q.
Proof. intros []. split; try done. by apply sched_inv_irq. Qed.

Lemma can_sleep_self t s Q : can_sleep t s Q -> IpcSelfId s = Id (task s t).
Proof. intros [_ Hc _ _ _]. unfold IpcSelfId, SchedCurrent. by rewrite Hc. Qed.

Lemma IpcPark_loop_ready fuel Self o s :
  ready o = true -> IpcPark_loop (S fuel) Self o s = Some (ParkRet IpcOk, o, s).
Proof. intros Hr. cbn [IpcPark_loop]. by rewrite Hr, lock_unlock. Qed.

Lemma IpcPark_loop_full fuel Self o s :
  ready o = false -> wait_wf (get_wait o) -> WCount (get_wait o) = 16 ->
  IpcPark_loop (S fuel) Self o s = Some (ParkRet IpcErrFull, o, s).
Proof.
  intros Hr Hw Hc. cbn [IpcPark_loop]. by rewrite Hr, IpcWaitAdd_full, lock_unlock by done.
Qed.

(** Not ready, room in the queue: the caller is queued and asleep. *)
Lemma IpcPark_loop_added fuel t o s Q w' :
  can_sleep t s Q -> ready o = false -> IpcWaitAdd (get_wait o) (Id (task s t)) = (true, w') ->
  exists s',
    IpcPark_loop (S fuel) (Id (task s t)) o s =
      Some (Parked [FrSchedYield false; FrSchedBlockTask t] (irq_on s), set_wait w' o, s') /\
    asleep t s s' Q.
Proof.
  intros Hcs Hr Ha. cbn [IpcPark_loop]. rewrite Hr, Ha. cbn [negb].
  pose proof (can_sleep_irq false t s Q Hcs) as [H1 H2 H3 H4 H5].
  destruct (SchedBlock_switches t (set_irq_on false s) Q H1 H2 H4 H3 H5)
    as (n & s' & -> & Hn & Hcn & Hrn & Hb & Hinv' & HI & Hcm & HL & HN).
  rewrite some_bind. exists s'. split; [done|].
  split; [|done|intros i Hi; by apply HI|by apply HI; apply (g_cur _ _ (proj2 H1))|done|done|done]. exists n. split; [done|]. split; [|done].
  intros ->. apply (g_ready _ _ (proj2 H1)) in Hn; [congruence|].
  by apply (g_cur _ _ (proj2 H1)).
Qed.

Lemma IpcPark_loop_sleeps fuel t o s Q :
  can_sleep t s Q -> ready o = false -> wait_wf (get_wait o) -> WCount (get_wait o) < 16 ->
  Id (task s t) ∉ entries (get_wait o) ->
  exists w' s',
    IpcPark_loop (S fuel) (Id (task s t)) o s =
      Some (Parked [FrSchedYield false; FrSchedBlockTask t] (irq_on s), set_wait w' o, s') /\
    wait_wf w' /\ entries w' = entries (get_wait o) ++ [Id (task s t)] /\ asleep t s s' Q.
Proof.
  intros Hcs Hr Hw Hc Hid.
  destruct (IpcWaitAdd_new (get_wait o) (Id (task s t))) as (w' & Hadd & Hw' & Ew');
    [done..|apply Hcs|].
  destruct (IpcPark_loop_added fuel t o s Q w' Hcs Hr Hadd) as (s' & -> & Ha). by exists w', s'.
Qed.

(** Not ready and the scheduler locked: SchedBlock comes back every time, so the
    loop turns for ever, however much fuel it is given. *)
Lemma IpcPark_loop_spins Self t : Self <> 0 -> forall fuel o s Q,
  sched_inv s Q -> CurrentTask s = Some t -> State (task s t) = TaskRunning -> Id (task s t) <> 0 ->
  SchedulerLocked s <> 0 ->
  ready o = false -> wait_wf (get_wait o) -> WCount (get_wait o) < 16 ->
  IpcPark_loop fuel Self o s = None.
Proof.
  intros HS fuel. induction fuel as [|fuel IH]; intros o s Q Hinv Hc Hr HI HL Hn Hw Hc16; [done|].
  cbn [IpcPark_loop]. rewrite Hn.
  destruct (IpcWaitAdd_keeps (get_wait o) Self Hw Hc16 HS) as (w' & -> & Hw' & Hin & Hwr & Hc'). cbn [negb].
  destruct (SchedBlock_undone t (set_irq_on false s) Q) as (s' & Q' & -> & Hinv' & Hcc' & Hr' & HI' & HL');
    [by apply sched_inv_irq|done..|].
  rewrite some_bind. unfold IpcPark_woken. rewrite get_set_wait.
  pose proof (lock_unlock_view (irq_on s) s') as V.
  eapply IH.
  - apply sched_inv_unlock, sched_inv_irq, Hinv'.
  - by rewrite (sv_Current _ _ V).
  - by rewrite (sv_State _ _ V).
  - by rewrite (sv_Id _ _ V).
  - change (SchedulerLocked s) with (SchedulerLocked (set_irq_on false s)) in HL.
    rewrite <- HL' in HL. unfold SchedUnlockIrq. by destruct (irq_on s).
  - by rewrite !ready_set_wait.
  - by rewrite get_set_wait.
  - by rewrite get_set_wait.
Qed.

(** A woken task leaves the queue before it looks again. *)
Lemma IpcPark_resume_eq fuel Self was o s :
  IpcPark_resume fuel Self was o s =
  IpcPark_loop fuel Self (set_wait (IpcWaitRemove (get_wait o) Self) o)
    (SchedUnlockIrq was (set_irq_on false s)).
Proof. done. Qed.
End ParkFacts.

(** What a sleeper looks like to whoever runs next. *)
Lemma asleep_ok t s s' Q : can_sleep t s Q -> asleep t s s' Q -> sched_ok s'.
Proof.
  intros _ [(n & _ & _ & Hc & Hr & Hinv) _ _ _ _ _ _]. eexists. split; [done|]. by exists n.
Qed.

Lemma asleep_find t s s' Q :
  can_sleep t s Q -> asleep t s s' Q ->
  (t < 32)%nat /\ SchedFind (Id (task s t)) s' = Some t /\ live s' (Id (task s t)).
Proof.
  intros Hcs Ha. destruct (g_cur _ _ (proj2 (cs_inv _ _ _ Hcs)) t (cs_cur _ _ _ Hcs)) as [Ht _].
  destruct (asleep_ok t s s' Q Hcs Ha) as (Q' & Hinv' & _).
  assert (Hf : SchedFind (Id (task s t)) s' = Some t).
  { rewrite <- (as_ids _ _ _ _ Ha t Ht). eapply SchedFind_alive; [done..|].
    by rewrite (as_blocked _ _ _ _ Ha). }
  split; [done|]. split; [done|]. apply (live_task s' Q'); [done|]. split; [apply Hcs|by exists t].
Qed.

(** Waking a sleeper makes it ready. *)
Lemma wake_sleeper t s s1 s2 Q :
  can_sleep t s Q -> asleep t s s1 Q -> wake (Id (task s t)) s1 s2 -> State (task s2 t) = TaskReady.
Proof.
  intros Hcs Ha (t' & Hf & H). destruct (asleep_find t s s1 Q Hcs Ha) as (Ht & Hf' & _).
  assert (t' = t) as -> by congruence. pose proof (as_blocked _ _ _ _ Ha) as Hb.
  destruct H as [[H _]|[_ F]]; [done|]. rewrite (fr_State F), task_upd_eq; [done|].
  destruct (asleep_ok t s s1 Q Hcs Ha) as (Q' & Hinv' & _). by rewrite (q_len _ _ (proj1 Hinv')).
Qed.
