(* ===== verification/Sync.v ===== *)
(** * Semaphores and mutexes (ipc/sync.c, include/novium/sync.h)

    An object is a value threaded with the scheduler's state; a null pointer is
    [None]. SemWait and MutexLock run to their return or to the point where
    the task sleeps; the [_resume] functions are the rest. *)

From S2P Require Import Prelude Sched SchedQueues SchedInv SchedOps Ipc.

(** ** Semaphores *)

Record IpcSemaphore := mkSem { Count : Z; Limit : Z; SWait : IpcWait }.

Definition SemHasPermit (sem : IpcSemaphore) : bool := 0 <? Count sem.

#[global] Instance Sem_parkable : Parkable IpcSemaphore := {|
  get_wait := SWait;
  set_wait w sem := mkSem (Count sem) (Limit sem) w;
  ready := SemHasPermit |}.

#[global] Instance Sem_parkable_laws : ParkableLaws IpcSemaphore.
Proof. by split. Qed.

(** The array stores of the init loops leave [wait_empty]'s contents. *)
Definition SemInit (sem : option IpcSemaphore) (Initial limit : Z) : option IpcSemaphore :=
  match sem with
  | None => None
  | Some _ =>
      let Initial := if negb (limit =? 0) && (limit <? Initial) then limit else Initial in
      Some (mkSem Initial limit wait_empty)
  end.

Definition SemTryWait (sem : option IpcSemaphore) (s : Sched)
    : IpcStatus * option IpcSemaphore * Sched :=
  match sem with
  | None => (IpcErrInvalid, None, s)
  | Some sem =>
      let was_enabled := irq_on s in
      let s := set_irq_on false s in
      let '(st, sem) := if Count sem =? 0 then (IpcErrEmpty, sem)
                        else (IpcOk, mkSem (Count sem -w 1) (Limit sem) (SWait sem)) in
      (st, Some sem, SchedUnlockIrq was_enabled s)
  end.

(** The result of a call that may sleep. *)
Inductive CallOut := CRet (st : IpcStatus) | CSleep (fs : list SFrame) (was_enabled : bool).

(** The loop of SemWait from its top; [park] is IpcPark, or its continuation
    when the task was asleep in it. *)
Fixpoint SemWait_loop (fuel : nat) (sem : IpcSemaphore) (s : Sched)
    : option (CallOut * IpcSemaphore * Sched) :=
  match fuel with
  | O => None
  | S fuel' =>
      match SemTryWait (Some sem) s with
      | (st, Some sem, s) =>
          if decide (st <> IpcErrEmpty) then Some (CRet st, sem, s)
          else
            '(out, sem, s) ← IpcPark fuel sem s;
            match out with
            | Parked fs was => Some (CSleep fs was, sem, s)
            | ParkRet st => if decide (st <> IpcOk) then Some (CRet st, sem, s)
                            else SemWait_loop fuel' sem s
            end
      | (st, None, s) => None
      end
  end.

Definition SemWait (fuel : nat) (sem : option IpcSemaphore) (s : Sched)
    : option (CallOut * option IpcSemaphore * Sched) :=
  match sem with
  | None => Some (CRet IpcErrInvalid, None, s)
  | Some sem => '(out, sem, s) ← SemWait_loop fuel sem s; Some (out, Some sem, s)
  end.

(** SemWait of task [Self] after its SchedBlock returned. *)
Definition SemWait_resume (fuel : nat) (Self : Z) (was : bool) (sem : IpcSemaphore) (s : Sched)
    : option (CallOut * IpcSemaphore * Sched) :=
  '(out, sem, s) ← IpcPark_resume fuel Self was sem s;
  match out with
  | Parked fs was => Some (CSleep fs was, sem, s)
  | ParkRet st => if decide (st <> IpcOk) then Some (CRet st, sem, s)
                  else SemWait_loop fuel sem s
  end.

Definition SemPost (sem : option IpcSemaphore) (s : Sched)
    : option (IpcStatus * option IpcSemaphore * Sched) :=
  match sem with
  | None => Some (IpcErrInvalid, None, s)
  | Some sem =>
      let was_enabled := irq_on s in
      let s := set_irq_on false s in
      let '(st, sem) := if negb (Limit sem =? 0) && (Limit sem <=? Count sem) then (IpcErrFull, sem)
                        else (IpcOk, mkSem (Count sem +w 1) (Limit sem) (SWait sem)) in
      let s := SchedUnlockIrq was_enabled s in
      if decide (st = IpcOk) then
        '(w, s) ← IpcWakeOne (SWait sem) s;
        Some (st, Some (mkSem (Count sem) (Limit sem) w), s)
      else Some (st, Some sem, s)
  end.

Definition SemCount (sem : option IpcSemaphore) : Z :=
  match sem with None => 0 | Some sem => Count sem end.

(** ** Mutexes *)

Record IpcMutex := mkMutex { Locked : bool; Owner : Z; MWait : IpcWait }.

Definition MutexIsFree (m : IpcMutex) : bool := negb (Locked m).

#[global] Instance Mutex_parkable : Parkable IpcMutex := {|
  get_wait := MWait;
  set_wait w m := mkMutex (Locked m) (Owner m) w;
  ready := MutexIsFree |}.

#[global] Instance Mutex_parkable_laws : ParkableLaws IpcMutex.
Proof. by split. Qed.

Definition MutexInit (m : option IpcMutex) : option IpcMutex :=
  match m with None => None | Some _ => Some (mkMutex false 0 wait_empty) end.

Definition MutexHeldByCaller (m : option IpcMutex) (s : Sched) : bool :=
  match m with
  | None => false
  | Some m => if negb (Locked m) then false else Owner m =? IpcSelfId s
  end.

Definition MutexTryLock (m : option IpcMutex) (s : Sched) : IpcStatus * option IpcMutex * Sched :=
  match m with
  | None => (IpcErrInvalid, None, s)
  | Some m =>
      let was_enabled := irq_on s in
      let s := set_irq_on false s in
      let '(st, m) := if Locked m then (IpcErrBusy, m)
                      else (IpcOk, mkMutex true (IpcSelfId s) (MWait m)) in
      (st, Some m, SchedUnlockIrq was_enabled s)
  end.

Fixpoint MutexLock_loop (fuel : nat) (m : IpcMutex) (s : Sched)
    : option (CallOut * IpcMutex * Sched) :=
  match fuel with
  | O => None
  | S fuel' =>
      match MutexTryLock (Some m) s with
      | (st, Some m, s) =>
          if decide (st = IpcErrBusy) then
            if MutexHeldByCaller (Some m) s then Some (CRet IpcOk, m, s)
            else
              '(out, m, s) ← IpcPark fuel m s;
              match out with
              | Parked fs was => Some (CSleep fs was, m, s)
              | ParkRet st => if decide (st <> IpcOk) then Some (CRet st, m, s)
                              else MutexLock_loop fuel' m s
              end
          else Some (CRet st, m, s)
      | (st, None, s) => None
      end
  end.

Definition MutexLock (fuel : nat) (m : option IpcMutex) (s : Sched)
    : option (CallOut * option IpcMutex * Sched) :=
  match m with
  | None => Some (CRet IpcErrInvalid, None, s)
  | Some m =>
      if MutexHeldByCaller (Some m) s then Some (CRet IpcErrOwner, Some m, s)
      else '(out, m, s) ← MutexLock_loop fuel m s; Some (out, Some m, s)
  end.

(** MutexLock of task [Self] after its SchedBlock returned. *)
Definition MutexLock_resume (fuel : nat) (Self : Z) (was : bool) (m : IpcMutex) (s : Sched)
    : option (CallOut * IpcMutex * Sched) :=
  '(out, m, s) ← IpcPark_resume fuel Self was m s;
  match out with
  | Parked fs was => Some (CSleep fs was, m, s)
  | ParkRet st => if decide (st <> IpcOk) then Some (CRet st, m, s)
                  else MutexLock_loop fuel m s
  end.

Definition MutexUnlock (m : option IpcMutex) (s : Sched)
    : option (IpcStatus * option IpcMutex * Sched) :=
  match m with
  | None => Some (IpcErrInvalid, None, s)
  | Some m =>
      let was_enabled := irq_on s in
      let s := set_irq_on false s in
      '(st, next, m) ←
        (if negb (Locked m) || negb (Owner m =? IpcSelfId s) then Some (IpcErrOwner, 0, m)
         else
           '(next, w) ← IpcWaitTakeLive (MWait m) s;
           Some (IpcOk, next,
                 if negb (next =? 0) then mkMutex (Locked m) next w else mkMutex false 0 w));
      let s := SchedUnlockIrq was_enabled s in
      if decide (st = IpcOk /\ next <> 0)
      then s ← SchedWakeTask next s; Some (st, Some m, s)
      else Some (st, Some m, s)
  end.

(** ** Semaphores: facts *)

Record sem_wf (sem : IpcSemaphore) : Prop := {
  sem_count : 0 <= Count sem < 4294967296;
  sem_limit : 0 <= Limit sem < 4294967296;
  sem_ceiling : Limit sem <> 0 -> Count sem <= Limit sem;
  sem_wait : wait_wf (SWait sem) }.

Lemma SemInit_wf old i l :
  0 <= i < 4294967296 -> 0 <= l < 4294967296 ->
  exists sem, SemInit (Some old) i l = Some sem /\ sem_wf sem /\
    Count sem = (if decide (l = 0) then i else i `min` l) /\ entries (SWait sem) = [].
Proof.
  intros Hi Hl. eexists. split; [done|].
  destruct (Z.eqb_spec l 0), (Z.ltb_spec l i); cbn [negb andb];
    (split; [split; cbn; try lia; apply wait_empty_wf|]); case_decide; cbn; split; lia || done.
Qed.

Lemma SemTryWait_spec sem s :
  sem_wf sem ->
  (Count sem = 0 /\ SemTryWait (Some sem) s = (IpcErrEmpty, Some sem, s)) \/
  (0 < Count sem /\
   SemTryWait (Some sem) s = (IpcOk, Some (mkSem (Count sem - 1) (Limit sem) (SWait sem)), s) /\
   sem_wf (mkSem (Count sem - 1) (Limit sem) (SWait sem))).
Proof.
  intros [Hc Hl Hx Hw]. unfold SemTryWait. cbv zeta.
  destruct (Z.eqb_spec (Count sem) 0); [left|right]; rewrite lock_unlock; [done|].
  split; [lia|]. unwrap. split; [done|]. split; cbn; [lia|done| |done]. intros. specialize (Hx ltac:(done)). lia.
Qed.

(** Which waiter, if any, a wake on [w] picks; [s'] and [w'] are what it leaves. *)
Definition wakes_first (w : IpcWait) (s : Sched) (w' : IpcWait) (s' : Sched) : Prop :=
  (exists id l1 l2, entries w = l1 ++ id :: l2 /\ live s id /\ (forall x, x ∈ l1 -> ~ live s x) /\
     id :: entries w' ≡ₚ entries w /\ wake id s s') \/
  ((forall x, x ∈ entries w -> ~ live s x) /\ entries w' = [] /\ s' = s).

Lemma IpcWakeOne_ok w s :
  wait_wf w -> sched_ok s ->
  exists w' s', IpcWakeOne w s = Some (w', s') /\ wait_wf w' /\ sched_ok s' /\
    CurrentTask s' = CurrentTask s /\ wakes_first w s w' s'.
Proof.
  intros Hw Hok. pose proof Hok as (Q & Hinv & _).
  destruct (IpcWakeOne_spec w s Q Hw Hinv)
    as [(id & l1 & l2 & w' & s' & E & E1 & Hl & Hb & Hw' & P & Hwk & HQ)|(w' & E & Hst & Hw' & He)].
  - destruct (wake_ok id s s' Hok Hwk HQ). exists w', s'. repeat (split; [done|]). left. by exists id, l1, l2.
  - exists w', s. repeat (split; [done|]). by right.
Qed.

Lemma SemPost_spec sem s :
  sem_wf sem -> sched_ok s -> (Limit sem = 0 -> Count sem + 1 < 4294967296) ->
  (Limit sem <> 0 /\ Count sem = Limit sem /\ SemPost (Some sem) s = Some (IpcErrFull, Some sem, s)) \/
  (exists sem' s', SemPost (Some sem) s = Some (IpcOk, Some sem', s') /\
     Count sem' = Count sem + 1 /\ Limit sem' = Limit sem /\ sem_wf sem' /\ sched_ok s' /\
     wakes_first (SWait sem) s (SWait sem') s').
Proof.
  intros [Hc Hl Hx Hw] Hok Hov. unfold SemPost. cbv zeta.
  destruct (negb (Limit sem =? 0) && (Limit sem <=? Count sem)) eqn:E.
  - left. apply andb_true_iff in E as [E1%negb_true_iff%Z.eqb_neq E2%Z.leb_le].
    rewrite lock_unlock. split; [done|]. split; [specialize (Hx E1); lia|done].
  - right. rewrite lock_unlock. cbn [SWait Count Limit].
    assert (Hroom : Limit sem <> 0 -> Count sem < Limit sem).
    { intros E1. apply andb_false_iff in E as [E%negb_false_iff%Z.eqb_eq|E%Z.leb_gt]; lia. }
    destruct (IpcWakeOne_ok (SWait sem) s Hw Hok) as (w' & s' & -> & Hw' & Hok' & _ & Hwk).
    rewrite decide_True by done. rewrite some_bind.
    assert (Count sem + 1 < 4294967296).
    { destruct (decide (Limit sem = 0)) as [E0|E0]; [by apply Hov|specialize (Hroom E0); lia]. }
    unwrap. eexists _, s'. split; [done|]. cbn. repeat (split; [done|]).
    split; [|done]. split; cbn; [lia|done| |done]. intros. specialize (Hroom ltac:(done)). lia.
Qed.

(** A post below the ceiling wakes the first live waiter, and only it; the
    permit is there for whoever takes it first. *)
Lemma SemPost_wakes sem s t id l1 l2 :
  sem_wf sem -> sched_ok s -> entries (SWait sem) = l1 ++ id :: l2 -> (forall x, x ∈ l1 -> ~ live s x) ->
  SchedFind id s = Some t -> State (task s t) = TaskBlocked ->
  (if decide (Limit sem = 0) then Count sem < 4294967295 else Count sem < Limit sem) -> id <> 0 ->
  exists sem' s', SemPost (Some sem) s = Some (IpcOk, Some sem', s') /\
    Count sem' = Count sem + 1 /\ State (task s' t) = TaskReady /\
    id :: entries (SWait sem') ≡ₚ entries (SWait sem) /\ sem_wf sem' /\ sched_ok s' /\
    (forall i, i <> t -> State (task s' i) = State (task s i)) /\
    forall s4, exists sem4, SemTryWait (Some sem') s4 = (IpcOk, Some sem4, s4) /\ Count sem4 = Count sem.
Proof.
  intros Hw Hok El Hl1 Hf Hb Hroom H0. pose proof Hok as (Q & Hinv & _).
  assert (Hlive : live s id) by (apply (live_task s Q); [done|split; [done|by exists t]]).
  destruct (SemPost_spec sem s Hw Hok) as [(HL & Hc & _)|(sem' & s' & -> & Hc & _ & Hw' & Hok' & Hwk)].
  { intros HL. rewrite decide_True in Hroom by done. lia. }
  { rewrite decide_False in Hroom by done. lia. }
  exists sem', s'. do 2 (split; [done|]).
  destruct Hwk as [(id' & l1' & l2' & El' & Hl & Hl1' & P & t' & Hf' & Hst)|(Hno & _)].
  2: { destruct (Hno id); [rewrite El; set_solver|done]. }
  assert (id' = id) as ->.
  { rewrite El in El'. apply app_eq_inv in El' as [(k & -> & Ek)|(k & -> & Ek)];
      (destruct k as [|x k]; [cbn in Ek; congruence|]); cbn in Ek; injection Ek as -> _.
    - exfalso. eapply Hl1; [|exact Hl]. set_solver.
    - exfalso. eapply Hl1'; [|exact Hlive]. set_solver. }
  assert (t' = t) as -> by congruence. destruct Hst as [[? _]|[_ F]]; [done|].
  pose proof (SchedFind_Some _ _ _ Hf) as (Ht & _).
  split; [by rewrite (fr_State F), task_upd_eq|]. do 3 (split; [done|]). split.
  - intros i Hne. by rewrite (fr_State F), task_upd_ne.
  - intros s4. destruct (SemTryWait_spec sem' s4 Hw') as [[Hz _]|(_ & E & _)];
      [pose proof (sem_count _ Hw); lia|]. eexists. split; [exact E|]. cbn. lia.
Qed.

(** SemWait's outcomes for a task that can sleep. *)
Lemma SemWait_spec fuel t sem s Q :
  sem_wf sem -> can_sleep t s Q -> Id (task s t) ∉ entries (SWait sem) ->
  (0 < Count sem /\
   SemWait (S fuel) (Some sem) s =
     Some (CRet IpcOk, Some (mkSem (Count sem - 1) (Limit sem) (SWait sem)), s)) \/
  (Count sem = 0 /\ WCount (SWait sem) = 16 /\
   SemWait (S fuel) (Some sem) s = Some (CRet IpcErrFull, Some sem, s)) \/
  (Count sem = 0 /\ exists w' s',
   SemWait (S fuel) (Some sem) s =
     Some (CSleep [FrSchedYield false; FrSchedBlockTask t] (irq_on s), Some (mkSem 0 (Limit sem) w'), s') /\
   wait_wf w' /\ entries w' = entries (SWait sem) ++ [Id (task s t)] /\ asleep t s s' Q).
Proof.
  intros Hw Hcs Hid. cbn [SemWait SemWait_loop].
  destruct (SemTryWait_spec sem s Hw) as [[H0 ->]|(Hp & -> & _)].
  2: { left. split; [done|]. by rewrite decide_True, some_bind by done. }
  rewrite decide_False by tauto. right.
  assert (Hr : ready sem = false) by (cbn; unfold SemHasPermit; by rewrite H0).
  unfold IpcPark. rewrite (can_sleep_self t s Q Hcs), (proj2 (Z.eqb_neq _ _) (cs_id _ _ _ Hcs)).
  pose proof (w_count _ (sem_wait _ Hw)) as Hc.
  destruct (decide (WCount (SWait sem) = 16)) as [Hf|Hf].
  - left. rewrite IpcPark_loop_full by (done || apply Hw). by rewrite some_bind, decide_True, some_bind by done.
  - right. split; [done|].
    destruct (IpcPark_loop_sleeps fuel t sem s Q) as (w' & s' & -> & Hw' & E & Ha);
      [done|done|apply Hw|cbn; lia|done|].
    exists w', s'. rewrite !some_bind. cbn [set_wait Sem_parkable]. by rewrite H0.
Qed.

(** A sleeper that runs again takes a permit if there is one, whoever posted. *)
Lemma SemWait_resume_takes fuel Self was sem s :
  sem_wf sem -> 0 < Count sem ->
  exists sem' s', SemWait_resume (S fuel) Self was sem s = Some (CRet IpcOk, sem', s') /\
    Count sem' = Count sem - 1 /\ sem_wf sem' /\ (Self ∉ entries (SWait sem')) /\
    s' = SchedUnlockIrq was (set_irq_on false s).
Proof.
  intros Hw Hp. unfold SemWait_resume. rewrite IpcPark_resume_eq.
  destruct (IpcWaitRemove_gone (SWait sem) Self (sem_wait _ Hw)) as [Hw' Hni]. set (sem1 := set_wait _ sem).
  assert (Hwf : sem_wf sem1) by (destruct Hw; by split).
  rewrite IpcPark_loop_ready by (cbn; unfold SemHasPermit; cbn; by apply Z.ltb_lt).
  rewrite some_bind, decide_False by tauto. cbn [SemWait_loop].
  destruct (SemTryWait_spec sem1 (SchedUnlockIrq was (set_irq_on false s)) Hwf) as [[H0 _]|(_ & -> & Hwf')].
  { cbn in H0. lia. }
  rewrite decide_True by done. eexists _, _. split; [done|]. done.
Qed.

(** A sleeper that runs again and finds no permit, taken by someone else, queues
    itself again and sleeps. *)
Lemma SemWait_resume_sleeps fuel t was sem s Q :
  sem_wf sem -> can_sleep t s Q -> Count sem = 0 ->
  WCount (IpcWaitRemove (SWait sem) (Id (task s t))) < 16 ->
  exists sem' s', SemWait_resume (S fuel) (Id (task s t)) was sem s =
      Some (CSleep [FrSchedYield false; FrSchedBlockTask t] was, sem', s') /\
    Count sem' = 0 /\ sem_wf sem' /\
    entries (SWait sem') = entries (IpcWaitRemove (SWait sem) (Id (task s t))) ++ [Id (task s t)] /\
    asleep t (SchedUnlockIrq was (set_irq_on false s)) s' Q.
Proof.
  intros Hw Hcs H0 H16. unfold SemWait_resume. rewrite IpcPark_resume_eq.
  destruct (IpcWaitRemove_gone (SWait sem) (Id (task s t)) (sem_wait _ Hw)) as [Hwr Hni].
  set (s1 := SchedUnlockIrq was (set_irq_on false s)).
  assert (Hcs1 : can_sleep t s1 Q) by (unfold s1; destruct was; repeat apply can_sleep_irq; done).
  assert (HI : Id (task s1 t) = Id (task s t)) by (unfold s1; by destruct was).
  destruct (IpcPark_loop_sleeps fuel t (set_wait (IpcWaitRemove (get_wait sem) (Id (task s t))) sem) s1 Q)
    as (w' & s' & E & Hw' & Ee & Ha); rewrite ?get_set_wait, ?HI; try done.
  { cbn. unfold SemHasPermit. cbn. by rewrite H0. }
  rewrite HI in E, Ee. change (irq_on s1) with (irq_on (SchedUnlockIrq was (set_irq_on false s))) in E.
  rewrite E, some_bind. eexists _, s'. split.
  - unfold s1. by destruct was.
  - split; [done|]. split; [destruct Hw; split; cbn; done|]. split; [exact Ee|exact Ha].
Qed.

(** ** Mutexes: facts *)

Lemma MutexTryLock_spec m s :
  (Locked m = true /\ MutexTryLock (Some m) s = (IpcErrBusy, Some m, s)) \/
  (Locked m = false /\ MutexTryLock (Some m) s = (IpcOk, Some (mkMutex true (IpcSelfId s) (MWait m)), s)).
Proof.
  unfold MutexTryLock. cbv zeta. destruct (Locked m); [left|right]; by rewrite lock_unlock.
Qed.

(** MutexLock's outcomes for a task that can sleep and does not hold it. *)
Lemma MutexLock_spec fuel t m s Q :
  wait_wf (MWait m) -> can_sleep t s Q -> Id (task s t) ∉ entries (MWait m) ->
  (Locked m = true /\ Owner m = Id (task s t) /\
   MutexLock (S fuel) (Some m) s = Some (CRet IpcErrOwner, Some m, s)) \/
  (Locked m = false /\
   MutexLock (S fuel) (Some m) s = Some (CRet IpcOk, Some (mkMutex true (Id (task s t)) (MWait m)), s)) \/
  (Locked m = true /\ Owner m <> Id (task s t) /\ WCount (MWait m) = 16 /\
   MutexLock (S fuel) (Some m) s = Some (CRet IpcErrFull, Some m, s)) \/
  (Locked m = true /\ Owner m <> Id (task s t) /\ exists w' s',
   MutexLock (S fuel) (Some m) s =
     Some (CSleep [FrSchedYield false; FrSchedBlockTask t] (irq_on s), Some (mkMutex true (Owner m) w'), s') /\
   wait_wf w' /\ entries w' = entries (MWait m) ++ [Id (task s t)] /\ asleep t s s' Q).
Proof.
  intros Hw Hcs Hid. cbn [MutexLock MutexLock_loop]. unfold MutexHeldByCaller.
  rewrite (can_sleep_self t s Q Hcs).
  destruct (MutexTryLock_spec m s) as [[Hl ->]|[Hl ->]]; rewrite Hl; cbn [negb].
  2: { right. left. split; [done|]. by rewrite (can_sleep_self t s Q Hcs), decide_False, some_bind by done. }
  destruct (Z.eqb_spec (Owner m) (Id (task s t))) as [Ho|Ho]; [by left|]. right. right.
  rewrite (can_sleep_self t s Q Hcs), (proj2 (Z.eqb_neq _ _) Ho). rewrite decide_True by done.
  assert (Hr : ready m = false) by (cbn; unfold MutexIsFree; by rewrite Hl).
  unfold IpcPark. rewrite (can_sleep_self t s Q Hcs), (proj2 (Z.eqb_neq _ _) (cs_id _ _ _ Hcs)).
  pose proof (w_count _ Hw) as Hc. destruct (decide (WCount (MWait m) = 16)) as [Hf|Hf].
  - left. rewrite IpcPark_loop_full by done. by rewrite some_bind, decide_True, some_bind by done.
  - right. split; [done|]. split; [done|].
    destruct (IpcPark_loop_sleeps fuel t m s Q) as (w' & s' & -> & Hw' & E & Ha);
      [done|done|done|cbn; lia|done|].
    exists w', s'. rewrite !some_bind. cbn [set_wait Mutex_parkable]. by rewrite Hl.
Qed.

Lemma MutexUnlock_spec m s :
  wait_wf (MWait m) -> sched_ok s ->
  (MutexHeldByCaller (Some m) s = false /\
   MutexUnlock (Some m) s = Some (IpcErrOwner, Some m, s)) \/
  (MutexHeldByCaller (Some m) s = true /\ exists w', wait_wf w' /\
   ((exists id l1 l2 s', entries (MWait m) = l1 ++ id :: l2 /\ live s id /\
      (forall x, x ∈ l1 -> ~ live s x) /\ id :: entries w' ≡ₚ entries (MWait m) /\
      wake id s s' /\ sched_ok s' /\
      MutexUnlock (Some m) s = Some (IpcOk, Some (mkMutex true id w'), s')) \/
    ((forall x, x ∈ entries (MWait m) -> ~ live s x) /\ entries w' = [] /\
     MutexUnlock (Some m) s = Some (IpcOk, Some (mkMutex false 0 w'), s)))).
Proof.
  intros Hw Hok. unfold MutexHeldByCaller, MutexUnlock. cbv zeta.
  change (IpcSelfId (set_irq_on false s)) with (IpcSelfId s).
  destruct (Locked m) eqn:El; cbn [negb orb].
  2: { left. rewrite some_bind, decide_False, lock_unlock by naive_solver. done. }
  destruct (Owner m =? IpcSelfId s) eqn:Eo; cbn [negb].
  2: { left. rewrite some_bind, decide_False, lock_unlock by naive_solver. done. }
  right. split; [done|]. pose proof Hok as (Q & Hinv & _).
  destruct (IpcWaitTakeLive_spec (MWait m) (set_irq_on false s) Hw)
    as [(id & l1 & l2 & w' & -> & E & Hl & Hb & Hw' & P)|(w' & -> & Hst & Hw' & He)];
    exists w'; (split; [done|]).
  - left. change (live s id) in Hl. pose proof (proj1 (live_task s Q id Hinv) Hl) as [H0 _].
    destruct (SchedWakeTask_spec id s Q Hinv Hl) as (s' & Es & Hwk & HQ).
    destruct (wake_ok id s s' Hok Hwk HQ) as [Hok' _].
    exists id, l1, l2, s'. repeat (split; [done|]).
    rewrite !some_bind, decide_True, lock_unlock, Es, some_bind by done.
    by rewrite (proj2 (Z.eqb_neq id 0) H0).
  - right. repeat (split; [done|]). rewrite !some_bind, decide_False, lock_unlock by naive_solver. done.
Qed.

(** The hand-over meets IpcPark's re-check: a task that wakes up owning the
    mutex finds it locked, queues itself again and sleeps. *)
Lemma handoff_reparks fuel t was m s Q :
  can_sleep t s Q -> wait_wf (MWait m) -> Locked m = true -> Owner m = Id (task s t) ->
  WCount (MWait m) < 16 -> Id (task s t) ∉ entries (MWait m) ->
  exists w' s',
    MutexLock_resume (S fuel) (Id (task s t)) was m s =
      Some (CSleep [FrSchedYield false; FrSchedBlockTask t] was, mkMutex true (Id (task s t)) w', s') /\
    entries w' = entries (MWait m) ++ [Id (task s t)] /\ asleep t s s' Q.
Proof.
  intros Hcs Hw Hl Ho Hc Hid. unfold MutexLock_resume. rewrite IpcPark_resume_eq.
  change (get_wait m) with (MWait m). rewrite IpcWaitRemove_absent by done.
  set (s1 := SchedUnlockIrq was (set_irq_on false s)).
  assert (Hcs1 : can_sleep t s1 Q) by (unfold s1; destruct was; by repeat apply can_sleep_irq).
  assert (Ht1 : task s1 = task s) by (unfold s1; by destruct was).
  assert (Hi1 : irq_on s1 = was) by (unfold s1; by destruct was).
  destruct (IpcPark_loop_sleeps fuel t (set_wait (MWait m) m) s1 Q) as (w' & s' & E & Hw' & Ew & Ha);
    [done|cbn; unfold MutexIsFree; cbn; by rewrite Hl|done|done|by rewrite Ht1|].
  rewrite Ht1 in E, Ew. rewrite E, some_bind, Hi1. exists w', s'.
  split; [cbn; by rewrite Hl, Ho|]. split; [exact Ew|]. destruct Ha as [H1 H2 H3 H4 H5 H6 H7].
  rewrite Ht1 in H4. split; [done|done| |done| | |].
  - intros i Hi. rewrite (H3 i Hi). by rewrite Ht1.
  - intros i Hi Hne. unfold calm. rewrite <- Ht1. by apply H5.
  - rewrite H6. unfold s1. by destruct was.
  - rewrite H7. unfold s1. by destruct was.
Qed.

(** ** Any sequence of non-blocking semaphore calls *)

Inductive sem_op := STryWait | SPost | SYield.

(** [taken] and [posted] count the calls that returned [IpcOk]. *)
Definition sem_step (op : sem_op) (sem : IpcSemaphore) (s : Sched) (taken posted : Z)
    : option (IpcSemaphore * Sched * Z * Z) :=
  match op with
  | STryWait =>
      match SemTryWait (Some sem) s with
      | (st, Some sem, s) => Some (sem, s, if decide (st = IpcOk) then taken + 1 else taken, posted)
      | _ => None
      end
  | SPost =>
      r ← SemPost (Some sem) s;
      match r with
      | (st, Some sem, s) => Some (sem, s, taken, if decide (st = IpcOk) then posted + 1 else posted)
      | _ => None
      end
  | SYield => '(_, s) ← SchedYield s; Some (sem, s, taken, posted)
  end.

Fixpoint sem_run (ops : list sem_op) (sem : IpcSemaphore) (s : Sched) (taken posted : Z)
    : option (IpcSemaphore * Sched * Z * Z) :=
  match ops with
  | [] => Some (sem, s, taken, posted)
  | op :: ops => '(sem, s, taken, posted) ← sem_step op sem s taken posted;
                 sem_run ops sem s taken posted
  end.

Lemma sem_step_conserves op sem s taken posted :
  sem_wf sem -> sched_ok s -> Limit sem <> 0 ->
  exists sem' s' taken' posted', sem_step op sem s taken posted = Some (sem', s', taken', posted') /\
    sem_wf sem' /\ sched_ok s' /\ Limit sem' = Limit sem /\
    Count sem' + taken' - posted' = Count sem + taken - posted /\ taken <= taken' /\ posted <= posted'.
Proof.
  intros Hw Hok HL. destruct op; cbn [sem_step].
  - destruct (SemTryWait_spec sem s Hw) as [[_ ->]|(_ & -> & Hw')].
    + rewrite decide_False by done. eexists _, _, _, _. split; [done|]. repeat (split; [done|]). lia.
    + rewrite decide_True by done. eexists _, _, _, _. split; [done|]. repeat (split; [done|]). cbn. lia.
  - destruct (SemPost_spec sem s Hw Hok) as [(_ & _ & ->)|(sem' & s' & -> & Hc & Hl & Hw' & Hok' & _)];
      [done|..]; rewrite some_bind.
    + rewrite decide_False by done. eexists _, _, _, _. split; [done|]. repeat (split; [done|]). lia.
    + rewrite decide_True by done. eexists _, _, _, _. split; [done|]. repeat (split; [done|]). lia.
  - destruct (SchedYield_ok s Hok) as (out & s' & -> & Hok' & _). rewrite some_bind.
    eexists _, _, _, _. split; [done|]. repeat (split; [done|]). lia.
Qed.

Lemma sem_run_conserves ops : forall sem s taken posted,
  sem_wf sem -> sched_ok s -> Limit sem <> 0 ->
  exists sem' s' taken' posted', sem_run ops sem s taken posted = Some (sem', s', taken', posted') /\
    sem_wf sem' /\ sched_ok s' /\ Limit sem' = Limit sem /\
    Count sem' + taken' - posted' = Count sem + taken - posted /\ taken <= taken' /\ posted <= posted'.
Proof.
  induction ops as [|op ops IH]; intros sem s taken posted Hw Hok HL.
  { eexists _, _, _, _. split; [done|]. repeat (split; [done|]). lia. }
  cbn [sem_run].
  destruct (sem_step_conserves op sem s taken posted Hw Hok HL)
    as (sem1 & s1 & t1 & p1 & -> & Hw1 & Hok1 & Hl1 & E1 & ? & ?).
  rewrite some_bind.
  destruct (IH sem1 s1 t1 p1 Hw1 Hok1) as (sem2 & s2 & t2 & p2 & -> & Hw2 & Hok2 & Hl2 & E2 & ? & ?);
    [by rewrite Hl1|].
  exists sem2, s2, t2, p2. rewrite Hl2. repeat (split; [done|]). lia.
Qed.
