(* ===== verification/Message.v ===== *)
(** * Message ports (ipc/message.c, include/novium/message.h)

    A port is a ring of sixteen slots with two wait queues. The abstract port
    is the list of queued messages, oldest first. *)

From S2P Require Import Prelude Sched SchedQueues SchedInv SchedOps Ipc Sync.

(** ** Data *)

Definition IpcMessageWords : Z := 8.
Definition IpcPortCapacity : Z := 16.
Definition PORT_MAGIC : Z := 1347375700.

Record IpcMessage := mkMsg { Length : Z; Sender : Z; Data : list Z }.

Definition zero_msg : IpcMessage := mkMsg 0 0 (replicate 8 0).

Record IpcPort := mkPort {
  Magic : Z; Head : Z; PCount : Z;
  Slots : list IpcMessage;
  Senders : IpcWait; Receivers : IpcWait }.

Definition set_Senders w p := mkPort (Magic p) (Head p) (PCount p) (Slots p) w (Receivers p).
Definition set_Receivers w p := mkPort (Magic p) (Head p) (PCount p) (Slots p) (Senders p) w.

(** ** Operations *)

(** The payload words of the slots stay. *)
Definition PortReset (p : IpcPort) : IpcPort :=
  mkPort (Magic p) 0 0 ((fun m => mkMsg 0 0 (Data m)) <$> Slots p) wait_empty wait_empty.

Definition IpcPortIsCreated (p : option IpcPort) : bool :=
  match p with None => false | Some p => Magic p =? PORT_MAGIC end.

(** IpcPortCreate and IpcPortDestroy save the interrupt flag and put it back, so
    the scheduler's state does not change. *)
Definition IpcPortCreate (p : option IpcPort) : IpcStatus * option IpcPort :=
  match p with
  | None => (IpcErrInvalid, None)
  | Some p =>
      if Magic p =? PORT_MAGIC then (IpcErrInvalid, Some p)
      else (IpcOk, Some (PortReset (mkPort PORT_MAGIC (Head p) (PCount p) (Slots p)
                                      (Senders p) (Receivers p))))
  end.

Definition IpcPortDestroy (p : option IpcPort) : IpcStatus * option IpcPort :=
  if negb (IpcPortIsCreated p) then (IpcErrInvalid, p)
  else match p with
       | None => (IpcErrInvalid, None)
       | Some p =>
           if negb (WCount (Senders p) =? 0) || negb (WCount (Receivers p) =? 0)
           then (IpcErrBusy, Some p)
           else let p := PortReset p in
                (IpcOk, Some (mkPort 0 (Head p) (PCount p) (Slots p) (Senders p) (Receivers p)))
       end.

Definition IpcPortQueued (p : option IpcPort) : Z :=
  if negb (IpcPortIsCreated p) then 0
  else match p with None => 0 | Some p => PCount p end.

Definition PortHasRoom (p : IpcPort) : bool := PCount p <? IpcPortCapacity.
Definition PortHasMessage (p : IpcPort) : bool := 0 <? PCount p.

(** A sender parks on [Senders] until there is room, a receiver on [Receivers]
    until there is a message. *)
#[local] Instance Port_as_sender : Parkable IpcPort := {|
  get_wait := Senders; set_wait := set_Senders; ready := PortHasRoom |}.
Definition Port_as_receiver : Parkable IpcPort := {|
  get_wait := Receivers; set_wait := set_Receivers; ready := PortHasMessage |}.

Definition PortPush (p : IpcPort) (Message : IpcMessage) (s : Sched) : IpcPort :=
  let Tail := Z.to_nat ((Head p +w PCount p) mod IpcPortCapacity) in
  mkPort (Magic p) (Head p) (PCount p +w 1)
    (<[Tail := mkMsg (Length Message) (IpcSelfId s) (Data Message)]> (Slots p))
    (Senders p) (Receivers p).

Definition PortPop (p : IpcPort) : IpcMessage * IpcPort :=
  (default zero_msg (Slots p !! Z.to_nat (Head p)),
   mkPort (Magic p) ((Head p +w 1) mod IpcPortCapacity) (PCount p -w 1) (Slots p)
     (Senders p) (Receivers p)).

Definition IpcTrySend (p : option IpcPort) (Message : option IpcMessage) (s : Sched)
    : option (IpcStatus * option IpcPort * Sched) :=
  match p, Message with
  | Some port, Some msg =>
      if negb (IpcPortIsCreated p) then Some (IpcErrInvalid, p, s)
      else if IpcMessageWords <? Length msg then Some (IpcErrInvalid, p, s)
      else
        let was_enabled := irq_on s in
        let s := set_irq_on false s in
        let '(st, port) := if PCount port =? IpcPortCapacity then (IpcErrFull, port)
                           else (IpcOk, PortPush port msg s) in
        let s := SchedUnlockIrq was_enabled s in
        if decide (st = IpcOk) then
          '(w, s) ← IpcWakeOne (Receivers port) s; Some (st, Some (set_Receivers w port), s)
        else Some (st, Some port, s)
  | _, _ => Some (IpcErrInvalid, p, s)
  end.

(** The third component is what is stored through [out]. *)
Definition IpcTryReceive (p : option IpcPort) (out_ok : bool) (s : Sched)
    : option (IpcStatus * option IpcPort * option IpcMessage * Sched) :=
  match p with
  | Some port =>
      if negb (IpcPortIsCreated p) || negb out_ok then Some (IpcErrInvalid, p, None, s)
      else
        let was_enabled := irq_on s in
        let s := set_irq_on false s in
        let '(st, got, port) := if PCount port =? 0 then (IpcErrEmpty, None, port)
                                else let '(m, port) := PortPop port in (IpcOk, Some m, port) in
        let s := SchedUnlockIrq was_enabled s in
        if decide (st = IpcOk) then
          '(w, s) ← IpcWakeOne (Senders port) s; Some (st, Some (set_Senders w port), got, s)
        else Some (st, Some port, got, s)
  | None => Some (IpcErrInvalid, None, None, s)
  end.

(** The loop of IpcSend, until it returns or sleeps. *)
Fixpoint IpcSend_loop (fuel : nat) (p : IpcPort) (msg : IpcMessage) (s : Sched)
    : option (CallOut * IpcPort * Sched) :=
  match fuel with
  | O => None
  | S fuel' =>
      r ← IpcTrySend (Some p) (Some msg) s;
      match r with
      | (st, Some p, s) =>
          if decide (st <> IpcErrFull) then Some (CRet st, p, s)
          else
            '(out, p, s) ← IpcPark (Parkable0 := Port_as_sender) fuel p s;
            match out with
            | Parked fs was => Some (CSleep fs was, p, s)
            | ParkRet st => if decide (st <> IpcOk) then Some (CRet st, p, s)
                            else IpcSend_loop fuel' p msg s
            end
      | (_, None, _) => None
      end
  end.

Definition IpcSend (fuel : nat) (p : option IpcPort) (Message : option IpcMessage) (s : Sched)
    : option (CallOut * option IpcPort * Sched) :=
  match p, Message with
  | Some port, Some msg =>
      if negb (IpcPortIsCreated p) then Some (CRet IpcErrInvalid, p, s)
      else if IpcMessageWords <? Length msg then Some (CRet IpcErrInvalid, p, s)
      else '(out, port, s) ← IpcSend_loop fuel port msg s; Some (out, Some port, s)
  | _, _ => Some (CRet IpcErrInvalid, p, s)
  end.

Definition IpcSend_resume (fuel : nat) (Self : Z) (was : bool) (p : IpcPort) (msg : IpcMessage)
    (s : Sched) : option (CallOut * IpcPort * Sched) :=
  '(out, p, s) ← IpcPark_resume (Parkable0 := Port_as_sender) fuel Self was p s;
  match out with
  | Parked fs was => Some (CSleep fs was, p, s)
  | ParkRet st => if decide (st <> IpcOk) then Some (CRet st, p, s) else IpcSend_loop fuel p msg s
  end.

Fixpoint IpcReceive_loop (fuel : nat) (p : IpcPort) (s : Sched)
    : option (CallOut * IpcPort * option IpcMessage * Sched) :=
  match fuel with
  | O => None
  | S fuel' =>
      r ← IpcTryReceive (Some p) true s;
      match r with
      | (st, Some p, got, s) =>
          if decide (st <> IpcErrEmpty) then Some (CRet st, p, got, s)
          else
            '(out, p, s) ← IpcPark (Parkable0 := Port_as_receiver) fuel p s;
            match out with
            | Parked fs was => Some (CSleep fs was, p, None, s)
            | ParkRet st => if decide (st <> IpcOk) then Some (CRet st, p, None, s)
                            else IpcReceive_loop fuel' p s
            end
      | (_, None, _, _) => None
      end
  end.

Definition IpcReceive (fuel : nat) (p : option IpcPort) (out_ok : bool) (s : Sched)
    : option (CallOut * option IpcPort * option IpcMessage * Sched) :=
  match p with
  | Some port =>
      if negb (IpcPortIsCreated p) || negb out_ok then Some (CRet IpcErrInvalid, p, None, s)
      else '(out, port, got, s) ← IpcReceive_loop fuel port s; Some (out, Some port, got, s)
  | None => Some (CRet IpcErrInvalid, None, None, s)
  end.

Definition IpcReceive_resume (fuel : nat) (Self : Z) (was : bool) (p : IpcPort) (s : Sched)
    : option (CallOut * IpcPort * option IpcMessage * Sched) :=
  '(out, p, s) ← IpcPark_resume (Parkable0 := Port_as_receiver) fuel Self was p s;
  match out with
  | Parked fs was => Some (CSleep fs was, p, None, s)
  | ParkRet st => if decide (st <> IpcOk) then Some (CRet st, p, None, s) else IpcReceive_loop fuel p s
  end.

#[local] Instance Port_sender_laws : ParkableLaws IpcPort.
Proof. by split. Qed.
Lemma Port_receiver_laws : @ParkableLaws IpcPort Port_as_receiver.
Proof. by split. Qed.

(** ** The abstract port *)

Definition slot (p : IpcPort) (i : nat) : IpcMessage :=
  default zero_msg (Slots p !! Z.to_nat ((Head p + Z.of_nat i) mod 16)).

(** The queued messages, oldest first. *)
Definition queued (p : IpcPort) : list IpcMessage := slot p <$> seq 0 (Z.to_nat (PCount p)).

Record port_wf (p : IpcPort) : Prop := {
  p_magic : Magic p = PORT_MAGIC;
  p_head : 0 <= Head p < 16;
  p_count : 0 <= PCount p <= 16;
  p_slots : length (Slots p) = 16%nat;
  p_senders : wait_wf (Senders p);
  p_receivers : wait_wf (Receivers p) }.

Lemma length_queued p : port_wf p -> Z.of_nat (length (queued p)) = PCount p.
Proof. intros Hw. unfold queued. rewrite length_fmap, length_seq. pose proof (p_count _ Hw). lia. Qed.

Lemma queued_waits p w : queued (set_Senders w p) = queued p /\ queued (set_Receivers w p) = queued p.
Proof. done. Qed.

(** The message as the port stores it: the caller's id as sender. *)
Definition stamped (m : IpcMessage) (s : Sched) : IpcMessage := mkMsg (Length m) (IpcSelfId s) (Data m).

Lemma PortPush_wf p m s : port_wf p -> PCount p < 16 -> port_wf (PortPush p m s).
Proof.
  intros [] Hc. split; cbn; try done; [unwrap; lia|by rewrite length_insert].
Qed.

Lemma PortPush_queued p m s :
  port_wf p -> PCount p < 16 -> queued (PortPush p m s) = queued p ++ [stamped m s].
Proof.
  intros Hw Hc. pose proof (p_count _ Hw). pose proof (p_head _ Hw). pose proof (p_slots _ Hw) as Hsl.
  unfold queued. cbn [PortPush PCount]. unwrap.
  replace (Z.to_nat (PCount p + 1)) with (S (Z.to_nat (PCount p))) by lia.
  rewrite seq_S, fmap_app. cbn [fmap list_fmap]. unfold slot, PortPush, IpcPortCapacity.
  cbn [Slots Head]. unwrap. f_equal.
  - apply list_fmap_ext. intros i x [-> Hi]%lookup_seq. f_equal. apply list_lookup_insert_ne.
    intros E%Z2Nat.inj; [|apply Z.mod_pos_bound; lia..].
    Z.to_euclidean_division_equations. lia.
  - rewrite Nat.add_0_l, Z2Nat.id by lia. rewrite list_lookup_insert_eq; [done|].
    rewrite Hsl. Z.to_euclidean_division_equations. lia.
Qed.

Lemma PortPop_spec p :
  port_wf p -> 0 < PCount p ->
  queued p = fst (PortPop p) :: queued (snd (PortPop p)) /\ port_wf (snd (PortPop p)).
Proof.
  intros Hw Hc. pose proof (p_count _ Hw). pose proof (p_head _ Hw).
  assert (HB : 0 <= (Head p + 1) mod 16 < 16) by (apply Z.mod_pos_bound; lia). split.
  - unfold queued. cbn [PortPop fst snd PCount]. unwrap.
    replace (Z.to_nat (PCount p)) with (S (Z.to_nat (PCount p - 1))) by lia.
    rewrite <- cons_seq, fmap_cons, <- fmap_S_seq, <- list_fmap_compose. f_equal.
    + unfold slot. by rewrite Z.add_0_r, Z.mod_small by lia.
    + apply list_fmap_ext. intros i x _. unfold slot, compose, IpcPortCapacity. cbn [Slots Head].
      unwrap. do 3 f_equal. rewrite Zplus_mod_idemp_l. f_equal. lia.
  - destruct Hw. cbn [PortPop snd]. split; cbn; try done; unfold IpcPortCapacity; unwrap; lia.
Qed.

(** ** The non-blocking operations refine the bounded queue *)

Lemma IpcPortCreate_spec p :
  Magic p <> PORT_MAGIC -> length (Slots p) = 16%nat ->
  exists p', IpcPortCreate (Some p) = (IpcOk, Some p') /\ port_wf p' /\ queued p' = [] /\
    Senders p' = wait_empty /\ Receivers p' = wait_empty.
Proof.
  intros Hm Hl. unfold IpcPortCreate. rewrite (proj2 (Z.eqb_neq _ _) Hm).
  eexists. split; [done|]. split; [|done].
  split; cbn; try done; [by rewrite length_fmap|apply wait_empty_wf..].
Qed.

Lemma port_created p : port_wf p -> IpcPortIsCreated (Some p) = true.
Proof. intros Hw. cbn. rewrite (p_magic _ Hw). done. Qed.

(** A message went into the port, or came out of it, and a task waiting at the
    other side was woken. *)
Definition pushed (m : IpcMessage) (p : IpcPort) (s : Sched) (p' : IpcPort) (s' : Sched) : Prop :=
  port_wf p' /\ sched_ok s' /\ CurrentTask s' = CurrentTask s /\
  queued p' = queued p ++ [stamped m s] /\ Senders p' = Senders p /\
  wakes_first (Receivers p) s (Receivers p') s'.
Definition popped (m : IpcMessage) (p : IpcPort) (s : Sched) (p' : IpcPort) (s' : Sched) : Prop :=
  queued p = m :: queued p' /\ port_wf p' /\ sched_ok s' /\ CurrentTask s' = CurrentTask s /\
  Receivers p' = Receivers p /\ wakes_first (Senders p) s (Senders p') s'.

Lemma IpcTrySend_spec p m s :
  port_wf p -> sched_ok s -> 0 <= Length m <= 8 ->
  (length (queued p) = 16%nat /\
   IpcTrySend (Some p) (Some m) s = Some (IpcErrFull, Some p, s)) \/
  ((length (queued p) < 16)%nat /\ exists p' s',
   IpcTrySend (Some p) (Some m) s = Some (IpcOk, Some p', s') /\ pushed m p s p' s').
Proof.
  intros Hw Hok Hm. pose proof (length_queued p Hw) as HL. pose proof (p_count _ Hw).
  unfold IpcTrySend. rewrite (port_created p Hw). unfold IpcMessageWords, IpcPortCapacity. cbn [negb].
  rewrite (proj2 (Z.ltb_ge _ _)) by lia. cbv zeta. rewrite lock_unlock.
  change (PortPush p m (set_irq_on false s)) with (PortPush p m s).
  destruct (Z.eqb_spec (PCount p) 16) as [E|E].
  - left. split; [lia|]. done.
  - right. split; [lia|]. rewrite decide_True by done.
    pose proof (PortPush_wf p m s Hw ltac:(lia)) as Hw1.
    destruct (IpcWakeOne_ok (Receivers (PortPush p m s)) s (p_receivers _ Hw1) Hok)
      as (w' & s' & -> & Hw' & Hok' & Hc' & Hwk).
    rewrite some_bind. eexists _, s'. split; [done|]. split; [destruct Hw1; by split|].
    do 2 (split; [done|]). rewrite (proj2 (queued_waits _ _)), PortPush_queued by (done || lia). done.
Qed.

Lemma IpcTryReceive_spec p s :
  port_wf p -> sched_ok s ->
  (queued p = [] /\ IpcTryReceive (Some p) true s = Some (IpcErrEmpty, Some p, None, s)) \/
  (exists m p' s',
   IpcTryReceive (Some p) true s = Some (IpcOk, Some p', Some m, s') /\ popped m p s p' s').
Proof.
  intros Hw Hok. pose proof (length_queued p Hw) as HL. pose proof (p_count _ Hw).
  unfold IpcTryReceive. rewrite (port_created p Hw). cbn [negb orb]. cbv zeta.
  destruct (Z.eqb_spec (PCount p) 0) as [E|E].
  - left. split; [destruct (queued p); [done|cbn in HL; lia]|].
    by rewrite decide_False, lock_unlock by done.
  - right. destruct (PortPop_spec p Hw ltac:(lia)) as [Eq Hw1].
    destruct (PortPop p) as [m p1] eqn:Ep. cbn [fst snd] in *.
    rewrite decide_True, lock_unlock by done.
    destruct (IpcWakeOne_ok (Senders p1) s (p_senders _ Hw1) Hok)
      as (w' & s' & -> & Hw' & Hok' & Hc' & Hwk).
    rewrite some_bind. exists m, (set_Senders w' p1), s'. split; [done|]. split; [done|].
    split; [destruct Hw1; by split|]. do 2 (split; [done|]).
    unfold PortPop in Ep. injection Ep as <- <-. done.
Qed.

(** ** The blocking operations *)

Lemma can_sleep_ok t s Q : can_sleep t s Q -> sched_ok s.
Proof. intros []. exists Q. split; [done|]. by exists t. Qed.

(** The rounds of the two loops that find room, or a message. *)
Lemma IpcSend_loop_room fuel p m s :
  port_wf p -> sched_ok s -> 0 <= Length m <= 8 -> (length (queued p) < 16)%nat ->
  exists p' s', IpcSend_loop (S fuel) p m s = Some (CRet IpcOk, p', s') /\ pushed m p s p' s'.
Proof.
  intros Hw Hok Hm Hr. cbn [IpcSend_loop].
  destruct (IpcTrySend_spec p m s Hw Hok Hm) as [[Hf _]|(_ & p' & s' & -> & H)]; [lia|].
  rewrite some_bind, decide_True by done. by exists p', s'.
Qed.

Lemma IpcReceive_loop_some fuel p s :
  port_wf p -> sched_ok s -> queued p <> [] ->
  exists m p' s', IpcReceive_loop (S fuel) p s = Some (CRet IpcOk, p', Some m, s') /\ popped m p s p' s'.
Proof.
  intros Hw Hok Hr. cbn [IpcReceive_loop].
  destruct (IpcTryReceive_spec p s Hw Hok) as [[Hf _]|(m & p' & s' & -> & H)]; [done|].
  rewrite some_bind, decide_True by done. by exists m, p', s'.
Qed.

Lemma IpcSend_spec fuel t p m s Q :
  port_wf p -> can_sleep t s Q -> 0 <= Length m <= 8 -> Id (task s t) ∉ entries (Senders p) ->
  ((length (queued p) < 16)%nat /\ exists p' s',
   IpcSend (S fuel) (Some p) (Some m) s = Some (CRet IpcOk, Some p', s') /\ pushed m p s p' s') \/
  (length (queued p) = 16%nat /\ WCount (Senders p) = 16 /\
   IpcSend (S fuel) (Some p) (Some m) s = Some (CRet IpcErrFull, Some p, s)) \/
  (length (queued p) = 16%nat /\ exists w' s',
   IpcSend (S fuel) (Some p) (Some m) s =
     Some (CSleep [FrSchedYield false; FrSchedBlockTask t] (irq_on s), Some (set_Senders w' p), s') /\
   wait_wf w' /\ entries w' = entries (Senders p) ++ [Id (task s t)] /\ asleep t s s' Q).
Proof.
  intros Hw Hcs Hm Hid. pose proof (length_queued p Hw) as HL. unfold IpcSend.
  rewrite (port_created p Hw). unfold IpcMessageWords. cbn [negb].
  rewrite (proj2 (Z.ltb_ge _ _)) by lia.
  destruct (decide (length (queued p) < 16)%nat) as [Hr|Hr].
  { left. split; [done|]. destruct (IpcSend_loop_room fuel p m s) as (p' & s' & -> & H); [done|by eapply can_sleep_ok|done..|].
    by exists p', s'. }
  right. cbn [IpcSend_loop].
  destruct (IpcTrySend_spec p m s Hw (can_sleep_ok t s Q Hcs) Hm) as [[Hf ->]|(? & _)]; [|done].
  rewrite some_bind, decide_False by tauto.
  assert (Hnr : ready p = false).
  { cbn. unfold PortHasRoom, IpcPortCapacity. apply Z.ltb_ge. lia. }
  unfold IpcPark. rewrite (can_sleep_self t s Q Hcs), (proj2 (Z.eqb_neq _ _) (cs_id _ _ _ Hcs)).
  pose proof (w_count _ (p_senders _ Hw)) as Hc. destruct (decide (WCount (Senders p) = 16)) as [H16|H16].
  - left. rewrite IpcPark_loop_full by (done || apply Hw).
    by rewrite some_bind, decide_True, some_bind by done.
  - right. split; [done|].
    destruct (IpcPark_loop_sleeps fuel t p s Q) as (w' & s' & -> & Hw' & E & Ha);
      [done|done|apply Hw|cbn; lia|done|].
    exists w', s'. by rewrite !some_bind.
Qed.

Lemma IpcReceive_spec fuel t p s Q :
  port_wf p -> can_sleep t s Q -> Id (task s t) ∉ entries (Receivers p) ->
  (exists m p' s',
   IpcReceive (S fuel) (Some p) true s = Some (CRet IpcOk, Some p', Some m, s') /\ popped m p s p' s') \/
  (queued p = [] /\ WCount (Receivers p) = 16 /\
   IpcReceive (S fuel) (Some p) true s = Some (CRet IpcErrFull, Some p, None, s)) \/
  (queued p = [] /\ exists w' s',
   IpcReceive (S fuel) (Some p) true s =
     Some (CSleep [FrSchedYield false; FrSchedBlockTask t] (irq_on s), Some (set_Receivers w' p), None, s') /\
   wait_wf w' /\ entries w' = entries (Receivers p) ++ [Id (task s t)] /\ asleep t s s' Q).
Proof.
  intros Hw Hcs Hid. pose proof (length_queued p Hw) as HL. unfold IpcReceive.
  rewrite (port_created p Hw). cbn [negb orb].
  destruct (decide (queued p = [])) as [Hf|Hf].
  2: { left. destruct (IpcReceive_loop_some fuel p s) as (m & p' & s' & -> & H); [done|by eapply can_sleep_ok|done|].
       by exists m, p', s'. }
  right. cbn [IpcReceive_loop].
  destruct (IpcTryReceive_spec p s Hw (can_sleep_ok t s Q Hcs)) as [[_ ->]|(m & p' & s' & _ & E & _)];
    [|rewrite Hf in E; discriminate].
  rewrite some_bind, decide_False by tauto. rewrite Hf in HL. cbn in HL.
  assert (Hnr : ready (Parkable := Port_as_receiver) p = false).
  { cbn. unfold PortHasMessage. apply Z.ltb_ge. lia. }
  unfold IpcPark. rewrite (can_sleep_self t s Q Hcs), (proj2 (Z.eqb_neq _ _) (cs_id _ _ _ Hcs)).
  pose proof (w_count _ (p_receivers _ Hw)) as Hc. destruct (decide (WCount (Receivers p) = 16)) as [H16|H16].
  - left. rewrite (IpcPark_loop_full (Parkable0 := Port_as_receiver)) by (done || apply Hw).
    by rewrite some_bind, decide_True, some_bind by done.
  - right. split; [done|].
    destruct (IpcPark_loop_sleeps (Parkable0 := Port_as_receiver) fuel t p s Q)
      as (w' & s' & -> & Hw' & E & Ha); [done|done|apply Hw|cbn; lia|done|].
    exists w', s'. by rewrite !some_bind.
Qed.

(** *** IpcSend, path by path *)

(** What it refuses whatever the port and the scheduler hold. *)
Definition send_refused (p : option IpcPort) (msg : option IpcMessage) : bool :=
  match p, msg with
  | Some port, Some m => negb (Magic port =? PORT_MAGIC) || (8 <? Length m)
  | _, _ => true
  end.

Lemma IpcSend_refused fuel p msg s :
  send_refused p msg = true -> IpcSend fuel p msg s = Some (CRet IpcErrInvalid, p, s).
Proof.
  unfold IpcSend, send_refused, IpcMessageWords. destruct p as [p|], msg as [m|]; try done.
  cbn [IpcPortIsCreated]. intros H. destruct (negb _); [done|]. cbn [orb] in H. by rewrite H.
Qed.

(** On a full port the call comes down to IpcPark on the senders. *)
Lemma IpcSend_full fuel p m s :
  port_wf p -> sched_ok s -> 0 <= Length m <= 8 -> length (queued p) = 16%nat ->
  IpcSend (S fuel) (Some p) (Some m) s =
    ('(out, p, s) ← IpcPark (Parkable0 := Port_as_sender) (S fuel) p s;
     match out with
     | Parked fs was => Some (CSleep fs was, Some p, s)
     | ParkRet st => if decide (st <> IpcOk) then Some (CRet st, Some p, s)
                     else '(out, p, s) ← IpcSend_loop fuel p m s; Some (out, Some p, s)
     end).
Proof.
  intros Hw Hok Hm Hf. unfold IpcSend. rewrite (port_created p Hw). unfold IpcMessageWords. cbn [negb].
  rewrite (proj2 (Z.ltb_ge _ _)) by lia. cbn [IpcSend_loop].
  destruct (IpcTrySend_spec p m s Hw Hok Hm) as [[_ ->]|(? & _)]; [|lia].
  rewrite some_bind, decide_False by tauto.
  destruct (IpcPark (S fuel) p s) as [[[out p'] s']|]; [|done]. rewrite !some_bind.
  destruct out; [|done]. by case_decide.
Qed.

Section FullPort.
Context (fuel t : nat) (p : IpcPort) (m : IpcMessage) (s : Sched) (Q : Qs).
Hypothesis Hw : port_wf p.
Hypothesis Hinv : sched_inv s Q.
Hypothesis Hc : CurrentTask s = Some t.
Hypothesis Hr : State (task s t) = TaskRunning.
Hypothesis Hm : 0 <= Length m <= 8.
Hypothesis Hfull : length (queued p) = 16%nat.

Lemma full_ok : sched_ok s.
Proof using Hinv Hc Hr. exists Q. split; [done|]. by exists t. Qed.
Lemma full_self : IpcSelfId s = Id (task s t).
Proof using Hc. unfold IpcSelfId, SchedCurrent. by rewrite Hc. Qed.
Lemma full_not_ready : ready p = false.
Proof using Hw Hfull.
  cbn. unfold PortHasRoom, IpcPortCapacity. apply Z.ltb_ge.
  pose proof (length_queued p Hw). lia.
Qed.

Lemma IpcSend_idle :
  Id (task s t) = 0 -> IpcSend (S fuel) (Some p) (Some m) s = Some (CRet IpcErrNoTask, Some p, s).
Proof using Hw Hinv Hc Hr Hm Hfull.
  intros H0. rewrite IpcSend_full by (done || apply full_ok). unfold IpcPark.
  rewrite full_self, H0, Z.eqb_refl. by rewrite some_bind, decide_True by done.
Qed.

Lemma IpcSend_crowded :
  Id (task s t) <> 0 -> WCount (Senders p) = 16 ->
  IpcSend (S fuel) (Some p) (Some m) s = Some (CRet IpcErrFull, Some p, s).
Proof using Hw Hinv Hc Hr Hm Hfull.
  intros H0 H16. rewrite IpcSend_full by (done || apply full_ok). unfold IpcPark.
  rewrite full_self, (proj2 (Z.eqb_neq _ _) H0), IpcPark_loop_full by (apply full_not_ready || done || apply Hw).
  by rewrite some_bind, decide_True by done.
Qed.

Lemma IpcSend_sleeps :
  Id (task s t) <> 0 -> WCount (Senders p) < 16 -> SchedulerLocked s = 0 ->
  exists w' s',
   IpcSend (S fuel) (Some p) (Some m) s =
     Some (CSleep [FrSchedYield false; FrSchedBlockTask t] (irq_on s), Some (set_Senders w' p), s') /\
   wait_wf w' /\
   entries w' = (if decide (Id (task s t) ∈ entries (Senders p)) then entries (Senders p)
                 else entries (Senders p) ++ [Id (task s t)]) /\
   asleep t s s' Q.
Proof using Hw Hinv Hc Hr Hm Hfull.
  intros H0 H16 HL. rewrite IpcSend_full by (done || apply full_ok). unfold IpcPark.
  rewrite full_self, (proj2 (Z.eqb_neq _ _) H0).
  assert (Hcs : can_sleep t s Q) by by split.
  assert (Hadd : exists w', IpcWaitAdd (Senders p) (Id (task s t)) = (true, w') /\ wait_wf w' /\
    entries w' = (if decide (Id (task s t) ∈ entries (Senders p)) then entries (Senders p)
                  else entries (Senders p) ++ [Id (task s t)])).
  { pose proof (p_senders _ Hw). case_decide as Hin; [exists (Senders p); by rewrite IpcWaitAdd_present|].
    by apply IpcWaitAdd_new. }
  destruct Hadd as (w' & Hadd & Hw' & Ew').
  destruct (IpcPark_loop_added fuel t p s Q w' Hcs full_not_ready Hadd) as (s' & -> & Ha).
  exists w', s'. by rewrite some_bind.
Qed.

Lemma IpcSend_spins :
  Id (task s t) <> 0 -> WCount (Senders p) < 16 -> SchedulerLocked s <> 0 ->
  IpcSend fuel (Some p) (Some m) s = None.
Proof using Hw Hinv Hc Hr Hm Hfull.
  intros H0 H16 HL. destruct fuel as [|f].
  { unfold IpcSend. rewrite (port_created p Hw). unfold IpcMessageWords. cbn [negb].
    by rewrite (proj2 (Z.ltb_ge _ _)) by lia. }
  rewrite IpcSend_full by (done || apply full_ok). unfold IpcPark.
  rewrite full_self, (proj2 (Z.eqb_neq _ _) H0).
  by rewrite (IpcPark_loop_spins _ t H0 _ p s Q) by (apply full_not_ready || done || apply Hw).
Qed.
End FullPort.

(** A sender that runs again once there is room: it leaves the queue and sends. *)
Lemma IpcSend_resume_sends fuel Self was p m s :
  port_wf p -> sched_ok s -> 0 <= Length m <= 8 -> (length (queued p) < 16)%nat ->
  let p1 := set_Senders (IpcWaitRemove (Senders p) Self) p in
  let s1 := SchedUnlockIrq was (set_irq_on false s) in
  exists p' s', IpcSend_resume (S fuel) Self was p m s = Some (CRet IpcOk, p', s') /\ pushed m p1 s1 p' s'.
Proof.
  intros Hw Hok Hm Hlen p1 s1. unfold IpcSend_resume. rewrite IpcPark_resume_eq.
  assert (Hw1 : port_wf p1).
  { pose proof (p_senders _ Hw) as Hs. destruct Hw. split; cbn; try done.
    destruct (decide (Self ∈ entries (Senders p))); [by apply IpcWaitRemove_spec|by rewrite IpcWaitRemove_absent]. }
  rewrite IpcPark_loop_ready.
  2: { cbn. unfold PortHasRoom, IpcPortCapacity. cbn. pose proof (length_queued p Hw). apply Z.ltb_lt. lia. }
  rewrite some_bind, decide_False by tauto. apply IpcSend_loop_room; [done| |done|done].
  eapply sched_ok_view, Hok; unfold s1; destruct was; (done || by intros []).
Qed.

(** ** Any sequence of non-blocking calls *)

(** Calls on one port by whatever task runs, with yields in between. *)
Inductive port_op := PSend (m : IpcMessage) | PReceive | PYield.

(** [acc] collects the accepted messages as stored, [rcv] the received ones. *)
Definition port_step (op : port_op) (p : IpcPort) (s : Sched) (acc rcv : list IpcMessage)
    : option (IpcPort * Sched * list IpcMessage * list IpcMessage) :=
  match op with
  | PSend m =>
      r ← IpcTrySend (Some p) (Some m) s;
      match r with
      | (st, Some p', s') =>
          Some (p', s', if decide (st = IpcOk) then acc ++ [stamped m s] else acc, rcv)
      | _ => None
      end
  | PReceive =>
      r ← IpcTryReceive (Some p) true s;
      match r with
      | (_, Some p', Some m, s') => Some (p', s', acc, rcv ++ [m])
      | (_, Some p', None, s') => Some (p', s', acc, rcv)
      | _ => None
      end
  | PYield => '(_, s') ← SchedYield s; Some (p, s', acc, rcv)
  end.

Fixpoint port_run (ops : list port_op) (p : IpcPort) (s : Sched) (acc rcv : list IpcMessage)
    : option (IpcPort * Sched * list IpcMessage * list IpcMessage) :=
  match ops with
  | [] => Some (p, s, acc, rcv)
  | op :: ops => '(p, s, acc, rcv) ← port_step op p s acc rcv; port_run ops p s acc rcv
  end.

Definition port_op_ok (op : port_op) : Prop :=
  match op with PSend m => 0 <= Length m <= 8 | _ => True end.

Lemma port_step_fifo op p s acc rcv :
  port_wf p -> sched_ok s -> port_op_ok op ->
  exists p' s' acc' rcv', port_step op p s acc rcv = Some (p', s', acc ++ acc', rcv ++ rcv') /\
    port_wf p' /\ sched_ok s' /\ rcv' ++ queued p' = queued p ++ acc'.
Proof.
  intros Hw Hok Hop. destruct op as [m| |]; cbn [port_step].
  - destruct (IpcTrySend_spec p m s Hw Hok Hop)
      as [[Hf ->]|(_ & p' & s' & -> & Hw' & Hok' & _ & Eq & _)]; rewrite some_bind.
    + exists p, s, [], []. by rewrite !app_nil_r.
    + exists p', s', [stamped m s], []. by rewrite app_nil_r.
  - destruct (IpcTryReceive_spec p s Hw Hok)
      as [[Hf ->]|(m & p' & s' & -> & Eq & Hw' & Hok' & _)]; rewrite some_bind.
    + exists p, s, [], []. by rewrite !app_nil_r.
    + exists p', s', [], [m]. by rewrite !app_nil_r, Eq.
  - destruct (SchedYield_ok s Hok) as (out & s' & -> & Hok' & _). rewrite some_bind.
    exists p, s', [], []. by rewrite !app_nil_r.
Qed.

Lemma port_run_fifo ops : forall p s acc rcv,
  port_wf p -> sched_ok s -> Forall port_op_ok ops ->
  exists p' s' acc' rcv', port_run ops p s acc rcv = Some (p', s', acc ++ acc', rcv ++ rcv') /\
    port_wf p' /\ sched_ok s' /\ rcv' ++ queued p' = queued p ++ acc'.
Proof.
  induction ops as [|op ops IH]; intros p s acc rcv Hw Hok Hf.
  { exists p, s, [], []. by rewrite !app_nil_r. }
  inversion Hf as [|? ? H1 H2]; subst. cbn [port_run].
  destruct (port_step_fifo op p s acc rcv Hw Hok H1) as (p1 & s1 & a1 & r1 & -> & Hw1 & Hok1 & E1).
  rewrite some_bind.
  destruct (IH p1 s1 (acc ++ a1) (rcv ++ r1) Hw1 Hok1 H2) as (p2 & s2 & a2 & r2 & -> & Hw2 & Hok2 & E2).
  exists p2, s2, (a1 ++ a2), (r1 ++ r2). rewrite <- !app_assoc. repeat (split; [done|]).
  by rewrite E2, !app_assoc, E1.
Qed.
