(* ===== verification/TaskFrame.v ===== *)
(** * What a turn of one task leaves alone

    Client invariants look at several tasks at once. A turn of one of them may
    wake the others, but it neither kills nor blocks nor renames them, gives
    nobody a deadline and hands out no id; this file has that relation and
    shows it of the calls the clients' turns are made of. *)

From S2P Require Import Prelude Sched SchedQueues SchedInv SchedOps SchedMachine TaskMachine Ipc Sync.

(** ** What a task keeps while others run *)

Record kept (i : nat) (s s' : Sched) : Prop := {
  kp_Dead : State (task s' i) = TaskDead <-> State (task s i) = TaskDead;
  kp_Id : Id (task s' i) = Id (task s i);
  kp_WakeTick : WakeTick (task s i) = 0 -> WakeTick (task s' i) = 0 }.

Lemma calm_kept i s s' : calm i s s' -> kept i s s'.
Proof. by intros []. Qed.

Lemma wake_kept id s s' i : length (Tasks s) = 32%nat -> (i < 32)%nat -> wake id s s' -> kept i s s'.
Proof.
  intros Hl Hi (t & _ & [[_ ->]|[Hb F]]); [done|].
  assert (H : kept i s (upd t (with_State TaskReady) s)).
  { split; rewrite task_upd by lia; case_decide; subst; try done. cbn. by rewrite Hb. }
  destruct H as [H1 H2 H3]. split.
  - by rewrite (fr_State F).
  - by rewrite (fr_Id F).
  - by rewrite (fr_WakeTick F).
Qed.

Lemma wake_Locked id s s' : wake id s s' -> SchedulerLocked s' = SchedulerLocked s.
Proof. intros (t & _ & [[_ ->]|[_ F]]); [done|]. apply (fr_Locked F). Qed.

(** ** A turn of task [t] *)

Record goes (t : nat) (s s' : Sched) : Prop := {
  go_NextId : NextTaskId s' = NextTaskId s;
  go_kept : forall i, (i < 32)%nat -> i <> t -> kept i s s';
  go_Blocked : forall i, (i < 32)%nat -> i <> t -> State (task s' i) = TaskBlocked -> State (task s i) = TaskBlocked;
  go_WakeTick : WakeTick (task s t) = 0 -> WakeTick (task s' t) = 0 }.

#[global] Instance goes_refl t : Reflexive (goes t).
Proof. done. Qed.

#[global] Instance goes_trans t : Transitive (goes t).
Proof.
  intros x y z [] []. split; [congruence| |by eauto|by eauto]. intros i Hi Ht.
  destruct (go_kept0 i Hi Ht) as [A1 A2 A3], (go_kept1 i Hi Ht) as [B1 B2 B3].
  split; [by rewrite B1|congruence|by auto].
Qed.

Lemma calm_goes t s s' :
  NextTaskId s' = NextTaskId s -> (t < 32)%nat -> (forall i, (i < 32)%nat -> calm i s s') -> goes t s s'.
Proof.
  intros Hn Ht Hc. split; [done| | |apply Hc; done]; intros i Hi _; [by apply calm_kept, Hc|apply Hc; done].
Qed.

Lemma irq_goes t was s : goes t s (SchedUnlockIrq was (set_irq_on false s)).
Proof. by destruct was. Qed.

Lemma wake_goes t id s s' :
  length (Tasks s) = 32%nat -> (t < 32)%nat -> wake id s s' -> goes t s s'.
Proof.
  intros Hl Ht Hw. split; try by (intros; eapply wake_kept).
  - by destruct Hw as (p & _ & [[_ ->]|[_ F]]); [|apply (fr_NextId F)].
  - destruct Hw as (p & _ & [[_ ->]|[_ F]]); [done|]. intros i Hi _.
    rewrite (fr_State F), task_upd by lia. by case_decide.
Qed.

Lemma wakes_first_goes t w w' s s' : sched_ok s -> (t < 32)%nat -> wakes_first w s w' s' -> goes t s s'.
Proof.
  intros (Q & Hinv & _) Ht [(id & _ & _ & _ & _ & _ & _ & Hw)|(_ & _ & ->)]; [|done].
  eapply wake_goes; [exact (q_len _ _ (proj1 Hinv))|done..].
Qed.

Lemma asleep_goes t s s' Q : (t < 32)%nat -> asleep t s s' Q -> goes t s s'.
Proof.
  intros Ht [_ _ _ H4 H5 _ H7]. split; [done| | |by rewrite H4]; intros i Hi Hne; [by apply calm_kept, H5|by apply H5].
Qed.

Lemma SchedYield_goes t s out s' : sched_ok s -> (t < 32)%nat -> SchedYield s = Some (out, s') -> goes t s s'.
Proof.
  intros (Q & Hinv & _) Ht E. apply calm_goes; [|done|intros i Hi; by eapply SchedYield_calm].
  destruct (SchedYield_spec s Q Hinv) as [[E' _]|(n & s2 & E' & _ & _ & _ & _ & Sw & _)];
    rewrite E' in E; injection E as <- <-; [done|apply Sw].
Qed.

(** SchedExit of the running task. *)
Lemma SchedExit_goes t s Q :
  sched_inv s Q -> CurrentTask s = Some t -> Id (task s t) <> 0 -> SchedulerLocked s = 0 ->
  exists s' fs, SchedExit s = Some (Switched fs, s') /\ Forall (own_frame t) fs /\ sched_ok s' /\
    SchedulerLocked s' = 0 /\ State (task s' t) = TaskDead /\ goes t s s' /\
    forall i, (i < 32)%nat -> i <> t -> calm i s s'.
Proof.
  intros Hinv Hc HI Hl.
  destruct (SchedExit_spec t s Q) as (n & s' & fs & E & Hf & Hn & _ & Hinv' & Hd & Hrn & _ & Hcm & Hl' & HN & Hw); [done..|].
  exists s', fs. split; [done|]. split; [done|]. split; [by eexists; split; [|exists n]|]. split; [done|]. split; [done|].
  split; [|done]. split; [done| | |done]; intros i Hi Hne; [by apply calm_kept, Hcm|by apply Hcm].
Qed.
