(* ===== verification/IpcTheorems.v ===== *)
(** * What the IPC objects guarantee

    The properties of ipc.c, sync.c and message.c, with witnesses on tables
    built by the scheduler's own operations. *)

From S2P Require Import Prelude Sched SchedQueues SchedInv SchedOps SchedMachine SchedTheorems.
From S2P Require Import Ipc Sync Message.

(** ** Concrete inputs *)

Lemma demo_run_sleep : can_sleep 1 demo_run (mkQs [2%nat; 0%nat] [] []).
Proof. split; [apply demo_run_inv|by vm_compute..]. Qed.

Lemma demo_run_ok : sched_ok demo_run.
Proof. eexists. split; [apply demo_run_inv|]. exists 1%nat. by vm_compute. Qed.

Definition demo_port : IpcPort :=
  mkPort PORT_MAGIC 15 0 (replicate 16 zero_msg) wait_empty wait_empty.
Lemma demo_port_wf : port_wf demo_port.
Proof. split; try apply wait_empty_wf; cbn; done || lia. Qed.

Definition demo_sem : IpcSemaphore := mkSem 0 1 wait_empty.
Lemma demo_sem_wf : sem_wf demo_sem.
Proof. split; try apply wait_empty_wf; cbn; lia. Qed.

Definition demo_mutex : IpcMutex := mkMutex true 1 wait_empty.

(** ** The theorems *)

(** C14. A port is a bounded FIFO: over any sequence of IpcTrySend and
    IpcTryReceive calls by any tasks, with yields in between, what was received
    followed by what is still queued is what was queued before followed by the
    accepted messages in order; each carries its sender's id; no call gets
    stuck, and at most 16 messages are queued. *)
Theorem port_fifo ops p s :
  port_wf p -> sched_ok s -> Forall port_op_ok ops ->
  exists p' s' acc rcv, port_run ops p s [] [] = Some (p', s', acc, rcv) /\
    port_wf p' /\ sched_ok s' /\ rcv ++ queued p' = queued p ++ acc /\
    (length (queued p') <= 16)%nat.
Proof.
  intros Hw Hok Hf.
  destruct (port_run_fifo ops p s [] [] Hw Hok Hf) as (p' & s' & acc & rcv & E & Hw' & Hok' & Eq).
  exists p', s', acc, rcv. repeat (split; [done|]).
  pose proof (length_queued p' Hw'). pose proof (p_count _ Hw'). lia.
Qed.

Lemma port_fifo_witness :
  exists p' s' acc rcv,
    port_run [PSend (mkMsg 1 0 [7]); PYield; PSend (mkMsg 1 0 [8]); PReceive] demo_port demo_run [] [] =
      Some (p', s', acc, rcv) /\
    rcv ++ queued p' = [mkMsg 1 1 [7]; mkMsg 1 2 [8]] /\ rcv = [mkMsg 1 1 [7]].
Proof.
  destruct (port_fifo [PSend (mkMsg 1 0 [7]); PYield; PSend (mkMsg 1 0 [8]); PReceive]
              demo_port demo_run demo_port_wf demo_run_ok)
    as (p' & s' & acc & rcv & E & _ & _ & Eq & _).
  { repeat constructor; cbn; lia. }
  exists p', s', acc, rcv. split; [exact E|].
  assert (Ha : acc = [mkMsg 1 1 [7]; mkMsg 1 2 [8]] /\ rcv = [mkMsg 1 1 [7]]).
  { vm_compute in E. injection E as _ _ <- <-. done. }
  destruct Ha as [-> ->]. split; [exact Eq|done].
Defined.

(** C15. IpcSend on every path, by whichever task [t] runs. A port that was not
    created, no port, no message or a message of more than eight words is
    refused with IpcErrInvalid. With room the stamped message is queued and the
    first live receiver woken, whatever the caller. On a full port the idle
    task gets IpcErrNoTask; with sixteen senders waiting the call reports
    IpcErrFull; otherwise the caller is blocked in the senders' queue (at its
    end, or where it already stands) and another task runs, and when it runs
    again with room it leaves the queue and sends. Only while the scheduler is
    locked does the call not come back: SchedBlock undoes the block every time,
    and the loop turns for ever, with any fuel. *)
Theorem IpcSend_correct fuel t p msg s Q :
  sched_inv s Q -> CurrentTask s = Some t -> State (task s t) = TaskRunning ->
  (forall port, p = Some port -> Magic port = PORT_MAGIC -> port_wf port) ->
  (forall m, msg = Some m -> 0 <= Length m) ->
  (send_refused p msg = true /\ IpcSend fuel p msg s = Some (CRet IpcErrInvalid, p, s)) \/
  exists port m, p = Some port /\ msg = Some m /\ send_refused p msg = false /\
  (((length (queued port) < 16)%nat /\ exists p' s',
      IpcSend (S fuel) p msg s = Some (CRet IpcOk, Some p', s') /\ pushed m port s p' s') \/
   (length (queued port) = 16%nat /\ Id (task s t) = 0 /\
      IpcSend (S fuel) p msg s = Some (CRet IpcErrNoTask, p, s)) \/
   (length (queued port) = 16%nat /\ Id (task s t) <> 0 /\ WCount (Senders port) = 16 /\
      IpcSend (S fuel) p msg s = Some (CRet IpcErrFull, p, s)) \/
   (length (queued port) = 16%nat /\ Id (task s t) <> 0 /\ WCount (Senders port) < 16 /\
      SchedulerLocked s = 0 /\ exists w' s',
      IpcSend (S fuel) p msg s =
        Some (CSleep [FrSchedYield false; FrSchedBlockTask t] (irq_on s), Some (set_Senders w' port), s') /\
      wait_wf w' /\
      entries w' = (if decide (Id (task s t) ∈ entries (Senders port)) then entries (Senders port)
                    else entries (Senders port) ++ [Id (task s t)]) /\
      asleep t s s' Q /\
      forall port2 s2, port_wf port2 -> sched_ok s2 -> (length (queued port2) < 16)%nat ->
      exists p' s3, IpcSend_resume (S fuel) (Id (task s t)) (irq_on s) port2 m s2 = Some (CRet IpcOk, p', s3) /\
        pushed m (set_Senders (IpcWaitRemove (Senders port2) (Id (task s t))) port2)
          (SchedUnlockIrq (irq_on s) (set_irq_on false s2)) p' s3) \/
   (length (queued port) = 16%nat /\ Id (task s t) <> 0 /\ WCount (Senders port) < 16 /\
      SchedulerLocked s <> 0 /\ IpcSend fuel p msg s = None)).
Proof.
  intros Hinv Hc Hr Hwf Hlen. destruct (send_refused p msg) eqn:Er.
  { left. split; [done|]. by apply IpcSend_refused. }
  right. destruct p as [p|], msg as [m|]; try done. exists p, m. do 3 (split; [done|]).
  cbn in Er. apply orb_false_iff in Er as [Hmag%negb_false_iff%Z.eqb_eq H8%Z.ltb_ge].
  specialize (Hwf p eq_refl Hmag). specialize (Hlen m eq_refl).
  assert (Hm : 0 <= Length m <= 8) by lia.
  pose proof (length_queued p Hwf). pose proof (p_count _ Hwf). pose proof (w_count _ (p_senders _ Hwf)).
  assert (Hok : sched_ok s) by (exists Q; split; [done|by exists t]).
  destruct (decide (length (queued p) < 16)%nat) as [Hroom|Hroom].
  { left. split; [done|]. unfold IpcSend. rewrite (port_created p Hwf). unfold IpcMessageWords. cbn [negb].
    rewrite (proj2 (Z.ltb_ge _ _)) by lia.
    destruct (IpcSend_loop_room fuel p m s) as (p' & s' & -> & Hp); [done..|]. by exists p', s'. }
  assert (Hf : length (queued p) = 16%nat) by lia. right.
  destruct (decide (Id (task s t) = 0)) as [HI|HI]; [left; by eauto using IpcSend_idle|right].
  destruct (decide (WCount (Senders p) = 16)) as [H16|H16]; [left; by eauto using IpcSend_crowded|right].
  assert (WCount (Senders p) < 16) by lia.
  destruct (decide (SchedulerLocked s = 0)) as [HL|HL]; [left|right; by eauto 7 using IpcSend_spins].
  destruct (IpcSend_sleeps fuel t p m s Q) as (w' & s' & E & Hw' & Ew & Ha); [done..|].
  do 4 (split; [done|]). exists w', s'. do 4 (split; [done|]). intros. by apply IpcSend_resume_sends.
Qed.

(** The demo port, full: task 1 is put to sleep. *)
Definition demo_full : IpcPort :=
  mkPort PORT_MAGIC 15 16 (replicate 16 zero_msg) wait_empty wait_empty.
Lemma demo_full_wf : port_wf demo_full.
Proof. split; try apply wait_empty_wf; cbn; done || lia. Qed.

Lemma IpcSend_correct_witness :
  exists w' s', IpcSend 1 (Some demo_full) (Some (mkMsg 1 0 [7])) demo_run =
    Some (CSleep [FrSchedYield false; FrSchedBlockTask 1] (irq_on demo_run), Some (set_Senders w' demo_full), s') /\
    entries w' = [1].
Proof.
  destruct (IpcSend_correct 0 1 (Some demo_full) (Some (mkMsg 1 0 [7])) demo_run _ demo_run_inv)
    as [[H _]|(p & m & Ep & Em & _ & [[H _]|[(_ & H & _)|[(_ & _ & H & _)|[H|(_ & _ & _ & H & _)]]]])];
    [by vm_compute|by vm_compute|intros ? [= <-] _; apply demo_full_wf|intros ? [= <-]; done|..].
  - discriminate H.
  - injection Ep as <-. exfalso. revert H. by apply (bool_decide_unpack _); vm_compute.
  - vm_compute in H. discriminate H.
  - injection Ep as <-. discriminate H.
  - injection Ep as <-. destruct H as (_ & _ & _ & _ & w' & s' & E & _ & Ew & _). exists w', s'. split; [exact E|exact Ew].
  - exfalso. apply H. by vm_compute.
Defined.

(** IpcReceive by a task that can sleep, on every path: it takes the
    oldest message and wakes the first live sender, or reports IpcErrFull
    because sixteen receivers already wait, or the caller is blocked at the end
    of the receivers' queue. *)
Theorem IpcReceive_correct fuel t p s Q :
  port_wf p -> can_sleep t s Q -> Id (task s t) ∉ entries (Receivers p) ->
  (exists m p' s',
   IpcReceive (S fuel) (Some p) true s = Some (CRet IpcOk, Some p', Some m, s') /\ popped m p s p' s') \/
  (queued p = [] /\ WCount (Receivers p) = 16 /\
   IpcReceive (S fuel) (Some p) true s = Some (CRet IpcErrFull, Some p, None, s)) \/
  (queued p = [] /\ exists w' s',
   IpcReceive (S fuel) (Some p) true s =
     Some (CSleep [FrSchedYield false; FrSchedBlockTask t] (irq_on s), Some (set_Receivers w' p), None, s') /\
   wait_wf w' /\ entries w' = entries (Receivers p) ++ [Id (task s t)] /\ asleep t s s' Q).
Proof. apply IpcReceive_spec. Qed.

Lemma IpcReceive_correct_witness :
  exists w' s', IpcReceive 1 (Some demo_port) true demo_run =
    Some (CSleep [FrSchedYield false; FrSchedBlockTask 1] (irq_on demo_run),
          Some (set_Receivers w' demo_port), None, s') /\ entries w' = [1].
Proof.
  destruct (IpcReceive_correct 0 1 demo_port demo_run _ demo_port_wf demo_run_sleep)
    as [(m & p' & s' & _ & H & _)|[(_ & H & _)|(_ & w' & s' & E & _ & Ew & _)]].
  - vm_compute. apply not_elem_of_nil.
  - discriminate H.
  - discriminate H.
  - exists w', s'. split; [exact E|exact Ew].
Defined.

(** C16. A semaphore with a ceiling conserves permits: over any sequence of
    SemTryWait and SemPost calls and yields, the count is the initial one plus
    the accepted posts minus the permits taken, and stays between 0 and the
    limit; no call gets stuck. *)
Theorem sem_conservation ops sem s :
  sem_wf sem -> sched_ok s -> Limit sem <> 0 ->
  exists sem' s' taken posted, sem_run ops sem s 0 0 = Some (sem', s', taken, posted) /\
    sched_ok s' /\ Count sem' = Count sem + posted - taken /\ 0 <= Count sem' <= Limit sem /\
    0 <= taken /\ 0 <= posted.
Proof.
  intros Hw Hok HL.
  destruct (sem_run_conserves ops sem s 0 0 Hw Hok HL)
    as (sem' & s' & t & p & E & Hw' & Hok' & Hl & Eq & ? & ?).
  exists sem', s', t, p. split; [done|]. split; [done|]. split; [lia|]. split; [|lia].
  destruct Hw' as [Hc _ Hx _]. rewrite Hl in Hx. specialize (Hx HL). lia.
Qed.

Lemma sem_conservation_witness :
  exists sem' s' taken posted,
    sem_run [SPost; SPost; SYield; STryWait; STryWait] demo_sem demo_run 0 0 = Some (sem', s', taken, posted) /\
    Count sem' = 0 + posted - taken /\ posted = 1 /\ taken = 1.
Proof.
  destruct (sem_conservation [SPost; SPost; SYield; STryWait; STryWait] demo_sem demo_run
              demo_sem_wf demo_run_ok) as (sem' & s' & t & p & E & _ & Ec & _); [done|].
  exists sem', s', t, p. split; [exact E|]. split; [exact Ec|].
  vm_compute in E. injection E as _ _ <- <-. done.
Defined.

(** C17. No wakeup is lost between a wait and a post. A task that finds no
    permit, and fewer than sixteen waiters, is blocked at the end of the queue.
    From then on, in any state in which it is blocked and is the first live
    entry, whatever happened meanwhile, a post below the ceiling adds one
    permit, makes exactly this task ready and removes only its entry. When it
    runs again, in any state: with a permit there, SemWait takes it and returns
    IpcOk; with none there, it is blocked at the end of the queue again, not
    returned from. The latter happens, because the post reserves nothing for
    the task it wakes: whoever runs first after the post may take the permit
    (sync.h says a wakeup cannot be taken by another task). *)
Theorem sem_no_lost_wakeup fuel t sem s Q :
  sem_wf sem -> can_sleep t s Q -> Count sem = 0 ->
  Id (task s t) ∉ entries (SWait sem) -> WCount (SWait sem) < 16 ->
  exists sem1 s1 fs was, SemWait (S fuel) (Some sem) s = Some (CSleep fs was, Some sem1, s1) /\
    asleep t s s1 Q /\ sem_wf sem1 /\ Count sem1 = 0 /\ Limit sem1 = Limit sem /\
    entries (SWait sem1) = entries (SWait sem) ++ [Id (task s t)] /\
  (forall sem2 s2 l1 l2, sem_wf sem2 -> sched_ok s2 ->
     entries (SWait sem2) = l1 ++ Id (task s t) :: l2 -> (forall x, x ∈ l1 -> ~ live s2 x) ->
     SchedFind (Id (task s t)) s2 = Some t -> State (task s2 t) = TaskBlocked ->
     (if decide (Limit sem2 = 0) then Count sem2 < 4294967295 else Count sem2 < Limit sem2) ->
     exists sem3 s3, SemPost (Some sem2) s2 = Some (IpcOk, Some sem3, s3) /\
       Count sem3 = Count sem2 + 1 /\ State (task s3 t) = TaskReady /\
       Id (task s t) :: entries (SWait sem3) ≡ₚ entries (SWait sem2) /\ sem_wf sem3 /\ sched_ok s3 /\
       (forall i, i <> t -> State (task s3 i) = State (task s2 i)) /\
       forall s4, exists sem4, SemTryWait (Some sem3) s4 = (IpcOk, Some sem4, s4) /\ Count sem4 = Count sem2) /\
  (forall sem4 s4, sem_wf sem4 ->
     (0 < Count sem4 -> exists sem5 s5,
        SemWait_resume (S fuel) (Id (task s t)) was sem4 s4 = Some (CRet IpcOk, sem5, s5) /\
        Count sem5 = Count sem4 - 1 /\ Id (task s t) ∉ entries (SWait sem5)) /\
     (forall Q4, Count sem4 = 0 -> can_sleep t s4 Q4 -> Id (task s4 t) = Id (task s t) ->
        WCount (IpcWaitRemove (SWait sem4) (Id (task s t))) < 16 -> exists fs5 sem5 s5,
        SemWait_resume (S fuel) (Id (task s t)) was sem4 s4 = Some (CSleep fs5 was, sem5, s5) /\
        Count sem5 = 0 /\ State (task s5 t) = TaskBlocked /\
        entries (SWait sem5) = entries (IpcWaitRemove (SWait sem4) (Id (task s t))) ++ [Id (task s t)])).
Proof.
  intros Hw Hcs H0 Hid H16.
  destruct (SemWait_spec fuel t sem s Q Hw Hcs Hid)
    as [[? _]|[(_ & ? & _)|(_ & w1 & s1 & E1 & Hw1 & Ew1 & Ha)]]; [lia..|].
  eexists (mkSem 0 (Limit sem) w1), s1, _, _. split; [exact E1|]. split; [done|].
  split; [destruct Hw; split; cbn; done || lia|]. do 3 (split; [done|]). split.
  - intros sem2 s2 l1 l2 Hw2 Hok2 El Hl1 Hf Hb Hroom.
    by apply SemPost_wakes with l1 l2; [..|apply Hcs].
  - intros sem4 s4 Hw4. split.
    + intros Hp. destruct (SemWait_resume_takes fuel (Id (task s t)) (irq_on s) sem4 s4 Hw4 Hp)
        as (sem5 & s5 & -> & Hc5 & _ & Hni & _). by exists sem5, s5.
    + intros Q4 Hz Hcs4 HI4 Hlt. rewrite <- HI4 in Hlt |- *.
      destruct (SemWait_resume_sleeps fuel t (irq_on s) sem4 s4 Q4 Hw4 Hcs4 Hz Hlt)
        as (sem5 & s5 & -> & Hc5 & _ & Ee & Ha5). eexists _, sem5, s5. split; [done|].
      split; [done|]. split; [apply Ha5|done].
Qed.

(** Task 1 waits, task 2 posts, and task 2 may also take what it posted. *)
Lemma sem_no_lost_wakeup_witness :
  exists sem1 s1 fs was, SemWait 1 (Some demo_sem) demo_run = Some (CSleep fs was, Some sem1, s1) /\
  exists sem2 s2, SemPost (Some sem1) s1 = Some (IpcOk, Some sem2, s2) /\ Count sem2 = 1 /\
    State (task s2 1) = TaskReady /\
  exists sem3, SemTryWait (Some sem2) s2 = (IpcOk, Some sem3, s2) /\ Count sem3 = 0.
Proof.
  destruct (sem_no_lost_wakeup 0 1 demo_sem demo_run _ demo_sem_wf demo_run_sleep eq_refl)
    as (sem1 & s1 & fs & was & E & Ha & Hw1 & H0 & HL & Ee & Hpost & _);
    [by vm_compute; apply not_elem_of_nil|done|].
  destruct (asleep_find 1 demo_run s1 _ demo_run_sleep Ha) as (_ & Hf & _).
  destruct (Hpost sem1 s1 [] []) as (sem2 & s2 & E2 & Hc & Hr & _ & _ & _ & _ & Htake);
    [done|by apply (asleep_ok 1 demo_run s1 _ demo_run_sleep)|done|by intros ? ?%not_elem_of_nil|done|apply Ha| |].
  { rewrite HL, H0. done. }
  destruct (Htake s2) as (sem3 & E3 & Hc3).
  exists sem1, s1, fs, was. split; [exact E|]. exists sem2, s2. split; [exact E2|].
  split; [lia|]. split; [done|]. exists sem3. split; [exact E3|lia].
Defined.

(** MutexUnlock: a task that does not hold the mutex changes nothing and
    gets IpcErrOwner; the holder passes the mutex, still locked, to the first
    live waiter, which leaves the queue and is no longer blocked, or frees it
    and drops the stale entries when no waiter is alive. *)
Theorem MutexUnlock_correct m s :
  wait_wf (MWait m) -> sched_ok s ->
  (MutexHeldByCaller (Some m) s = false /\
   MutexUnlock (Some m) s = Some (IpcErrOwner, Some m, s)) \/
  (MutexHeldByCaller (Some m) s = true /\ exists w', wait_wf w' /\
   ((exists id l1 l2 s', entries (MWait m) = l1 ++ id :: l2 /\ live s id /\
      (forall x, x ∈ l1 -> ~ live s x) /\ id :: entries w' ≡ₚ entries (MWait m) /\
      wake id s s' /\ sched_ok s' /\
      MutexUnlock (Some m) s = Some (IpcOk, Some (mkMutex true id w'), s')) \/
    ((forall x, x ∈ entries (MWait m) -> ~ live s x) /\ entries w' = [] /\
     MutexUnlock (Some m) s = Some (IpcOk, Some (mkMutex false 0 w'), s)))).
Proof. apply MutexUnlock_spec. Qed.

Lemma MutexUnlock_correct_witness :
  exists w', MutexUnlock (Some demo_mutex) demo_run = Some (IpcOk, Some (mkMutex false 0 w'), demo_run).
Proof.
  destruct (MutexUnlock_correct demo_mutex demo_run wait_empty_wf demo_run_ok)
    as [[H _]|(_ & w' & _ & [(id & l1 & l2 & _ & H & _)|(_ & _ & E)])].
  - discriminate H.
  - destruct l1; discriminate H.
  - exists w'. exact E.
Defined.

(** MutexLock by a task that can sleep, on every path: a free mutex is
    taken, one the caller holds reports IpcErrOwner, a held one with sixteen
    waiters reports IpcErrFull, and otherwise the caller is blocked at the end
    of the wait queue. *)
Theorem MutexLock_correct fuel t m s Q :
  wait_wf (MWait m) -> can_sleep t s Q -> Id (task s t) ∉ entries (MWait m) ->
  (Locked m = true /\ Owner m = Id (task s t) /\
   MutexLock (S fuel) (Some m) s = Some (CRet IpcErrOwner, Some m, s)) \/
  (Locked m = false /\
   MutexLock (S fuel) (Some m) s = Some (CRet IpcOk, Some (mkMutex true (Id (task s t)) (MWait m)), s)) \/
  (Locked m = true /\ Owner m <> Id (task s t) /\ WCount (MWait m) = 16 /\
   MutexLock (S fuel) (Some m) s = Some (CRet IpcErrFull, Some m, s)) \/
  (Locked m = true /\ Owner m <> Id (task s t) /\ exists w' s',
   MutexLock (S fuel) (Some m) s =
     Some (CSleep [FrSchedYield false; FrSchedBlockTask t] (irq_on s), Some (mkMutex true (Owner m) w'), s') /\
   wait_wf w' /\ entries w' = entries (MWait m) ++ [Id (task s t)] /\ asleep t s s' Q).
Proof. apply MutexLock_spec. Qed.

Lemma MutexLock_correct_witness :
  MutexLock 1 (Some demo_mutex) demo_run = Some (CRet IpcErrOwner, Some demo_mutex, demo_run).
Proof.
  destruct (MutexLock_correct 0 1 demo_mutex demo_run _ wait_empty_wf demo_run_sleep)
    as [(_ & _ & E)|[[H _]|[(_ & H & _)|(_ & H & _)]]].
  - vm_compute. apply not_elem_of_nil.
  - exact E.
  - discriminate H.
  - exfalso. apply H. by vm_compute.
  - exfalso. apply H. by vm_compute.
Defined.

(** The hand-over of a mutex never reaches its new owner. A task that
    waits in MutexLock is made the owner by the holder's MutexUnlock; but when
    it runs again, IpcPark's re-check finds the mutex locked, so it queues
    itself again and sleeps, owning the mutex. Nobody else may then unlock
    it. *)
Theorem mutex_handoff_deadlock fuel t m s Q :
  can_sleep t s Q -> wait_wf (MWait m) -> Locked m = true -> Owner m <> Id (task s t) ->
  entries (MWait m) = [] ->
  exists m1 s1 fs was, MutexLock (S fuel) (Some m) s = Some (CSleep fs was, Some m1, s1) /\
    asleep t s s1 Q /\
  forall s2, sched_ok s2 -> IpcSelfId s2 = Owner m -> live s2 (Id (task s t)) ->
  exists m2 s2', MutexUnlock (Some m1) s2 = Some (IpcOk, Some m2, s2') /\
    Locked m2 = true /\ Owner m2 = Id (task s t) /\
  forall s3 Q3, can_sleep t s3 Q3 -> Id (task s3 t) = Id (task s t) ->
  exists m3 s4, MutexLock_resume (S fuel) (Id (task s t)) was m2 s3 =
      Some (CSleep [FrSchedYield false; FrSchedBlockTask t] was, m3, s4) /\
    Locked m3 = true /\ Owner m3 = Id (task s t) /\ asleep t s3 s4 Q3 /\
    forall s5, IpcSelfId s5 <> Id (task s t) -> MutexUnlock (Some m3) s5 = Some (IpcErrOwner, Some m3, s5).
Proof.
  intros Hcs Hw Hl Ho He. pose proof (length_entries _ Hw) as HL. rewrite He in HL.
  destruct (MutexLock_spec fuel t m s Q Hw Hcs)
    as [(_ & ? & _)|[(? & _)|[(_ & _ & H16 & _)|(_ & _ & w1 & s1 & E1 & Hw1 & Ew1 & Ha)]]];
    [rewrite He; apply not_elem_of_nil|congruence..|rewrite H16 in HL; done|].
  rewrite He in Ew1. eexists _, s1, _, _. split; [exact E1|]. split; [done|].
  intros s2 Hok2 Hself Hlive.
  destruct (MutexUnlock_spec (mkMutex true (Owner m) w1) s2 Hw1 Hok2)
    as [[H _]|(_ & w2 & Hw2 & [(id & l1 & l2 & s2' & El & _ & _ & P & _ & _ & E2)|(Hno & _)])].
  { cbn in H. rewrite Hself, Z.eqb_refl in H. done. }
  2: { exfalso. apply (Hno (Id (task s t))); [|done]. cbn. rewrite Ew1. set_solver. }
  cbn in El, P. rewrite Ew1 in El, P.
  assert (id = Id (task s t)) as -> by (destruct l1 as [|? [|]]; cbn in El; congruence).
  assert (He2 : entries w2 = []) by (apply Permutation_length in P; by destruct (entries w2)).
  eexists _, s2'. split; [exact E2|]. split; [done|]. split; [done|]. intros s3 Q3 Hcs3 HI3.
  destruct (handoff_reparks fuel t (irq_on s) (mkMutex true (Id (task s t)) w2) s3 Q3 Hcs3)
    as (w3 & s4 & E3 & _ & Ha3); [done|done|by rewrite HI3| |cbn; rewrite He2; apply not_elem_of_nil|].
  { cbn. pose proof (length_entries _ Hw2) as H2. pose proof (w_count _ Hw2). rewrite He2 in H2. cbn in H2. lia. }
  rewrite HI3 in E3. eexists _, s4. split; [exact E3|]. do 3 (split; [done|]).
  intros s5 Hne. unfold MutexUnlock. change (IpcSelfId (set_irq_on false s5)) with (IpcSelfId s5).
  cbn [Locked Owner negb orb]. rewrite (proj2 (Z.eqb_neq _ _)) by done. cbn [negb].
  rewrite some_bind, decide_False, lock_unlock by naive_solver. done.
Qed.

(** Task 2 holds the mutex, task 1 runs and asks for it. *)
Lemma mutex_handoff_deadlock_witness :
  exists m1 s1 fs was,
    MutexLock 1 (Some (mkMutex true 2 wait_empty)) demo_run = Some (CSleep fs was, Some m1, s1) /\
    entries (MWait m1) = [1].
Proof.
  destruct (mutex_handoff_deadlock 0 1 (mkMutex true 2 wait_empty) demo_run _ demo_run_sleep
              wait_empty_wf eq_refl) as (m1 & s1 & fs & was & E & _); [by vm_compute|done|].
  exists m1, s1, fs, was. split; [exact E|].
  assert (E' : (fun x => entries (MWait (default demo_mutex (snd (fst x))))) <$>
    MutexLock 1 (Some (mkMutex true 2 wait_empty)) demo_run = Some [1]) by by vm_compute.
  rewrite E in E'. by injection E' as ->.
Defined.

(** IpcWaitTakeLive takes the first entry that names a live task and
    removes only it; when no entry is live it returns 0 and leaves the queue
    empty. *)
Theorem IpcWaitTakeLive_correct w s :
  wait_wf w ->
  (exists id l1 l2 w', IpcWaitTakeLive w s = Some (id, w') /\ entries w = l1 ++ id :: l2 /\
     live s id /\ (forall x, x ∈ l1 -> ~ live s x) /\ wait_wf w' /\ id :: entries w' ≡ₚ entries w) \/
  (exists w', IpcWaitTakeLive w s = Some (0, w') /\ (forall x, x ∈ entries w -> ~ live s x) /\
     wait_wf w' /\ entries w' = []).
Proof. apply IpcWaitTakeLive_spec. Qed.

(** Ids 9 (dead), 2, 1 queued. *)
Definition demo_wait : IpcWait := mkWait ([9; 2; 1] ++ replicate 13 0) 3.

Lemma IpcWaitTakeLive_correct_witness :
  exists w', IpcWaitTakeLive demo_wait demo_run = Some (2, w') /\ 2 :: entries w' ≡ₚ [9; 2; 1].
Proof.
  destruct (IpcWaitTakeLive_correct demo_wait demo_run)
    as [(id & l1 & l2 & w' & E & _ & _ & _ & _ & P)|(w' & E & _)].
  - split; [done|cbn; lia|by apply (bool_decide_unpack _); vm_compute|].
    apply Forall_forall. by apply (bool_decide_unpack _); vm_compute.
  - assert (id = 2) as -> by (vm_compute in E; congruence). exists w'. split; [exact E|exact P].
  - vm_compute in E. discriminate E.
Defined.
