(* ===== verification/Strings.v ===== *)
(** * Memory and string routines (lib/string.c)

    The loops over byte pointers, on the byte-addressed memory, with pointers
    kept at 32 bits. *)

From S2P Require Import Prelude.

(** ** Operations *)

(** [while (len--) *ptr++ = (unsigned char)c;] *)
Fixpoint memset_loop (len : nat) (ptr c : Z) (m : Mem) : Mem :=
  match len with
  | O => m
  | S len => memset_loop len (ptr +w 1) c (store8 m ptr c)
  end.

Definition memset (s c : Z) (len : nat) (m : Mem) : Z * Mem := (s, memset_loop len s c m).

(** [while (len--) *d++ = *s++;] *)
Fixpoint copy_up (len : nat) (d s : Z) (m : Mem) : Mem :=
  match len with
  | O => m
  | S len => copy_up len (d +w 1) (s +w 1) (store8 m d (load8 m s))
  end.

(** [while (len--) *--d = *--s;] *)
Fixpoint copy_down (len : nat) (d s : Z) (m : Mem) : Mem :=
  match len with
  | O => m
  | S len => let d := d -w 1 in
             let s := s -w 1 in
             copy_down len d s (store8 m d (load8 m s))
  end.

Definition memmove (dest src : Z) (len : nat) (m : Mem) : Z * Mem :=
  let m := if dest <? src then copy_up len dest src m
           else if src <? dest then
             copy_down len (dest +w Z.of_nat len) (src +w Z.of_nat len) m
           else m in
  (dest, m).

Definition memcpy (dest src : Z) (len : nat) (m : Mem) : Z * Mem := (dest, copy_up len dest src m).

(** The fuel bounds the length of the string. *)
Definition strlen (fuel : nat) (str : Z) (m : Mem) : option Z :=
  loop fuel (fun len => if negb (load8 m (str +w len) =? 0) then Some (inl (len +w 1))
                        else Some (inr len)) 0.

Definition strcmp (fuel : nat) (s1 s2 : Z) (m : Mem) : option Z :=
  loop fuel (fun '(s1, s2) =>
    if negb (load8 m s1 =? 0) && (load8 m s1 =? load8 m s2)
    then Some (inl (s1 +w 1, s2 +w 1))
    else Some (inr (load8 m s1 - load8 m s2))) (s1, s2).

(** ** Specifications *)

(** The [n] bytes at [a] do not run past the end of the address space. *)
Definition span (a : Z) (n : nat) : Prop := 0 <= a /\ a + Z.of_nat n <= 4294967296.

(** [m'] is [m] with the bytes [src, src+n) of [m] copied to [dest]. *)
Definition copied (dest src : Z) (n : nat) (m m' : Mem) : Prop :=
  forall a, load8 m' a =
    if decide (dest <= a < dest + Z.of_nat n) then load8 m (src + (a - dest)) else load8 m a.

Lemma memset_loop_spec n : forall p c m,
  span p n -> forall a, load8 (memset_loop n p c m) a =
    if decide (p <= a < p + Z.of_nat n) then c mod 256 else load8 m a.
Proof.
  induction n as [|n IH]; intros p c m [Hp Hn] a; cbn [memset_loop].
  { rewrite decide_False by lia. done. }
  destruct n as [|n].
  - cbn [memset_loop]. rewrite load8_store8. repeat case_decide; done || lia.
  - unwrap. rewrite IH by (split; lia). rewrite load8_store8. repeat case_decide; done || lia.
Qed.

Lemma copy_up_spec n : forall d s m,
  span d n -> span s n -> d <= s \/ s + Z.of_nat n <= d -> copied d s n m (copy_up n d s m).
Proof.
  induction n as [|n IH]; intros d s m [Hd Hdn] [Hs Hsn] Ho a; cbn [copy_up].
  { rewrite decide_False by lia. done. }
  destruct n as [|n].
  - cbn [copy_up]. rewrite load8_store8. repeat case_decide; try done || lia.
    replace (s + (a - d)) with s by lia. apply Z.mod_small, load8_range.
  - unwrap. rewrite IH by (split; lia) || lia. rewrite !load8_store8.
    repeat case_decide; try done || lia.
    + f_equal. lia.
    + replace (s + (a - d)) with s by lia. apply Z.mod_small, load8_range.
Qed.

Lemma copy_down_spec n : forall d s m,
  span d n -> span s n -> s < d ->
  copied d s n m (copy_down n (d +w Z.of_nat n) (s +w Z.of_nat n) m).
Proof.
  induction n as [|n IH]; intros d s m [Hd Hdn] [Hs Hsn] Ho a; cbn [copy_down].
  { rewrite decide_False by lia. done. }
  assert (Hw : forall x, 0 <= x -> x + Z.of_nat (S n) <= 4294967296 ->
    (x +w Z.of_nat (S n)) -w 1 = x +w Z.of_nat n).
  { intros x H1 H2. unfold wrap32. rewrite Zminus_mod_idemp_l. f_equal. lia. }
  rewrite !Hw by lia. cbv zeta.
  assert (Hlast : forall x, 0 <= x -> x + Z.of_nat (S n) <= 4294967296 ->
    x +w Z.of_nat n = x + Z.of_nat n) by (intros; unwrap; done).
  rewrite IH by (split; lia) || lia. rewrite !Hlast by lia. rewrite !load8_store8.
  repeat case_decide; try done || lia.
  replace (s + (a - d)) with (s + Z.of_nat n) by lia. apply Z.mod_small, load8_range.
Qed.

Lemma memmove_spec d s n m : span d n -> span s n -> copied d s n m (snd (memmove d s n m)).
Proof.
  intros Hd Hs. unfold memmove. cbn [snd].
  destruct (Z.ltb_spec d s); [by apply copy_up_spec; [..|lia]|].
  destruct (Z.ltb_spec s d); [by apply copy_down_spec|].
  assert (d = s) as -> by lia. intros a. case_decide; [|done]. f_equal. lia.
Qed.

(** The bytes of a C string at [a]. *)
Record c_string (m : Mem) (a : Z) (l : list Z) : Prop := {
  cs_bytes : forall i x, l !! i = Some x -> load8 m (a + Z.of_nat i) = x /\ 0 < x < 256;
  cs_end : load8 m (a + Z.of_nat (length l)) = 0;
  cs_span : 0 <= a /\ a + Z.of_nat (length l) < 4294967296 }.

Lemma c_string_tail m a x l : c_string m a (x :: l) -> c_string m (a + 1) l.
Proof.
  intros [Hb He Hs]. cbn [length] in *. split.
  - intros i y Hi. specialize (Hb (S i) y Hi).
    by replace (a + Z.of_nat (S i)) with (a + 1 + Z.of_nat i) in Hb by lia.
  - rewrite <- He. f_equal. lia.
  - lia.
Qed.

Lemma c_string_head m a x l : c_string m a (x :: l) -> load8 m a = x /\ 0 < x < 256.
Proof. intros [Hb _ _]. specialize (Hb 0%nat x eq_refl). by rewrite Z.add_0_r in Hb. Qed.

Lemma c_string_nil m a : c_string m a [] -> load8 m a = 0.
Proof. intros [_ He _]. cbn in He. by rewrite Z.add_0_r in He. Qed.

Lemma strlen_loop m str : forall l k fuel,
  c_string m (str + k) l -> 0 <= str -> 0 <= k -> (length l < fuel)%nat ->
  loop fuel (fun len => if negb (load8 m (str +w len) =? 0) then Some (inl (len +w 1))
                        else Some (inr len)) k = Some (k + Z.of_nat (length l)).
Proof.
  induction l as [|x l IH]; intros k fuel Hc H0 Hk Hf;
    (destruct fuel as [|fuel]; [cbn in Hf; lia|]); rewrite loop_unfold.
  - pose proof (cs_span _ _ _ Hc) as Hs. cbn in Hs. unwrap. rewrite (c_string_nil _ _ Hc).
    cbn. by rewrite Z.add_0_r.
  - pose proof (cs_span _ _ _ Hc) as Hs. cbn [length] in Hs. unwrap.
    destruct (c_string_head _ _ _ _ Hc) as [-> Hx].
    rewrite (proj2 (Z.eqb_neq _ _)) by lia. cbn [negb].
    rewrite IH; [cbn [length]; f_equal; lia| |done|lia|cbn in Hf; lia].
    apply c_string_tail in Hc. by replace (str + (k + 1)) with (str + k + 1) by lia.
Qed.

(** The difference [strcmp] returns. *)
Fixpoint lex_diff (l1 l2 : list Z) : Z :=
  match l1, l2 with
  | [], [] => 0
  | [], y :: _ => - y
  | x :: _, [] => x
  | x :: l1, y :: l2 => if x =? y then lex_diff l1 l2 else x - y
  end.

(** Lexicographic order: a proper prefix, or smaller at the first difference. *)
Definition lex_lt (l1 l2 : list Z) : Prop :=
  (exists y t, l2 = l1 ++ y :: t) \/
  exists p x y t1 t2, l1 = p ++ x :: t1 /\ l2 = p ++ y :: t2 /\ x < y.

Lemma strcmp_loop m : forall l1 l2 s1 s2 fuel,
  c_string m s1 l1 -> c_string m s2 l2 -> (length l1 < fuel)%nat ->
  loop fuel (fun '(s1, s2) =>
    if negb (load8 m s1 =? 0) && (load8 m s1 =? load8 m s2)
    then Some (inl (s1 +w 1, s2 +w 1))
    else Some (inr (load8 m s1 - load8 m s2))) (s1, s2) = Some (lex_diff l1 l2).
Proof.
  induction l1 as [|x l1 IH]; intros l2 s1 s2 fuel H1 H2 Hf;
    (destruct fuel as [|fuel]; [cbn in Hf; lia|]); rewrite loop_unfold.
  - rewrite (c_string_nil _ _ H1). cbn. destruct l2 as [|y l2].
    + by rewrite (c_string_nil _ _ H2).
    + destruct (c_string_head _ _ _ _ H2) as [-> _]. done.
  - destruct (c_string_head _ _ _ _ H1) as [E1 Hx]. pose proof (cs_span _ _ _ H1) as Hs1.
    rewrite E1, (proj2 (Z.eqb_neq _ _)) by lia. cbn [negb andb].
    destruct l2 as [|y l2].
    + rewrite (c_string_nil _ _ H2), (proj2 (Z.eqb_neq _ _)) by lia. cbn. f_equal. lia.
    + destruct (c_string_head _ _ _ _ H2) as [-> Hy]. pose proof (cs_span _ _ _ H2) as Hs2.
      cbn [lex_diff length] in *. destruct (Z.eqb_spec x y); [|done]. unwrap.
      apply IH; [by eapply c_string_tail|by eapply c_string_tail|cbn in Hf; lia].
Qed.

Lemma lex_diff_spec l1 : forall l2,
  Forall (fun x => 0 < x) l1 -> Forall (fun x => 0 < x) l2 ->
  (lex_diff l1 l2 = 0 <-> l1 = l2) /\ (lex_diff l1 l2 < 0 <-> lex_lt l1 l2).
Proof.
  induction l1 as [|x l1 IH]; intros [|y l2] H1 H2; cbn [lex_diff].
  - split; [done|]. split; [lia|]. intros [(? & ? & ?)|(p & ? & ? & ? & ? & H & _)]; [done|by destruct p].
  - inversion H2; subst. split; [split; [lia|done]|]. split; [|lia]. intros _. left. by exists y, l2.
  - inversion H1; subst. split; [split; [lia|done]|]. split; [lia|].
    intros [(? & ? & ?)|(p & ? & ? & ? & ? & _ & H & _)]; [done|by destruct p].
  - inversion H1; inversion H2; subst. destruct (Z.eqb_spec x y) as [->|Hne].
    + destruct (IH l2) as [E L]; [done..|]. split; [rewrite E; naive_solver|]. rewrite L. split.
      * intros [(z & t & ->)|(p & a & b & t1 & t2 & -> & -> & ?)]; [left; by exists z, t|].
        right. by exists (y :: p), a, b, t1, t2.
      * intros [(z & t & [= ->])|(p & a & b & t1 & t2 & E1 & E2 & ?)]; [left; by exists z, t|].
        destruct p as [|c p]; [cbn in *; naive_solver lia|]. injection E1 as -> ->. injection E2 as ->.
        right. by exists p, a, b, t1, t2.
    + split; [split; [lia|congruence]|]. split.
      * intros ?. right. exists [], x, y, l1, l2. repeat split. lia.
      * intros [(z & t & [= -> _])|(p & a & b & t1 & t2 & E1 & E2 & ?)]; [done|].
        destruct p as [|c p]; [|cbn in E1, E2; congruence]. cbn in E1, E2; injection E1 as -> _. injection E2 as -> _. lia.
Qed.

(** ** The theorems *)

(** memmove copies as if through a temporary buffer: whether the two
    regions overlap or not, every byte of the destination gets the byte the
    source held before the call, no other byte changes, and the destination
    pointer is returned. *)
Theorem memmove_correct dest src len m :
  span dest len -> span src len ->
  fst (memmove dest src len m) = dest /\ copied dest src len m (snd (memmove dest src len m)).
Proof. intros Hd Hs. split; [done|by apply memmove_spec]. Qed.

(** Bytes 1 2 3 4 at 10, moved up by one over themselves. *)
Definition sample_bytes : Mem := store32 ∅ 10 67305985.

Lemma memmove_correct_witness :
  copied 11 10 4 sample_bytes (snd (memmove 11 10 4 sample_bytes)) /\
  load32 (snd (memmove 11 10 4 sample_bytes)) 11 = 67305985.
Proof. split; [apply (memmove_correct 11 10 4 sample_bytes); split; lia|by vm_compute]. Defined.

(** strcmp on two terminated strings returns; the result is zero exactly
    when they are equal and negative exactly when the first precedes the second
    in the lexicographic order of their unsigned bytes. *)
Lemma strcmp_correct fuel s1 s2 l1 l2 m :
  c_string m s1 l1 -> c_string m s2 l2 -> (length l1 < fuel)%nat ->
  exists r, strcmp fuel s1 s2 m = Some r /\ (r = 0 <-> l1 = l2) /\ (r < 0 <-> lex_lt l1 l2).
Proof.
  intros H1 H2 Hf. exists (lex_diff l1 l2). split; [by apply strcmp_loop|].
  assert (Hpos : forall a l, c_string m a l -> Forall (fun x => 0 < x) l).
  { intros a l Hc. apply Forall_forall. intros x [i Hi]%list_elem_of_lookup_1.
    destruct (cs_bytes _ _ _ Hc i x Hi). lia. }
  apply lex_diff_spec; eauto.
Qed.

(** strlen returns the number of bytes before the terminator, and memset
    writes its byte to exactly the given range. *)
Lemma strlen_memset_correct fuel str l m p c n :
  c_string m str l -> (length l < fuel)%nat -> span p n ->
  strlen fuel str m = Some (Z.of_nat (length l)) /\
  forall a, load8 (snd (memset p c n m)) a =
    if decide (p <= a < p + Z.of_nat n) then c mod 256 else load8 m a.
Proof.
  intros Hc Hf Hs. split; [|by apply memset_loop_spec].
  pose proof (cs_span _ _ _ Hc). apply (strlen_loop m str l 0); [by rewrite Z.add_0_r|lia|lia|done].
Qed.
