(* ===== verification/Console.v ===== *)
(** * The VGA text console (drivers/video/vga_console.c)

    The text page at 0xB8000 in byte memory, the cursor, the start of the
    command line, and the log of port writes. *)

From S2P Require Import Prelude Strings.

(** ** Data *)

Definition ConsoleWidth : Z := 80.
Definition ConsoleHeight : Z := 25.
Definition ConsoleCells : Z := ConsoleWidth * ConsoleHeight.
(** The palette, packed into a byte each. *)
Inductive VgaColor :=
| VgaBlack | VgaBlue | VgaGreen | VgaCyan | VgaRed | VgaMagenta | VgaBrown | VgaLightGrey
| VgaDarkGrey | VgaLightBlue | VgaLightGreen | VgaLightCyan | VgaLightRed | VgaLightMagenta | VgaYellow | VgaWhite.

Definition color_code (c : VgaColor) : Z :=
  match c with
  | VgaBlack => 0 | VgaBlue => 1 | VgaGreen => 2 | VgaCyan => 3
  | VgaRed => 4 | VgaMagenta => 5 | VgaBrown => 6 | VgaLightGrey => 7
  | VgaDarkGrey => 8 | VgaLightBlue => 9 | VgaLightGreen => 10 | VgaLightCyan => 11
  | VgaLightRed => 12 | VgaLightMagenta => 13 | VgaYellow => 14 | VgaWhite => 15
  end.

Definition VGA_ATTRIBUTE (Background Foreground : VgaColor) : Z :=
  Z.lor ((Z.shiftl (color_code Background) 4) mod 256) (color_code Foreground mod 256).
Definition ConsoleAttribute : Z := VGA_ATTRIBUTE VgaBlack VgaLightGrey.

(** [outs] is every [outb (port, value)] so far, latest first. *)
Record Console := mkConsole {
  vmem : Mem;
  cursor : Z;
  user_cmdline_start : Z;
  console_line_echo : bool;
  outs : list (Z * Z) }.

Definition video_memory : Z := 753664.

Definition set_vmem v s := mkConsole v (cursor s) (user_cmdline_start s) (console_line_echo s) (outs s).
Definition set_cursor v s := mkConsole (vmem s) v (user_cmdline_start s) (console_line_echo s) (outs s).
Definition set_cmdline v s := mkConsole (vmem s) (cursor s) v (console_line_echo s) (outs s).
Definition outb (port v : Z) s :=
  mkConsole (vmem s) (cursor s) (user_cmdline_start s) (console_line_echo s) ((port, v) :: outs s).

(** [video_memory[i] = v] *)
Definition put_byte (i v : Z) (s : Console) : Console :=
  set_vmem (store8 (vmem s) (video_memory + i) v) s.

(** ** Operations *)

Definition update_hardware_cursor (pos : Z) (s : Console) : Console :=
  let s := outb 980 15 s in
  let s := outb 981 (Z.land pos 255) s in
  let s := outb 980 14 s in
  outb 981 (Z.land (Z.shiftr pos 8) 255) s.

Definition console_set_cursor (position : Z) (s : Console) : Console :=
  let position := if position <? 0 then 0
                  else if ConsoleCells <=? position then ConsoleCells - 1 else position in
  let s := set_cursor position s in
  update_hardware_cursor (cursor s) s.

Definition console_cursor (s : Console) : Z := cursor s.

(** The blank cell written at [i], counted from the byte offset [base]. *)
Definition blank_cell (base i : Z) (s : Console) : Console :=
  put_byte (base + (i * 2 + 1)) ConsoleAttribute (put_byte (base + i * 2) 32 s).

Definition console_scroll (s : Console) : Console :=
  let copy_size := ConsoleWidth * (ConsoleHeight - 1) * 2 in
  let s := set_vmem (snd (memmove video_memory (video_memory + ConsoleWidth * 2)
                            (Z.to_nat copy_size) (vmem s))) s in
  let s := foldl (fun s i => blank_cell copy_size i s) s (seqZ 0 ConsoleWidth) in
  let s := console_set_cursor (ConsoleWidth * (ConsoleHeight - 1)) s in
  if ConsoleWidth <=? user_cmdline_start s
  then set_cmdline (user_cmdline_start s - ConsoleWidth) s
  else set_cmdline 0 s.

(** console_putchar calls itself through the tab and through the "> " that a
    filled row gets while a command line is echoed. *)
Fixpoint console_putchar (fuel : nat) (c : Z) (s : Console) : option Console :=
  match fuel with
  | O => None
  | S fuel =>
      if c =? 10 then
        let next := (cursor s / ConsoleWidth + 1) * ConsoleWidth in
        Some (if ConsoleCells <=? next then console_scroll s else console_set_cursor next s)
      else if c =? 9 then
        s ← console_putchar fuel 32 s;
        s ← console_putchar fuel 32 s;
        s ← console_putchar fuel 32 s;
        console_putchar fuel 32 s
      else if c =? 8 then
        Some (if user_cmdline_start s <? cursor s then
                let s := set_cursor (cursor s - 1) s in
                let s := put_byte (cursor s * 2) 32 s in
                let s := put_byte (cursor s * 2 + 1) ConsoleAttribute s in
                console_set_cursor (cursor s) s
              else s)
      else
        let s := put_byte (cursor s * 2) c s in
        let s := put_byte (cursor s * 2 + 1) ConsoleAttribute s in
        let s := if ConsoleCells <=? cursor s + 1 then console_scroll s
                 else console_set_cursor (cursor s + 1) s in
        if console_line_echo s && (cursor s mod ConsoleWidth =? 0) then
          (* console_write("> ") *)
          s ← console_putchar fuel 62 s;
          console_putchar fuel 32 s
        else Some s
  end.

(** The deepest chain is tab, space, '>' and its successor. *)
Definition putchar_fuel : nat := 4.

Fixpoint console_write (str : list Z) (s : Console) : option Console :=
  match str with
  | [] => Some s
  | c :: str => s ← console_putchar putchar_fuel c s; console_write str s
  end.

Definition console_clear (s : Console) : Console :=
  let n := ConsoleWidth * ConsoleHeight in
  let s := set_vmem (snd (memset video_memory 32 (Z.to_nat (n * 2)) (vmem s))) s in
  let s := foldl (fun s i => put_byte (i * 2 + 1) ConsoleAttribute s) s (seqZ 0 n) in
  let s := outb 980 10 s in
  let s := outb 981 14 s in
  let s := outb 980 11 s in
  let s := outb 981 15 s in
  let s := console_set_cursor 0 s in
  set_cmdline 0 s.

(** kprintf("> ") writes the two characters. *)
Definition console_prompt (s : Console) : option Console :=
  s ← console_write [62; 32] s;
  Some (set_cmdline (cursor s) s).

(** ** Facts *)

(** The character and attribute of cell [i]. *)
Definition cell (s : Console) (i : Z) : Z * Z :=
  (load8 (vmem s) (video_memory + 2 * i), load8 (vmem s) (video_memory + 2 * i + 1)).

Definition in_page (a : Z) : Prop := video_memory <= a < video_memory + 2 * ConsoleCells.

(** The hardware cursor registers were last written with [cursor]. *)
Definition hw_synced (s : Console) : Prop :=
  exists rest, outs s = (981, Z.land (Z.shiftr (cursor s) 8) 255) :: (980, 14)
                 :: (981, Z.land (cursor s) 255) :: (980, 15) :: rest.

Record con_inv (s : Console) : Prop := {
  c_cursor : 0 <= cursor s < ConsoleCells;
  c_cmdline : 0 <= user_cmdline_start s < ConsoleCells;
  c_hw : hw_synced s }.

(** What the page holds: every cell is a character in the console's colours. *)
Definition page_typed (s : Console) : Prop :=
  forall i, 0 <= i < ConsoleCells -> (cell s i).2 = ConsoleAttribute.

(** Nothing outside the text page changed, and the page is as it should be if
    it was. *)
Definition page_frame (s s' : Console) : Prop :=
  (forall a, ~ in_page a -> load8 (vmem s') a = load8 (vmem s) a) /\ (page_typed s -> page_typed s').

#[global] Instance page_frame_refl : Reflexive page_frame.
Proof. done. Qed.
#[global] Instance page_frame_trans : Transitive page_frame.
Proof. intros x y z [H1 T1] [H2 T2]. split; [intros a Ha; by rewrite H2, H1|auto]. Qed.

Lemma page_frame_vmem s s' : vmem s' = vmem s -> page_frame s s'.
Proof. intros E. split; [intros a _; by rewrite E|]. unfold page_typed, cell. by rewrite E. Qed.

Ltac con := unfold in_page, ConsoleCells, ConsoleWidth, ConsoleHeight, video_memory in *.

Lemma put_byte_load i v s a :
  load8 (vmem (put_byte i v s)) a =
  if decide (video_memory + i = a) then v mod 256 else load8 (vmem s) a.
Proof. apply load8_store8. Qed.

Lemma put_byte_frame i v s a :
  0 <= i < 2 * ConsoleCells -> ~ in_page a -> load8 (vmem (put_byte i v s)) a = load8 (vmem s) a.
Proof. intros Hi Ha. rewrite put_byte_load. case_decide; [|done]. con. lia. Qed.

Lemma console_set_cursor_spec p s :
  0 <= p < ConsoleCells ->
  cursor (console_set_cursor p s) = p /\ hw_synced (console_set_cursor p s) /\
  vmem (console_set_cursor p s) = vmem s /\
  user_cmdline_start (console_set_cursor p s) = user_cmdline_start s /\
  console_line_echo (console_set_cursor p s) = console_line_echo s.
Proof.
  intros Hp. unfold console_set_cursor.
  rewrite (proj2 (Z.ltb_ge _ _)) by lia. rewrite (proj2 (Z.leb_gt _ _)) by lia.
  split; [done|]. split; [by eexists|done].
Qed.

(** Every out-of-range position is clamped. *)
Lemma console_set_cursor_range p s : 0 <= cursor (console_set_cursor p s) < ConsoleCells.
Proof.
  unfold console_set_cursor. cbn. repeat case_match; con; lia.
Qed.

Lemma seqZ_snoc n : 0 <= n -> seqZ 0 (n + 1) = seqZ 0 n ++ [n].
Proof. intros. rewrite seqZ_app by lia. f_equal. Qed.

(** [n] blank cells from the byte offset [base]. *)
Lemma blank_row_spec base s : forall n, 0 <= n ->
  let s' := foldl (fun s i => blank_cell base i s) s (seqZ 0 n) in
  (forall a, load8 (vmem s') a =
     if decide (video_memory + base <= a < video_memory + base + 2 * n)
     then (if Z.even (a - video_memory - base) then 32 else ConsoleAttribute)
     else load8 (vmem s) a) /\
  cursor s' = cursor s /\ user_cmdline_start s' = user_cmdline_start s /\
  console_line_echo s' = console_line_echo s /\ outs s' = outs s.
Proof.
  apply natlike_ind; cbv zeta.
  - split; [|done]. intros a. rewrite decide_False by lia. done.
  - intros n Hn (IH & H1 & H2 & H3 & H4). rewrite <- Z.add_1_r, seqZ_snoc, foldl_app by done.
    cbn [foldl]. set (s1 := foldl _ s _) in *. split; [|done].
    intros a. unfold blank_cell. rewrite !put_byte_load, IH.
    destruct (decide (video_memory + (base + (n * 2 + 1)) = a)) as [<-|N1].
    { rewrite decide_True by lia.
      replace (video_memory + (base + (n * 2 + 1)) - video_memory - base) with (1 + 2 * n) by lia.
      by rewrite Z.even_add_mul_2. }
    destruct (decide (video_memory + (base + n * 2) = a)) as [<-|N2].
    { rewrite decide_True by lia.
      replace (video_memory + (base + n * 2) - video_memory - base) with (0 + 2 * n) by lia.
      by rewrite Z.even_add_mul_2. }
    repeat case_decide; done || lia.
Qed.

Lemma console_scroll_spec s :
  0 <= user_cmdline_start s < ConsoleCells ->
  con_inv (console_scroll s) /\ page_frame s (console_scroll s) /\
  cursor (console_scroll s) = 1920 /\ console_line_echo (console_scroll s) = console_line_echo s /\
  (forall i, 0 <= i < 1920 -> cell (console_scroll s) i = cell s (i + 80)) /\
  (forall i, 1920 <= i < 2000 -> cell (console_scroll s) i = (32, ConsoleAttribute)).
Proof.
  intros Hc. unfold console_scroll. cbv zeta.
  change (ConsoleWidth * (ConsoleHeight - 1) * 2) with 3840. change (ConsoleWidth * 2) with 160.
  set (m1 := snd (memmove _ _ _ _)).
  assert (Hm : copied video_memory (video_memory + 160) (Z.to_nat 3840) (vmem s) m1)
    by (apply memmove_spec; split; con; lia).
  clearbody m1. destruct (blank_row_spec 3840 (set_vmem m1 s) ConsoleWidth) as (Hb & E1 & E2 & E3 & E4); [con; lia|].
  set (s2 := foldl _ (set_vmem m1 s) _) in *. clearbody s2. cbn in E1, E2, E3, E4.
  destruct (console_set_cursor_spec (ConsoleWidth * (ConsoleHeight - 1)) s2)
    as (F1 & F2 & F3 & F4 & F5); [con; lia|].
  set (s3 := console_set_cursor _ s2) in *. clearbody s3.
  match goal with |- con_inv ?x /\ _ => set (s4 := x) end.
  assert (V : vmem s4 = vmem s2 /\ cursor s4 = 1920 /\ console_line_echo s4 = console_line_echo s /\
    hw_synced s4 /\ 0 <= user_cmdline_start s4 < ConsoleCells).
  { unfold s4. destruct (Z.leb_spec ConsoleWidth (user_cmdline_start s3)); cbn [set_cmdline vmem cursor
      console_line_echo user_cmdline_start]; rewrite F3, F1, F5, E3; repeat (split; [done|]);
      rewrite F4, E2 in *; con; lia. }
  destruct V as (V1 & V2 & V3 & V4 & V5).
  assert (HL : forall a, load8 (vmem s4) a =
    if decide (video_memory + 3840 <= a < video_memory + 4000)
    then (if Z.even (a - video_memory - 3840) then 32 else ConsoleAttribute)
    else if decide (video_memory <= a < video_memory + 3840) then load8 (vmem s) (a + 160)
    else load8 (vmem s) a).
  { intros a. rewrite V1, Hb. cbn [set_vmem vmem]. rewrite (Hm a).
    replace (video_memory + 160 + (a - video_memory)) with (a + 160) by lia.
    con. repeat case_decide; done || lia. }
  assert (Hup : forall i, 0 <= i < 1920 -> cell s4 i = cell s (i + 80)).
  { intros i Hi. unfold cell. rewrite !HL. rewrite decide_False, decide_True by lia.
    rewrite decide_False, decide_True by lia.
    replace (video_memory + 2 * i + 160) with (video_memory + 2 * (i + 80)) by lia.
    by replace (video_memory + 2 * i + 1 + 160) with (video_memory + 2 * (i + 80) + 1) by lia. }
  assert (Hlast : forall i, 1920 <= i < 2000 -> cell s4 i = (32, ConsoleAttribute)).
  { intros i Hi. unfold cell. rewrite !HL, !decide_True by lia. f_equal.
    + replace (video_memory + 2 * i - video_memory - 3840) with (0 + 2 * (i - 1920)) by lia.
      by rewrite Z.even_add_mul_2.
    + replace (video_memory + 2 * i + 1 - video_memory - 3840) with (1 + 2 * (i - 1920)) by lia.
      by rewrite Z.even_add_mul_2. }
  split; [split; [rewrite V2; con; lia|done|done]|]. split; [|split; [done|split; [done|split]]].
  - split; [intros a Ha; rewrite HL; con; repeat case_decide; done || lia|].
    intros Ht i Hi. destruct (Z.lt_ge_cases i 1920); [rewrite Hup by lia; apply Ht; con; lia|].
    rewrite Hlast by (con; lia). done.
  - exact Hup.
  - exact Hlast.
Qed.

(** Writing one cell at the cursor. *)
Definition write_cell (c : Z) (s : Console) : Console :=
  put_byte (cursor s * 2 + 1) ConsoleAttribute (put_byte (cursor s * 2) c s).

Lemma write_cell_cells c s i :
  cell (write_cell c s) i = if decide (i = cursor s) then (c mod 256, ConsoleAttribute) else cell s i.
Proof.
  unfold cell, write_cell. rewrite !put_byte_load. cbn [cursor put_byte set_vmem].
  repeat case_decide; done || lia.
Qed.

Lemma write_cell_frame c s : 0 <= cursor s < ConsoleCells -> page_frame s (write_cell c s).
Proof.
  intros Hc. split.
  - intros a Ha. unfold write_cell. rewrite !put_byte_frame by (done || (cbn; con; lia)). done.
  - intros Ht i Hi. rewrite write_cell_cells. case_decide; [done|by apply Ht].
Qed.

(** Moving on after a character: to the next cell, or by scrolling. *)
Definition advance (s : Console) : Console :=
  if ConsoleCells <=? cursor s + 1 then console_scroll s else console_set_cursor (cursor s + 1) s.

Lemma advance_inv s :
  0 <= cursor s < ConsoleCells -> 0 <= user_cmdline_start s < ConsoleCells ->
  con_inv (advance s) /\ page_frame s (advance s) /\
  console_line_echo (advance s) = console_line_echo s /\
  cursor (advance s) = (if decide (cursor s = 1999) then 1920 else cursor s + 1).
Proof.
  intros Hc Hu. unfold advance. destruct (Z.leb_spec ConsoleCells (cursor s + 1)).
  - destruct (console_scroll_spec s Hu) as (H1 & H2 & H3 & H4 & _).
    split; [done|]. split; [done|]. split; [done|]. rewrite decide_True by (con; lia). done.
  - destruct (console_set_cursor_spec (cursor s + 1) s) as (H1 & H2 & H3 & H4 & H5); [lia|].
    split; [split; [rewrite H1; lia|by rewrite H4|done]|].
    split; [by apply page_frame_vmem|]. split; [done|]. rewrite decide_False by (con; lia). done.
Qed.

(** What an ordinary character does before the echo test. *)
Lemma plain_step c s :
  con_inv s ->
  let s1 := advance (write_cell c s) in
  con_inv s1 /\ page_frame s s1 /\ console_line_echo s1 = console_line_echo s /\
  cursor s1 = (if decide (cursor s = 1999) then 1920 else cursor s + 1).
Proof.
  intros [Hc Hu _]. cbv zeta.
  destruct (advance_inv (write_cell c s) Hc Hu) as (H1 & H2 & H3 & H4).
  split; [done|]. split; [|done]. etrans; [by apply write_cell_frame|done].
Qed.

Definition plain (c : Z) : Prop := c <> 10 /\ c <> 9 /\ c <> 8.

Lemma putchar_plain fuel c s :
  plain c ->
  console_putchar (S fuel) c s =
  let s1 := advance (write_cell c s) in
  if console_line_echo s1 && (cursor s1 mod ConsoleWidth =? 0) then
    s ← console_putchar fuel 62 s1; console_putchar fuel 32 s
  else Some s1.
Proof.
  intros (H1 & H2 & H3). cbn [console_putchar].
  by rewrite (proj2 (Z.eqb_neq c 10) H1), (proj2 (Z.eqb_neq c 9) H2), (proj2 (Z.eqb_neq c 8) H3).
Qed.

(** A plain character in the middle of a row, or with no echo, stops there. *)
Lemma putchar_plain_stop fuel c s :
  plain c -> con_inv s ->
  console_line_echo s = false \/ cursor s mod 80 <> 79 ->
  console_putchar (S fuel) c s = Some (advance (write_cell c s)).
Proof.
  intros Hp Hi He. rewrite putchar_plain by done. cbv zeta.
  destruct (plain_step c s Hi) as (_ & _ & -> & ->). pose proof (c_cursor _ Hi) as Hc.
  destruct He as [->|He]; [done|].
  rewrite (proj2 (Z.eqb_neq _ _)), andb_false_r; [done|]. con.
  case_decide; Z.to_euclidean_division_equations; lia.
Qed.

Lemma putchar_plain_inv fuel c s :
  plain c -> con_inv s ->
  exists s', console_putchar (S (S fuel)) c s = Some s' /\ con_inv s' /\ page_frame s s'.
Proof.
  intros Hp Hi. destruct (plain_step c s Hi) as (H1 & H2 & H3 & H4).
  rewrite putchar_plain by done. cbv zeta in *. set (s1 := advance _) in *. clearbody s1.
  destruct (console_line_echo s1 && (cursor s1 mod ConsoleWidth =? 0)) eqn:E; [|by exists s1].
  apply andb_true_iff in E as [_ E%Z.eqb_eq]. con.
  rewrite putchar_plain_stop; [|done|done|right; Z.to_euclidean_division_equations; lia].
  rewrite some_bind. destruct (plain_step 62 s1 H1) as (G1 & G2 & G3 & G4).
  cbv zeta in *. set (s2 := advance _) in *. clearbody s2.
  pose proof (c_cursor _ H1) as Hc1. con.
  rewrite putchar_plain_stop; [|done|done|].
  2: { right. rewrite G4. case_decide; Z.to_euclidean_division_equations; lia. }
  destruct (plain_step 32 s2 G1) as (K1 & K2 & _). eexists. split; [done|]. split; [done|].
  etrans; [done|]. by etrans.
Qed.

(** The branches for the control characters. *)
Lemma putchar_newline fuel s :
  console_putchar (S fuel) 10 s =
  Some (let next := (cursor s / ConsoleWidth + 1) * ConsoleWidth in
        if ConsoleCells <=? next then console_scroll s else console_set_cursor next s).
Proof. done. Qed.

Lemma putchar_tab fuel s :
  console_putchar (S fuel) 9 s =
  (s ← console_putchar fuel 32 s; s ← console_putchar fuel 32 s;
   s ← console_putchar fuel 32 s; console_putchar fuel 32 s).
Proof. done. Qed.

Lemma putchar_backspace fuel s :
  console_putchar (S fuel) 8 s =
  Some (if user_cmdline_start s <? cursor s then
          console_set_cursor (cursor s - 1) (write_cell 32 (set_cursor (cursor s - 1) s))
        else s).
Proof. done. Qed.

Lemma putchar_inv fuel c s :
  con_inv s ->
  exists s', console_putchar (S (S (S fuel))) c s = Some s' /\ con_inv s' /\ page_frame s s'.
Proof.
  intros Hi. destruct (decide (c = 10)) as [->|N1].
  { rewrite putchar_newline. cbv zeta. pose proof Hi as [Hc Hu Hh].
    destruct (Z.leb_spec ConsoleCells ((cursor s / ConsoleWidth + 1) * ConsoleWidth)).
    - destruct (console_scroll_spec s Hu) as (? & ? & _). by eexists.
    - destruct (console_set_cursor_spec ((cursor s / ConsoleWidth + 1) * ConsoleWidth) s)
        as (H1 & H2 & H3 & H4 & H5); [con; Z.to_euclidean_division_equations; lia|].
      eexists. split; [reflexivity|]. split; [|by apply page_frame_vmem].
      split; [rewrite H1; con; Z.to_euclidean_division_equations; lia|by rewrite H4|done]. }
  destruct (decide (c = 9)) as [->|N2].
  { assert (Hsp : forall s, con_inv s -> exists s', console_putchar (S (S fuel)) 32 s = Some s' /\
      con_inv s' /\ page_frame s s') by (intros; by apply putchar_plain_inv).
    rewrite putchar_tab.
    destruct (Hsp s Hi) as (s1 & -> & I1 & F1). rewrite some_bind.
    destruct (Hsp s1 I1) as (s2 & -> & I2 & F2). rewrite some_bind.
    destruct (Hsp s2 I2) as (s3 & -> & I3 & F3). rewrite some_bind.
    destruct (Hsp s3 I3) as (s4 & -> & I4 & F4). exists s4. split; [done|]. split; [done|].
    etrans; [exact F1|]. etrans; [exact F2|]. by etrans. }
  destruct (decide (c = 8)) as [->|N3]; [|by apply putchar_plain_inv].
  rewrite putchar_backspace. pose proof Hi as [Hc Hu Hh].
  destruct (Z.ltb_spec (user_cmdline_start s) (cursor s)); [|by exists s].
  set (s1 := set_cursor (cursor s - 1) s).
  destruct (console_set_cursor_spec (cursor s - 1) (write_cell 32 s1)) as (H1 & H2 & H3 & H4 & H5); [lia|].
  eexists. split; [reflexivity|]. split; [split; [rewrite H1; lia|by rewrite H4|done]|].
  transitivity s1; [done|]. transitivity (write_cell 32 s1); [apply write_cell_frame; cbn; lia|].
  by apply page_frame_vmem.
Qed.

(** The attribute bytes of the first [n] cells. *)
Lemma attr_fill_spec s : forall n, 0 <= n ->
  let s' := foldl (fun s i => put_byte (i * 2 + 1) ConsoleAttribute s) s (seqZ 0 n) in
  forall a, load8 (vmem s') a =
    if decide (video_memory <= a < video_memory + 2 * n /\ Z.even (a - video_memory) = false)
    then ConsoleAttribute else load8 (vmem s) a.
Proof.
  intros n Hn. pattern n. revert n Hn. apply natlike_ind; cbv beta zeta.
  - intros a. rewrite decide_False by lia. done.
  - intros n Hn IH a. rewrite <- Z.add_1_r, seqZ_snoc, foldl_app by done. cbn [foldl].
    rewrite put_byte_load, IH. destruct (decide (video_memory + (n * 2 + 1) = a)) as [<-|N1].
    { rewrite decide_True; [done|]. split; [lia|].
      replace (video_memory + (n * 2 + 1) - video_memory) with (1 + 2 * n) by lia.
      by rewrite Z.even_add_mul_2. }
    assert (Ho : a <> video_memory + 2 * n \/ Z.even (a - video_memory) = true).
    { destruct (decide (a = video_memory + 2 * n)) as [->|]; [right|by left].
      replace (video_memory + 2 * n - video_memory) with (0 + 2 * n) by lia.
      by rewrite Z.even_add_mul_2. }
    apply decide_ext. destruct Ho as [Ho|Ho]; [|rewrite Ho; naive_solver].
    split; (intros [? ?]; split; [lia|done]).
Qed.

Lemma console_clear_spec s :
  con_inv (console_clear s) /\ page_frame s (console_clear s) /\ cursor (console_clear s) = 0 /\
  (forall i, 0 <= i < ConsoleCells -> cell (console_clear s) i = (32, ConsoleAttribute)).
Proof.
  unfold console_clear. cbv zeta. change (ConsoleWidth * ConsoleHeight) with 2000.
  set (m1 := snd (memset _ _ _ _)).
  assert (Hm : forall a, load8 m1 a = if decide (video_memory <= a < video_memory + Z.of_nat (Z.to_nat 4000))
    then 32 mod 256 else load8 (vmem s) a) by (apply memset_loop_spec; split; con; lia).
  clearbody m1. pose proof (attr_fill_spec (set_vmem m1 s) 2000 ltac:(lia)) as Ha. cbv zeta in Ha.
  set (s2 := foldl _ (set_vmem m1 s) _) in *. clearbody s2.
  match goal with |- context [console_set_cursor 0 ?x] => set (s3 := x) end.
  assert (V3 : vmem s3 = vmem s2) by done. clearbody s3.
  destruct (console_set_cursor_spec 0 s3) as (F1 & F2 & F3 & F4 & F5); [con; lia|].
  set (s4 := console_set_cursor 0 s3) in *. clearbody s4.
  assert (HL : forall a, load8 (vmem (set_cmdline 0 s4)) a =
    if decide (video_memory <= a < video_memory + 4000)
    then (if Z.even (a - video_memory) then 32 else ConsoleAttribute) else load8 (vmem s) a).
  { intros a. cbn [set_cmdline vmem]. rewrite F3, V3, Ha. cbn [set_vmem vmem]. rewrite Hm.
    destruct (Z.even (a - video_memory)); repeat case_decide; done || lia. }
  assert (Hcells : forall i, 0 <= i < ConsoleCells -> cell (set_cmdline 0 s4) i = (32, ConsoleAttribute)).
  { intros i Hi. unfold cell. rewrite !HL. con. rewrite !decide_True by lia.
    replace (753664 + 2 * i - 753664) with (0 + 2 * i) by lia.
    replace (753664 + 2 * i + 1 - 753664) with (1 + 2 * i) by lia. by rewrite !Z.even_add_mul_2. }
  split; [split; cbn; [rewrite F1; con; lia|con; lia|done]|]. split; [|split; [done|]].
  - split; [intros a Hp; rewrite HL; con; rewrite decide_False by lia; done|].
    intros _ i Hi. by rewrite Hcells.
  - exact Hcells.
Qed.

(** From the cursor to the end of the page every cell is blank. *)
Definition blank_after (s : Console) : Prop :=
  forall i, cursor s <= i < ConsoleCells -> cell s i = (32, ConsoleAttribute).

Lemma scroll_blank s : 0 <= user_cmdline_start s < ConsoleCells -> blank_after (console_scroll s).
Proof.
  intros Hu. destruct (console_scroll_spec s Hu) as (_ & _ & Hc & _ & _ & Hb).
  intros i. rewrite Hc. exact (Hb i).
Qed.

Lemma set_cursor_blank p s :
  0 <= p < ConsoleCells -> (forall i, p <= i < ConsoleCells -> cell s i = (32, ConsoleAttribute)) ->
  blank_after (console_set_cursor p s).
Proof.
  intros Hp Hb. destruct (console_set_cursor_spec p s Hp) as (Hc & _ & Hv & _).
  intros i. rewrite Hc. unfold cell. rewrite Hv. exact (Hb i).
Qed.

Lemma plain_blank c s : con_inv s -> blank_after s -> blank_after (advance (write_cell c s)).
Proof.
  intros [Hc Hu _] Hb. unfold advance.
  destruct (Z.leb_spec ConsoleCells (cursor (write_cell c s) + 1)) as [|Hlt]; [by apply scroll_blank|].
  change (cursor (write_cell c s)) with (cursor s) in *.
  apply set_cursor_blank; [lia|]. intros i Hi. rewrite write_cell_cells, decide_False by lia. apply Hb. lia.
Qed.

(** The console never leaves anything behind the cursor, and the echo stays. *)
Lemma putchar_blank fuel : forall c s s',
  con_inv s -> blank_after s -> console_putchar fuel c s = Some s' ->
  con_inv s' /\ blank_after s' /\ console_line_echo s' = console_line_echo s.
Proof.
  induction fuel as [|fuel IH]; intros c s s' Hi Hb E; [done|].
  destruct (decide (c = 10)) as [->|N1].
  { rewrite putchar_newline in E. pose proof Hi as [Hc Hu Hh].
    destruct (putchar_inv 0 10 s Hi) as (s1 & E1 & I1 & _). rewrite putchar_newline, E in E1.
    injection E1 as <-. split; [done|]. injection E as <-.
    destruct (Z.leb_spec ConsoleCells ((cursor s / ConsoleWidth + 1) * ConsoleWidth)).
    { split; [by apply scroll_blank|]. by destruct (console_scroll_spec s Hu) as (_ & _ & _ & ? & _). }
    split; [|done]. apply set_cursor_blank; [con; Z.to_euclidean_division_equations; lia|].
    intros i Hi'. apply Hb. con. Z.to_euclidean_division_equations. lia. }
  destruct (decide (c = 9)) as [->|N2].
  { rewrite putchar_tab in E.
    repeat match type of E with
      ((_ ← console_putchar fuel 32 ?x; _) = _) =>
        let y := fresh "y" in let Ey := fresh "Ey" in
        destruct (console_putchar fuel 32 x) as [y|] eqn:Ey; [|done];
        rewrite some_bind in E; apply IH in Ey as (? & ? & ?); [|done..]
    end. apply IH in E as (? & ? & ?); [|done..]. split; [done|]. split; [done|]. congruence. }
  destruct (decide (c = 8)) as [->|N3].
  { rewrite putchar_backspace in E. destruct (putchar_inv 0 8 s Hi) as (s1 & E1 & I1 & _).
    rewrite putchar_backspace, E in E1. injection E1 as <-. split; [done|]. injection E as <-.
    pose proof Hi as [Hc Hu _]. destruct (Z.ltb_spec (user_cmdline_start s) (cursor s)); [|done].
    split; [|done]. apply set_cursor_blank; [lia|]. intros i Hi'. rewrite write_cell_cells.
    change (cursor (set_cursor (cursor s - 1) s)) with (cursor s - 1). case_decide; [done|]. apply Hb. lia. }
  rewrite putchar_plain in E by done. cbv zeta in E.
  destruct (plain_step c s Hi) as (I1 & _ & Q1 & _). pose proof (plain_blank c s Hi Hb) as B1. cbv zeta in I1, Q1.
  set (s1 := advance _) in *. clearbody s1.
  destruct (console_line_echo s1 && _); [|by injection E as <-].
  destruct (console_putchar fuel 62 s1) as [s2|] eqn:E2; [|done]. rewrite some_bind in E.
  apply IH in E2 as (I2 & B2 & Q2); [|done..]. apply IH in E as (? & ? & ?); [|done..].
  split; [done|]. split; [done|]. congruence.
Qed.

Lemma write_blank str : forall s s',
  con_inv s -> blank_after s -> console_write str s = Some s' ->
  con_inv s' /\ blank_after s' /\ console_line_echo s' = console_line_echo s.
Proof.
  induction str as [|c str IH]; intros s s' Hi Hb E; cbn [console_write] in E; [by injection E as <-|].
  destruct (console_putchar putchar_fuel c s) as [s1|] eqn:E1; [|done]. rewrite some_bind in E.
  apply putchar_blank in E1 as (I1 & B1 & Q1); [|done..]. apply IH in E as (? & ? & ?); [|done..].
  split; [done|]. split; [done|]. congruence.
Qed.

Lemma clear_blank s : blank_after (console_clear s).
Proof.
  destruct (console_clear_spec s) as (_ & _ & Hc & Hb). intros i. rewrite Hc. exact (Hb i).
Qed.

Lemma console_write_inv str : forall s, con_inv s ->
  exists s', console_write str s = Some s' /\ con_inv s' /\ page_frame s s'.
Proof.
  induction str as [|c str IH]; intros s Hi; cbn [console_write]; [by exists s|].
  destruct (putchar_inv 1 c s Hi) as (s1 & E & I1 & F1). unfold putchar_fuel. rewrite E, some_bind.
  destruct (IH s1 I1) as (s2 & -> & I2 & F2). exists s2. split; [done|]. split; [done|]. by etrans.
Qed.

Lemma console_prompt_inv s : con_inv s ->
  exists s', console_prompt s = Some s' /\ con_inv s' /\ page_frame s s'.
Proof.
  intros Hi. unfold console_prompt. destruct (console_write_inv [62; 32] s Hi) as (s1 & -> & [H1 H2 H3] & F).
  rewrite some_bind. eexists. split; [done|]. split; [by split|done].
Qed.

(** Writing plain text that fits on the page reads back cell by cell. *)
Lemma console_write_cells str : forall s,
  con_inv s -> console_line_echo s = false -> Forall (fun c => plain c /\ 0 <= c < 256) str ->
  cursor s + Z.of_nat (length str) < ConsoleCells ->
  exists s', console_write str s = Some s' /\ con_inv s' /\ page_frame s s' /\
    cursor s' = cursor s + Z.of_nat (length str) /\
    (forall i, 0 <= i < ConsoleCells ->
       cell s' i = match str !! Z.to_nat (i - cursor s) with
                   | Some c => if decide (cursor s <= i) then (c, ConsoleAttribute) else cell s i
                   | None => cell s i
                   end).
Proof.
  induction str as [|c str IH]; intros s Hi He Hp Hf; cbn [console_write].
  { exists s. cbn. rewrite Z.add_0_r. done. }
  inversion Hp as [|? ? [Hc Hb] Hp']; subst. cbn [length] in Hf. unfold putchar_fuel.
  pose proof (c_cursor _ Hi) as Hcur.
  rewrite (putchar_plain_stop 3 c s Hc Hi) by by left. rewrite some_bind.
  destruct (plain_step c s Hi) as (I1 & F1 & E1 & C1). cbv zeta in *.
  assert (HV : forall i, cell (advance (write_cell c s)) i = cell (write_cell c s) i).
  { intros i. unfold advance. rewrite (proj2 (Z.leb_gt _ _)) by (cbn; lia).
    destruct (console_set_cursor_spec (cursor (write_cell c s) + 1) (write_cell c s)) as (_ & _ & HV & _);
      [cbn; lia|]. unfold cell. by rewrite HV. }
  set (s1 := advance _) in *. clearbody s1. rewrite decide_False in C1 by (con; lia).
  destruct (IH s1 I1) as (s2 & -> & I2 & F2 & C2 & K2); [congruence|done|lia|].
  exists s2. split; [done|]. split; [done|]. split; [by etrans|].
  split; [cbn [length]; lia|]. intros i Hi'. rewrite (K2 i Hi'), HV, write_cell_cells, C1.
  destruct (decide (i = cursor s)) as [->|Hne].
  { replace (Z.to_nat (cursor s - (cursor s + 1))) with 0%nat by lia.
    rewrite Z.sub_diag. change ((c :: str) !! Z.to_nat 0) with (Some c). cbv iota.
    rewrite (decide_True (P := cursor s <= cursor s)) by lia.
    rewrite Z.mod_small by lia. destruct str; cbn; [done|]. by rewrite decide_False by lia. }
  destruct (decide (cursor s < i)).
  - replace (Z.to_nat (i - cursor s)) with (S (Z.to_nat (i - (cursor s + 1)))) by lia.
    cbn [lookup list_lookup]. destruct (str !! _); [|done]. by rewrite !decide_True by lia.
  - destruct (str !! _), ((c :: str) !! _); rewrite ?decide_False by lia; done.
Qed.

(** ** The theorems *)

Inductive con_op := CPut (c : Z) | CWrite (str : list Z) | CPrompt | CClear | CEcho (b : bool).

Definition con_step (op : con_op) (s : Console) : option Console :=
  match op with
  | CPut c => console_putchar putchar_fuel c s
  | CWrite str => console_write str s
  | CPrompt => console_prompt s
  | CClear => Some (console_clear s)
  | CEcho b => Some (mkConsole (vmem s) (cursor s) (user_cmdline_start s) b (outs s))
  end.

Fixpoint con_run (ops : list con_op) (s : Console) : option Console :=
  match ops with
  | [] => Some s
  | op :: ops => s ← con_step op s; con_run ops s
  end.

Lemma con_step_inv op s : con_inv s ->
  exists s', con_step op s = Some s' /\ con_inv s' /\ page_frame s s'.
Proof.
  intros Hi. destruct op; cbn [con_step].
  - by apply (putchar_inv 1).
  - by apply console_write_inv.
  - by apply console_prompt_inv.
  - destruct (console_clear_spec s) as (? & ? & _). by eexists.
  - destruct Hi. eexists. split; [done|]. by split.
Qed.

Lemma con_run_inv ops : forall s, con_inv s ->
  exists s', con_run ops s = Some s' /\ con_inv s' /\ page_frame s s'.
Proof.
  induction ops as [|op ops IH]; intros s Hi; cbn [con_run]; [by exists s|].
  destruct (con_step_inv op s Hi) as (s1 & -> & I1 & F1). rewrite some_bind.
  destruct (IH s1 I1) as (s2 & -> & I2 & F2). exists s2. split; [done|]. split; [done|]. by etrans.
Qed.

(** C31. The console stays well-formed. After console_clear, any sequence of
    console calls with any bytes (control characters, tabs, echoed command
    lines, scrolling) returns, keeps the cursor and the command-line start on
    the 80x25 page with the hardware cursor set to the same place and every cell
    of the page a character in the console's colours, and never writes a byte
    outside the page. *)
Theorem console_safe ops s0 :
  exists s', con_run (CClear :: ops) s0 = Some s' /\ con_inv s' /\ page_typed s' /\
    forall a, ~ in_page a -> load8 (vmem s') a = load8 (vmem s0) a.
Proof.
  cbn [con_run con_step]. rewrite some_bind. destruct (console_clear_spec s0) as (Hi & F & _ & Hc).
  destruct (con_run_inv ops _ Hi) as (s' & E & I' & F'). exists s'. split; [done|]. split; [done|].
  split; [apply F'; intros i Hi'; by rewrite Hc|]. by apply (page_frame_trans _ _ _ F F').
Qed.

(** Plain text that fits on the page reads back: with echo off,
    console_write puts each character in its own cell from the cursor on with
    the console's attribute, changes no other cell, and leaves the cursor after
    the last one. *)
Theorem console_write_reads_back str s :
  con_inv s -> console_line_echo s = false -> Forall (fun c => plain c /\ 0 <= c < 256) str ->
  cursor s + Z.of_nat (length str) < ConsoleCells ->
  exists s', console_write str s = Some s' /\ con_inv s' /\ page_frame s s' /\
    cursor s' = cursor s + Z.of_nat (length str) /\
    (forall i, 0 <= i < ConsoleCells ->
       cell s' i = match str !! Z.to_nat (i - cursor s) with
                   | Some c => if decide (cursor s <= i) then (c, ConsoleAttribute) else cell s i
                   | None => cell s i
                   end).
Proof. apply console_write_cells. Qed.

Definition sample_console : Console :=
  mkConsole ∅ 1 0 false [(981, 0); (980, 14); (981, 1); (980, 15)].

Lemma console_write_reads_back_witness :
  exists s', console_write [72; 105] sample_console = Some s' /\ cursor s' = 3 /\
    cell s' 2 = (105, ConsoleAttribute).
Proof.
  destruct (console_write_reads_back [72; 105] sample_console)
    as (s' & E & _ & _ & Hc & Hcell).
  - split; [cbn; con; lia|cbn; con; lia|by eexists].
  - done.
  - repeat constructor; done || lia.
  - cbn. con. lia.
  - exists s'. split; [exact E|]. split; [exact Hc|]. apply (Hcell 2). con. lia.
Defined.

(** Scrolling moves every row up by one, blanks the bottom row, puts the
    cursor at its start and moves the command-line start up with the text. *)
Theorem console_scroll_correct s :
  0 <= user_cmdline_start s < ConsoleCells ->
  con_inv (console_scroll s) /\ page_frame s (console_scroll s) /\
  cursor (console_scroll s) = 1920 /\ console_line_echo (console_scroll s) = console_line_echo s /\
  (forall i, 0 <= i < 1920 -> cell (console_scroll s) i = cell s (i + 80)) /\
  (forall i, 1920 <= i < 2000 -> cell (console_scroll s) i = (32, ConsoleAttribute)).
Proof. apply console_scroll_spec. Qed.

Lemma console_scroll_correct_witness : cell (console_scroll sample_console) 1999 = (32, ConsoleAttribute).
Proof. apply (console_scroll_correct sample_console); [cbn; con|]; lia. Defined.
