(* ===== verification/Stdio.v ===== *)
(** * Formatted output (lib/stdio.c, kernel/debug.c)

    kprintf and the hexadecimal printers, over any character device; the device
    they are used with is the console. *)

From S2P Require Import Prelude Strings Console.

(** ** Operations *)

(** A variadic argument: a word, or a string. *)
Inductive Arg := AWord (v : Z) | AStr (str : list Z).

Definition dec_digits : list Z := [48; 49; 50; 51; 52; 53; 54; 55; 56; 57].
Definition hex_lower : list Z := dec_digits ++ [97; 98; 99; 100; 101; 102].
Definition hex_upper : list Z := dec_digits ++ [65; 66; 67; 68; 69; 70].

Section Device.
Context {Dev : Type} (console_putchar : Z -> Dev -> option Dev).

Fixpoint put_string (str : list Z) (s : Dev) : option Dev :=
  match str with
  | [] => Some s
  | c :: str => s ← console_putchar c s; put_string str s
  end.

(** The do-while loop that fills [buf], least significant digit first. *)
Definition fill_digits (value base : Z) (digits : list Z) : option (list Z * nat) :=
  loop 33 (fun '(buf, i, value) =>
    let buf := <[i := default 0 (digits !! Z.to_nat (value mod base))]> buf in
    let i := S i in
    let value := value / base in
    if 0 <? value then Some (inl (buf, i, value)) else Some (inr (buf, i)))
    (replicate 16 0, 0%nat, value).

(** [while (i > 0) console_putchar(buf[--i]);] *)
Fixpoint drain (buf : list Z) (i : nat) (s : Dev) : option Dev :=
  match i with
  | O => Some s
  | S i => s ← console_putchar (default 0 (buf !! i)) s; drain buf i s
  end.

Definition print_u32 (value base : Z) (digits : list Z) (s : Dev) : option Dev :=
  '(buf, i) ← fill_digits value base digits; drain buf i s.

(** [None] also stands for an argument that is missing or of the wrong kind,
    which C leaves undefined. *)
Fixpoint kprintf (fmt : list Z) (args : list Arg) (s : Dev) : option Dev :=
  match fmt with
  | [] => Some s
  | c :: fmt =>
      if negb (c =? 37) then s ← console_putchar c s; kprintf fmt args s
      else match fmt with
      | [] => Some s
      | k :: fmt =>
          if k =? 99 then
            match args with
            | AWord v :: args => s ← console_putchar (v mod 256) s; kprintf fmt args s
            | _ => None
            end
          else if k =? 115 then
            match args with
            | AStr str :: args => s ← put_string str s; kprintf fmt args s
            | _ => None
            end
          else if (k =? 100) || (k =? 105) then
            match args with
            | AWord v :: args =>
                let val := to_s32 v in
                s ← (if val <? 0 then
                       s ← console_putchar 45 s;
                       print_u32 (wrap32 (- (val + 1)) +w 1) 10 dec_digits s
                     else print_u32 (wrap32 val) 10 dec_digits s);
                kprintf fmt args s
            | _ => None
            end
          else if k =? 117 then
            match args with
            | AWord v :: args => s ← print_u32 v 10 dec_digits s; kprintf fmt args s
            | _ => None
            end
          else if k =? 120 then
            match args with
            | AWord v :: args => s ← print_u32 v 16 hex_lower s; kprintf fmt args s
            | _ => None
            end
          else if k =? 88 then
            match args with
            | AWord v :: args => s ← print_u32 v 16 hex_upper s; kprintf fmt args s
            | _ => None
            end
          else if k =? 37 then s ← console_putchar 37 s; kprintf fmt args s
          else s ← console_putchar k s; kprintf fmt args s
      end
  end.

Definition debug_print_hex8 (v : Z) (s : Dev) : option Dev :=
  s ← console_putchar (default 0 (hex_upper !! Z.to_nat (Z.shiftr v 4))) s;
  console_putchar (default 0 (hex_upper !! Z.to_nat (Z.land v 15))) s.

(** [for (int i = 28; i >= 0; i -= 4)] *)
Definition debug_print_hex32 (v : Z) (s : Dev) : option Dev :=
  foldl (fun s i => s ← s; console_putchar
           (default 0 (hex_upper !! Z.to_nat (Z.land (Z.shiftr v i) 15))) s)
    (Some s) [28; 24; 20; 16; 12; 8; 4; 0].

End Device.

(** ** What is printed *)

(** Positional notation: the digits of a number, most significant first. *)
Fixpoint le_digits (fuel : nat) (base v : Z) : list Z :=
  match fuel with
  | O => []
  | S fuel => v mod base :: (if 0 <? v / base then le_digits fuel base (v / base) else [])
  end.
Definition digits_of (base v : Z) : list Z := rev (le_digits 32 base v).

Definition glyphs (digits ds : list Z) : list Z := (fun d => default 0 (digits !! Z.to_nat d)) <$> ds.

(** Reading a numeral. *)
Definition eval (base : Z) (ds : list Z) : Z := foldl (fun a d => a * base + d) 0 ds.

(** The characters a format and its arguments stand for. *)
Definition render_signed (val : Z) : list Z :=
  if val <? 0 then 45 :: glyphs dec_digits (digits_of 10 (- val))
  else glyphs dec_digits (digits_of 10 val).

Fixpoint render (fmt : list Z) (args : list Arg) : option (list Z) :=
  match fmt with
  | [] => Some []
  | c :: fmt =>
      if decide (c <> 37) then cons c <$> render fmt args
      else match fmt with
      | [] => Some []
      | k :: fmt =>
          if decide (k = 99 \/ k = 115 \/ k = 100 \/ k = 105 \/ k = 117 \/ k = 120 \/ k = 88) then
            match args with
            | AStr str :: args => if decide (k = 115) then app str <$> render fmt args else None
            | AWord v :: args =>
                if decide (k = 115) then None
                else app (if decide (k = 99) then [v mod 256]
                          else if decide (k = 117) then glyphs dec_digits (digits_of 10 v)
                          else if decide (k = 120) then glyphs hex_lower (digits_of 16 v)
                          else if decide (k = 88) then glyphs hex_upper (digits_of 16 v)
                          else render_signed (to_s32 v)) <$> render fmt args
            | [] => None
            end
          else cons k <$> render fmt args
      end
  end.

(** ** Digits *)

Lemma eval_snoc base ds d : eval base (ds ++ [d]) = eval base ds * base + d.
Proof. unfold eval. by rewrite foldl_app. Qed.

Lemma le_digits_spec base : 2 <= base -> forall fuel v, 0 <= v < base ^ Z.of_nat fuel ->
  eval base (rev (le_digits fuel base v)) = v /\
  Forall (fun d => 0 <= d < base) (le_digits fuel base v).
Proof.
  intros Hb. induction fuel as [|fuel IH]; intros v Hv.
  { cbn in *. split; [lia|constructor]. }
  cbn [le_digits]. rewrite Nat2Z.inj_succ, Z.pow_succ_r in Hv by lia.
  pose proof (Z.mod_pos_bound v base ltac:(lia)) as Hm. pose proof (Z.div_mod v base ltac:(lia)) as Hd.
  destruct (Z.ltb_spec 0 (v / base)) as [Hpos|Hz].
  - destruct (IH (v / base)) as [E F].
    { split; [lia|]. apply Z.div_lt_upper_bound; lia. }
    cbn [rev]. split; [rewrite eval_snoc, E; lia|by constructor].
  - assert (v / base = 0) by (pose proof (Z.div_pos v base ltac:(lia) ltac:(lia)); lia).
    cbn. split; [lia|]. constructor; [done|constructor].
Qed.

Lemma digits_of_eval base v :
  2 <= base -> 0 <= v < 4294967296 -> eval base (digits_of base v) = v.
Proof.
  intros Hb Hv. apply le_digits_spec; [done|]. split; [lia|].
  apply Z.lt_le_trans with (2 ^ 32); [lia|]. apply Z.pow_le_mono_l. lia.
Qed.

(** In base 10 or more, at most ten digits. *)
Lemma le_digits_length base : 10 <= base -> forall n fuel v, 0 <= v < 10 ^ Z.of_nat n -> (0 < n)%nat ->
  (length (le_digits fuel base v) <= n)%nat.
Proof.
  intros Hb. induction n as [|n IH]; intros fuel v Hv Hn; [lia|].
  destruct fuel as [|fuel]; [cbn; lia|]. cbn [le_digits length].
  rewrite Nat2Z.inj_succ, Z.pow_succ_r in Hv by lia.
  destruct (Z.ltb_spec 0 (v / base)) as [Hpos|Hz]; [|cbn; lia].
  assert (Hlt : v / base < 10 ^ Z.of_nat n).
  { apply Z.div_lt_upper_bound; [lia|]. nia. }
  assert (0 < n)%nat by (destruct n; [cbn in Hlt; lia|lia]).
  specialize (IH fuel (v / base) ltac:(lia) ltac:(done)). lia.
Qed.

(** The buffer loop writes the digits, and never past [buf]. *)
Lemma fill_loop digits base : 10 <= base -> forall fuel dfuel buf i v,
  0 <= v < base ^ Z.of_nat dfuel -> (dfuel <= fuel)%nat -> (0 < dfuel)%nat ->
  (i + length (le_digits dfuel base v) <= length buf)%nat ->
  exists buf', loop fuel (fun '(buf, i, value) =>
      let buf := <[i := default 0 (digits !! Z.to_nat (value mod base))]> buf in
      let i := S i in
      let value := value / base in
      if 0 <? value then Some (inl (buf, i, value)) else Some (inr (buf, i))) (buf, i, v) =
    Some (buf', (i + length (le_digits dfuel base v))%nat) /\
    take (i + length (le_digits dfuel base v)) buf' = take i buf ++ glyphs digits (le_digits dfuel base v) /\
    length buf' = length buf.
Proof.
  intros Hb. induction fuel as [|fuel IH]; intros dfuel buf i v Hv Hf Hd Hlen; [lia|].
  destruct dfuel as [|dfuel]; [lia|]. rewrite loop_unfold. cbv zeta. cbn [le_digits] in *.
  rewrite Nat2Z.inj_succ, Z.pow_succ_r in Hv by lia.
  set (buf1 := <[i := _]> buf).
  assert (Hi : (i < length buf)%nat) by (destruct (0 <? v / base); cbn in Hlen; lia).
  assert (Ht : take (S i) buf1 = take i buf ++ glyphs digits [v mod base]).
  { unfold buf1. rewrite (take_S_r _ _ (default 0 (digits !! Z.to_nat (v mod base)))).
    - by rewrite take_insert_ge.
    - by apply list_lookup_insert_eq. }
  assert (L1 : length buf1 = length buf) by apply length_insert.
  destruct (Z.ltb_spec 0 (v / base)) as [Hpos|Hz].
  - assert (Hq : 0 <= v / base < base ^ Z.of_nat dfuel).
    { split; [lia|]. apply Z.div_lt_upper_bound; lia. }
    destruct (IH dfuel buf1 (S i) (v / base)) as (buf' & -> & Ht' & L');
      [done|lia|destruct dfuel; [cbn in Hq; lia|lia]|cbn [length] in Hlen; lia|].
    exists buf'. cbn [length]. replace (i + S (length (le_digits dfuel base (v / base))))%nat
      with (S i + length (le_digits dfuel base (v / base)))%nat by lia.
    split; [done|]. split; [|lia]. rewrite Ht', Ht, <- app_assoc. done.
  - exists buf1. cbn [length]. replace (i + 1)%nat with (S i) by lia. split; [done|]. split; [exact Ht|done].
Qed.

Lemma fill_digits_spec v base digits :
  10 <= base -> 0 <= v < 4294967296 ->
  exists buf n, fill_digits v base digits = Some (buf, n) /\ (n <= 10)%nat /\ length buf = 16%nat /\
    rev (take n buf) = glyphs digits (digits_of base v).
Proof.
  intros Hb Hv.
  assert (HL : (length (le_digits 32 base v) <= 10)%nat) by (apply le_digits_length; [done|cbn; lia|lia]).
  destruct (fill_loop digits base Hb 33 32 (replicate 16 0) 0 v) as (buf & E & Ht & L).
  - split; [lia|]. apply Z.lt_le_trans with (2 ^ 32); [lia|]. apply Z.pow_le_mono_l. lia.
  - lia.
  - lia.
  - rewrite length_replicate. lia.
  - exists buf, (length (le_digits 32 base v)). split; [exact E|]. split; [done|].
    split; [by rewrite L, length_replicate|]. cbn [Nat.add take app] in Ht. rewrite Ht.
    unfold glyphs, digits_of. symmetry. apply map_rev.
Qed.

Section DeviceFacts.
Context {Dev : Type} (putc : Z -> Dev -> option Dev).

Lemma put_string_app a b s :
  put_string putc (a ++ b) s = (s ← put_string putc a s; put_string putc b s).
Proof.
  revert s. induction a as [|c a IH]; intros s; [done|]. cbn [app put_string].
  destruct (putc c s); [|done]. by rewrite !some_bind, IH.
Qed.

Lemma drain_spec buf : forall i s, (i <= length buf)%nat ->
  drain putc buf i s = put_string putc (rev (take i buf)) s.
Proof.
  induction i as [|i IH]; intros s Hi; [done|]. cbn [drain].
  destruct (lookup_lt_is_Some_2 buf i) as [c Hc]; [lia|].
  rewrite (take_S_r _ _ c Hc), rev_app_distr. cbn [rev app put_string].
  rewrite Hc. change (default 0 (Some c)) with c. destruct (putc c s); [|done].
  rewrite !some_bind. apply IH. lia.
Qed.

Lemma print_u32_spec v base digits s :
  10 <= base -> 0 <= v < 4294967296 ->
  print_u32 putc v base digits s = put_string putc (glyphs digits (digits_of base v)) s.
Proof.
  intros Hb Hv. destruct (fill_digits_spec v base digits Hb Hv) as (buf & n & E & Hn & HL & HR).
  unfold print_u32. rewrite E, some_bind, drain_spec, HR by lia. done.
Qed.

(** The argument list holds 32-bit words. *)
Definition arg_ok (a : Arg) : Prop := match a with AWord v => 0 <= v < 4294967296 | AStr _ => True end.

Lemma print_signed v s :
  0 <= v < 4294967296 ->
  (if to_s32 v <? 0 then
     s ← putc 45 s; print_u32 putc (wrap32 (- (to_s32 v + 1)) +w 1) 10 dec_digits s
   else print_u32 putc (wrap32 (to_s32 v)) 10 dec_digits s) =
  put_string putc (render_signed (to_s32 v)) s.
Proof.
  intros Hv. assert (Hr : -2147483648 <= to_s32 v < 2147483648).
  { unfold to_s32. case_match; lia. }
  unfold render_signed. destruct (Z.ltb_spec (to_s32 v) 0).
  - cbn [put_string]. destruct (putc 45 s); [|done]. rewrite !some_bind. unwrap.
    replace (- (to_s32 v + 1) + 1) with (- to_s32 v) by lia. apply print_u32_spec; lia.
  - unwrap. apply print_u32_spec; lia.
Qed.

(** One piece of output followed by the rest. *)
Lemma emit_then (r : Dev -> option Dev) (k : Dev -> option Dev) piece rest s :
  r s = put_string putc piece s -> (forall s, k s = put_string putc rest s) ->
  (s ← r s; k s) = put_string putc (piece ++ rest) s.
Proof.
  intros H1 H2. rewrite put_string_app, H1. destruct (put_string putc piece s); [|done].
  by rewrite !some_bind.
Qed.

Lemma put_one c s : putc c s = put_string putc [c] s.
Proof. cbn. by destruct (putc c s). Qed.

Lemma kprintf_loop n : forall fmt args out s,
  (length fmt <= n)%nat -> Forall arg_ok args -> render fmt args = Some out ->
  kprintf putc fmt args s = put_string putc out s.
Proof.
  induction n as [|n IH]; intros fmt args out s Hn Ha Hr.
  { destruct fmt; [|cbn in Hn; lia]. by injection Hr as <-. }
  destruct fmt as [|c fmt]; [by injection Hr as <-|]. cbn [length kprintf render] in *.
  destruct (Z.eqb_spec c 37) as [->|Hc]; cbn [negb].
  2: { rewrite decide_True in Hr by done. apply fmap_Some in Hr as (rest & Hr & ->).
       apply (emit_then (putc c) _ [c]); [apply put_one|]. intros. apply IH; [lia|done|done]. }
  rewrite decide_False in Hr by tauto.
  destruct fmt as [|k fmt]; [by injection Hr as <-|]. cbn [length] in Hn.
  assert (IHk : forall args rest s, Forall arg_ok args -> render fmt args = Some rest ->
    kprintf putc fmt args s = put_string putc rest s) by (intros; apply IH; [lia|done|done]).
  destruct (decide (k = 99 \/ k = 115 \/ k = 100 \/ k = 105 \/ k = 117 \/ k = 120 \/ k = 88)) as [Hk|Hk].
  2: { apply fmap_Some in Hr as (rest & Hr & ->).
       rewrite (proj2 (Z.eqb_neq k 99)), (proj2 (Z.eqb_neq k 115)), (proj2 (Z.eqb_neq k 100)),
         (proj2 (Z.eqb_neq k 105)), (proj2 (Z.eqb_neq k 117)), (proj2 (Z.eqb_neq k 120)),
         (proj2 (Z.eqb_neq k 88)) by tauto. cbn [orb].
       destruct (Z.eqb_spec k 37) as [->|]; (apply (emit_then (putc _) _ [_]); [apply put_one|eauto]). }
  destruct args as [|[v|str] args]; [done|..]; inversion Ha as [|? ? Hv Ha']; subst; cbn in Hv.
  - destruct (decide (k = 115)); [done|]. apply fmap_Some in Hr as (rest & Hr & ->).
    destruct (Z.eqb_spec k 99) as [->|N1].
    { rewrite decide_True by done. apply (emit_then (putc _)); [apply put_one|eauto]. }
    destruct (Z.eqb_spec k 115); [done|].
    destruct ((k =? 100) || (k =? 105)) eqn:Ed.
    { apply orb_true_iff in Ed as [->%Z.eqb_eq| ->%Z.eqb_eq];
        rewrite !decide_False by lia; cbv zeta;
        (apply (emit_then (fun s => if to_s32 v <? 0 then _ else _)); [by apply print_signed|eauto]). }
    apply orb_false_iff in Ed as [N3%Z.eqb_neq N4%Z.eqb_neq].
    destruct (Z.eqb_spec k 117) as [->|N5].
    { rewrite decide_False, decide_True by lia.
      apply (emit_then (print_u32 putc v 10 dec_digits)); [by apply print_u32_spec|eauto]. }
    destruct (Z.eqb_spec k 120) as [->|N6].
    { rewrite !decide_False, decide_True by lia.
      apply (emit_then (print_u32 putc v 16 hex_lower)); [by apply print_u32_spec|eauto]. }
    assert (k = 88) as -> by lia. cbn [Z.eqb Pos.eqb]. rewrite !decide_False, decide_True by lia.
    apply (emit_then (print_u32 putc v 16 hex_upper)); [by apply print_u32_spec|eauto].
  - destruct (decide (k = 115)) as [->|]; [|done]. apply fmap_Some in Hr as (rest & Hr & ->).
    cbn [Z.eqb Pos.eqb]. apply (emit_then (put_string putc str)); [done|eauto].
Qed.

End DeviceFacts.

(** ** Reading back *)

Definition unglyph (digits : list Z) (c : Z) : Z :=
  match list_find (fun x => x = c) digits with Some (i, _) => Z.of_nat i | None => 0 end.
Definition read (base : Z) (digits out : list Z) : Z := eval base (unglyph digits <$> out).
Definition read_signed (out : list Z) : Z :=
  match out with
  | 45 :: out => - read 10 dec_digits out
  | _ => read 10 dec_digits out
  end.

Definition faithful (base : Z) (digits : list Z) : Prop :=
  Forall (fun d => unglyph digits (default 0 (digits !! Z.to_nat d)) = d) (seqZ 0 base).

Lemma faithful_dec : faithful 10 dec_digits.
Proof. by apply (bool_decide_unpack _); vm_compute. Qed.
Lemma faithful_lower : faithful 16 hex_lower.
Proof. by apply (bool_decide_unpack _); vm_compute. Qed.
Lemma faithful_upper : faithful 16 hex_upper.
Proof. by apply (bool_decide_unpack _); vm_compute. Qed.

Lemma unglyph_glyphs base digits ds :
  faithful base digits -> Forall (fun d => 0 <= d < base) ds -> unglyph digits <$> glyphs digits ds = ds.
Proof.
  intros Hf Hd. unfold glyphs. rewrite <- list_fmap_compose. rewrite <- (list_fmap_id ds) at 2.
  apply list_fmap_ext. intros i d Hi. cbn. unfold faithful in Hf. rewrite Forall_forall in Hf, Hd.
  apply Hf, elem_of_seqZ. pose proof (Hd d (elem_of_list_lookup_2' _ _ _ Hi)). lia.
Qed.

Lemma digits_of_range base v :
  2 <= base -> 0 <= v < 4294967296 -> Forall (fun d => 0 <= d < base) (digits_of base v).
Proof.
  intros Hb Hv. unfold digits_of. apply Forall_rev. apply le_digits_spec; [done|]. split; [lia|].
  apply Z.lt_le_trans with (2 ^ 32); [lia|]. apply Z.pow_le_mono_l. lia.
Qed.

Lemma read_numeral base digits v :
  2 <= base -> faithful base digits -> 0 <= v < 4294967296 ->
  read base digits (glyphs digits (digits_of base v)) = v.
Proof.
  intros Hb Hf Hv. unfold read. rewrite (unglyph_glyphs base) by (done || by apply digits_of_range).
  by apply digits_of_eval.
Qed.

(** No numeral starts with a minus sign. *)
Lemma glyphs_not_minus ds : Forall (fun d => 0 <= d < 10) ds -> head (glyphs dec_digits ds) <> Some 45.
Proof.
  intros [|d ds' Hd _]; [done|]. cbn. intros [= E].
  assert (Hall : Forall (fun d => default 0 (dec_digits !! Z.to_nat d) <> 45) (seqZ 0 10))
    by (by apply (bool_decide_unpack _); vm_compute).
  rewrite Forall_forall in Hall. apply (Hall d); [apply elem_of_seqZ; lia|done].
Qed.

Lemma read_render_signed val :
  -2147483648 <= val < 2147483648 -> read_signed (render_signed val) = val.
Proof.
  intros Hv. unfold render_signed. destruct (Z.ltb_spec val 0).
  - cbn [read_signed]. rewrite read_numeral by (apply faithful_dec || lia). lia.
  - pose proof (glyphs_not_minus (digits_of 10 val) (digits_of_range 10 val ltac:(lia) ltac:(lia))) as Hm.
    transitivity (read 10 dec_digits (glyphs dec_digits (digits_of 10 val))).
    + unfold read_signed. destruct (glyphs dec_digits _) as [|c l]; [done|]. cbn in Hm.
      repeat case_match; congruence.
    + apply read_numeral; [lia|apply faithful_dec|lia].
Qed.

Lemma nibble v i : 0 <= v -> 0 <= i -> Z.land (Z.shiftr v i) 15 = (v / 2 ^ i) mod 16.
Proof. intros. rewrite Z.shiftr_div_pow2 by done. by apply (Z.land_ones _ 4). Qed.

(** The eight nibbles debug_print_hex32 prints. *)
Definition nibbles (v : Z) : list Z := (fun i => (v / 2 ^ i) mod 16) <$> [28; 24; 20; 16; 12; 8; 4; 0].

Lemma nibbles_eval v : 0 <= v < 4294967296 -> eval 16 (nibbles v) = v.
Proof.
  intros Hv. unfold eval, nibbles. cbn [fmap list_fmap foldl].
  change (2 ^ 28) with 268435456. change (2 ^ 24) with 16777216. change (2 ^ 20) with 1048576.
  change (2 ^ 16) with 65536. change (2 ^ 12) with 4096. change (2 ^ 8) with 256.
  change (2 ^ 4) with 16. change (2 ^ 0) with 1. rewrite Z.div_1_r.
  assert (Hs : forall k, 0 < k -> v / (16 * k) = v / k / 16)
    by (intros k Hk; rewrite Z.div_div by lia; f_equal; lia).
  pose proof (Hs 1 ltac:(lia)) as E0. rewrite Z.div_1_r in E0.
  change (16 * 1) with 16 in E0.
  pose proof (Hs 16 ltac:(lia)) as E1. pose proof (Hs 256 ltac:(lia)) as E2.
  pose proof (Hs 4096 ltac:(lia)) as E3. pose proof (Hs 65536 ltac:(lia)) as E4.
  pose proof (Hs 1048576 ltac:(lia)) as E5. pose proof (Hs 16777216 ltac:(lia)) as E6.
  pose proof (Hs 268435456 ltac:(lia)) as E7. 
  change (16 * 16) with 256 in E1. change (16 * 256) with 4096 in E2. change (16 * 4096) with 65536 in E3.
  change (16 * 65536) with 1048576 in E4. change (16 * 1048576) with 16777216 in E5.
  change (16 * 16777216) with 268435456 in E6. change (16 * 268435456) with 4294967296 in E7.
  assert (E8 : v / 4294967296 = 0) by (apply Z.div_small; lia).
  assert (Hm : forall x, x = 16 * (x / 16) + x mod 16) by (intros; apply Z.div_mod; lia).
  pose proof (Hm v). pose proof (Hm (v / 16)). pose proof (Hm (v / 256)). pose proof (Hm (v / 4096)).
  pose proof (Hm (v / 65536)). pose proof (Hm (v / 1048576)). pose proof (Hm (v / 16777216)).
  pose proof (Hm (v / 268435456)). lia.
Qed.

Lemma put_string_console str s :
  put_string (console_putchar putchar_fuel) str s = console_write str s.
Proof.
  revert s. induction str as [|c str IH]; intros s; [done|]. cbn [put_string console_write].
  destruct (console_putchar putchar_fuel c s); [|done]. by rewrite !some_bind, IH.
Qed.

Lemma debug_hex32_string {Dev} (putc : Z -> Dev -> option Dev) v s :
  0 <= v -> debug_print_hex32 putc v s = put_string putc (glyphs hex_upper (nibbles v)) s.
Proof.
  intros Hv. unfold debug_print_hex32, glyphs, nibbles. cbn [foldl fmap list_fmap put_string].
  rewrite !nibble by lia.
  repeat match goal with
  | |- context [Some ?x ≫= ?f] => rewrite (some_bind x f)
  | |- context [putc ?c s] => destruct (putc c s) as [s'|]; [clear s; rename s' into s|done]
  end.
  done.
Qed.

(** ** The theorems *)

(** C32. kprintf prints exactly the characters its format and arguments stand
    for, on any format: it is console_write of the rendered text, it returns,
    and it keeps the console's invariant and everything outside the page. *)
Theorem kprintf_correct fmt args out s :
  con_inv s -> Forall arg_ok args -> render fmt args = Some out ->
  kprintf (console_putchar putchar_fuel) fmt args s = console_write out s /\
  exists s', console_write out s = Some s' /\ con_inv s' /\ page_frame s s'.
Proof.
  intros Hi Ha Hr. split; [|by apply console_write_inv].
  rewrite (kprintf_loop _ (length fmt) fmt args out s) by done. apply put_string_console.
Qed.

(** The format "%d:%x" on -5 and 255. *)
Lemma kprintf_correct_witness :
  kprintf (console_putchar putchar_fuel) [37; 100; 58; 37; 120] [AWord 4294967291; AWord 255]
    sample_console = console_write [45; 53; 58; 102; 102] sample_console.
Proof.
  apply (kprintf_correct [37; 100; 58; 37; 120] [AWord 4294967291; AWord 255]).
  - split; [cbn; con; lia|cbn; con; lia|by eexists].
  - repeat constructor; cbn; lia.
  - by vm_compute.
Defined.

(** C33. Printed numbers read back: for every 32-bit argument, %d prints a
    numeral whose signed decimal value is the argument as an s32, the most
    negative one included; %u, %x and %X print its unsigned value; and
    debug_print_hex32 prints eight hexadecimal digits of it. *)
Theorem printed_numbers_read_back v (s : Console) :
  0 <= v < 4294967296 ->
  let putc := console_putchar putchar_fuel in
  (exists out, kprintf putc [37; 100] [AWord v] s = put_string putc out s /\ read_signed out = to_s32 v) /\
  (exists out, kprintf putc [37; 117] [AWord v] s = put_string putc out s /\ read 10 dec_digits out = v) /\
  (exists out, kprintf putc [37; 120] [AWord v] s = put_string putc out s /\ read 16 hex_lower out = v) /\
  (exists out, kprintf putc [37; 88] [AWord v] s = put_string putc out s /\ read 16 hex_upper out = v) /\
  (exists out, debug_print_hex32 putc v s = put_string putc out s /\ length out = 8%nat /\
     read 16 hex_upper out = v).
Proof.
  intros Hv putc. assert (Ha : Forall arg_ok [AWord v]) by (repeat constructor; cbn; lia).
  assert (Hnum : forall k out, render [37; k] [AWord v] = Some (out ++ []) ->
    kprintf putc [37; k] [AWord v] s = put_string putc out s).
  { intros k out Hr. rewrite app_nil_r in Hr. by apply (kprintf_loop putc 2). }
  split; [|split; [|split; [|split]]].
  - exists (render_signed (to_s32 v)). split; [by apply Hnum|]. apply read_render_signed.
    unfold to_s32. case_match; lia.
  - exists (glyphs dec_digits (digits_of 10 v)). split; [by apply Hnum|].
    apply read_numeral; [lia|apply faithful_dec|done].
  - exists (glyphs hex_lower (digits_of 16 v)). split; [by apply Hnum|].
    apply read_numeral; [lia|apply faithful_lower|done].
  - exists (glyphs hex_upper (digits_of 16 v)). split; [by apply Hnum|].
    apply read_numeral; [lia|apply faithful_upper|done].
  - exists (glyphs hex_upper (nibbles v)). split; [apply debug_hex32_string; lia|]. split; [done|].
    unfold read. rewrite (unglyph_glyphs 16); [by apply nibbles_eval|apply faithful_upper|].
    apply Forall_fmap, Forall_forall. intros i _. cbn. apply Z.mod_pos_bound. lia.
Qed.

Lemma printed_numbers_read_back_witness :
  exists out, kprintf (console_putchar putchar_fuel) [37; 100] [AWord 2147483648] sample_console =
    put_string (console_putchar putchar_fuel) out sample_console /\ read_signed out = -2147483648.
Proof. apply (printed_numbers_read_back 2147483648 sample_console). lia. Defined.
