(* ===== verification/Keyboard.v ===== *)
(** * The keyboard (drivers/input/keyboard.c)

    The ring buffer of scancodes between the interrupt handler and the readers,
    and the decoder. ps2_read_scancode reads the controller, which is in [Ps2.v];
    the scancode it returns is an argument of the interrupt handler here. *)

From S2P Require Import Prelude.

(** ** Data *)

Definition BUF_SIZE : Z := 32.

Definition kbd_layout : list Z :=
  [0; 27; 49; 50; 51; 52; 53; 54; 55; 56; 57; 48; 45; 61; 8; 9; 113; 119; 101; 114; 116;
   121; 117; 105; 111; 112; 91; 93; 10; 0; 97; 115; 100; 102; 103; 104; 106; 107; 108; 59;
   39; 96; 0; 92; 122; 120; 99; 118; 98; 110; 109; 44; 46; 47; 0; 0; 0; 32].

Definition kbd_layout_shift : list Z :=
  [0; 27; 33; 64; 35; 36; 37; 94; 38; 42; 40; 41; 95; 43; 8; 9; 81; 87; 69; 82; 84; 89; 85;
   73; 79; 80; 123; 125; 10; 0; 65; 83; 68; 70; 71; 72; 74; 75; 76; 58; 34; 126; 0; 124;
   90; 88; 67; 86; 66; 78; 77; 60; 62; 63; 0; 0; 0; 32].

Record Keyboard := mkKbd { buf : list Z; head : Z; tail : Z; shift_held : bool }.

Definition set_shift b s := mkKbd (buf s) (head s) (tail s) b.

(** ** Operations *)

Definition keyboard_callback (sc : Z) (s : Keyboard) : Keyboard :=
  let next := ((head s + 1) mod BUF_SIZE) mod 256 in
  if negb (next =? tail s)
  then mkKbd (<[Z.to_nat (head s) := sc mod 256]> (buf s)) next (tail s) (shift_held s)
  else s.

Definition keyboard_pop (s : Keyboard) : Z * Keyboard :=
  if tail s =? head s then (-1, s)
  else (default 0 (buf s !! Z.to_nat (tail s)),
        mkKbd (buf s) (head s) ((tail s + 1) mod BUF_SIZE) (shift_held s)).

(** One turn of the loop of keyboard_getchar on a scancode. *)
Definition getchar_turn (sc : Z) (s : Keyboard) : Keyboard * option Z :=
  if negb (Z.land sc 128 =? 0) then
    let sc := Z.land sc 127 in
    if (sc =? 42) || (sc =? 54) then (set_shift false s, None) else (s, None)
  else if (sc =? 42) || (sc =? 54) then (set_shift true s, None)
  else if sc =? 58 then (set_shift (negb (shift_held s)) s, None)
  else
    let layout := if shift_held s then kbd_layout_shift else kbd_layout in
    if Z.of_nat (length kbd_layout) <=? sc then (s, None)
    else
      let key := default 0 (layout !! Z.to_nat sc) in
      if key =? 0 then (s, None) else (s, Some key).

(** keyboard_getchar up to its return, or up to the [cpu_hlt] that waits for
    the next interrupt on an empty buffer (no key). *)
Definition keyboard_getchar (s : Keyboard) : option (option Z * Keyboard) :=
  loop 33 (fun s =>
    let '(sc, s) := keyboard_pop s in
    if sc <? 0 then Some (inr (None, s))
    else match getchar_turn sc s with
         | (s, None) => Some (inl s)
         | (s, Some key) => Some (inr (Some key, s))
         end) s.

Definition kbd_init : Keyboard := mkKbd (replicate 32 0) 0 0 false.

(** ** The buffer as a queue *)

(** Scancodes in the buffer. *)
Definition buffered (s : Keyboard) : Z := (head s - tail s) mod 32.

(** The pending scancodes, oldest first. *)
Definition pending (s : Keyboard) : list Z :=
  (fun i => default 0 (buf s !! Z.to_nat ((tail s + Z.of_nat i) mod 32))) <$> seq 0 (Z.to_nat (buffered s)).

Record kbd_wf (s : Keyboard) : Prop := {
  k_buf : length (buf s) = 32%nat;
  k_head : 0 <= head s < 32;
  k_tail : 0 <= tail s < 32;
  k_bytes : Forall (fun b => 0 <= b < 256) (buf s) }.

Lemma kbd_init_wf : kbd_wf kbd_init.
Proof. split; cbn; [done|lia|lia|]. by apply (bool_decide_unpack _); vm_compute. Qed.

Lemma buffered_range s : 0 <= buffered s < 32.
Proof. apply Z.mod_pos_bound. lia. Qed.

Lemma length_pending s : Z.of_nat (length (pending s)) = buffered s.
Proof. unfold pending. rewrite length_fmap, length_seq. pose proof (buffered_range s). lia. Qed.

Lemma keyboard_callback_spec sc s :
  kbd_wf s ->
  kbd_wf (keyboard_callback sc s) /\
  shift_held (keyboard_callback sc s) = shift_held s /\
  pending (keyboard_callback sc s) =
    (if decide (length (pending s) < 31)%nat then pending s ++ [sc mod 256] else pending s).
Proof.
  intros Hw. pose proof Hw as [Hb Hh Ht Hby]. pose proof (length_pending s) as HL.
  unfold keyboard_callback, BUF_SIZE.
  assert (Hnx : ((head s + 1) mod 32) mod 256 = (head s + 1) mod 32)
    by (apply Z.mod_small; Z.to_euclidean_division_equations; lia).
  rewrite Hnx. destruct (Z.eqb_spec ((head s + 1) mod 32) (tail s)) as [E|E]; cbn [negb].
  - split; [done|]. split; [done|]. rewrite decide_False; [done|].
    assert (buffered s = 31); [|lia]. unfold buffered. Z.to_euclidean_division_equations; lia.
  - split; [|split; [done|]].
    + split; cbn; [by rewrite length_insert|Z.to_euclidean_division_equations; lia|done|].
      apply Forall_insert; [done|]. apply Z.mod_pos_bound. lia.
    + set (s1 := mkKbd _ _ _ _).
      assert (HF : buffered s1 = buffered s + 1 /\ buffered s < 31).
      { unfold buffered, s1. cbn [head tail]. Z.to_euclidean_division_equations; lia. }
      destruct HF as [HF Hlt]. rewrite decide_True by lia. unfold pending.
      rewrite HF. pose proof (buffered_range s).
      replace (Z.to_nat (buffered s + 1)) with (S (Z.to_nat (buffered s))) by lia.
      rewrite seq_S, fmap_app. cbn [fmap list_fmap]. unfold s1. cbn [buf tail]. f_equal.
      * apply list_fmap_ext. intros i x [-> Hi]%lookup_seq. f_equal. apply list_lookup_insert_ne.
        intros E'%Z2Nat.inj; [|lia|apply Z.mod_pos_bound; lia].
        unfold buffered in *. Z.to_euclidean_division_equations; lia.
      * f_equal. rewrite Nat.add_0_l, Z2Nat.id by lia.
        replace ((tail s + buffered s) mod 32) with (head s)
          by (unfold buffered; Z.to_euclidean_division_equations; lia).
        rewrite list_lookup_insert_eq by lia. done.
Qed.

Lemma keyboard_pop_spec s :
  kbd_wf s ->
  (pending s = [] /\ keyboard_pop s = (-1, s)) \/
  (exists sc s', keyboard_pop s = (sc, s') /\ pending s = sc :: pending s' /\ kbd_wf s' /\
     0 <= sc < 256 /\ shift_held s' = shift_held s).
Proof.
  intros Hw. pose proof Hw as [Hb Hh Ht Hby]. unfold keyboard_pop, BUF_SIZE.
  pose proof (buffered_range s). destruct (Z.eqb_spec (tail s) (head s)) as [E|E].
  - left. split; [|done]. unfold pending, buffered. by rewrite E, Z.sub_diag.
  - right. eexists _, _. split; [reflexivity|].
    set (s1 := mkKbd _ _ _ _).
    assert (HF : buffered s = buffered s1 + 1)
      by (unfold buffered, s1; cbn [head tail]; Z.to_euclidean_division_equations; lia).
    pose proof (buffered_range s1).
    destruct (lookup_lt_is_Some_2 (buf s) (Z.to_nat (tail s))) as [x Hx]; [lia|].
    split; [|split; [|split; [|done]]].
    + unfold pending. rewrite HF. replace (Z.to_nat (buffered s1 + 1)) with (S (Z.to_nat (buffered s1))) by lia.
      rewrite <- cons_seq, fmap_cons, <- fmap_S_seq, <- list_fmap_compose. f_equal.
      * by rewrite Z.add_0_r, Z.mod_small by lia.
      * apply list_fmap_ext. intros i y _. unfold compose, s1. cbn [buf tail]. do 3 f_equal.
        rewrite Zplus_mod_idemp_l. f_equal. lia.
    + split; cbn; [done|done|Z.to_euclidean_division_equations; lia|done].
    + rewrite Hx. cbn. rewrite Forall_forall in Hby. apply Hby. by eapply elem_of_list_lookup_2'.
Qed.

(** ** The decoder *)

(** What a scancode means. *)
Inductive event := Ignored | ShiftUp | ShiftDown | CapsLock | Key (n : nat).

Definition classify (sc : Z) : event :=
  if decide (128 <= sc) then (if decide (sc = 170 \/ sc = 182) then ShiftUp else Ignored)
  else if decide (sc = 42 \/ sc = 54) then ShiftDown
  else if decide (sc = 58) then CapsLock
  else if decide (58 <= sc) then Ignored else Key (Z.to_nat sc).

(** The first key of a sequence of scancodes, the shift state it leaves, and
    the scancodes not yet read. *)
Fixpoint decode (shift : bool) (l : list Z) : option Z * bool * list Z :=
  match l with
  | [] => (None, shift, [])
  | sc :: l =>
      match classify sc with
      | Ignored => decode shift l
      | ShiftUp => decode false l
      | ShiftDown => decode true l
      | CapsLock => decode (negb shift) l
      | Key n =>
          let key := default 0 ((if shift then kbd_layout_shift else kbd_layout) !! n) in
          if decide (key = 0) then decode shift l else (Some key, shift, l)
      end
  end.

Lemma getchar_turn_spec sc s :
  0 <= sc < 256 ->
  getchar_turn sc s =
  match classify sc with
  | Ignored => (s, None)
  | ShiftUp => (set_shift false s, None)
  | ShiftDown => (set_shift true s, None)
  | CapsLock => (set_shift (negb (shift_held s)) s, None)
  | Key n =>
      let key := default 0 ((if shift_held s then kbd_layout_shift else kbd_layout) !! n) in
      if decide (key = 0) then (s, None) else (s, Some key)
  end.
Proof.
  intros Hsc. unfold getchar_turn, classify.
  assert (H128 : Z.land sc 128 = if decide (128 <= sc) then 128 else 0).
  { assert (Hall : Forall (fun sc => Z.land sc 128 = if decide (128 <= sc) then 128 else 0) (seqZ 0 256))
      by (by apply (bool_decide_unpack _); vm_compute).
    rewrite Forall_forall in Hall. apply Hall, elem_of_seqZ. lia. }
  assert (H127 : Z.land sc 127 = sc mod 128) by apply (Z.land_ones _ 7 ltac:(lia)).
  rewrite H128, H127. destruct (decide (128 <= sc)); cbn [Z.eqb negb].
  - replace (sc mod 128) with (sc - 128) by (Z.to_euclidean_division_equations; lia).
    destruct (Z.eqb_spec (sc - 128) 42), (Z.eqb_spec (sc - 128) 54); cbn [orb];
      first [rewrite decide_True by lia | rewrite decide_False by lia]; done.
  - change (Z.of_nat (length kbd_layout)) with 58.
    destruct (Z.eqb_spec sc 42), (Z.eqb_spec sc 54); cbn [orb]; try (rewrite decide_True by lia; done).
    rewrite (decide_False (P := sc = 42 \/ sc = 54)) by lia.
    destruct (Z.eqb_spec sc 58); [by rewrite decide_True|]. rewrite (decide_False (P := sc = 58)) by done.
    destruct (Z.leb_spec 58 sc); [by rewrite decide_True|]. rewrite (decide_False (P := 58 <= sc)) by lia.
    cbv zeta. set (key := default 0 _). destruct (Z.eqb_spec key 0); by case_decide.
Qed.

Lemma pending_set_shift b s : pending (set_shift b s) = pending s /\ (kbd_wf s -> kbd_wf (set_shift b s)).
Proof. split; [done|]. by intros []. Qed.

Lemma keyboard_getchar_loop fuel : forall s,
  kbd_wf s -> (length (pending s) < fuel)%nat ->
  exists s', loop fuel (fun s =>
      let '(sc, s) := keyboard_pop s in
      if sc <? 0 then Some (inr (None, s))
      else match getchar_turn sc s with
           | (s, None) => Some (inl s)
           | (s, Some key) => Some (inr (Some key, s))
           end) s = Some (fst (fst (decode (shift_held s) (pending s))), s') /\
    kbd_wf s' /\ shift_held s' = snd (fst (decode (shift_held s) (pending s))) /\
    pending s' = snd (decode (shift_held s) (pending s)).
Proof.
  induction fuel as [|fuel IH]; intros s Hw Hf; [lia|]. rewrite loop_unfold.
  destruct (keyboard_pop_spec s Hw) as [[He ->]|(sc & s1 & -> & Hp & Hw1 & Hsc & Hsh)].
  { exists s. rewrite He. done. }
  rewrite (proj2 (Z.ltb_ge sc 0)) by lia. rewrite getchar_turn_spec by done.
  rewrite Hp in Hf |- *. cbn [decode length] in *. rewrite <- Hsh.
  assert (Hrec : forall b, exists s', loop fuel (fun s =>
      let '(sc, s) := keyboard_pop s in
      if sc <? 0 then Some (inr (None, s))
      else match getchar_turn sc s with
           | (s, None) => Some (inl s)
           | (s, Some key) => Some (inr (Some key, s))
           end) (set_shift b s1) = Some (fst (fst (decode b (pending s1))), s') /\
    kbd_wf s' /\ shift_held s' = snd (fst (decode b (pending s1))) /\
    pending s' = snd (decode b (pending s1))).
  { intros b. destruct (pending_set_shift b s1) as [Ep Hwf].
    destruct (IH (set_shift b s1) (Hwf Hw1)) as (s' & E & H); [rewrite Ep; lia|].
    exists s'. rewrite Ep in E, H. done. }
  assert (Hid : set_shift (shift_held s1) s1 = s1) by by destruct s1.
  pose proof (Hrec (shift_held s1)) as Hsame. rewrite Hid in Hsame.
  destruct (classify sc) as [| | | |n]; try apply Hrec.
  - exact Hsame.
  - cbv zeta. case_decide; [exact Hsame|]. by exists s1.
Qed.

Lemma keyboard_getchar_spec s :
  kbd_wf s ->
  exists s', keyboard_getchar s = Some (fst (fst (decode (shift_held s) (pending s))), s') /\
    kbd_wf s' /\ shift_held s' = snd (fst (decode (shift_held s) (pending s))) /\
    pending s' = snd (decode (shift_held s) (pending s)).
Proof.
  intros Hw. apply keyboard_getchar_loop; [done|].
  pose proof (length_pending s). pose proof (buffered_range s). lia.
Qed.

Lemma decode_app b l0 l1 b' :
  decode b l0 = (None, b', []) -> decode b (l0 ++ l1) = decode b' l1.
Proof.
  revert b. induction l0 as [|sc l0 IH]; intros b; cbn [decode app]; [by intros [= ->]|].
  destruct (classify sc); try apply IH. cbv zeta. case_decide; [apply IH|done].
Qed.

(** ** Typing *)

(** The scancodes of a key stroke for a character, press and release, with the
    shift key around it when the character needs it. *)
Definition strokes (c : Z) : list Z :=
  match list_find (fun x => x = c) kbd_layout with
  | Some (n, _) => [Z.of_nat n; Z.of_nat n + 128]
  | None =>
      match list_find (fun x => x = c) kbd_layout_shift with
      | Some (n, _) => [42; Z.of_nat n; Z.of_nat n + 128; 170]
      | None => []
      end
  end.

Definition stroke_ok (c : Z) : bool :=
  let '(key, b, rest) := decode false (strokes c) in
  bool_decide (key = Some c) && bool_decide (decode b rest = (None, false, [])) &&
  bool_decide (length rest <= 2)%nat && bool_decide (length (strokes c) <= 4)%nat &&
  bool_decide (Forall (fun x => 0 <= x < 256) (strokes c)).

Lemma strokes_ok c : 32 <= c <= 126 -> stroke_ok c = true.
Proof.
  intros Hc. assert (Hall : Forall (fun c => stroke_ok c = true) (seqZ 32 95))
    by (by apply (bool_decide_unpack _); vm_compute).
  rewrite Forall_forall in Hall. apply Hall, elem_of_seqZ. lia.
Qed.

(** Typing a text one character at a time, reading each. *)
Fixpoint type_text (text : list Z) (s : Keyboard) : option (list (option Z) * Keyboard) :=
  match text with
  | [] => Some ([], s)
  | c :: text =>
      let s := foldl (fun s sc => keyboard_callback sc s) s (strokes c) in
      '(key, s) ← keyboard_getchar s;
      '(keys, s) ← type_text text s;
      Some (key :: keys, s)
  end.

Lemma callbacks_spec l : forall s,
  kbd_wf s -> (length (pending s) + length l <= 31)%nat -> Forall (fun x => 0 <= x < 256) l ->
  let s' := foldl (fun s sc => keyboard_callback sc s) s l in
  kbd_wf s' /\ shift_held s' = shift_held s /\ pending s' = pending s ++ l.
Proof.
  induction l as [|sc l IH]; intros s Hw Hl Hb; cbv zeta; cbn [foldl].
  { by rewrite app_nil_r. }
  inversion Hb as [|? ? Hsc Hb']; subst. cbn [length] in Hl.
  destruct (keyboard_callback_spec sc s Hw) as (Hw1 & Hs1 & Hp1).
  rewrite decide_True, Z.mod_small in Hp1 by lia.
  destruct (IH (keyboard_callback sc s) Hw1) as (H1 & H2 & H3);
    [rewrite Hp1, length_app; cbn; lia|done|].
  split; [done|]. split; [congruence|]. by rewrite H3, Hp1, <- app_assoc.
Qed.

(** Between two characters: what is left in the buffer only releases keys. *)
Record idle (s : Keyboard) : Prop := {
  i_wf : kbd_wf s;
  i_rest : decode (shift_held s) (pending s) = (None, false, []);
  i_len : (length (pending s) <= 2)%nat }.

Lemma type_key c s :
  idle s -> stroke_ok c = true ->
  exists s', keyboard_getchar (foldl (fun s sc => keyboard_callback sc s) s (strokes c)) =
    Some (Some c, s') /\ idle s'.
Proof.
  intros [Hw Hr Hl] Hok. unfold stroke_ok in Hok.
  destruct (decode false (strokes c)) as [[key b] rest] eqn:Ed.
  rewrite !andb_true_iff, !bool_decide_eq_true in Hok. destruct Hok as ((((-> & Hrest) & Hlr) & Hls) & Hb).
  destruct (callbacks_spec (strokes c) s Hw) as (Hw1 & Hs1 & Hp1); [lia|done|].
  set (s1 := foldl _ s _) in *. clearbody s1.
  destruct (keyboard_getchar_spec s1 Hw1) as (s' & E & Hw' & Hs' & Hp').
  rewrite Hs1, Hp1, (decode_app _ _ _ false Hr), Ed in E, Hs', Hp'. cbn in E, Hs', Hp'.
  exists s'. split; [done|]. split; [done|by rewrite Hs', Hp'|by rewrite Hp'].
Qed.

Lemma type_char c s :
  idle s -> 32 <= c <= 126 ->
  exists s', keyboard_getchar (foldl (fun s sc => keyboard_callback sc s) s (strokes c)) =
    Some (Some c, s') /\ idle s'.
Proof. intros Hi Hc. by apply type_key, strokes_ok. Qed.

(** ** Any interleaving of interrupts and reads *)

Inductive kbd_op := KIrq (sc : Z) | KPop.

(** [acc] and [rcv] collect the scancodes kept and the ones read. *)
Fixpoint kbd_run (ops : list kbd_op) (s : Keyboard) (acc rcv : list Z) : Keyboard * list Z * list Z :=
  match ops with
  | [] => (s, acc, rcv)
  | KIrq sc :: ops =>
      kbd_run ops (keyboard_callback sc s)
        (if decide (length (pending s) < 31)%nat then acc ++ [sc mod 256] else acc) rcv
  | KPop :: ops =>
      let '(sc, s) := keyboard_pop s in kbd_run ops s acc (if sc <? 0 then rcv else rcv ++ [sc])
  end.

Lemma kbd_run_fifo ops : forall s acc rcv,
  kbd_wf s -> exists s' acc' rcv', kbd_run ops s acc rcv = (s', acc ++ acc', rcv ++ rcv') /\
    kbd_wf s' /\ rcv' ++ pending s' = pending s ++ acc'.
Proof.
  induction ops as [|op ops IH]; intros s acc rcv Hw; cbn [kbd_run].
  { exists s, [], []. by rewrite !app_nil_r. }
  destruct op as [sc|].
  - destruct (keyboard_callback_spec sc s Hw) as (Hw1 & _ & Hp1). case_decide.
    + destruct (IH (keyboard_callback sc s) (acc ++ [sc mod 256]) rcv Hw1) as (s' & a & r & -> & Hw' & E).
      exists s', (sc mod 256 :: a), r. rewrite <- app_assoc. split; [done|]. split; [done|].
      by rewrite E, Hp1, <- app_assoc.
    + destruct (IH (keyboard_callback sc s) acc rcv Hw1) as (s' & a & r & -> & Hw' & E).
      exists s', a, r. split; [done|]. split; [done|]. by rewrite E, Hp1.
  - destruct (keyboard_pop_spec s Hw) as [[He ->]|(sc & s1 & -> & Hp & Hw1 & Hsc & _)].
    + destruct (IH s acc rcv Hw) as (s' & a & r & E & H). exists s', a, r. done.
    + rewrite (proj2 (Z.ltb_ge sc 0)) by lia.
      destruct (IH s1 acc (rcv ++ [sc]) Hw1) as (s' & a & r & -> & Hw' & E).
      exists s', a, (sc :: r). rewrite <- app_assoc. split; [done|]. split; [done|].
      cbn [app]. by rewrite E, Hp.
Qed.

(** ** The theorems *)

(** C34. The scancode buffer is a FIFO of capacity 31: under any interleaving
    of keyboard interrupts and reads, the scancodes read followed by those
    still pending are the ones pending before followed by the ones kept, in
    order; an interrupt drops its scancode exactly when 31 are pending. *)
Theorem keyboard_fifo ops s :
  kbd_wf s ->
  exists s' acc rcv, kbd_run ops s [] [] = (s', acc, rcv) /\ kbd_wf s' /\
    rcv ++ pending s' = pending s ++ acc /\ (length (pending s') <= 31)%nat.
Proof.
  intros Hw. destruct (kbd_run_fifo ops s [] [] Hw) as (s' & a & r & E & Hw' & Eq).
  exists s', a, r. repeat (split; [done|]).
  pose proof (length_pending s'). pose proof (buffered_range s'). lia.
Qed.

Lemma keyboard_fifo_witness :
  exists s' acc rcv, kbd_run [KIrq 30; KIrq 48; KPop] kbd_init [] [] = (s', acc, rcv) /\
    rcv ++ pending s' = [] ++ acc /\ rcv = [30] /\ acc = [30; 48].
Proof.
  destruct (keyboard_fifo [KIrq 30; KIrq 48; KPop] kbd_init kbd_init_wf) as (s' & a & r & E & _ & Eq & _).
  exists s', a, r. split; [exact E|]. split; [exact Eq|]. vm_compute in E. by injection E as _ <- <-.
Defined.

(** Every printable ASCII text can be typed: for each character there is a
    key stroke (with shift where it needs it) such that, feeding the scancodes
    through the interrupt handler, keyboard_getchar returns exactly that
    character, for any text typed one character after another. *)
Theorem typed_text_reads_back text s :
  idle s -> Forall (fun c => 32 <= c <= 126) text ->
  exists s', type_text text s = Some (Some <$> text, s') /\ idle s'.
Proof.
  revert s. induction text as [|c text IH]; intros s Hi Ht; cbn [type_text]; [by exists s|].
  inversion Ht as [|? ? Hc Ht']; subst.
  destruct (type_char c s Hi Hc) as (s1 & -> & Hi1). rewrite some_bind.
  destruct (IH s1 Hi1 Ht') as (s2 & -> & Hi2). rewrite some_bind. by exists s2.
Qed.

Lemma typed_text_reads_back_witness :
  exists s', type_text [72; 105; 33] kbd_init = Some ([Some 72; Some 105; Some 33], s').
Proof.
  destruct (typed_text_reads_back [72; 105; 33] kbd_init) as (s' & E & _).
  - split; [apply kbd_init_wf|done|vm_compute; lia].
  - repeat constructor; lia.
  - by exists s'.
Defined.

(** keyboard_getchar implements the decoder: it returns the first key of
    the pending scancodes under the shift state, with releases, shift, caps
    lock and unmapped keys skipped, and consumes exactly the scancodes up to
    it; with no key pending it empties the buffer and waits. *)
Theorem keyboard_getchar_decodes s :
  kbd_wf s ->
  exists s', keyboard_getchar s = Some (fst (fst (decode (shift_held s) (pending s))), s') /\
    kbd_wf s' /\ shift_held s' = snd (fst (decode (shift_held s) (pending s))) /\
    pending s' = snd (decode (shift_held s) (pending s)).
Proof. apply keyboard_getchar_spec. Qed.

Lemma keyboard_getchar_decodes_witness : exists s', keyboard_getchar kbd_init = Some (None, s').
Proof.
  destruct (keyboard_getchar_decodes kbd_init kbd_init_wf) as (s' & E & _). by exists s'.
Defined.
