(* ===== verification/Ps2.v ===== *)
(** * The PS/2 controller (drivers/input/ps2.c) and port input (asm/io.h)

    Reading a scancode: the driver polls the status port until the controller
    has a byte, and takes it. The controller is a device outside the code: what
    its two ports answer is a parameter, and what is relied on of it are the
    laws of a class. *)

From S2P Require Import Prelude Keyboard.

(** ** Code *)

(** What an input instruction gets from the device on a port. *)
Class PortIO (D : Type) := port_in : Z -> D -> Z * D.

Definition PS2_DATA_PORT : Z := 96.
Definition PS2_STATUS_PORT : Z := 100.

Section Code.
Context {D : Type} `{!PortIO D}.

(** A [u8]. *)
Definition inb (port : Z) (d : D) : Z * D := let '(v, d) := port_in port d in (v mod 256, d).

Definition ps2_read_status (d : D) : Z * D := inb PS2_STATUS_PORT d.

(** The loop polls until bit 0 is set; [fuel] bounds the polls. *)
Definition ps2_read_scancode (fuel : nat) (d : D) : option (Z * D) :=
  d ← loop fuel (fun d =>
    let '(status, d) := ps2_read_status d in
    if Z.land status 1 =? 0 then Some (inl d) else Some (inr d)) d;
  Some (inb PS2_DATA_PORT d).

(** The keyboard's interrupt: keyboard_callback with the scancode it reads. *)
Definition keyboard_irq (fuel : nat) (ds : D * Keyboard) : option (D * Keyboard) :=
  let '(d, s) := ds in
  '(sc, d) ← ps2_read_scancode fuel d;
  Some (d, keyboard_callback sc s).
End Code.

(** ** The controller *)

(** [output] is what it has to deliver, oldest first. Bit 0 of the status says
    that there is something; while it is polled more can arrive; a read of the
    data port takes the oldest byte. *)
Class Controller (D : Type) `{!PortIO D} := {
  output : D -> list Z;
  output_bytes : forall d, Forall (fun b => 0 <= b < 256) (output d);
  status_full : forall d, Z.odd (port_in PS2_STATUS_PORT d).1 = negb (bool_decide (output d = []));
  status_keeps : forall d, exists l, output (port_in PS2_STATUS_PORT d).2 = output d ++ l;
  data_takes : forall d b l, output d = b :: l ->
    (port_in PS2_DATA_PORT d).1 = b /\ output (port_in PS2_DATA_PORT d).2 = l }.

Section Reading.
Context {D : Type} `{!PortIO D} `{!Controller D}.

Lemma status_bit d : (Z.land (ps2_read_status d).1 1 =? 0) = bool_decide (output d = []).
Proof.
  unfold ps2_read_status, inb. pose proof (status_full d) as Hs.
  destruct (port_in PS2_STATUS_PORT d) as [v d']. cbn [fst] in *.
  change 1 with (Z.ones 1). rewrite Z.land_ones by lia. change (2 ^ 1) with 2.
  rewrite Z.mod_mod_divide by (by exists 128).
  rewrite Zmod_odd, Hs. by destruct (bool_decide (output d = [])).
Qed.

(** A byte that is there is read at the first poll. *)
Lemma read_scancode_ready fuel d b l :
  output d = b :: l -> (0 < fuel)%nat ->
  exists d' l', ps2_read_scancode fuel d = Some (b, d') /\ output d' = l ++ l'.
Proof.
  intros Ho Hf. destruct fuel as [|fuel]; [lia|].
  pose proof (status_bit d) as Hb. pose proof (status_keeps d) as [l' Hk].
  unfold ps2_read_scancode. rewrite loop_unfold. destruct (ps2_read_status d) as [st d1] eqn:E. cbn [fst] in Hb.
  rewrite Hb, Ho, bool_decide_false, some_bind by done.
  assert (E1 : (port_in PS2_STATUS_PORT d).2 = d1).
  { unfold ps2_read_status, inb in E. destruct (port_in PS2_STATUS_PORT d). by simplify_eq. }
  rewrite E1, Ho in Hk. cbn [app] in Hk.
  destruct (data_takes d1 b (l ++ l') Hk) as [Hv Hd]. pose proof (output_bytes d) as Hby.
  rewrite Ho in Hby. apply Forall_cons in Hby as [Hby _].
  unfold inb. destruct (port_in PS2_DATA_PORT d1) as [v d2]. cbn [fst snd] in *. subst v.
  exists d2, l'. split; [by rewrite Z.mod_small|done].
Qed.

(** The state after [n] polls. *)
Definition polls (n : nat) (d : D) : D := Nat.iter n (fun d => (ps2_read_status d).2) d.

(** As long as nothing arrives the driver does not return. *)
Lemma read_scancode_waits fuel : forall d,
  (forall n, (n < fuel)%nat -> output (polls n d) = []) -> ps2_read_scancode fuel d = None.
Proof.
  unfold ps2_read_scancode. induction fuel as [|fuel IH]; intros d Hn; [done|].
  rewrite loop_unfold. pose proof (status_bit d) as Hb.
  destruct (ps2_read_status d) as [st d1] eqn:E. cbn [fst] in Hb. rewrite Hb.
  assert (H0 : output d = []) by (apply (Hn O); lia). rewrite bool_decide_true by done. apply IH. intros n Hlt.
  specialize (Hn (S n) ltac:(lia)). unfold polls in *. rewrite Nat.iter_succ_r, E in Hn. done.
Qed.

(** [n] interrupts of the keyboard, one after another. *)
Definition keyboard_irqs (fuel n : nat) (ds : D * Keyboard) : option (D * Keyboard) :=
  Nat.iter n (fun o => o ≫= keyboard_irq fuel) (Some ds).

Lemma keyboard_irqs_S fuel n ds :
  keyboard_irqs fuel (S n) ds = (x ← keyboard_irq fuel ds; keyboard_irqs fuel n x).
Proof.
  unfold keyboard_irqs. rewrite Nat.iter_succ_r, some_bind.
  destruct (keyboard_irq fuel ds); [done|]. cbn [mbind option_bind].
  induction n as [|n IH]; [done|]. by rewrite Nat.iter_succ, IH.
Qed.

(** C40. Scancodes reach the kernel in order: as many keyboard interrupts as the
    controller has bytes and the buffer has room for all return, each after one
    poll, and append exactly those bytes, oldest first, to the ones pending; the
    controller keeps the rest. *)
Theorem scancodes_in_order fuel n : forall d s,
  (0 < fuel)%nat -> kbd_wf s -> (n <= length (output d))%nat -> (length (pending s) + n <= 31)%nat ->
  exists d' s' l, keyboard_irqs fuel n (d, s) = Some (d', s') /\
    pending s' = pending s ++ take n (output d) /\ output d' = drop n (output d) ++ l /\
    kbd_wf s' /\ shift_held s' = shift_held s.
Proof.
  induction n as [|n IH]; intros d s Hf Hw Hn Hr.
  - exists d, s, []. by rewrite !app_nil_r.
  - rewrite keyboard_irqs_S. destruct (output d) as [|b l] eqn:Ho; [cbn in Hn; lia|].
    destruct (read_scancode_ready fuel d b l Ho Hf) as (d1 & l1 & E1 & Ho1).
    unfold keyboard_irq at 1. rewrite E1, !some_bind.
    destruct (keyboard_callback_spec b s Hw) as (Hw1 & Hs1 & Hp1).
    pose proof (output_bytes d) as Hby. rewrite Ho in Hby. apply Forall_cons in Hby as [Hb _].
    rewrite decide_True, Z.mod_small in Hp1 by lia. cbn [length] in Hn.
    destruct (IH d1 (keyboard_callback b s) Hf Hw1) as (d2 & s2 & l2 & E2 & Hp2 & Ho2 & Hw2 & Hs2);
      [rewrite Ho1, length_app; lia|rewrite Hp1, length_app; cbn; lia|].
    exists d2, s2, (drop (n - length l) l1 ++ l2). split; [done|].
    rewrite Hp2, Ho2, Hp1, Ho1. rewrite take_app_le, drop_app by lia. cbn [take drop].
    by rewrite <- !app_assoc, Hs2.
Qed.
End Reading.

(** ** An example *)

(** A controller that holds a list of bytes. *)
Record Fifo := mkFifo { bytes : list Z; bytes_ok : Forall (fun b => 0 <= b < 256) bytes }.

Lemma fifo_tail f b l : bytes f = b :: l -> Forall (fun b => 0 <= b < 256) l.
Proof. intros E. pose proof (bytes_ok f) as H. rewrite E in H. by apply Forall_cons in H as [_ H]. Qed.

#[global] Instance fifo_ports : PortIO Fifo := fun port f =>
  if port =? PS2_STATUS_PORT then (if bool_decide (bytes f = []) then 0 else 1, f)
  else match bytes f as l return bytes f = l -> Z * Fifo with
       | [] => fun _ => (0, f)
       | b :: l => fun E => (b, mkFifo l (fifo_tail f b l E))
       end eq_refl.

#[global] Instance fifo_controller : Controller Fifo.
Proof.
  refine {| output := bytes; output_bytes := bytes_ok |}.
  - intros f. unfold port_in, fifo_ports. cbn. by case_bool_decide.
  - intros f. exists []. unfold port_in, fifo_ports. cbn. by rewrite app_nil_r.
  - intros [bs H] b l. cbn. intros ->. done.
Defined.

Lemma typed_ok : Forall (fun b => 0 <= b < 256) [35; 163; 23].
Proof. repeat constructor; lia. Qed.

Definition typed : Fifo := mkFifo [35; 163; 23] typed_ok.

Lemma scancodes_in_order_witness :
  exists d' s', keyboard_irqs 1 2 (typed, kbd_init) = Some (d', s') /\ pending s' = [35; 163].
Proof.
  destruct (scancodes_in_order 1 2 typed kbd_init) as (d' & s' & l & E & Hp & _);
    [lia|exact kbd_init_wf|change (2 <= 3)%nat; lia|change (0 + 2 <= 31)%nat; lia|].
  exists d', s'. split; [exact E|exact Hp].
Defined.
