(* ===== verification/Timer.v ===== *)
(** * The timer (arch/x86_32/kernel/pit.c)

    The tick counter and the PIT's programming, over the scheduler's state. The
    registration of the interrupt handler is recorded as a flag. *)

From S2P Require Import Prelude Sched SchedQueues SchedInv SchedOps SchedMachine SchedTheorems.

(** ** Data *)

Definition PIT_OSC_FREQ : Z := 1193182.
Definition PIT_MAX_DIVISOR : Z := 65535.

(** [pit_outs] is every byte written to the PIT's ports, latest first. *)
Record Timer := mkTimer {
  tick_count : Z; ticks_per_second : Z; pit_outs : list (Z * Z); irq0_registered : bool }.

Definition timer_bss : Timer := mkTimer 0 0 [] false.

(** ** Operations *)

Definition timer_callback (regs : option Z) (t : Timer) (s : Sched) : option (Timer * Sched) :=
  let t := mkTimer (tick_count t +w 1) (ticks_per_second t) (pit_outs t) (irq0_registered t) in
  let s := SchedTick regs s in
  '(_, s) ← SchedWakeExpired (tick_count t) s;
  Some (t, s).

Definition pit_divisor (hz : Z) : Z :=
  let divisor := PIT_OSC_FREQ / wrap32 hz in
  if divisor =? 0 then 1
  else if PIT_MAX_DIVISOR <? divisor then PIT_MAX_DIVISOR else divisor.

Definition timer_init (hz : Z) (t : Timer) : Timer :=
  if hz <=? 0 then t
  else
    let divisor := pit_divisor hz in
    mkTimer (tick_count t) (PIT_OSC_FREQ / divisor)
      ((64, Z.land (Z.shiftr divisor 8) 255) :: (64, Z.land divisor 255) :: (67, 54) :: pit_outs t)
      true.

Definition timer_get_ticks (t : Timer) : Z := tick_count t.

Definition timer_uptime_ms (t : Timer) : Z :=
  if ticks_per_second t =? 0 then 0
  else
    let secs := tick_count t / ticks_per_second t in
    let rem := tick_count t mod ticks_per_second t in
    let frac := (rem *w 1000) / ticks_per_second t in
    wrap64 (wrap64 (secs * 1000) + frac).

(** The tick timer_sleep_ms waits for. *)
Definition sleep_deadline (ms : Z) (t : Timer) : Z :=
  let secs := ms / 1000 in
  let rem := ms mod 1000 in
  (tick_count t +w secs *w ticks_per_second t) +w
    ((rem *w ticks_per_second t) +w 999) / 1000.

(** How timer_sleep_ms goes on: it returns, waits in place until the deadline
    ([yields] says whether it also yields), or has blocked. *)
Inductive SleepOut :=
| SleepReturns
| SleepWaits (deadline : Z) (yields : bool)
| SleepBlocks (out : Out).

(** The condition of the in-place wait loops. *)
Definition still_early (deadline : Z) (t : Timer) : bool := to_s32 (tick_count t -w deadline) <? 0.

Definition timer_sleep_ms (ms : Z) (t : Timer) (s : Sched) : option (SleepOut * Sched) :=
  if (ticks_per_second t =? 0) || (ms =? 0) then Some (SleepReturns, s)
  else if negb (irq_on s) then Some (SleepReturns, s)
  else
    let deadline := sleep_deadline ms t in
    match SchedCurrent s with
    | None => Some (SleepWaits deadline true, s)
    | Some Self =>
        if Id (task s Self) =? 0 then Some (SleepWaits deadline true, s)
        else
          '(runnable, s) ← SchedHasRunnable s;
          if negb runnable then Some (SleepWaits deadline false, s)
          else '(out, s) ← SchedSleepUntil deadline s; Some (SleepBlocks out, s)
    end.

(** ** Facts *)

Lemma pit_divisor_range hz : 0 < hz < 2147483648 -> 1 <= pit_divisor hz <= 65535.
Proof.
  intros Hz. unfold pit_divisor, PIT_OSC_FREQ, PIT_MAX_DIVISOR. unwrap.
  pose proof (Z.div_pos 1193182 hz ltac:(lia) ltac:(lia)).
  destruct (Z.eqb_spec (1193182 / hz) 0); [lia|]. case_match; lia.
Qed.

(** The rate is at least the requested one where the PIT can reach it. *)
Lemma pit_rate hz :
  0 < hz < 2147483648 ->
  18 <= PIT_OSC_FREQ / pit_divisor hz <= 1193182 /\
  (19 <= hz <= 1193182 -> hz <= PIT_OSC_FREQ / pit_divisor hz).
Proof.
  intros Hz. pose proof (pit_divisor_range hz Hz) as Hd. unfold PIT_OSC_FREQ in *.
  split; [split; [apply Z.div_le_lower_bound; lia|apply Z.div_le_upper_bound; lia]|].
  intros H19. apply Z.div_le_lower_bound; [lia|].
  unfold pit_divisor, PIT_OSC_FREQ, PIT_MAX_DIVISOR in *. revert Hd. unwrap.
  pose proof (Z.mul_div_le 1193182 hz ltac:(lia)).
  destruct (Z.eqb_spec (1193182 / hz) 0) as [E|E]; [lia|].
  destruct (Z.ltb_spec 65535 (1193182 / hz)); nia.
Qed.

Lemma byte_split d : 0 <= d < 65536 -> Z.land d 255 + 256 * Z.land (Z.shiftr d 8) 255 = d.
Proof.
  intros Hd. rewrite Z.shiftr_div_pow2 by lia. change 255 with (Z.ones 8). rewrite !Z.land_ones by lia.
  change (2 ^ 8) with 256. rewrite (Z.mod_small (d / 256)).
  - pose proof (Z.div_mod d 256 ltac:(lia)). lia.
  - split; [apply Z.div_pos; lia|apply Z.div_lt_upper_bound; lia].
Qed.

Record timer_wf (t : Timer) : Prop := {
  t_tick : is_u32 (tick_count t);
  t_rate : 0 <= ticks_per_second t <= 1193182 }.

Lemma uptime_exact t :
  timer_wf t -> 0 < ticks_per_second t ->
  timer_uptime_ms t = tick_count t * 1000 / ticks_per_second t.
Proof.
  intros [[Ht0 Ht1] Hr] Hp. unfold timer_uptime_ms. set (n := tick_count t) in *. set (r := ticks_per_second t) in *.
  rewrite (proj2 (Z.eqb_neq r 0)) by lia. cbv zeta.
  pose proof (Z.mod_pos_bound n r ltac:(lia)) as Hm. pose proof (Z.div_mod n r ltac:(lia)) as Hd.
  pose proof (Z.div_pos n r ltac:(lia) ltac:(lia)) as Hq.
  assert (n / r <= n) by (apply Z.div_le_upper_bound; nia). unwrap.
  assert (Hf : 0 <= n mod r * 1000 / r < 1000)
    by (split; [apply Z.div_pos; lia|apply Z.div_lt_upper_bound; lia]).
  rewrite (wrap64_small (n / r * 1000)) by lia. rewrite wrap64_small by lia.
  replace (n * 1000) with (n mod r * 1000 + n / r * 1000 * r) by lia.
  rewrite Z.div_add by lia. lia.
Qed.

(** The deadline is the tick after which the requested time has passed: the
    request in ticks, rounded up. *)
Lemma sleep_deadline_exact ms t :
  timer_wf t -> 0 <= ms -> ms * ticks_per_second t < 1000 * 2147483648 ->
  sleep_deadline ms t = tick_count t +w (ms * ticks_per_second t + 999) / 1000.
Proof.
  intros [Ht Hr] Hm Hb. unfold sleep_deadline. cbv zeta.
  set (n := tick_count t) in *. set (r := ticks_per_second t) in *. unfold is_u32 in Ht.
  pose proof (Z.mod_pos_bound ms 1000 ltac:(lia)) as Hmm. pose proof (Z.div_mod ms 1000 ltac:(lia)) as Hd.
  pose proof (Z.div_pos ms 1000 ltac:(lia) ltac:(lia)).
  assert (ms / 1000 * r < 2147483648) by nia.
  assert (0 <= ms / 1000 * r) by nia. assert (0 <= ms mod 1000 * r <= 1191988818) by nia.
  rewrite (wrap32_small (ms / 1000 * r)) by (unfold is_u32; lia).
  rewrite (wrap32_small (ms mod 1000 * r)) by (unfold is_u32; lia).
  rewrite (wrap32_small (_ + 999)) by (unfold is_u32; lia).
  replace (ms * r + 999) with (ms mod 1000 * r + 999 + ms / 1000 * r * 1000) by lia.
  rewrite Z.div_add by lia. unfold wrap32. rewrite Zplus_mod_idemp_l. f_equal. lia.
Qed.

(** ** The callback and the sleepers *)

(** Everything the sleepers see of a tick is the tick counter. *)
Record tick_view (s s' : Sched) : Prop := {
  tv_State : forall i, State (task s' i) = State (task s i);
  tv_Wake : forall i, WakeTick (task s' i) = WakeTick (task s i) }.

Lemma tick_view_upd p f s :
  length (Tasks s) = 32%nat ->
  (forall k, State (f k) = State k) -> (forall k, WakeTick (f k) = WakeTick k) -> tick_view s (upd p f s).
Proof.
  intros Hl HS HW. split; intros i; destruct (decide (i < 32)%nat);
    first [rewrite task_upd by lia; by case_decide; subst
          |unfold task, upd; cbn; rewrite !lookup_ge_None_2; rewrite ?length_alter; done || lia].
Qed.

Lemma SchedTick_inv regs s Q :
  sched_inv s Q -> sched_inv (SchedTick regs s) Q /\ tick_view s (SchedTick regs s).
Proof.
  intros Hinv. unfold SchedTick. destruct regs; [|done]. case_match; [done|].
  set (s1 := set_SchedulerTicks _ s).
  assert (H1 : sched_inv s1 Q).
  { destruct Hinv as [Hq G]. split; [by apply qinv_SchedulerTicks|by eapply ginv_view; [|exact G]]. }
  destruct (CurrentTask s1) as [c|]; [|done]. set (s2 := upd c _ s1).
  assert (H2 : sched_inv s2 Q) by by apply sched_inv_upd.
  assert (V2 : tick_view s s2).
  { assert (V1 : tick_view s1 s2) by (apply tick_view_upd; [apply (q_len _ _ (proj1 H1))|done..]).
    destruct V1 as [V1 V1']. split; [exact V1|exact V1']. }
  case_match; [|done]. set (s3 := upd c (with_TimeUsed 0) s2).
  assert (H3 : sched_inv s3 Q) by by apply sched_inv_upd.
  assert (V3 : tick_view s2 s3) by (apply tick_view_upd; [apply (q_len _ _ (proj1 H2))|done..]).
  destruct H3 as [Hq G]. split.
  - split; [by apply qinv_PreemptPending|by eapply ginv_view; [|exact G]].
  - destruct V2 as [A1 A2], V3 as [B1 B2]. split; intros i;
      [by rewrite <- A1, <- B1|by rewrite <- A2, <- B2].
Qed.

(** One timer interrupt per entry of the list. *)
Fixpoint timer_run (regs : list (option Z)) (t : Timer) (s : Sched) : option (Timer * Sched) :=
  match regs with
  | [] => Some (t, s)
  | r :: regs => '(t, s) ← timer_callback r t s; timer_run regs t s
  end.

(** Ticks until the deadline [d]. *)
Definition ticks_left (d : Z) (t : Timer) : Z := d -w tick_count t.

(** A task that sleeps until tick [d], and one that has been woken. *)
Definition asleep (x : nat) (d : Z) (s : Sched) (Q : Qs) : Prop :=
  x ∈ qB Q /\ WakeTick (task s x) = d.
Definition awake (x : nat) (s : Sched) (Q : Qs) : Prop :=
  x ∈ qR Q /\ WakeTick (task s x) = 0.

Lemma due_ticks x d t s :
  WakeTick (task s x) = d -> is_u32 d -> d <> 0 -> is_u32 (tick_count t) ->
  0 < ticks_left d t < 2147483648 ->
  due (tick_count t +w 1) s x <-> ticks_left d t = 1.
Proof.
  intros Hw Hd H0 Ht HL. unfold due, wake_due, ticks_left in *. rewrite Hw.
  rewrite (proj2 (Z.eqb_neq d 0)) by done. cbn [negb andb]. unfold to_s32.
  set (n := tick_count t) in *. rewrite Z.leb_le.
  assert (E : wrap32 (wrap32 (n + 1) - d) = wrap32 (1 - wrap32 (d - n))).
  { unfold wrap32. rewrite Zminus_mod_idemp_l, Zminus_mod_idemp_r. f_equal. lia. }
  rewrite E. set (k := wrap32 (d - n)) in *. clearbody k. clear -HL. unfold wrap32.
  destruct (decide (k = 1)) as [->|Hk]; [done|].
  replace (1 - k) with (1 - k + 4294967296 + (-1) * 4294967296) by lia.
  rewrite Z.mod_add, Z.mod_small by lia. case_match; lia.
Qed.

Lemma callback_spec r t s Q :
  sched_inv s Q ->
  exists s', timer_callback r t s =
      Some (mkTimer (tick_count t +w 1) (ticks_per_second t) (pit_outs t) (irq0_registered t), s') /\
    sched_inv s' (mkQs (qR Q ++ filter (due (tick_count t +w 1) s) (qB Q))
                       (filter (fun i => ~ due (tick_count t +w 1) s i) (qB Q)) (qD Q)) /\
    forall i, (i < 32)%nat -> WakeTick (task s' i) =
      if decide (i ∈ filter (due (tick_count t +w 1) s) (qB Q)) then 0 else WakeTick (task s i).
Proof.
  intros Hinv. unfold timer_callback. cbn [tick_count]. set (now := tick_count t +w 1).
  destruct (SchedTick_inv r s Q Hinv) as [Hinv1 [_ HW]]. set (s1 := SchedTick r s) in *.
  destruct (SchedWakeExpired_spec now s1 Q Hinv1) as (s' & -> & Hinv' & Hw).
  rewrite some_bind. exists s'. split; [done|].
  assert (Hdue : forall i, due now s1 i <-> due now s i).
  { intros i. unfold due, wake_due. by rewrite HW. }
  assert (E1 : filter (due now s1) (qB Q) = filter (due now s) (qB Q)) by by apply list_filter_iff.
  assert (E2 : filter (fun i => ~ due now s1 i) (qB Q) = filter (fun i => ~ due now s i) (qB Q)).
  { apply list_filter_iff. intros i. by rewrite Hdue. }
  rewrite E1, E2 in *. split; [done|]. intros i Hi. by rewrite (wk_tick _ _ _ Hw), HW.
Qed.

Lemma callback_awake r t s Q x :
  sched_inv s Q -> awake x s Q ->
  exists s' Q', timer_callback r t s =
      Some (mkTimer (tick_count t +w 1) (ticks_per_second t) (pit_outs t) (irq0_registered t), s') /\
    sched_inv s' Q' /\ awake x s' Q'.
Proof.
  intros Hinv [Hx HW]. destruct (callback_spec r t s Q Hinv) as (s' & -> & Hinv' & Hw).
  eexists s', _. split; [done|]. split; [exact Hinv'|]. split; [cbn; set_solver|].
  rewrite Hw by (eapply q_range with (q := QReady); [apply Hinv|done]). by case_decide.
Qed.

Lemma callback_asleep r t s Q x d :
  sched_inv s Q -> asleep x d s Q -> is_u32 d -> d <> 0 -> is_u32 (tick_count t) ->
  0 < ticks_left d t < 2147483648 ->
  exists s' Q' t', timer_callback r t s = Some (t', s') /\ is_u32 (tick_count t') /\
    sched_inv s' Q' /\
    if ticks_left d t =? 1 then awake x s' Q'
    else asleep x d s' Q' /\ ticks_left d t' = ticks_left d t - 1.
Proof.
  intros Hinv [Hx HW] Hd H0 Ht HL. destruct (callback_spec r t s Q Hinv) as (s' & -> & Hinv' & Hw).
  assert (Hx32 : (x < 32)%nat) by (eapply q_range with (q := QBlocked); [apply Hinv|done]).
  pose proof (due_ticks x d t s HW Hd H0 Ht HL) as Hdue. specialize (Hw x Hx32).
  eexists s', _, _. split; [done|]. split; [apply wrap32_range|]. split; [exact Hinv'|].
  destruct (Z.eqb_spec (ticks_left d t) 1) as [E|E].
  - split; [cbn; rewrite elem_of_app, list_elem_of_filter; tauto|].
    rewrite Hw, decide_True by (rewrite list_elem_of_filter; tauto). done.
  - split.
    + split; [cbn; rewrite list_elem_of_filter; tauto|].
      rewrite Hw, decide_False by (rewrite list_elem_of_filter; tauto). done.
    + unfold ticks_left in *. cbn [tick_count]. set (n := tick_count t) in *.
      replace (wrap32 (d - wrap32 (n + 1))) with (wrap32 (wrap32 (d - n) - 1)).
      { apply wrap32_small. unfold is_u32. lia. }
      unfold wrap32. rewrite Zminus_mod_idemp_l, Zminus_mod_idemp_r. f_equal. lia.
Qed.

Lemma run_awake regs : forall t s Q x,
  sched_inv s Q -> awake x s Q ->
  exists t' s' Q', timer_run regs t s = Some (t', s') /\ sched_inv s' Q' /\ awake x s' Q'.
Proof.
  induction regs as [|r regs IH]; intros t s Q x Hinv Ha; [by exists t, s, Q|].
  cbn [timer_run]. destruct (callback_awake r t s Q x Hinv Ha) as (s1 & Q1 & -> & Hinv1 & Ha1).
  rewrite some_bind. by apply (IH _ _ Q1).
Qed.

Lemma run_sleep regs : forall t s Q x d,
  sched_inv s Q -> asleep x d s Q -> is_u32 d -> d <> 0 -> is_u32 (tick_count t) ->
  0 < ticks_left d t < 2147483648 ->
  exists t' s' Q', timer_run regs t s = Some (t', s') /\ sched_inv s' Q' /\
    if Z.of_nat (length regs) <? ticks_left d t then asleep x d s' Q' else awake x s' Q'.
Proof.
  induction regs as [|r regs IH]; intros t s Q x d Hinv Ha Hd H0 Ht HL.
  { exists t, s, Q. split; [done|]. split; [done|]. cbn [length].
    by rewrite (proj2 (Z.ltb_lt _ _)) by lia. }
  cbn [timer_run length].
  destruct (callback_asleep r t s Q x d Hinv Ha Hd H0 Ht HL)
    as (s1 & Q1 & t1 & -> & Ht1 & Hinv1 & Hc). rewrite some_bind.
  destruct (Z.eqb_spec (ticks_left d t) 1) as [E|E].
  - destruct (run_awake regs t1 s1 Q1 x Hinv1 Hc) as (t' & s' & Q' & E' & H1 & H2).
    exists t', s', Q'. split; [done|]. split; [done|]. by rewrite (proj2 (Z.ltb_ge _ _)) by lia.
  - destruct Hc as [Hc HL1]. destruct (IH t1 s1 Q1 x d) as (t' & s' & Q' & E' & H1 & H2);
      [done|done|done|done|done|lia|].
    exists t', s', Q'. split; [done|]. split; [done|]. rewrite HL1 in H2.
    destruct (Z.ltb_spec (Z.of_nat (length regs)) (ticks_left d t - 1));
      destruct (Z.ltb_spec (Z.of_nat (S (length regs))) (ticks_left d t)); try lia; done.
Qed.

(** ** Going to sleep *)

(** The running task [x] may sleep: interrupts on, the scheduler free. *)
Record sleeper (x : nat) (s : Sched) (Q : Qs) : Prop := {
  sl_inv : sched_inv s Q;
  sl_cur : CurrentTask s = Some x;
  sl_run : State (task s x) = TaskRunning;
  sl_id : Id (task s x) <> 0;
  sl_irq : irq_on s = true;
  sl_free : SchedulerLocked s = 0 }.

Lemma SchedSleepUntil_switches x d s Q :
  sleeper x s Q ->
  exists n s', SchedSleepUntil d s =
      Some (Switched [FrSchedYield true; FrSchedBlockTask x; FrSchedSleepUntil x], s') /\
    CurrentTask s' = Some n /\ n <> x /\
    let Q' := mkQs (rem n (qR Q)) (qB Q ++ [x]) (qD Q) in sched_inv s' Q' /\ asleep x d s' Q'.
Proof.
  intros [Hinv Hc Hr HI Hi Hl]. unfold SchedSleepUntil. rewrite Hc, (proj2 (Z.eqb_neq _ _) HI).
  destruct (g_cur _ _ (proj2 Hinv) x Hc) as [Hx _].
  assert (Hx' : (x < length (Tasks s))%nat) by by rewrite (q_len _ _ (proj1 Hinv)).
  set (s1 := upd x (with_WakeTick d) s).
  assert (Hinv1 : sched_inv s1 Q) by by apply sched_inv_upd.
  assert (E1 : task s1 x = with_WakeTick d (task s x)) by by apply task_upd_eq.
  destruct (block_self_switches x s1 Q) as (n & s' & E & Hn & Hcn & _ & _ & Hinv' & Hf & _);
    [done|done|by rewrite E1|by rewrite E1|done|].
  change (irq_on s1) with (irq_on s) in E. rewrite Hi in E. cbv zeta. rewrite E, some_bind.
  exists n, s'. split; [done|]. split; [done|]. split.
  - intros ->. apply (g_ready _ _ (proj2 Hinv)) in Hn; [congruence|done].
  - split; [done|]. split; [cbn; set_solver|]. destruct (Hf x Hx) as [_ ->]. by rewrite E1.
Qed.

Lemma timer_sleep_ms_blocks ms x t s Q :
  sleeper x s Q -> 0 < ticks_per_second t -> ms <> 0 ->
  timer_sleep_ms ms t s =
    '(out, s') ← SchedSleepUntil (sleep_deadline ms t) s; Some (SleepBlocks out, s').
Proof.
  intros [Hinv Hc Hr HI Hi Hl] Hp Hms. unfold timer_sleep_ms, SchedCurrent.
  rewrite (proj2 (Z.eqb_neq _ _) Hms), (proj2 (Z.eqb_neq (ticks_per_second t) 0)) by lia.
  rewrite Hi, Hc, (proj2 (Z.eqb_neq _ _) HI). cbn [orb negb].
  rewrite (SchedHasRunnable_spec s Q Hinv), some_bind, bool_decide_eq_true_2; [done|].
  apply Exists_exists. exists 0%nat. pose proof (nonzero_id s Q x Hinv) as H0.
  destruct (g_cur _ _ (proj2 Hinv) x Hc) as [Hx _]. pose proof (H0 Hx HI).
  split; [by eapply idle_ready|congruence].
Qed.

(** The requested time in ticks, rounded up. *)
Definition sleep_ticks (ms : Z) (t : Timer) : Z := (ms * ticks_per_second t + 999) / 1000.

Lemma sleep_ticks_left ms t :
  timer_wf t -> 0 < ticks_per_second t -> 0 < ms -> ms * ticks_per_second t < 1000 * 2147483647 ->
  ticks_left (sleep_deadline ms t) t = sleep_ticks ms t /\ 0 < sleep_ticks ms t < 2147483648.
Proof.
  intros Hw Hp Hm Hb. unfold ticks_left. rewrite sleep_deadline_exact by (done || lia).
  fold (sleep_ticks ms t).
  assert (HB : 0 < sleep_ticks ms t < 2147483648).
  { unfold sleep_ticks. assert (0 < ms * ticks_per_second t) by nia.
    split; [apply Z.div_str_pos; lia|apply Z.div_lt_upper_bound; lia]. }
  split; [|done]. set (k := sleep_ticks ms t) in *. rewrite <- (wrap32_small k) at 2 by (unfold is_u32; lia).
  unfold wrap32. rewrite Zminus_mod_idemp_l. f_equal. lia.
Qed.

Lemma run_forgotten regs : forall t s Q x,
  sched_inv s Q -> asleep x 0 s Q ->
  exists t' s' Q', timer_run regs t s = Some (t', s') /\ sched_inv s' Q' /\ asleep x 0 s' Q'.
Proof.
  induction regs as [|r regs IH]; intros t s Q x Hinv [Hx HW]; [by exists t, s, Q|].
  cbn [timer_run]. destruct (callback_spec r t s Q Hinv) as (s1 & -> & Hinv1 & Hw).
  rewrite some_bind. eapply IH; [exact Hinv1|].
  assert (Hnd : ~ due (tick_count t +w 1) s x) by (unfold due, wake_due; by rewrite HW).
  split; [cbn; by rewrite list_elem_of_filter|].
  rewrite Hw, decide_False by first [by eapply q_range with (q := QBlocked); [apply Hinv|]
                                     |rewrite list_elem_of_filter; tauto]. done.
Qed.

(** ** Claims *)

(** C28. timer_init with a positive rate programs the PIT with a reload value
    in 1..65535 sent low byte first after the mode byte, and records the true
    rate of that divisor: at least the requested rate wherever the PIT can
    reach it, between 18 and 1193182 in every case. A rate of 0 or less leaves
    everything alone. *)
Theorem timer_init_programs hz t :
  -2147483648 <= hz < 2147483648 ->
  (hz <= 0 -> timer_init hz t = t) /\
  (0 < hz -> exists lo hi,
    pit_outs (timer_init hz t) = (64, hi) :: (64, lo) :: (67, 54) :: pit_outs t /\
    1 <= lo + 256 * hi <= 65535 /\
    ticks_per_second (timer_init hz t) = PIT_OSC_FREQ / (lo + 256 * hi) /\
    18 <= ticks_per_second (timer_init hz t) <= 1193182 /\
    (19 <= hz <= 1193182 -> hz <= ticks_per_second (timer_init hz t))).
Proof.
  intros Hz. unfold timer_init. split; intros H; [by rewrite (proj2 (Z.leb_le _ _)) by lia|].
  rewrite (proj2 (Z.leb_gt _ _)) by lia. pose proof (pit_divisor_range hz ltac:(lia)) as Hd.
  eexists _, _. split; [done|]. rewrite byte_split by lia. split; [done|]. split; [done|].
  apply pit_rate. lia.
Qed.

Lemma timer_init_programs_witness :
  1000 <= ticks_per_second (timer_init 1000 timer_bss).
Proof.
  destruct (timer_init_programs 1000 timer_bss) as [_ H]; [lia|].
  destruct H as (lo & hi & _ & _ & _ & _ & Hr); [lia|]. apply Hr. lia.
Defined.

(** The uptime is exact: for every value of the 32-bit tick counter and
    every rate the PIT can have, splitting off the seconds loses nothing and
    no intermediate product overflows. *)
Theorem timer_uptime_exact t :
  timer_wf t -> 0 < ticks_per_second t ->
  timer_uptime_ms t = tick_count t * 1000 / ticks_per_second t.
Proof. apply uptime_exact. Qed.

Lemma timer_uptime_exact_witness :
  timer_uptime_ms (mkTimer 4294967295 1000 [] true) = 4294967295.
Proof.
  rewrite timer_uptime_exact; [reflexivity|split; cbn; [unfold is_u32|]; lia|cbn; lia].
Defined.

(** C27. When a task that sleeps is woken, for requests of fewer than 2^31
    ticks: timer_sleep_ms of the running task hands the CPU to another one, and
    from then on, whatever the timer interrupts, the sleeper stays on the
    blocked queue until as many ticks have come as the requested time rounded
    up to ticks has, and is on the ready queue from the last of them on, also
    where the tick counter wraps. As the first tick may come at once, that is
    up to one tick less than the requested time. A request whose deadline comes
    out as tick 0 is never served: 0 is the mark of "not sleeping", and no
    number of timer interrupts wakes the task. *)
Theorem sleep_wakes_on_time ms x t s Q :
  sleeper x s Q -> timer_wf t -> 0 < ticks_per_second t -> 0 < ms ->
  ms * ticks_per_second t < 1000 * 2147483647 ->
  exists fs s1, timer_sleep_ms ms t s = Some (SleepBlocks (Switched fs), s1) /\
    CurrentTask s1 <> Some x /\
    forall regs, exists t' s' Q', timer_run regs t s1 = Some (t', s') /\ sched_inv s' Q' /\
      if sleep_deadline ms t =? 0 then x ∈ qB Q'
      else if Z.of_nat (length regs) <? sleep_ticks ms t then x ∈ qB Q' else x ∈ qR Q'.
Proof.
  intros Hs Hw Hp Hm Hb. rewrite (timer_sleep_ms_blocks ms x t s Q Hs Hp) by lia.
  destruct (SchedSleepUntil_switches x (sleep_deadline ms t) s Q Hs)
    as (n & s1 & -> & Hc & Hn & Hinv & Ha). rewrite some_bind.
  eexists _, s1. split; [done|]. split; [congruence|]. intros regs.
  destruct (Z.eqb_spec (sleep_deadline ms t) 0) as [H0|H0].
  { rewrite H0 in Ha. destruct (run_forgotten regs t s1 _ x Hinv Ha) as (t' & s' & Q' & E & Hi & Hr).
    exists t', s', Q'. split; [done|]. split; [done|]. apply Hr. }
  destruct (sleep_ticks_left ms t) as [EL HL]; [done..|].
  destruct (run_sleep regs t s1 _ x (sleep_deadline ms t) Hinv Ha) as (t' & s' & Q' & E & Hi & Hr);
    [apply wrap32_range|done|apply Hw|by rewrite EL|].
  exists t', s', Q'. split; [done|]. split; [done|]. rewrite EL in Hr. case_match; apply Hr.
Qed.

Lemma demo_sleeper : sleeper 1 (set_irq_on true demo_run) (mkQs [2%nat; 0%nat] [] []).
Proof. split; [by apply sched_inv_irq, demo_run_inv|by vm_compute..]. Qed.

(** The tick counter wraps during the sleep. *)
Definition late_timer : Timer := mkTimer 4294967290 1000 [] true.

Lemma late_timer_wf : timer_wf late_timer.
Proof. split; cbn; [unfold is_u32|]; lia. Qed.

Lemma sleep_wakes_on_time_witness :
  exists fs s1, timer_sleep_ms 20 late_timer (set_irq_on true demo_run) =
      Some (SleepBlocks (Switched fs), s1) /\
    exists t' s' Q', timer_run (replicate 20 None) late_timer s1 = Some (t', s') /\ 1%nat ∈ qR Q'.
Proof.
  destruct (sleep_wakes_on_time 20 1 late_timer (set_irq_on true demo_run) _ demo_sleeper late_timer_wf)
    as (fs & s1 & E & _ & H); [cbn; lia|lia|cbn; lia|].
  exists fs, s1. split; [exact E|]. destruct (H (replicate 20 None)) as (t' & s' & Q' & E' & _ & Hx).
  exists t', s', Q'. split; [exact E'|exact Hx].
Defined.

(** A request that is never served: 6 ms, 6 ticks before the counter wraps. *)
Example sleep_deadline_zero : sleep_deadline 6 late_timer = 0.
Proof. reflexivity. Qed.
