(* ===== verification/Paging.v ===== *)
(** * Paging (mm/paging.c)

    The page directory and the page tables lie in memory, at the addresses the
    linker gives the two arrays ([pd] and [pt], both page aligned), and the
    kernel's own stores to them go through the translation they define once
    paging is on. The processor's side is written down as the two-level walk of
    32-bit x86 paging with a TLB that may hold any translation it has looked up
    until the page is invalidated or CR3 is loaded. *)

From Stdlib Require Import Btauto.
From S2P Require Import Prelude.

(** ** Data *)

Definition PAGING_PAGE_SIZE : Z := 4096.
Definition PAGING_PRESENT : Z := 1.
Definition PAGING_WRITABLE : Z := 2.
Definition PAGE_TABLE_ENTRIES : Z := 1024.
Definition PAGE_DIRECTORY_FLAGS : Z := Z.lor PAGING_PRESENT PAGING_WRITABLE.

(** [tlb] maps a page number to the page table entry cached for it. *)
Record Paging := mkPaging {
  mem : Mem; cr3 : Z; cr0 : Z; tlb : gmap Z Z; PagingEnabled : bool }.

Definition set_mem v P := mkPaging v (cr3 P) (cr0 P) (tlb P) (PagingEnabled P).

(** ** The processor *)

Definition page_mask : Z := u32_not (PAGING_PAGE_SIZE - 1).

Definition entry_maps (pte va : Z) : option Z :=
  if Z.testbit pte 0 then Some (Z.lor (Z.land pte page_mask) (Z.land va 4095)) else None.

(** The page table entry the walk finds for an address; [None] is a page fault. *)
Definition walk (P : Paging) (va : Z) : option Z :=
  let pde := load32 (mem P) (Z.land (cr3 P) page_mask + 4 * Z.shiftr va 22) in
  if Z.testbit pde 0
  then Some (load32 (mem P) (Z.land pde page_mask + 4 * Z.land (Z.shiftr va 12) 1023))
  else None.

(** The write permission bits play no part: the kernel leaves CR0.WP clear. *)
Definition translate (P : Paging) (va : Z) : option Z :=
  if negb (Z.testbit (cr0 P) 31) then Some va
  else match tlb P !! (va / 4096) with
       | Some pte => entry_maps pte va
       | None => pte ← walk P va; entry_maps pte va
       end.

(** The TLB may keep the entry of an address it has translated. *)
Definition tlb_fill (va : Z) (P : Paging) : Paging :=
  match walk P va with
  | Some pte => mkPaging (mem P) (cr3 P) (cr0 P) (<[va / 4096 := pte]> (tlb P)) (PagingEnabled P)
  | None => P
  end.

(** A 32-bit store of the kernel; [None] is a page fault. *)
Definition vstore32 (va v : Z) (P : Paging) : option Paging :=
  pa ← translate P va; Some (set_mem (store32 (mem P) pa v) P).

Definition invlpg (va : Z) (P : Paging) : Paging :=
  mkPaging (mem P) (cr3 P) (cr0 P) (delete (va / 4096) (tlb P)) (PagingEnabled P).
Definition load_cr3 (v : Z) (P : Paging) : Paging :=
  mkPaging (mem P) v (cr0 P) ∅ (PagingEnabled P).
Definition load_cr0 (v : Z) (P : Paging) : Paging :=
  mkPaging (mem P) (cr3 P) v (tlb P) (PagingEnabled P).

(** ** Operations *)

Definition PageDirectoryIndex (Address : Z) : Z := Z.shiftr Address 22.
Definition PageTableIndex (Address : Z) : Z := Z.land (Z.shiftr Address 12) 1023.

Section Tables.
(** The addresses of PageDirectory and of PageTables. *)
Context (pd pt : Z).

Definition dir_entry (DirectoryIndex : Z) : Z := pd + 4 * DirectoryIndex.
Definition table_entry (DirectoryIndex TableIndex : Z) : Z :=
  pt + 4096 * DirectoryIndex + 4 * TableIndex.

(** The directory entry of a table. *)
Definition dir_value (DirectoryIndex : Z) : Z :=
  Z.lor (Z.land (table_entry DirectoryIndex 0) page_mask) PAGE_DIRECTORY_FLAGS.

Definition PagingMap (VirtualAddress PhysicalAddress Flags : Z) (P : Paging) : option Paging :=
  let VirtualAddress := Z.land VirtualAddress page_mask in
  let PhysicalAddress := Z.land PhysicalAddress page_mask in
  let DirectoryIndex := PageDirectoryIndex VirtualAddress in
  let TableIndex := PageTableIndex VirtualAddress in
  P ← vstore32 (dir_entry DirectoryIndex) (dir_value DirectoryIndex) P;
  P ← vstore32 (table_entry DirectoryIndex TableIndex) (Z.lor PhysicalAddress Flags) P;
  Some (invlpg VirtualAddress P).

Definition PagingUnmap (VirtualAddress : Z) (P : Paging) : option Paging :=
  let VirtualAddress := Z.land VirtualAddress page_mask in
  let DirectoryIndex := PageDirectoryIndex VirtualAddress in
  let TableIndex := PageTableIndex VirtualAddress in
  P ← vstore32 (table_entry DirectoryIndex TableIndex) 0 P;
  Some (invlpg VirtualAddress P).

(** [for (i = 0; i < n; i++) body], from the last iteration's point of view. *)
Fixpoint for_upto (n : nat) (body : Z -> Paging -> option Paging) (P : Paging) : option Paging :=
  match n with
  | O => Some P
  | S n => P ← for_upto n body P; body (Z.of_nat n) P
  end.

Definition PagingInit_entry (DirectoryIndex TableIndex : Z) (P : Paging) : option Paging :=
  let Address := Z.lor (wrap32 (Z.shiftl DirectoryIndex 22)) (wrap32 (Z.shiftl TableIndex 12)) in
  vstore32 (table_entry DirectoryIndex TableIndex) (Z.lor Address PAGE_DIRECTORY_FLAGS) P.

Definition PagingInit_table (DirectoryIndex : Z) (P : Paging) : option Paging :=
  P ← vstore32 (dir_entry DirectoryIndex) (dir_value DirectoryIndex) P;
  for_upto 1024 (PagingInit_entry DirectoryIndex) P.

Definition PagingInit (P : Paging) : option Paging :=
  P ← for_upto 1024 PagingInit_table P;
  let P := load_cr3 pd P in
  let P := load_cr0 (Z.lor (cr0 P) 2147483648) P in
  Some (mkPaging (mem P) (cr3 P) (cr0 P) (tlb P) true).

Definition PagingIsEnabled (P : Paging) : bool := PagingEnabled P.

End Tables.

(** ** Bits *)

Lemma page_mask_land a : is_u32 a -> Z.land a page_mask = 4096 * (a / 4096).
Proof.
  intros Ha. change page_mask with (Z.ldiff (Z.ones 32) (Z.ones 12)).
  assert (E : Z.land a (Z.ldiff (Z.ones 32) (Z.ones 12)) = Z.ldiff (Z.land a (Z.ones 32)) (Z.ones 12)).
  { apply Z.bits_inj'. intros n Hn. rewrite !Z.land_spec, !Z.ldiff_spec, Z.land_spec. btauto. }
  rewrite E, Z.land_ones, Z.mod_small by (unfold is_u32 in Ha; lia).
  rewrite Z.ldiff_ones_r, Z.shiftl_mul_pow2, Z.shiftr_div_pow2 by lia.
  change (2 ^ 12) with 4096. lia.
Qed.

Lemma lor_low n k f : 0 <= n -> 0 <= f < 2 ^ n -> Z.lor (2 ^ n * k) f = 2 ^ n * k + f.
Proof.
  intros Hn Hf. assert (H0 : Z.land (2 ^ n * k) f = 0).
  { rewrite <- (Z.mod_small f (2 ^ n)) by lia. rewrite <- Z.land_ones by lia.
    rewrite (Z.land_comm f), Z.land_assoc, Z.land_ones, Z.mul_comm, Z.mod_mul by lia. apply Z.land_0_l. }
  rewrite <- Z.lxor_lor by done. symmetry. by apply Z.add_nocarry_lxor.
Qed.

Lemma lor_page k f : 0 <= f < 4096 -> Z.lor (4096 * k) f = 4096 * k + f.
Proof. intros Hf. by apply (lor_low 12). Qed.

Lemma page_offset va : Z.land va 4095 = va mod 4096.
Proof. change 4095 with (Z.ones 12). by rewrite Z.land_ones by lia. Qed.

Lemma table_index va : Z.land (Z.shiftr va 12) 1023 = va / 4096 mod 1024.
Proof. change 1023 with (Z.ones 10). by rewrite Z.land_ones, Z.shiftr_div_pow2 by lia. Qed.

Lemma dir_index va : Z.shiftr va 22 = va / 4096 / 1024.
Proof. rewrite Z.shiftr_div_pow2 by lia. by rewrite Z.div_div by lia. Qed.

(** ** The invariant *)

(** Where an entry leads, in arithmetic. *)
Lemma entry_maps_eq pte va :
  is_u32 pte ->
  entry_maps pte va = if Z.testbit pte 0 then Some (4096 * (pte / 4096) + va mod 4096) else None.
Proof.
  intros Hp. unfold entry_maps. case_match; [|done].
  rewrite page_mask_land, page_offset, lor_page by first [done|apply Z.mod_pos_bound; lia]. done.
Qed.

Section Proofs.
Context (pd pt : Z).

(** What the linker guarantees of the two arrays. *)
Record layout : Prop := {
  l_pd : pd mod 4096 = 0;
  l_pt : pt mod 4096 = 0;
  l_pd_range : 0 <= pd /\ pd + 4096 <= 4294967296;
  l_pt_range : 0 <= pt /\ pt + 4194304 <= 4294967296;
  l_disj : pd + 4096 <= pt \/ pt + 4194304 <= pd }.

(** The pages the arrays occupy. *)
Definition own_page (p : Z) : Prop := p = pd / 4096 \/ pt / 4096 <= p < pt / 4096 + 1024.

(** The entry of page [p]: the tables are one array indexed by page number. *)
Definition pte (P : Paging) (p : Z) : Z := load32 (mem P) (pt + 4 * p).

(** The directory points at the tables, the kernel reaches the arrays at their
    own addresses, and the TLB agrees with the tables. *)
Record paging_ok (P : Paging) : Prop := {
  p_cr3 : cr3 P = pd;
  p_cr0 : Z.testbit (cr0 P) 31 = true;
  p_dir : forall d, 0 <= d < 1024 -> load32 (mem P) (pd + 4 * d) = pt + 4096 * d + 3;
  p_own : forall p, own_page p -> Z.testbit (pte P p) 0 = true /\ pte P p / 4096 = p;
  p_tlb : forall p e, 0 <= p < 1048576 -> tlb P !! p = Some e -> e = pte P p }.

Context (L : layout).

Lemma dir_value_eq d : 0 <= d < 1024 -> dir_value pt d = pt + 4096 * d + 3.
Proof.
  intros Hd. destruct L as [_ Hm _ Hr _]. unfold dir_value, table_entry.
  rewrite page_mask_land by (unfold is_u32; lia).
  change PAGE_DIRECTORY_FLAGS with 3. rewrite lor_page by lia.
  pose proof (Z.div_mod pt 4096 ltac:(lia)).
  replace (pt + 4096 * d + 4 * 0) with (pt + d * 4096) by lia. rewrite Z.div_add by lia. lia.
Qed.

Lemma page_range va : is_u32 va -> 0 <= va / 4096 < 1048576.
Proof. intros Hva. unfold is_u32 in Hva. split; [apply Z.div_pos; lia|apply Z.div_lt_upper_bound; lia]. Qed.

Lemma walk_eq P va : paging_ok P -> is_u32 va -> walk P va = Some (pte P (va / 4096)).
Proof.
  intros W Hva. pose proof (page_range va Hva) as Hp. unfold walk. rewrite (p_cr3 P W), dir_index, table_index.
  destruct L as [Hpd Hpt Hr Hr' _]. set (p := va / 4096) in *.
  assert (Hd : 0 <= p / 1024 < 1024) by (split; [apply Z.div_pos; lia|apply Z.div_lt_upper_bound; lia]).
  rewrite page_mask_land by (unfold is_u32; lia).
  replace (4096 * (pd / 4096)) with pd by (pose proof (Z.div_mod pd 4096 ltac:(lia)); lia).
  rewrite (p_dir P W _ Hd), page_mask_land by (unfold is_u32; lia).
  pose proof (Z.div_mod pt 4096 ltac:(lia)) as Ept. pose proof (Z.div_mod p 1024 ltac:(lia)).
  assert (Eb : Z.testbit (pt + 4096 * (p / 1024) + 3) 0 = true).
  { rewrite Z.bit0_odd. rewrite Ept, Hpt.
    replace (4096 * (pt / 4096) + 0 + 4096 * (p / 1024) + 3)
      with (1 + 2 * (2048 * (pt / 4096) + 2048 * (p / 1024) + 1)) by lia.
    by rewrite Z.odd_add_mul_2. }
  rewrite Eb. unfold pte. do 2 f_equal.
  replace (pt + 4096 * (p / 1024) + 3) with (3 + (pt / 4096 + p / 1024) * 4096) by lia.
  rewrite Z.div_add by lia. change (3 / 4096) with 0. lia.
Qed.

Lemma translate_eq P va :
  paging_ok P -> is_u32 va -> translate P va = entry_maps (pte P (va / 4096)) va.
Proof.
  intros W Hva. unfold translate. rewrite (p_cr0 P W). cbn [negb].
  destruct (tlb P !! (va / 4096)) as [e|] eqn:E.
  - by rewrite (p_tlb P W _ _ (page_range va Hva) E).
  - by rewrite walk_eq.
Qed.

(** The kernel's stores to its tables land where they are meant to. *)
Lemma own_translate P va :
  paging_ok P -> is_u32 va -> own_page (va / 4096) -> translate P va = Some va.
Proof.
  intros W Hva Ho. destruct (p_own P W _ Ho) as [Hb He].
  rewrite translate_eq, entry_maps_eq, Hb, He by (done || apply load32_range).
  f_equal. symmetry. apply Z.div_mod. lia.
Qed.

Lemma dir_own d : 0 <= d < 1024 -> is_u32 (pd + 4 * d) /\ own_page ((pd + 4 * d) / 4096).
Proof.
  intros Hd. destruct L as [Hpd _ Hr _ _]. split; [unfold is_u32; lia|]. left.
  pose proof (Z.div_mod pd 4096 ltac:(lia)).
  symmetry. apply Z.div_unique with (r := 4 * d); lia.
Qed.

Lemma pte_own p : 0 <= p < 1048576 -> is_u32 (pt + 4 * p) /\ own_page ((pt + 4 * p) / 4096).
Proof.
  intros Hp. destruct L as [_ Hpt _ Hr _]. split; [unfold is_u32; lia|]. right.
  pose proof (Z.div_mod pt 4096 ltac:(lia)) as E.
  assert (pt / 4096 <= (pt + 4 * p) / 4096) by (apply Z.div_le_mono; lia).
  split; [done|]. apply Z.div_lt_upper_bound; lia.
Qed.

Lemma tlb_fill_ok va P : paging_ok P -> is_u32 va -> paging_ok (tlb_fill va P).
Proof.
  intros W Hva. unfold tlb_fill. rewrite (walk_eq P va W Hva). destruct W. split; try done.
  intros p e Hp. cbn [tlb]. rewrite lookup_insert. case_decide; [by intros [= <-]; subst|by apply p_tlb0].
Qed.

(** ** Changing an entry *)

Lemma own_range p : own_page p -> 0 <= p < 1048576.
Proof.
  destruct L as [Hpd Hpt Hr Hr' _]. pose proof (Z.div_mod pd 4096 ltac:(lia)).
  pose proof (Z.div_mod pt 4096 ltac:(lia)). intros [->|?]; lia.
Qed.

(** The directory entry is rewritten with the value it has. *)
Lemma store_dir P d :
  paging_ok P -> 0 <= d < 1024 ->
  exists P', vstore32 (dir_entry pd d) (dir_value pt d) P = Some P' /\ paging_ok P' /\
    (forall p, 0 <= p < 1048576 -> pte P' p = pte P p).
Proof.
  intros W Hd. destruct (dir_own d Hd) as [Hu Ho]. unfold vstore32, dir_entry.
  rewrite own_translate, some_bind by done. eexists. split; [done|].
  assert (Hpte : forall p, 0 <= p < 1048576 ->
    pte (set_mem (store32 (mem P) (pd + 4 * d) (dir_value pt d)) P) p = pte P p).
  { intros p Hp. apply load32_store32_ne. destruct (l_disj L); lia. }
  split; [|done]. destruct W as [W1 W2 W3 W4 W5]. split; try done.
  - intros d' Hd'. cbn [mem set_mem]. destruct (decide (d = d')) as [<-|Hne].
    + rewrite load32_store32_eq, dir_value_eq by done. apply wrap32_small.
      destruct L as [_ _ _ Hr _]. unfold is_u32. lia.
    + rewrite load32_store32_ne by lia. auto.
  - intros p Hp. rewrite Hpte by by apply own_range. auto.
  - intros p e Hp. rewrite Hpte by done. auto.
Qed.

(** A new entry for a page the tables do not need, its old one invalidated. *)
Lemma store_pte P p v :
  paging_ok P -> 0 <= p < 1048576 -> ~ own_page p ->
  exists P', vstore32 (pt + 4 * p) v P = Some P' /\ forall va, va / 4096 = p ->
    paging_ok (invlpg va P') /\
    forall q, 0 <= q < 1048576 -> pte (invlpg va P') q = if q =? p then wrap32 v else pte P q.
Proof.
  intros W Hp Hno. destruct (pte_own p Hp) as [Hu Ho]. unfold vstore32.
  rewrite own_translate, some_bind by done. eexists. split; [done|]. intros va Hva.
  assert (Hpte : forall q, 0 <= q < 1048576 ->
    pte (invlpg va (set_mem (store32 (mem P) (pt + 4 * p) v) P)) q = if q =? p then wrap32 v else pte P q).
  { intros q Hq. unfold pte. cbn [mem invlpg set_mem]. destruct (Z.eqb_spec q p) as [->|Hne];
      [apply load32_store32_eq|apply load32_store32_ne; lia]. }
  split; [|done]. destruct W as [W1 W2 W3 W4 W5]. split; try done.
  - intros d Hd. cbn [mem invlpg set_mem]. rewrite load32_store32_ne; [by apply W3|].
    destruct (l_disj L); lia.
  - intros q Hq. rewrite Hpte by by apply own_range.
    rewrite (proj2 (Z.eqb_neq q p)) by (intros ->; done). auto.
  - intros q e Hq. cbn [tlb invlpg set_mem]. rewrite Hva, lookup_delete.
    case_decide as Hd; [done|]. rewrite Hpte, (proj2 (Z.eqb_neq q p)) by done. auto.
Qed.

(** The indices of a masked address name the entry of its page. *)
Lemma entry_address va :
  is_u32 va ->
  let v := Z.land va page_mask in
  v / 4096 = va / 4096 /\ 0 <= PageDirectoryIndex v < 1024 /\
  table_entry pt (PageDirectoryIndex v) (PageTableIndex v) = pt + 4 * (va / 4096).
Proof.
  intros Hva v. unfold v. rewrite page_mask_land by done. pose proof (page_range va Hva) as Hp.
  set (p := va / 4096) in *.
  assert (E : 4096 * p / 4096 = p) by (rewrite Z.mul_comm; apply Z.div_mul; lia).
  unfold PageDirectoryIndex, PageTableIndex, table_entry. rewrite dir_index, table_index, E.
  split; [done|]. split; [split; [apply Z.div_pos; lia|apply Z.div_lt_upper_bound; lia]|].
  pose proof (Z.div_mod p 1024 ltac:(lia)). lia.
Qed.

(** Where the pages lead after the entry of [p] became [e]. *)
Lemma translate_after P P' p e :
  paging_ok P -> paging_ok P' ->
  (forall q, 0 <= q < 1048576 -> pte P' q = if q =? p then e else pte P q) ->
  forall a, is_u32 a ->
    translate P' a = if a / 4096 =? p then entry_maps e a else translate P a.
Proof.
  intros W W' Hpte a Ha. rewrite (translate_eq P' a W' Ha), Hpte by by apply page_range.
  case_match; [done|]. by rewrite (translate_eq P a W Ha).
Qed.

Lemma PagingMap_spec va pa flags P :
  paging_ok P -> is_u32 va -> is_u32 pa -> 0 <= flags < 4096 -> ~ own_page (va / 4096) ->
  exists P', PagingMap pd pt va pa flags P = Some P' /\ paging_ok P' /\
    forall a, is_u32 a -> translate P' a =
      if a / 4096 =? va / 4096
      then (if Z.testbit flags 0 then Some (4096 * (pa / 4096) + a mod 4096) else None)
      else translate P a.
Proof.
  intros W Hva Hpa Hf Hno. unfold PagingMap.
  destruct (entry_address va Hva) as (Ev & Hd & Ea). cbv zeta. rewrite Ea.
  destruct (store_dir P _ W Hd) as (P1 & -> & W1 & Hpte1). rewrite some_bind.
  destruct (store_pte P1 (va / 4096) (Z.lor (Z.land pa page_mask) flags) W1 (page_range va Hva) Hno)
    as (P2 & -> & H2). rewrite some_bind. destruct (H2 _ Ev) as [W2 Hpte2].
  eexists. split; [done|]. split; [done|]. intros a Ha.
  rewrite (translate_after P _ (va / 4096) (wrap32 (Z.lor (Z.land pa page_mask) flags)) W W2)
    by first [done|intros q Hq; rewrite Hpte2, Hpte1 by done; done].
  case_match; [|done]. pose proof (page_range pa Hpa) as Hpp.
  rewrite page_mask_land, lor_page by done. rewrite wrap32_small by (unfold is_u32; lia).
  rewrite entry_maps_eq by (unfold is_u32; lia).
  replace (4096 * (pa / 4096) + flags) with (flags + pa / 4096 * 4096) by lia.
  rewrite Z.div_add, (Z.div_small flags) by lia. rewrite !Z.bit0_odd.
  replace (pa / 4096 * 4096) with (2 * (2048 * (pa / 4096))) by lia.
  by rewrite Z.odd_add_mul_2, Z.add_0_l.
Qed.

Lemma PagingUnmap_spec va P :
  paging_ok P -> is_u32 va -> ~ own_page (va / 4096) ->
  exists P', PagingUnmap pt va P = Some P' /\ paging_ok P' /\
    forall a, is_u32 a -> translate P' a = if a / 4096 =? va / 4096 then None else translate P a.
Proof.
  intros W Hva Hno. unfold PagingUnmap. destruct (entry_address va Hva) as (Ev & _ & Ea).
  cbv zeta. rewrite Ea.
  destruct (store_pte P (va / 4096) 0 W (page_range va Hva) Hno) as (P2 & -> & H2).
  rewrite some_bind. destruct (H2 _ Ev) as [W2 Hpte2]. eexists. split; [done|]. split; [done|].
  intros a Ha. by rewrite (translate_after P _ (va / 4096) 0 W W2).
Qed.

(** ** PagingInit *)

(** The first [nd] directory entries and the first [np] page entries are set. *)
Record filled (P0 : Paging) (nd np : Z) (P : Paging) : Prop := {
  f_dir : forall d, 0 <= d < nd -> load32 (mem P) (pd + 4 * d) = pt + 4096 * d + 3;
  f_pte : forall p, 0 <= p < np -> pte P p = 4096 * p + 3;
  f_cr0 : cr0 P = cr0 P0 }.

Lemma off_vstore a v P :
  Z.testbit (cr0 P) 31 = false -> vstore32 a v P = Some (set_mem (store32 (mem P) a v) P).
Proof. intros H. unfold vstore32, translate. by rewrite H. Qed.

Lemma init_address d t :
  0 <= d < 1024 -> 0 <= t < 1024 ->
  Z.lor (Z.lor (wrap32 (Z.shiftl d 22)) (wrap32 (Z.shiftl t 12))) PAGE_DIRECTORY_FLAGS =
  4096 * (1024 * d + t) + 3.
Proof.
  intros Hd Ht. rewrite !Z.shiftl_mul_pow2 by lia. change (2 ^ 12) with 4096.
  rewrite (wrap32_small (t * 4096)) by (unfold is_u32; lia).
  rewrite wrap32_small by (unfold is_u32; lia). rewrite (Z.mul_comm d).
  rewrite (lor_low 22) by lia.
  replace (2 ^ 22 * d + t * 4096) with (4096 * (1024 * d + t)) by lia. by apply lor_page.
Qed.

Lemma init_entry P0 P d t :
  Z.testbit (cr0 P0) 31 = false -> 0 <= d < 1024 -> 0 <= t < 1024 ->
  filled P0 (d + 1) (1024 * d + t) P ->
  exists P', PagingInit_entry pt d t P = Some P' /\ filled P0 (d + 1) (1024 * d + t + 1) P'.
Proof.
  intros H0 Hd Ht [F1 F2 F3]. unfold PagingInit_entry. cbv zeta. rewrite init_address by done.
  rewrite off_vstore by by rewrite F3. eexists. split; [done|].
  replace (table_entry pt d t) with (pt + 4 * (1024 * d + t)) by (unfold table_entry; lia).
  split; [|intros p Hp|done]; unfold pte; cbn [mem set_mem].
  - intros d' Hd'. rewrite load32_store32_ne by (destruct (l_disj L); lia). auto.
  - destruct (decide (p = 1024 * d + t)) as [->|Hne].
    + rewrite load32_store32_eq, wrap32_small; [done|unfold is_u32; lia].
    + rewrite load32_store32_ne by lia. apply F2. lia.
Qed.

Lemma init_entries P0 P d : forall n,
  Z.testbit (cr0 P0) 31 = false -> 0 <= d < 1024 -> (n <= 1024)%nat ->
  filled P0 (d + 1) (1024 * d) P ->
  exists P', for_upto n (PagingInit_entry pt d) P = Some P' /\
    filled P0 (d + 1) (1024 * d + Z.of_nat n) P'.
Proof.
  induction n as [|n IH]; intros H0 Hd Hn F.
  { exists P. split; [done|]. by rewrite Z.add_0_r. }
  cbn [for_upto]. destruct IH as (P1 & -> & F1); [done|done|lia|done|]. rewrite some_bind.
  replace (Z.of_nat (S n)) with (Z.of_nat n + 1) by lia. rewrite Z.add_assoc.
  by apply init_entry; [..|lia|].
Qed.

Lemma init_table P0 P d :
  Z.testbit (cr0 P0) 31 = false -> 0 <= d < 1024 -> filled P0 d (1024 * d) P ->
  exists P', PagingInit_table pd pt d P = Some P' /\ filled P0 (d + 1) (1024 * (d + 1)) P'.
Proof.
  intros H0 Hd [F1 F2 F3]. unfold PagingInit_table.
  rewrite off_vstore, some_bind by by rewrite F3. replace (1024 * (d + 1)) with (1024 * d + 1024) by lia.
  apply (init_entries P0 _ d 1024); [done|done|done|].
  split; [|intros p Hp|done]; unfold pte, dir_entry; cbn [mem set_mem].
  - intros d' Hd'. rewrite dir_value_eq by done. destruct (decide (d = d')) as [<-|Hne].
    + rewrite load32_store32_eq. apply wrap32_small. destruct L as [_ _ _ Hr _]. unfold is_u32. lia.
    + rewrite load32_store32_ne by lia. apply F1. lia.
  - rewrite load32_store32_ne by (destruct (l_disj L); lia). by apply F2.
Qed.

Lemma init_tables P : forall n,
  Z.testbit (cr0 P) 31 = false -> (n <= 1024)%nat ->
  exists P', for_upto n (PagingInit_table pd pt) P = Some P' /\
    filled P (Z.of_nat n) (1024 * Z.of_nat n) P'.
Proof.
  induction n as [|n IH]; intros H0 Hn; [exists P; split; [done|]; split; intros; lia || done|].
  cbn [for_upto]. destruct IH as (P1 & -> & F1); [done|lia|]. rewrite some_bind.
  replace (Z.of_nat (S n)) with (Z.of_nat n + 1) by lia. apply init_table; [done|lia|done].
Qed.

Lemma PagingInit_spec P :
  Z.testbit (cr0 P) 31 = false ->
  exists P', PagingInit pd pt P = Some P' /\ paging_ok P' /\ PagingIsEnabled P' = true /\
    forall a, is_u32 a -> translate P' a = Some a.
Proof.
  intros H0. unfold PagingInit. destruct (init_tables P 1024 H0 ltac:(done)) as (P1 & -> & [F1 F2 _]).
  rewrite some_bind. eexists. split; [done|]. cbv zeta. cbn [mem cr3 cr0 tlb load_cr3 load_cr0].
  set (P' := mkPaging _ _ _ _ _).
  assert (Hpte : forall p, 0 <= p < 1048576 -> pte P' p = 3 + p * 4096).
  { intros p Hp. change (pte P' p) with (pte P1 p). rewrite F2 by lia. lia. }
  assert (Hmaps : forall p, 0 <= p < 1048576 -> Z.testbit (pte P' p) 0 = true /\ pte P' p / 4096 = p).
  { intros p Hp. rewrite Hpte by done. rewrite Z.div_add by lia. split; [|done].
    rewrite Z.bit0_odd. replace (p * 4096) with (2 * (2048 * p)) by lia. by rewrite Z.odd_add_mul_2. }
  assert (W : paging_ok P').
  { split; [done| |exact F1| |].
    - cbn [cr0 P']. rewrite Z.lor_spec. by rewrite orb_true_r.
    - intros p Hp. apply Hmaps. by apply own_range.
    - intros p e _. cbn [tlb P']. by rewrite lookup_empty. }
  split; [done|]. split; [done|]. intros a Ha.
  destruct (Hmaps _ (page_range a Ha)) as [Hb He].
  rewrite translate_eq, entry_maps_eq, Hb, He by (done || apply load32_range).
  f_equal. symmetry. apply Z.div_mod. lia.
Qed.
End Proofs.

(** ** The address space as a partial function of pages *)

Inductive paging_op :=
| OpMap (va pa flags : Z)
| OpUnmap (va : Z)
| OpTouch (va : Z).

Definition exec_paging (pd pt : Z) (op : paging_op) (P : Paging) : option Paging :=
  match op with
  | OpMap va pa flags => PagingMap pd pt va pa flags P
  | OpUnmap va => PagingUnmap pt va P
  | OpTouch va => Some (tlb_fill va P)
  end.

Fixpoint run_paging (pd pt : Z) (ops : list paging_op) (P : Paging) : option Paging :=
  match ops with
  | [] => Some P
  | op :: ops => P ← exec_paging pd pt op P; run_paging pd pt ops P
  end.

(** The specification: which frame a page leads to, if any. *)
Abbreviation Space := (Z -> option Z).

Definition space_set (p : Z) (f : option Z) (A : Space) : Space := fun q => if q =? p then f else A q.

Definition spec_paging (A : Space) (op : paging_op) : Space :=
  match op with
  | OpMap va pa flags =>
      space_set (va / 4096) (if Z.testbit flags 0 then Some (pa / 4096) else None) A
  | OpUnmap va => space_set (va / 4096) None A
  | OpTouch _ => A
  end.

(** Requests about 32-bit addresses that leave the tables' own pages alone,
    with flags in the twelve low bits. *)
Definition op_ok (pd pt : Z) (op : paging_op) : Prop :=
  match op with
  | OpMap va pa flags =>
      is_u32 va /\ is_u32 pa /\ 0 <= flags < 4096 /\ ~ own_page pd pt (va / 4096)
  | OpUnmap va => is_u32 va /\ ~ own_page pd pt (va / 4096)
  | OpTouch va => is_u32 va
  end.

(** The processor sees the address space [A]. *)
Definition sees (P : Paging) (A : Space) : Prop :=
  forall a, is_u32 a -> translate P a = (fun f => 4096 * f + a mod 4096) <$> A (a / 4096).

Lemma exec_paging_spec pd pt (L : layout pd pt) op P A :
  paging_ok pd pt P -> sees P A -> op_ok pd pt op ->
  exists P', exec_paging pd pt op P = Some P' /\ paging_ok pd pt P' /\ sees P' (spec_paging A op).
Proof.
  intros W HA Hop. destruct op as [va pa flags|va|va]; cbn [exec_paging spec_paging op_ok] in *.
  - destruct Hop as (Hva & Hpa & Hf & Hno).
    destruct (PagingMap_spec pd pt L va pa flags P W Hva Hpa Hf Hno) as (P' & E & W' & Ht).
    exists P'. split; [done|]. split; [done|]. intros a Ha. unfold space_set. rewrite Ht by done.
    repeat case_match; by auto.
  - destruct Hop as (Hva & Hno).
    destruct (PagingUnmap_spec pd pt L va P W Hva Hno) as (P' & E & W' & Ht).
    exists P'. split; [done|]. split; [done|]. intros a Ha. unfold space_set. rewrite Ht by done.
    case_match; by auto.
  - pose proof (tlb_fill_ok pd pt L va P W Hop) as W'. eexists. split; [done|]. split; [done|].
    intros a Ha. rewrite (translate_eq pd pt L _ a W' Ha), <- (HA a Ha), (translate_eq pd pt L P a W Ha).
    f_equal. unfold tlb_fill, pte. by case_match.
Qed.

Lemma run_paging_spec pd pt (L : layout pd pt) : forall ops P A,
  paging_ok pd pt P -> sees P A -> Forall (op_ok pd pt) ops ->
  exists P', run_paging pd pt ops P = Some P' /\ paging_ok pd pt P' /\ sees P' (foldl spec_paging A ops).
Proof.
  induction ops as [|op ops IH]; intros P A W HA Hops; [by exists P|]. inversion_clear Hops.
  destruct (exec_paging_spec pd pt L op P A) as (P1 & E & W1 & HA1); [done..|].
  cbn [run_paging foldl]. rewrite E, some_bind. by apply IH.
Qed.

(** ** Claims *)

(** PagingInit, called with paging off, fills all 1024 directory entries
    and all 2^20 page entries, turns paging on, and leaves every one of the
    2^32 addresses mapped to itself. *)
Theorem PagingInit_identity pd pt P :
  layout pd pt -> Z.testbit (cr0 P) 31 = false ->
  exists P', PagingInit pd pt P = Some P' /\ paging_ok pd pt P' /\ PagingIsEnabled P' = true /\
    forall a, is_u32 a -> translate P' a = Some a.
Proof. intros L. by apply PagingInit_spec. Qed.

(** Arrays at 4 MiB and 8 MiB. *)
Lemma demo_layout : layout 4194304 8388608.
Proof. split; lia || done. Qed.

Definition paging_off : Paging := mkPaging ∅ 0 17 ∅ false.

Lemma PagingInit_identity_witness :
  exists P', PagingInit 4194304 8388608 paging_off = Some P' /\ translate P' 3735928559 = Some 3735928559.
Proof.
  destruct (PagingInit_identity 4194304 8388608 paging_off demo_layout eq_refl) as (P' & E & _ & _ & H).
  exists P'. split; [exact E|]. apply H. unfold is_u32. lia.
Defined.

(** C26. Once paging is on, any sequence of PagingMap and PagingUnmap calls,
    with translations cached in between at will, implements updates of a
    partial function from pages to frames: each call changes where its own page
    leads and no other, a page mapped without the present bit or unmapped
    faults, no stale translation is ever used, and the kernel's own stores
    reach the tables. *)
Theorem paging_refines pd pt ops P A :
  layout pd pt -> paging_ok pd pt P -> sees P A -> Forall (op_ok pd pt) ops ->
  exists P', run_paging pd pt ops P = Some P' /\ paging_ok pd pt P' /\
    sees P' (foldl spec_paging A ops).
Proof. intros L. by apply run_paging_spec. Qed.

Definition demo_ops : list paging_op :=
  [OpMap 3221225472 12288 3; OpTouch 3221225472; OpMap 3221225472 20480 3; OpUnmap 0].

Lemma demo_ops_ok : Forall (op_ok 4194304 8388608) demo_ops.
Proof. repeat constructor; unfold is_u32, own_page; vm_compute; intuition congruence. Qed.

Lemma paging_refines_witness :
  exists P P', PagingInit 4194304 8388608 paging_off = Some P /\
    run_paging 4194304 8388608 demo_ops P = Some P' /\
    translate P' 3221225481 = Some 20489 /\ translate P' 5 = None /\ translate P' 4097 = Some 4097.
Proof.
  destruct (PagingInit_spec 4194304 8388608 demo_layout paging_off eq_refl) as (P & E & W & _ & H).
  destruct (paging_refines 4194304 8388608 demo_ops P Some demo_layout W) as (P' & E' & _ & H').
  - intros a Ha. rewrite H by exact Ha. cbn. f_equal. apply Z.div_mod. lia.
  - exact demo_ops_ok.
  - exists P, P'. split; [exact E|]. split; [exact E'|].
    split; [|split]; (rewrite H' by (unfold is_u32; lia)); vm_compute; reflexivity.
Defined.
