(* ===== verification/Irq.v ===== *)
(** * Interrupts (arch/x86_32/kernel/irq.c)

    The interrupt descriptor table, the two interrupt controllers as the code
    programs them, the handler table and the dispatcher. The 8259 is written
    down as far as the code uses it: the initialisation sequence, the mask, the
    in-service register, the plain end of interrupt and the choice of the
    register that the command port returns.

    The dispatcher is written against [IrqClient], what it calls in the rest of
    the kernel; the kernel that fills it in is at the end. *)

From S2P Require Import Prelude Sched SchedQueues SchedInv SchedOps SchedMachine SchedTheorems.
From S2P Require Import Strings Console Stdio Keyboard Timer.

(** ** The interrupt controllers *)

(** [icw] counts the initialisation words still to come. *)
Record Pic := mkPic { icw : nat; vbase : Z; imr : Z; isr : Z; irr : Z; reads_isr : bool }.

Definition pic_command (v : Z) (p : Pic) : Pic :=
  if Z.testbit v 4 then mkPic 3 (vbase p) 0 (isr p) (irr p) false
  else if v =? 10 then mkPic (icw p) (vbase p) (imr p) (isr p) (irr p) false
  else if v =? 11 then mkPic (icw p) (vbase p) (imr p) (isr p) (irr p) true
  else if v =? 32 then
    (* the in-service line of highest priority ends *)
    mkPic (icw p) (vbase p) (imr p) (Z.land (isr p) (isr p - 1)) (irr p) (reads_isr p)
  else p.

Definition pic_data (v : Z) (p : Pic) : Pic :=
  match icw p with
  | 3%nat => mkPic 2 v (imr p) (isr p) (irr p) (reads_isr p)
  | S n => mkPic n (vbase p) (imr p) (isr p) (irr p) (reads_isr p)
  | O => mkPic 0 (vbase p) v (isr p) (irr p) (reads_isr p)
  end.

Record Pics := mkPics { master : Pic; slave : Pic }.

Definition PIC1_CMD : Z := 32.
Definition PIC1_DATA : Z := 33.
Definition PIC2_CMD : Z := 160.
Definition PIC2_DATA : Z := 161.
Definition PIC_EOI : Z := 32.
Definition IRQ_BASE : Z := 32.
Definition IRQ_COUNT : Z := 16.
Definition INT_VECTORS : Z := 256.
Definition PIC_OCW3_IRR : Z := 10.
Definition PIC_OCW3_ISR : Z := 11.
Definition PIC_IN_SERVICE : Z := 128.

Definition pic_outb (port v : Z) (c : Pics) : Pics :=
  if port =? PIC1_CMD then mkPics (pic_command v (master c)) (slave c)
  else if port =? PIC1_DATA then mkPics (pic_data v (master c)) (slave c)
  else if port =? PIC2_CMD then mkPics (master c) (pic_command v (slave c))
  else if port =? PIC2_DATA then mkPics (master c) (pic_data v (slave c))
  else c.

Definition pic_inb (port : Z) (c : Pics) : Z :=
  if port =? PIC1_CMD then (if reads_isr (master c) then isr (master c) else irr (master c))
  else if port =? PIC1_DATA then imr (master c)
  else if port =? PIC2_CMD then (if reads_isr (slave c) then isr (slave c) else irr (slave c))
  else if port =? PIC2_DATA then imr (slave c)
  else 255.

(** ** The interrupt descriptor table *)

Record idt_entry := mkGate {
  offset_low : Z; selector : Z; zero : Z; type_attr : Z; offset_high : Z }.

Definition idt_set_gate (n : Z) (fn : Z) (idt : gmap Z idt_entry) : gmap Z idt_entry :=
  <[n := mkGate (Z.land fn 65535) 16 0 142 (Z.land (Z.shiftr fn 16) 65535)]> idt.

(** The table, and what the register that points at it is loaded with. *)
Record Idt := mkIdt { idt : gmap Z idt_entry; idtr_limit : Z; idtr_base : Z }.

(** [stub_table] and [stub_placeholder] are the addresses of the entry code,
    [addr] that of the table. *)
Definition idt_init (stub_table : Z -> Z) (stub_placeholder addr : Z) (d : Idt) : Idt :=
  let t := foldl (fun t i => idt_set_gate i (stub_table i) t) (idt d) (seqZ 0 48) in
  let t := foldl (fun t i => idt_set_gate i stub_placeholder t) t (seqZ 48 (INT_VECTORS - 48)) in
  mkIdt t (INT_VECTORS * 8 - 1) addr.

(** ** State and operations *)

Record registers := mkRegs {
  gs : Z; fs : Z; es : Z; ds : Z; edi : Z; esi : Z; ebp : Z; esp : Z;
  ebx : Z; edx : Z; ecx : Z; eax : Z; int_no : Z; err_code : Z;
  eip : Z; cs : Z; eflags : Z; user_esp : Z; ss : Z }.

(** What the dispatcher needs of the kernel state [K]: running a registered
    handler (on the address of the saved registers), printing, preempting. *)
Class IrqClient (K H : Type) := {
  run_handler : H -> Z -> K -> option K;
  client_kprintf : list Z -> list Arg -> K -> option K;
  client_preempt : K -> option (Out * K) }.

Record Irq (H : Type) := mkIrq {
  pics : Pics; handlers : list (option H); spurious_count : list Z; spurious_reported : Z }.
#[global] Arguments mkIrq {H} _ _ _ _.
#[global] Arguments pics {H} _.
#[global] Arguments handlers {H} _.
#[global] Arguments spurious_count {H} _.
#[global] Arguments spurious_reported {H} _.

Definition pic_init (c : Pics) : Pics :=
  let c := pic_outb PIC1_CMD 17 c in
  let c := pic_outb PIC2_CMD 17 c in
  let c := pic_outb PIC1_DATA IRQ_BASE c in
  let c := pic_outb PIC2_DATA (IRQ_BASE + 8) c in
  let c := pic_outb PIC1_DATA 4 c in
  let c := pic_outb PIC2_DATA 2 c in
  let c := pic_outb PIC1_DATA 1 c in
  let c := pic_outb PIC2_DATA 1 c in
  let c := pic_outb PIC1_DATA 255 c in
  pic_outb PIC2_DATA 255 c.

Section Ops.
Context {H : Type}.

Definition set_pics (c : Pics) (q : Irq H) : Irq H :=
  mkIrq c (handlers q) (spurious_count q) (spurious_reported q).

Definition irq_register (irq : Z) (h : option H) (q : Irq H) : Irq H :=
  match h with
  | None => q
  | Some _ =>
      if (irq <? 0) || (IRQ_COUNT <=? irq) then q
      else
        let q := mkIrq (pics q) (<[Z.to_nat (IRQ_BASE + irq) := h]> (handlers q))
                   (spurious_count q) (spurious_reported q) in
        let port := if irq <? 8 then PIC1_DATA else PIC2_DATA in
        let q := set_pics (pic_outb port
                   (Z.land (pic_inb port (pics q)) (Z.lnot (Z.shiftl 1 (Z.land irq 7) mod 256)) mod 256)
                   (pics q)) q in
        if 8 <=? irq
        then set_pics (pic_outb PIC1_DATA
               (Z.land (pic_inb PIC1_DATA (pics q)) (Z.lnot (Z.shiftl 1 2 mod 256)) mod 256) (pics q)) q
        else q
  end.

Definition irq_unregister (irq : Z) (q : Irq H) : Irq H :=
  if (irq <? 0) || (IRQ_COUNT <=? irq) then q
  else
    let q := mkIrq (pics q) (<[Z.to_nat (IRQ_BASE + irq) := None]> (handlers q))
               (spurious_count q) (spurious_reported q) in
    let port := if irq <? 8 then PIC1_DATA else PIC2_DATA in
    set_pics (pic_outb port
      (Z.lor (pic_inb port (pics q)) (Z.shiftl 1 (Z.land irq 7) mod 256) mod 256) (pics q)) q.

Definition irq_spurious_count (irq : Z) (q : Irq H) : Z :=
  if (irq <? 0) || (IRQ_COUNT <=? irq) then 0
  else default 0 (spurious_count q !! Z.to_nat irq).

(** The interrupt flag is part of the scheduler's state. *)
Definition irq_disable (s : Sched) : Sched := set_irq_on false s.
Definition irq_enable (s : Sched) : Sched := set_irq_on true s.

(** How the dispatcher ends: the machine is halted, the interrupted code goes
    on, or another task runs first. *)
Inductive IsrOut := Halted | Returned (out : Out).

(** "PANIC: unhandled exception, vector 0x%x, err_code 0x%x\n" and the rest. *)
Definition panic_msg : list Z :=
  [80;65;78;73;67;58;32;117;110;104;97;110;100;108;101;100;32;101;120;99;101;112;116;105;111;110;44;
   32;118;101;99;116;111;114;32;48;120;37;120;44;32;101;114;114;95;99;111;100;101;32;48;120;37;120;10].
Definition fault_msg : list Z :=
  [32;32;112;97;103;101;32;102;97;117;108;116;32;97;116;32;97;100;100;114;101;115;115;32;48;120;37;120;10].
Definition halting_msg : list Z := [104;97;108;116;105;110;103;10].
Definition spurious_msg : list Z :=
  [87;65;82;78;73;78;71;58;32;115;112;117;114;105;111;117;115;32;73;82;81;32;37;117;32;40;73;83;82;32;
   48;120;37;120;41;44;32;99;104;101;99;107;32;80;73;67;47;69;79;73;10].

Context {K : Type} `{!IrqClient K H}.

(** The test for a spurious interrupt on lines 7 and 15. *)
Definition check_spurious (line : Z) (q : Irq H) (k : K) : option (bool * Irq H * K) :=
  if (line =? 7) || (line =? 15) then
    let port := if line =? 7 then PIC1_CMD else PIC2_CMD in
    let q := set_pics (pic_outb port PIC_OCW3_ISR (pics q)) q in
    let in_service := pic_inb port (pics q) in
    let q := set_pics (pic_outb port PIC_OCW3_IRR (pics q)) q in
    if Z.land in_service PIC_IN_SERVICE =? 0 then
      let q := mkIrq (pics q) (handlers q)
                 (alter (fun n => n +w 1) (Z.to_nat line) (spurious_count q)) (spurious_reported q) in
      let q := if line =? 15 then set_pics (pic_outb PIC1_CMD PIC_EOI (pics q)) q else q in
      if Z.land (spurious_reported q) (Z.shiftl 1 line) =? 0 then
        let q := mkIrq (pics q) (handlers q) (spurious_count q)
                   (Z.lor (spurious_reported q) (Z.shiftl 1 line)) in
        k ← client_kprintf spurious_msg [AWord line; AWord in_service] k;
        Some (true, q, k)
      else Some (true, q, k)
    else Some (false, q, k)
  else Some (false, q, k).

(** [r] is the address of the saved registers, [regs] their contents, [cr2]
    the processor's fault address. *)
Definition isr_dispatch (r cr2 : Z) (regs : registers) (q : Irq H) (k : K)
    : option (IsrOut * Irq H * K) :=
  let vec := int_no regs in
  if vec <? IRQ_BASE then
    k ← client_kprintf panic_msg [AWord vec; AWord (err_code regs)] k;
    k ← (if vec =? 14 then client_kprintf fault_msg [AWord cr2] k else Some k);
    k ← client_kprintf halting_msg [] k;
    Some (Halted, q, k)
  else
    let line := vec - IRQ_BASE in
    '(spurious, q, k) ← check_spurious line q k;
    if spurious : bool then Some (Returned Done, q, k)
    else
      k ← match default None (handlers q !! Z.to_nat vec) with
          | Some h => run_handler h r k
          | None => Some k
          end;
      let q := if 8 <=? line then set_pics (pic_outb PIC2_CMD PIC_EOI (pics q)) q else q in
      let q := set_pics (pic_outb PIC1_CMD PIC_EOI (pics q)) q in
      '(out, k) ← client_preempt k;
      Some (Returned out, q, k).
End Ops.

(** ** The mask registers *)

Definition line_masked (j : Z) (c : Pics) : bool :=
  if j <? 8 then Z.testbit (imr (master c)) j else Z.testbit (imr (slave c)) (j - 8).

(** Both controllers are past their initialisation. *)
Definition pics_ready (c : Pics) : Prop := icw (master c) = 0%nat /\ icw (slave c) = 0%nat.

Lemma low_bit x i : 0 <= i < 8 -> Z.testbit (x mod 256) i = Z.testbit x i.
Proof. intros Hi. change 256 with (2 ^ 8). by rewrite Z.mod_pow2_bits_low by lia. Qed.

Lemma line_bit b i : 0 <= b < 8 -> 0 <= i < 8 -> Z.testbit (Z.shiftl 1 b mod 256) i = (i =? b).
Proof.
  intros Hb Hi. rewrite low_bit, Z.shiftl_1_l, Z.pow2_bits_eqb by lia. apply Z.eqb_sym.
Qed.

Lemma open_bit m b i :
  0 <= b < 8 -> 0 <= i < 8 ->
  Z.testbit (Z.land m (Z.lnot (Z.shiftl 1 b mod 256)) mod 256) i = Z.testbit m i && negb (i =? b).
Proof. intros Hb Hi. by rewrite low_bit, Z.land_spec, Z.lnot_spec, line_bit by lia. Qed.

Lemma close_bit m b i :
  0 <= b < 8 -> 0 <= i < 8 ->
  Z.testbit (Z.lor m (Z.shiftl 1 b mod 256) mod 256) i = Z.testbit m i || (i =? b).
Proof. intros Hb Hi. by rewrite low_bit, Z.lor_spec, line_bit by lia. Qed.

(** Writing the data port of a ready controller sets its mask and nothing else. *)
Definition with_imr v p := mkPic 0 (vbase p) v (isr p) (irr p) (reads_isr p).

Lemma data1 v c : pics_ready c -> pic_outb PIC1_DATA v c = mkPics (with_imr v (master c)) (slave c).
Proof. intros [H1 _]. unfold pic_outb, pic_data. cbn -[with_imr]. by rewrite H1. Qed.
Lemma data2 v c : pics_ready c -> pic_outb PIC2_DATA v c = mkPics (master c) (with_imr v (slave c)).
Proof. intros [_ H2]. unfold pic_outb, pic_data. cbn -[with_imr]. by rewrite H2. Qed.

Lemma irq_bit irq : Z.land irq 7 = irq mod 8.
Proof. change 7 with (Z.ones 3). by rewrite Z.land_ones by lia. Qed.

Section Lines.
Context {H : Type}.

Lemma irq_register_spec irq (h : H) q :
  0 <= irq < 16 -> pics_ready (pics q) ->
  let q' := irq_register irq (Some h) q in
  handlers q' = <[Z.to_nat (32 + irq) := Some h]> (handlers q) /\ pics_ready (pics q') /\
  forall j, 0 <= j < 16 -> line_masked j (pics q') =
    line_masked j (pics q) && negb (j =? irq) && negb ((8 <=? irq) && (j =? 2)).
Proof.
  intros Hi Hr. unfold irq_register. rewrite (proj2 (Z.ltb_ge irq 0)), (proj2 (Z.leb_gt IRQ_COUNT irq))
    by (unfold IRQ_COUNT; lia). cbn [orb]. cbv zeta. rewrite irq_bit.
  destruct (Z.ltb_spec irq 8) as [H8|H8].
  - rewrite (proj2 (Z.leb_gt 8 irq)), (Z.mod_small irq 8) by lia. cbn [pics set_pics handlers].
    rewrite data1 by done. split; [done|]. split; [by destruct Hr|]. intros j Hj. unfold line_masked.
    cbn [imr with_imr master slave]. rewrite andb_false_l, andb_true_r.
    destruct (Z.ltb_spec j 8); [by rewrite open_bit by lia|].
    rewrite (proj2 (Z.eqb_neq j irq)) by lia. by rewrite andb_true_r.
  - rewrite (proj2 (Z.leb_le 8 irq)) by lia. cbn [pics set_pics handlers].
    rewrite data2 by done. rewrite data1 by (destruct Hr; done).
    split; [done|]. split; [by destruct Hr|]. intros j Hj. unfold line_masked.
    cbn [imr with_imr master slave pic_inb]. cbn [andb].
    assert (Em : irq mod 8 = irq - 8) by (symmetry; apply Z.mod_unique with (q := 1); lia).
    destruct (Z.ltb_spec j 8).
    + rewrite (open_bit _ 2) by lia. rewrite (proj2 (Z.eqb_neq j irq)) by lia. by rewrite andb_true_r.
    + rewrite Em, open_bit by lia. rewrite (proj2 (Z.eqb_neq j 2)) by lia.
      rewrite andb_true_r. f_equal. f_equal. destruct (Z.eqb_spec j irq), (Z.eqb_spec (j - 8) (irq - 8)); lia.
Qed.

Lemma irq_unregister_spec irq (q : Irq H) :
  0 <= irq < 16 -> pics_ready (pics q) ->
  let q' := irq_unregister irq q in
  handlers q' = <[Z.to_nat (32 + irq) := None]> (handlers q) /\ pics_ready (pics q') /\
  forall j, 0 <= j < 16 -> line_masked j (pics q') = line_masked j (pics q) || (j =? irq).
Proof.
  intros Hi Hr. unfold irq_unregister. rewrite (proj2 (Z.ltb_ge irq 0)), (proj2 (Z.leb_gt IRQ_COUNT irq))
    by (unfold IRQ_COUNT; lia). cbn [orb]. cbv zeta. rewrite irq_bit. cbn [pics set_pics handlers].
  destruct (Z.ltb_spec irq 8) as [H8|H8].
  - rewrite (Z.mod_small irq 8) by lia. rewrite data1 by done. split; [done|]. split; [by destruct Hr|].
    intros j Hj. unfold line_masked. cbn [imr with_imr master slave].
    destruct (Z.ltb_spec j 8); [by rewrite close_bit by lia|].
    rewrite (proj2 (Z.eqb_neq j irq)) by lia. by rewrite orb_false_r.
  - assert (Em : irq mod 8 = irq - 8) by (symmetry; apply Z.mod_unique with (q := 1); lia).
    rewrite Em. rewrite data2 by done. split; [done|]. split; [by destruct Hr|].
    intros j Hj. unfold line_masked. cbn [imr with_imr master slave].
    destruct (Z.ltb_spec j 8).
    + rewrite (proj2 (Z.eqb_neq j irq)) by lia. by rewrite orb_false_r.
    + rewrite close_bit by lia. f_equal. destruct (Z.eqb_spec j irq), (Z.eqb_spec (j - 8) (irq - 8)); lia.
Qed.
End Lines.

Lemma pic_init_spec c :
  pics_ready (pic_init c) /\ vbase (master (pic_init c)) = 32 /\ vbase (slave (pic_init c)) = 40 /\
  forall j, 0 <= j < 16 -> line_masked j (pic_init c) = true.
Proof.
  split; [done|]. split; [done|]. split; [done|]. intros j Hj. unfold line_masked.
  change (imr (master (pic_init c))) with (Z.ones 8). change (imr (slave (pic_init c))) with (Z.ones 8).
  case_match; rewrite Z.testbit_ones_nonneg by lia; apply Z.ltb_lt; lia.
Qed.

(** ** The descriptor table *)

(** The address a gate leads to. *)
Definition gate_target (g : idt_entry) : Z := Z.lor (offset_low g) (Z.shiftl (offset_high g) 16).

Lemma gate_roundtrip fn : is_u32 fn ->
  Z.lor (Z.land fn 65535) (Z.shiftl (Z.land (Z.shiftr fn 16) 65535) 16) = fn.
Proof.
  intros Hf. apply Z.bits_inj'. intros i Hi. change 65535 with (Z.ones 16).
  rewrite Z.lor_spec, Z.land_spec, Z.testbit_ones_nonneg, Z.shiftl_spec by lia.
  destruct (Z.ltb_spec i 16) as [Hlt|Hge].
  - rewrite (Z.testbit_neg_r _ (i - 16)) by lia. by rewrite andb_true_r, orb_false_r.
  - rewrite Z.land_spec, Z.shiftr_spec, Z.testbit_ones_nonneg by lia.
    replace (i - 16 + 16) with i by lia. rewrite andb_false_r. cbn [orb].
    destruct (Z.ltb_spec (i - 16) 16); [by rewrite andb_true_r|].
    rewrite <- (Z.mod_small fn (2 ^ 32)) by (unfold is_u32 in Hf; lia).
    by rewrite Z.mod_pow2_bits_high by lia.
Qed.

Lemma set_gates (f : Z -> Z) l : forall t n,
  foldl (fun t i => idt_set_gate i (f i) t) t l !! n =
    if decide (n ∈ l) then idt_set_gate n (f n) ∅ !! n else t !! n.
Proof.
  induction l as [|i l IH]; intros t n; cbn [foldl]; [by rewrite decide_False by set_solver|].
  rewrite IH. unfold idt_set_gate. rewrite !lookup_insert.
  repeat case_decide; subst; set_solver.
Qed.

(** Every one of the 256 vectors is a present ring-0 interrupt gate: the first
    48 lead to their stubs, the others to the placeholder. *)
Lemma idt_init_spec stub_table placeholder addr d n :
  (forall i, is_u32 (stub_table i)) -> is_u32 placeholder -> 0 <= n < 256 ->
  exists g, idt (idt_init stub_table placeholder addr d) !! n = Some g /\ selector g = 16 /\
    type_attr g = 142 /\ gate_target g = if n <? 48 then stub_table n else placeholder.
Proof.
  intros Hs Hp Hn. unfold idt_init. cbn [idt]. rewrite !set_gates. unfold idt_set_gate, INT_VECTORS.
  destruct (Z.ltb_spec n 48).
  - rewrite decide_False by (rewrite elem_of_seqZ; lia). rewrite decide_True by (rewrite elem_of_seqZ; lia).
    rewrite lookup_insert_eq. eexists. split; [done|]. split; [done|]. split; [done|]. by apply gate_roundtrip.
  - rewrite decide_True by (rewrite elem_of_seqZ; lia).
    rewrite lookup_insert_eq. eexists. split; [done|]. split; [done|]. split; [done|]. by apply gate_roundtrip.
Qed.

(** ** The dispatcher *)

(** Nothing is in service. *)
Definition quiet (c : Pics) : Prop := isr (master c) = 0 /\ isr (slave c) = 0.

(** [line] and nothing else is in service: a slave line holds the master's
    cascade line too. *)
Definition serving (line : Z) (c : Pics) : Prop :=
  if line <? 8 then isr (master c) = 2 ^ line /\ isr (slave c) = 0
  else isr (master c) = 4 /\ isr (slave c) = 2 ^ (line - 8).

(** The controller raised [line] without taking it into service; for the slave
    the master did take its cascade line. *)
Definition ghost (line : Z) (c : Pics) : Prop :=
  (line = 7 /\ quiet c) \/ (line = 15 /\ isr (master c) = 4 /\ isr (slave c) = 0).

(** The masks and the state of initialisation are the same. *)
Definition same_masks (c c' : Pics) : Prop :=
  imr (master c') = imr (master c) /\ imr (slave c') = imr (slave c) /\
  icw (master c') = icw (master c) /\ icw (slave c') = icw (slave c).

Lemma line_cases (P : Z -> Prop) :
  Forall P (seqZ 0 16) -> forall line, 0 <= line < 16 -> P line.
Proof. intros HF line Hl. rewrite Forall_forall in HF. apply HF. apply elem_of_seqZ. lia. Qed.

Lemma reported_twice sr n : 0 <= n -> (Z.land sr (Z.shiftl 1 n) =? 0) = false -> Z.lor sr (Z.shiftl 1 n) = sr.
Proof.
  intros Hn Hb. apply Z.eqb_neq in Hb. rewrite Z.shiftl_1_l in *.
  apply Z.bits_inj'. intros i Hi. rewrite Z.lor_spec, Z.pow2_bits_eqb by lia.
  destruct (Z.eqb_spec n i) as [<-|]; [|by rewrite orb_false_r].
  rewrite orb_true_r. symmetry. apply not_false_iff_true. intros Hf.
  apply Hb, Z.bits_inj'. intros i Hi'. rewrite Z.land_spec, Z.pow2_bits_eqb, Z.bits_0 by lia.
  destruct (Z.eqb_spec n i) as [<-|]; [by rewrite Hf|apply andb_false_r].
Qed.

Section Dispatch.
Context {K H : Type} `{!IrqClient K H}.

Definition handle (vec r : Z) (q : Irq H) (k : K) : option K :=
  match default None (handlers q !! Z.to_nat vec) with Some h => run_handler h r k | None => Some k end.

Lemma dispatch_real r cr2 regs (q : Irq H) (k : K) line :
  0 <= line < 16 -> int_no regs = 32 + line -> serving line (pics q) ->
  exists q', isr_dispatch r cr2 regs q k =
      (k1 ← handle (32 + line) r q k;
       '(out, k2) ← client_preempt k1; Some (Returned out, q', k2)) /\
    quiet (pics q') /\ same_masks (pics q) (pics q') /\ handlers q' = handlers q /\
    spurious_count q' = spurious_count q /\ spurious_reported q' = spurious_reported q.
Proof.
  intros Hl Hv Hs. unfold isr_dispatch. rewrite Hv, (proj2 (Z.ltb_ge (32 + line) IRQ_BASE))
    by (unfold IRQ_BASE; lia).
  cbv zeta. replace (32 + line - IRQ_BASE) with line by (unfold IRQ_BASE; lia). clear Hv.
  destruct q as [[[i1 v1 m1 s1 r1 b1] [i2 v2 m2 s2 r2 b2]] hs sc sr].
  revert line Hl Hs.
  apply (line_cases (fun line => serving line _ -> _)). unfold serving. cbn [pics master slave isr].
  repeat (apply Forall_cons; split; [intros [-> ->]; eexists; split; [reflexivity|by repeat split]|]).
  apply Forall_nil. done.
Qed.

(** A ghost is counted, reported the first time, and acknowledged only where
    the master took its cascade line. *)
Lemma check_ghost line (q : Irq H) (k : K) :
  ghost line (pics q) ->
  exists q', check_spurious line q k =
      (k1 ← (if Z.land (spurious_reported q) (Z.shiftl 1 line) =? 0
             then client_kprintf spurious_msg [AWord line; AWord 0] k else Some k);
       Some (true, q', k1)) /\
    quiet (pics q') /\ same_masks (pics q) (pics q') /\ handlers q' = handlers q /\
    spurious_count q' = alter (fun n => n +w 1) (Z.to_nat line) (spurious_count q) /\
    spurious_reported q' = Z.lor (spurious_reported q) (Z.shiftl 1 line).
Proof.
  destruct q as [[[i1 v1 m1 s1 r1 b1] [i2 v2 m2 s2 r2 b2]] hs sc sr].
  unfold ghost, quiet. cbn [pics master slave isr spurious_reported].
  set (bit := Z.land sr (Z.shiftl 1 line) =? 0). intros Hg.
  exists (mkIrq (if line =? 7 then mkPics (mkPic i1 v1 m1 0 r1 false) (mkPic i2 v2 m2 0 r2 b2)
                 else mkPics (mkPic i1 v1 m1 0 r1 b1) (mkPic i2 v2 m2 0 r2 false)) hs
            (alter (fun n => n +w 1) (Z.to_nat line) sc) (if bit then Z.lor sr (Z.shiftl 1 line) else sr)).
  split; [|split; [|split; [|split; [done|split; [done|]]]]].
  - destruct Hg as [[-> [-> ->]]|[-> [-> ->]]]; unfold check_spurious; cbn [orb Z.eqb Pos.eqb];
      cbv zeta; cbn [spurious_reported set_pics]; fold bit; by destruct bit.
  - by destruct (line =? 7).
  - destruct (line =? 7); done.
  - cbn [spurious_reported]. destruct bit eqn:E; [done|]. symmetry. apply reported_twice; [|done].
    destruct Hg as [[-> _]|[-> _]]; lia.
Qed.

Lemma dispatch_ghost r cr2 regs (q : Irq H) (k : K) line :
  ghost line (pics q) -> int_no regs = 32 + line ->
  exists q', isr_dispatch r cr2 regs q k =
      (k1 ← (if Z.land (spurious_reported q) (Z.shiftl 1 line) =? 0
             then client_kprintf spurious_msg [AWord line; AWord 0] k else Some k);
       Some (Returned Done, q', k1)) /\
    quiet (pics q') /\ same_masks (pics q) (pics q') /\ handlers q' = handlers q /\
    spurious_count q' = alter (fun n => n +w 1) (Z.to_nat line) (spurious_count q) /\
    spurious_reported q' = Z.lor (spurious_reported q) (Z.shiftl 1 line).
Proof.
  intros Hg Hv. destruct (check_ghost line q k Hg) as (q' & E & H1). exists q'. split; [|exact H1].
  unfold isr_dispatch. rewrite Hv, (proj2 (Z.ltb_ge (32 + line) IRQ_BASE))
    by (unfold IRQ_BASE; destruct Hg as [[-> _]|[-> _]]; lia).
  cbv zeta. replace (32 + line - IRQ_BASE) with line by (unfold IRQ_BASE; lia).
  rewrite E. case_match; [by destruct (client_kprintf _ _ k)|done].
Qed.
End Dispatch.

(** ** The kernel behind the dispatcher *)

(** The state the registered handlers act on, and the byte the keyboard
    controller holds. *)
Record Kernel := mkKernel {
  k_timer : Timer; k_kbd : Keyboard; k_sched : Sched; k_con : Console; k_scan : Z }.

Inductive Handler := HTimer | HKeyboard.

#[global] Instance kernel_client : IrqClient Kernel Handler := {
  run_handler h r k :=
    match h with
    | HTimer =>
        '(t, s) ← timer_callback (Some r) (k_timer k) (k_sched k);
        Some (mkKernel t (k_kbd k) s (k_con k) (k_scan k))
    | HKeyboard =>
        Some (mkKernel (k_timer k) (keyboard_callback (k_scan k) (k_kbd k)) (k_sched k) (k_con k) (k_scan k))
    end;
  client_kprintf fmt args k :=
    c ← kprintf (console_putchar putchar_fuel) fmt args (k_con k);
    Some (mkKernel (k_timer k) (k_kbd k) (k_sched k) c (k_scan k));
  client_preempt k :=
    '(out, s) ← SchedPreempt (k_sched k);
    Some (out, mkKernel (k_timer k) (k_kbd k) s (k_con k) (k_scan k)) }.

(** A tick charged to the running task [c]. *)
Lemma tick_charges r s Q c :
  sched_inv s Q -> CurrentTask s = Some c -> SchedulerLocked s = 0 -> PreemptPending s = false ->
  let s' := SchedTick (Some r) s in
  let used := TimeUsed (task s c) +w 1 in
  TimeSlice (task s' c) = TimeSlice (task s c) /\ SchedulerLocked s' = 0 /\ CurrentTask s' = Some c /\
  if TimeSlice (task s c) <=? used
  then TimeUsed (task s' c) = 0 /\ PreemptPending s' = true
  else TimeUsed (task s' c) = used /\ PreemptPending s' = false.
Proof.
  intros Hinv Hc Hl Hp. destruct (g_cur _ _ (proj2 Hinv) c Hc) as [Hx _].
  assert (Hx' : (c < length (Tasks s))%nat) by by rewrite (q_len _ _ (proj1 Hinv)).
  unfold SchedTick. rewrite Hl. cbn [negb Z.eqb]. cbv zeta.
  change (CurrentTask (set_SchedulerTicks (SchedulerTicks s +w 1) s)) with (CurrentTask s). rewrite Hc.
  set (s1 := set_SchedulerTicks _ s). set (s2 := upd c _ s1).
  assert (E2 : task s2 c = with_TimeUsed (TimeUsed (task s c) +w 1)
                             (with_Runtime (Runtime (task s c) +w 1) (task s c))).
  { unfold s2. by rewrite task_upd_eq. }
  rewrite E2. cbn [TimeSlice TimeUsed with_TimeUsed with_Runtime]. case_match.
  - assert (E3 : task (set_PreemptPending true (upd c (with_TimeUsed 0) s2)) c = with_TimeUsed 0 (task s2 c)).
    { apply (task_upd_eq c (with_TimeUsed 0) s2). unfold s2. by rewrite length_upd. }
    rewrite E3, E2. done.
  - rewrite E2. done.
Qed.

(** What a timer interrupt leaves for SchedPreempt. *)
Lemma timer_handler_spec r t s Q c :
  sched_inv s Q -> CurrentTask s = Some c -> State (task s c) = TaskRunning ->
  SchedulerLocked s = 0 -> PreemptPending s = false ->
  let used := TimeUsed (task s c) +w 1 in
  exists t' s' R B, timer_callback (Some r) t s = Some (t', s') /\ tick_count t' = tick_count t +w 1 /\
    sched_inv s' (mkQs (qR Q ++ R) B (qD Q)) /\
    CurrentTask s' = Some c /\ State (task s' c) = TaskRunning /\ SchedulerLocked s' = 0 /\
    if TimeSlice (task s c) <=? used then PreemptPending s' = true
    else PreemptPending s' = false /\ TimeUsed (task s' c) = used.
Proof.
  intros Hinv Hc Hr Hl Hp used. destruct (g_cur _ _ (proj2 Hinv) c Hc) as [Hx _].
  destruct (tick_charges r s Q c Hinv Hc Hl Hp) as (_ & Hl1 & Hc1 & Hu1).
  destruct (SchedTick_inv (Some r) s Q Hinv) as [Hinv1 [HS1 _]].
  unfold timer_callback. cbn [tick_count]. set (s1 := SchedTick (Some r) s) in *.
  destruct (SchedWakeExpired_spec (tick_count t +w 1) s1 Q Hinv1) as (s' & -> & Hinv' & Hw).
  rewrite some_bind. eexists _, s', _, _. split; [done|]. split; [done|]. split; [exact Hinv'|].
  rewrite (wk_Current _ _ _ Hw), (wk_Locked _ _ _ Hw), (wk_Pending _ _ _ Hw).
  destruct (wk_slice _ _ _ Hw c Hx) as [-> _]. split; [done|]. split; [|split; [done|]].
  - rewrite (wk_state _ _ _ Hw), decide_False, HS1; [done| |done].
    rewrite list_elem_of_filter. intros [_ Hb]. apply (g_blocked _ _ (proj2 Hinv)) in Hb; [congruence|done].
  - fold used in Hu1. case_match; tauto.
Qed.

Lemma preempt_switches s Q c :
  sched_inv s Q -> CurrentTask s = Some c -> State (task s c) = TaskRunning ->
  SchedulerLocked s = 0 -> PreemptPending s = true -> qR Q <> [] ->
  exists n fs s' Q', SchedPreempt s = Some (Switched fs, s') /\ n <> c /\ n ∈ qR Q /\
    CurrentTask s' = Some n /\ State (task s' n) = TaskRunning /\ State (task s' c) = TaskReady /\
    sched_inv s' Q'.
Proof.
  intros [Hq G] Hc Hr Hl Hp Hne. unfold SchedPreempt. rewrite Hp, Hl. cbn [negb Z.eqb].
  set (s1 := set_PreemptPending false s).
  assert (Hinv1 : sched_inv s1 Q) by (split; [by apply qinv_PreemptPending|by eapply ginv_view; [|exact G]]).
  destruct (pick_in s1 (qR Q) Hne) as (m & Hm & HmR). destruct (g_cur _ _ G c Hc) as [Hx _].
  assert (HcR : c ∉ qR Q) by (intros Hin; apply (g_ready _ _ G) in Hin; [congruence|done]).
  destruct (SchedYield_spec s1 Q Hinv1) as [[_ Hno]|(n & s' & -> & _ & _ & Hn & Hcn & Sw & Hinv')].
  { exfalso. destruct Hno as [Hno|[Hno|Hno]]; [done|congruence|].
    change (CurrentTask s1) with (CurrentTask s) in Hno. congruence. }
  assert (Hnc : n <> c) by (intros ->; done).
  assert (Hn32 : (n < 32)%nat) by by apply (q_range _ _ Hq QReady).
  eexists n, _, s', _. split; [done|]. split; [done|]. split; [done|]. split; [apply Sw|].
  rewrite !(sw_state _ _ _ Sw) by done. rewrite decide_True by done.
  rewrite decide_False by congruence. rewrite decide_True by done. done.
Qed.

(** ** Claims *)

(** C29. An interrupt leaves the controllers with nothing in service, whatever
    the handler and whether the interrupted task goes on or another one runs:
    the line's end of interrupt is sent to the slave and to the master before
    the scheduler may switch. A ghost interrupt on line 7 or 15 runs no handler
    and causes no switch, is counted, is reported only once, and is
    acknowledged at the master alone where it came through the slave. *)
Theorem isr_dispatch_acknowledges {K H} `{!IrqClient K H} r cr2 regs (q : Irq H) (k : K) line :
  0 <= line < 16 -> int_no regs = 32 + line ->
  (serving line (pics q) -> exists q',
     isr_dispatch r cr2 regs q k =
       (k1 ← handle (32 + line) r q k;
        '(out, k2) ← client_preempt k1; Some (Returned out, q', k2)) /\
     quiet (pics q') /\ same_masks (pics q) (pics q') /\ handlers q' = handlers q /\
     spurious_count q' = spurious_count q /\ spurious_reported q' = spurious_reported q) /\
  (ghost line (pics q) -> exists q',
     isr_dispatch r cr2 regs q k =
       (k1 ← (if Z.land (spurious_reported q) (Z.shiftl 1 line) =? 0
              then client_kprintf spurious_msg [AWord line; AWord 0] k else Some k);
        Some (Returned Done, q', k1)) /\
     quiet (pics q') /\ same_masks (pics q) (pics q') /\ handlers q' = handlers q /\
     spurious_count q' = alter (fun n => n +w 1) (Z.to_nat line) (spurious_count q) /\
     spurious_reported q' = Z.lor (spurious_reported q) (Z.shiftl 1 line)).
Proof. intros Hl Hv. split; intros; [by apply dispatch_real|by apply dispatch_ghost]. Qed.

(** C30. A timer interrupt charges the running task one tick. While its time
    slice lasts it goes on; at the end of its slice, with any task ready, the
    dispatcher switches to another one and leaves it ready, with the interrupt
    acknowledged before the switch. *)
Theorem timer_irq_preempts r cr2 regs (q : Irq Handler) (k : Kernel) Q c :
  serving 0 (pics q) -> int_no regs = 32 -> handlers q !! 32%nat = Some (Some HTimer) ->
  sched_inv (k_sched k) Q -> CurrentTask (k_sched k) = Some c ->
  State (task (k_sched k) c) = TaskRunning -> SchedulerLocked (k_sched k) = 0 ->
  PreemptPending (k_sched k) = false -> qR Q <> [] ->
  exists out q' k' Q', isr_dispatch r cr2 regs q k = Some (Returned out, q', k') /\
    quiet (pics q') /\ sched_inv (k_sched k') Q' /\
    tick_count (k_timer k') = tick_count (k_timer k) +w 1 /\
    let used := TimeUsed (task (k_sched k) c) +w 1 in
    if TimeSlice (task (k_sched k) c) <=? used
    then exists n fs, out = Switched fs /\ n <> c /\ CurrentTask (k_sched k') = Some n /\
      State (task (k_sched k') n) = TaskRunning /\ State (task (k_sched k') c) = TaskReady
    else out = Done /\ CurrentTask (k_sched k') = Some c /\ TimeUsed (task (k_sched k') c) = used.
Proof.
  intros Hs Hv Hh Hinv Hc Hr Hl Hp Hne.
  destruct (dispatch_real r cr2 regs q k 0) as (q' & -> & Hq & _); [lia|done|done|].
  destruct (timer_handler_spec r (k_timer k) (k_sched k) Q c)
    as (t' & s1 & R & B & E & Ht & Hinv1 & Hc1 & Hr1 & Hl1 & Hu); [done..|].
  unfold handle. change (Z.to_nat (32 + 0)) with 32%nat. rewrite Hh. cbn [default from_option id].
  cbn [run_handler kernel_client]. rewrite E, !some_bind. cbn [client_preempt kernel_client k_sched].
  cbv zeta in Hu |- *. destruct (_ <=? _).
  - destruct (preempt_switches s1 _ c Hinv1) as (n & fs & s' & Q' & -> & Hn & _ & Hcn & Hrn & Hrc & Hinv');
      [done..|cbn; intros [? _]%app_eq_nil; done|].
    rewrite !some_bind. eexists _, q', _, Q'. split; [done|]. split; [done|]. split; [done|].
    split; [done|]. by exists n, fs.
  - destruct Hu as [Hp1 Hu1]. unfold SchedPreempt. rewrite Hp1. cbn [negb]. rewrite !some_bind.
    eexists _, q', _, _. split; [done|]. split; [done|]. split; [exact Hinv1|]. done.
Qed.

Definition chips (s1 s2 : Z) : Pics :=
  mkPics (mkPic 0 32 0 s1 0 false) (mkPic 0 40 0 s2 0 false).
Definition demo_irq (c : Pics) : Irq Handler :=
  mkIrq c (<[32%nat := Some HTimer]> (replicate 256 None)) (replicate 16 0) 0.
Definition demo_regs (vec : Z) : registers :=
  mkRegs 0 0 0 0 0 0 0 0 0 0 0 0 vec 0 0 0 0 0 0.
Definition demo_kernel : Kernel :=
  mkKernel (mkTimer 0 1000 [] true) kbd_init demo_run sample_console 0.

Lemma isr_dispatch_acknowledges_witness :
  (exists q', isr_dispatch 0 0 (demo_regs 33) (demo_irq (chips 2 0)) demo_kernel =
     (k1 ← handle (32 + 1) 0 (demo_irq (chips 2 0)) demo_kernel;
      '(out, k2) ← client_preempt k1; Some (Returned out, q', k2)) /\ quiet (pics q')) /\
  (exists q' : Irq Handler, quiet (pics q') /\ spurious_count q' =
     alter (fun n => n +w 1) (Z.to_nat 15) (spurious_count (demo_irq (chips 4 0)))).
Proof.
  split.
  - destruct (isr_dispatch_acknowledges 0 0 (demo_regs 33) (demo_irq (chips 2 0)) demo_kernel 1)
      as [H _]; [lia|reflexivity|]. destruct H as (q' & E & Hq & _); [split; reflexivity|].
    exists q'. split; [exact E|exact Hq].
  - destruct (isr_dispatch_acknowledges 0 0 (demo_regs 47) (demo_irq (chips 4 0)) demo_kernel 15)
      as [_ H]; [lia|reflexivity|]. destruct H as (q' & _ & Hq & _ & _ & Hc & _).
    { right. split; [reflexivity|split; reflexivity]. }
    exists q'. split; [exact Hq|exact Hc].
Defined.

Lemma timer_irq_preempts_witness :
  exists out q' k' Q', isr_dispatch 0 0 (demo_regs 32) (demo_irq (chips 1 0)) demo_kernel =
      Some (Returned out, q', k') /\ quiet (pics q') /\ sched_inv (k_sched k') Q'.
Proof.
  destruct (timer_irq_preempts 0 0 (demo_regs 32) (demo_irq (chips 1 0)) demo_kernel _ 1
              (conj eq_refl eq_refl) eq_refl eq_refl demo_run_inv)
    as (out & q' & k' & Q' & E & Hq & Hinv & _); [by vm_compute..|done|].
  exists out, q', k', Q'. split; [exact E|]. split; [exact Hq|exact Hinv].
Defined.

(** After pic_init every line is masked and the vectors start at 32 and
    40. From then on irq_register opens exactly its line, and for a slave line
    the cascade line, and enters the handler at the line's vector;
    irq_unregister closes exactly its line and removes the handler; a line
    number out of range or a null handler changes nothing. *)
Lemma irq_lines_exact {H} irq (h : H) (q : Irq H) c :
  pics_ready (pics q) ->
  (pics_ready (pic_init c) /\ vbase (master (pic_init c)) = 32 /\ vbase (slave (pic_init c)) = 40 /\
   forall j, 0 <= j < 16 -> line_masked j (pic_init c) = true) /\
  (0 <= irq < 16 ->
    handlers (irq_register irq (Some h) q) = <[Z.to_nat (32 + irq) := Some h]> (handlers q) /\
    handlers (irq_unregister irq q) = <[Z.to_nat (32 + irq) := None]> (handlers q) /\
    forall j, 0 <= j < 16 ->
      line_masked j (pics (irq_register irq (Some h) q)) =
        line_masked j (pics q) && negb (j =? irq) && negb ((8 <=? irq) && (j =? 2)) /\
      line_masked j (pics (irq_unregister irq q)) = line_masked j (pics q) || (j =? irq)) /\
  (~ (0 <= irq < 16) -> irq_register irq (Some h) q = q /\ irq_unregister irq q = q) /\
  irq_register irq None q = q.
Proof.
  intros Hr. split; [apply pic_init_spec|]. split; [|split; [|done]].
  - intros Hi. destruct (irq_register_spec irq h q Hi Hr) as (H1 & _ & H2).
    destruct (irq_unregister_spec irq q Hi Hr) as (H3 & _ & H4). auto.
  - intros Hi. unfold irq_register, irq_unregister.
    replace ((irq <? 0) || (IRQ_COUNT <=? irq)) with true; [done|].
    unfold IRQ_COUNT. destruct (Z.ltb_spec irq 0), (Z.leb_spec 16 irq); lia || done.
Qed.
