(* ===== verification/IsrStubs.v ===== *)
(** * The interrupt entry code (arch/x86_32/kernel/isr.S)

    How the processor delivers an interrupt through a gate, the stubs that
    bring every vector into the same shape, and the common code around
    isr_dispatch: the dispatcher finds the interrupted state in its argument,
    and the interrupted code never notices. *)

From S2P Require Import Prelude Sched Machine Switch Irq.

(** ** Delivery *)

(** The vectors for which the processor pushes an error code itself. *)
Definition pushes_error (vec : Z) : bool :=
  bool_decide (vec ∈ [8; 10; 11; 12; 13; 14; 17]).

(** IF, TF and NT are cleared on the way through an interrupt gate. *)
Definition gate_flags (f : Z) : Z := Z.land f (Z.lnot 17152).

(** Delivery to ring 0: flags, code segment, instruction pointer and for some
    exceptions an error code go onto the stack. *)
Definition deliver (g : idt_entry) (vec err : Z) (c : Cpu) : Cpu :=
  let c' := push (cpu_ip c) (push (sreg CS c) (push (cpu_flags c) c)) in
  let c' := if pushes_error vec then push err c' else c' in
  set_ip (gate_target g) (set_sreg CS (selector g) (set_flags (gate_flags (cpu_flags c)) c')).

(** ** The code *)

(** The macros of the stubs, and which vector uses which. *)
Definition ISR_NOERR (vector common : Z) : list instr := [Pushl (Imm 0); Pushl (Imm vector); Jmp common].
Definition ISR_ERR (vector common : Z) : list instr := [Pushl (Imm vector); Jmp common].

Definition isr_stub (vector common : Z) : list instr :=
  if bool_decide (vector ∈ [8; 10; 11; 12; 13; 14; 17]) then ISR_ERR vector common
  else ISR_NOERR vector common.

(** isr_common up to the call of isr_dispatch (at [target], returning to
    [ret]), and from there on. *)
Definition isr_common_entry (target ret : Z) : list instr :=
  [ Pusha;
    Push_seg DS; Push_seg ES; Push_seg FS; Push_seg GS;
    Movw_imm 24 EAX;
    Movw_seg EAX DS; Movw_seg EAX ES; Movw_seg EAX FS; Movw_seg EAX GS;
    Cld;
    Pushl (Pl (Rg ESP));
    Call target ret ].

Definition isr_common_exit : list instr :=
  [ Addl 4 ESP;
    Pop_seg GS; Pop_seg FS; Pop_seg ES; Pop_seg DS;
    Popa;
    Addl 8 ESP;
    Iret ].

(** The saved registers as the dispatcher reads them (struct registers). *)
Definition read_registers (m : Mem) (r : Z) : registers :=
  let f i := load32 m (r + 4 * i) in
  mkRegs (f 0) (f 1) (f 2) (f 3) (f 4) (f 5) (f 6) (f 7) (f 8) (f 9) (f 10) (f 11) (f 12) (f 13)
    (f 14) (f 15) (f 16) (f 17) (f 18).

(** ** On the way in *)

Section Interrupt.
Context (stub_table : Z -> Z) (placeholder table common isr_dispatch_at ret : Z).

(** The gate of a vector below 48 in the table that idt_init sets up. *)
Definition gate (vec : Z) : idt_entry :=
  default (mkGate 0 0 0 0 0) (idt (idt_init stub_table placeholder table (mkIdt ∅ 0 0)) !! vec).

(** From the interrupt to the first instruction of isr_dispatch. *)
Definition isr_entry (vec err : Z) (c : Cpu) : Cpu :=
  exec (isr_stub vec common ++ isr_common_entry isr_dispatch_at ret) (deliver (gate vec) vec err c).

(** Memory with the interrupt frame below [sp]. *)
Definition frame_mem (vec err : Z) (c : Cpu) : Mem :=
  let sp := reg ESP c in
  let m := store32 (cpu_mem c) (sp - 4) (cpu_flags c) in
  let m := store32 m (sp - 8) (sreg CS c) in
  let m := store32 m (sp - 12) (cpu_ip c) in
  let m := store32 m (sp - 16) (if pushes_error vec then err else 0) in
  let m := store32 m (sp - 20) vec in
  let m := store32 m (sp - 24) (reg EAX c) in
  let m := store32 m (sp - 28) (reg ECX c) in
  let m := store32 m (sp - 32) (reg EDX c) in
  let m := store32 m (sp - 36) (reg EBX c) in
  let m := store32 m (sp - 40) (sp - 20) in
  let m := store32 m (sp - 44) (reg EBP c) in
  let m := store32 m (sp - 48) (reg ESI c) in
  let m := store32 m (sp - 52) (reg EDI c) in
  let m := store16 m (sp - 56) (sreg DS c) in
  let m := store16 m (sp - 60) (sreg ES c) in
  let m := store16 m (sp - 64) (sreg FS c) in
  let m := store16 m (sp - 68) (sreg GS c) in
  let m := store32 m (sp - 72) (sp - 68) in
  store32 m (sp - 76) ret.

Lemma isr_entry_exec vec err c :
  (forall i, is_u32 (stub_table i)) -> is_u32 placeholder -> is_u32 isr_dispatch_at -> is_u32 ret ->
  0 <= vec < 48 -> cpu_wf c -> 76 <= reg ESP c ->
  isr_entry vec err c =
    mkCpu (mkGpr (reg EAX c / 65536 * 65536 + 24) (reg EBX c) (reg ECX c) (reg EDX c)
             (reg ESI c) (reg EDI c) (reg EBP c) (reg ESP c - 76))
      (mkSegs 16 24 24 24 24 (sreg SS c))
      (Z.clearbit (gate_flags (cpu_flags c)) FLAG_DF) isr_dispatch_at (frame_mem vec err c).
Proof.
  intros Hst Hpl Hd Hret Hvec Hwf Hlo.
  assert (Hg : selector (gate vec) = 16).
  { destruct (idt_init_spec stub_table placeholder table (mkIdt ∅ 0 0) vec Hst Hpl ltac:(lia)) as (g & E & Hs & _).
    unfold gate. by rewrite E. }
  unfold isr_entry, isr_stub, deliver, frame_mem. fold (pushes_error vec). rewrite Hg.
  pose proof (w_reg _ Hwf EAX) as Ha. pose proof (w_reg _ Hwf ESP) as Hsp.
  destruct c as [[a b cx d si di bp sp] [cs ds es fs gs ss] f ip m].
  cbn [reg gpr r_esp r_eax] in *. unfold is_u32 in *.
  assert (E24 : (a / 65536 * 65536 + 24 mod 65536) mod 65536 = 24)
    by (Z.to_euclidean_division_equations; lia).
  destruct (pushes_error vec); unfold ISR_ERR, ISR_NOERR, isr_common_entry;
    cbn [app]; run_machine; rewrite E24; unwrap; add_consts; unwrap; done.
Qed.

(** ** On the way out *)

(** What the compiled dispatcher leaves alone when it has returned from the
    state [e] it was entered in: its return address is gone from the stack, the
    stack segment and the 17 words of the frame are as they were. *)
Record returned (e c' : Cpu) : Prop := {
  ret_esp : reg ESP c' = reg ESP e + 4;
  ret_ss : sreg SS c' = sreg SS e;
  ret_frame : mem_agree (fun a => reg ESP e + 8 <= a < reg ESP e + 76) (cpu_mem e) (cpu_mem c') }.

Lemma isr_exit_exec vec err c c' r :
  cpu_wf c -> reg ESP c = r + 68 -> 8 <= r ->
  reg ESP c' = r - 4 -> sreg SS c' = sreg SS c ->
  mem_agree (fun a => r <= a < r + 68) (frame_mem vec err c) (cpu_mem c') ->
  exec isr_common_exit c' = set_mem (cpu_mem c') c.
Proof.
  intros Hwf Hr Hlo Hesp Hss Hm.
  assert (Hw : forall a, r <= a -> a + 4 <= r + 68 -> load32 (cpu_mem c') a = load32 (frame_mem vec err c) a)
    by (intros a H1 H2; apply load32_agree; intros; apply Hm; lia).
  unfold frame_mem in Hw. pose proof (w_reg _ Hwf) as Hregs. pose proof (w_sreg _ Hwf) as Hsegs.
  pose proof (w_flags _ Hwf) as Hf. pose proof (flags_ok_u32 _ Hf) as Hfr. pose proof (w_ip _ Hwf) as Hip.
  pose proof (Hregs ESP) as Hsp. rewrite Hr in Hw, Hsp.
  destruct c as [[a b cx d si di bp sp] [cs ds es fs gs ss] f ip m].
  destruct c' as [[a' b' cx' d' si' di' bp' sp'] [cs' ds' es' fs' gs' ss'] f' ip' m'].
  pose proof (Hregs EAX). pose proof (Hregs EBX). pose proof (Hregs ECX). pose proof (Hregs EDX).
  pose proof (Hregs ESI). pose proof (Hregs EDI). pose proof (Hregs EBP).
  pose proof (Hsegs CS). pose proof (Hsegs DS). pose proof (Hsegs ES). pose proof (Hsegs FS). pose proof (Hsegs GS).
  cbn [reg gpr r_esp r_eax r_ebx r_ecx r_edx r_esi r_edi r_ebp sreg segs s_cs s_ds s_es s_fs s_gs s_ss
    cpu_mem cpu_flags cpu_ip] in *.
  subst sp sp' ss'. unfold is_u32 in *. unfold isr_common_exit. run_machine.
  unwrap. rewrite !Z.sub_add. add_consts.
  rewrite !Hw by lia. mem_simpl. unwrap. rewrite !Z.mod_small by lia. rewrite Hf. done.
Qed.

(** The struct describes the interrupted state [c]. Only the low halves of the
    words of the data segments are written. *)
Record describes (vec err : Z) (c : Cpu) (regs : registers) : Prop := {
  d_vec : int_no regs = vec;
  d_err : err_code regs = if pushes_error vec then err else 0;
  d_gpr : eax regs = reg EAX c /\ ebx regs = reg EBX c /\ ecx regs = reg ECX c /\ edx regs = reg EDX c /\
    esi regs = reg ESI c /\ edi regs = reg EDI c /\ ebp regs = reg EBP c;
  d_data : ds regs mod 65536 = sreg DS c /\ es regs mod 65536 = sreg ES c /\
    fs regs mod 65536 = sreg FS c /\ gs regs mod 65536 = sreg GS c;
  d_return : eip regs = cpu_ip c /\ cs regs = sreg CS c /\ eflags regs = cpu_flags c }.

Lemma frame_describes vec err c :
  0 <= vec < 48 -> is_u32 err -> cpu_wf c -> 76 <= reg ESP c ->
  describes vec err c (read_registers (frame_mem vec err c) (reg ESP c - 68)).
Proof.
  intros Hvec Herr Hwf Hlo.
  assert (Hregs : forall r, wrap32 (reg r c) = reg r c) by (intros; apply wrap32_small, Hwf).
  assert (Hsegs : forall s, sreg s c mod 65536 = sreg s c) by (intros; apply Z.mod_small, Hwf).
  assert (Hf : wrap32 (cpu_flags c) = cpu_flags c) by apply wrap32_small, flags_ok_u32, Hwf.
  assert (Hcs : wrap32 (sreg CS c) = sreg CS c)
    by (apply wrap32_small; pose proof (w_sreg _ Hwf CS); unfold is_u32; lia).
  assert (Hip : wrap32 (cpu_ip c) = cpu_ip c) by apply wrap32_small, Hwf.
  split; unfold read_registers, frame_mem; cbn [int_no err_code eax ebx ecx edx esi edi ebp ds es fs gs eip cs eflags];
    mem_simpl; rewrite ?Hregs, ?Hsegs, ?Hf, ?Hcs, ?Hip; [|destruct (pushes_error vec)|done..];
    apply wrap32_small; unfold is_u32 in *; lia.
Qed.

(** C37. An interrupt is transparent. Through the gate that idt_init has set up,
    the stub of its vector and isr_common, isr_dispatch is entered with
    interrupts off, the kernel's data segments and a pointer to the saved
    registers, which hold the vector, the error code (0 where the processor
    gives none) and the whole interrupted state; and once it has returned with
    the frame in place, that state goes on exactly, flags and segments
    included, over whatever memory the dispatcher left. *)
Theorem interrupt_transparent vec err c :
  (forall i, is_u32 (stub_table i)) -> is_u32 placeholder -> is_u32 isr_dispatch_at -> is_u32 ret ->
  0 <= vec < 48 -> is_u32 err -> cpu_wf c -> 76 <= reg ESP c ->
  let e := isr_entry vec err c in
  cpu_ip e = isr_dispatch_at /\ top e = ret /\ Z.testbit (cpu_flags e) FLAG_IF = false /\
  (forall s, s = DS \/ s = ES \/ s = FS \/ s = GS -> sreg s e = 24) /\
  describes vec err c (read_registers (cpu_mem e) (load32 (cpu_mem e) (reg ESP e + 4))) /\
  forall c', returned e c' -> exec isr_common_exit c' = set_mem (cpu_mem c') c.
Proof.
  intros Hst Hpl Hd Hret Hvec Herr Hwf Hlo. cbv zeta. rewrite isr_entry_exec by done.
  pose proof (w_reg _ Hwf ESP) as Hsp. unfold is_u32 in *. unfold top. cbn [cpu_ip cpu_mem cpu_flags].
  change (reg ESP (mkCpu _ _ _ _ _)) with (reg ESP c - 76).
  split; [done|]. split; [unfold frame_mem; mem_simpl; by apply wrap32_small|].
  split. { rewrite Z.clearbit_eqb. unfold gate_flags. rewrite Z.land_spec. by rewrite andb_false_r. }
  split; [by intros s [->|[->|[->| ->]]]|].
  assert (Er : load32 (frame_mem vec err c) (reg ESP c - 76 + 4) = reg ESP c - 68)
    by (unfold frame_mem; mem_simpl; unwrap; done).
  split; [rewrite Er; by apply frame_describes|].
  intros c' [H1 H2 H3]. cbn [cpu_mem] in H3.
  change (reg ESP (mkCpu _ _ _ _ _)) with (reg ESP c - 76) in *.
  apply (isr_exit_exec vec err _ _ (reg ESP c - 68)); [done|lia|lia|lia|done|].
  intros a Ha. apply H3. lia.
Qed.

(** Nothing is pushed for the last two fields: they read the stack of the
    interrupted code. *)
Lemma frame_has_no_stack vec err c :
  68 <= reg ESP c ->
  let regs := read_registers (frame_mem vec err c) (reg ESP c - 68) in
  user_esp regs = load32 (cpu_mem c) (reg ESP c) /\ ss regs = load32 (cpu_mem c) (reg ESP c + 4).
Proof.
  intros Hlo. unfold read_registers, frame_mem. cbn [user_esp ss]. mem_simpl.
  split; f_equal; lia.
Qed.
End Interrupt.

(** The vectors from 48 on lead to a bare return. *)
Definition stub_placeholder : list instr := [Iret].

Lemma placeholder_returns g vec c :
  48 <= vec -> cpu_wf c -> 12 <= reg ESP c ->
  exists m, exec stub_placeholder (deliver g vec 0 c) = set_mem m c /\
    mem_agree (fun a => ~ (reg ESP c - 12 <= a < reg ESP c)) (cpu_mem c) m.
Proof.
  intros Hv Hwf Hlo. unfold deliver.
  assert (Hp : pushes_error vec = false) by (apply bool_decide_eq_false; rewrite !elem_of_cons, elem_of_nil; lia).
  rewrite Hp. pose proof (w_reg _ Hwf ESP) as Hsp. pose proof (w_sreg _ Hwf CS) as Hcs.
  pose proof (w_flags _ Hwf) as Hf. pose proof (flags_ok_u32 _ Hf) as Hfr. pose proof (w_ip _ Hwf) as Hip.
  destruct c as [[a b cx d si di bp sp] [cs ds es fs gs ss] f ip m].
  cbn [reg gpr r_esp sreg segs s_cs cpu_flags cpu_ip cpu_mem] in *. unfold is_u32, stub_placeholder in *.
  run_machine. unwrap. add_consts. unwrap. rewrite !Z.sub_add. mem_simpl. unwrap.
  rewrite Z.mod_small, Hf by lia. eexists. split; [reflexivity|].
  intros x Hx. rewrite !load8_store32_ne by lia. done.
Qed.

(** A timer interrupt in the middle of the example's task 0, and a dispatcher
    that returns at once. *)
Definition demo_entry : Cpu :=
  isr_entry (fun i => wrap32 (4096 + 16 * i)) 80 9000 700 5000 710 32 0 (duo_cpu ∅).

Lemma ret_returned e : (0 <=? reg ESP e) && (reg ESP e <? 4294967292) = true -> returned e (exec [Ret] e).
Proof.
  intros H. apply andb_true_iff in H as [H1 H2]. apply Z.leb_le in H1. apply Z.ltb_lt in H2.
  destruct e as [[] [] ? ? ?]. split; [|done|done].
  cbn -[wrap32] in *. unwrap. done.
Qed.

Lemma interrupt_transparent_witness :
  int_no (read_registers (cpu_mem demo_entry) (load32 (cpu_mem demo_entry) (reg ESP demo_entry + 4))) = 32 /\
  exec isr_common_exit (exec [Ret] demo_entry) = set_mem (cpu_mem (exec [Ret] demo_entry)) (duo_cpu ∅).
Proof.
  destruct (interrupt_transparent (fun i => wrap32 (4096 + 16 * i)) 80 9000 700 5000 710 32 0 (duo_cpu ∅))
    as (_ & _ & _ & _ & [Hv _ _ _ _] & Hx);
    [intros; apply wrap32_range|u32|u32|u32|lia|u32|apply duo_cpu_wf|cbn; lia|].
  split; [exact Hv|]. apply (Hx (exec [Ret] demo_entry)).
  apply ret_returned. by vm_compute.
Defined.
