(* ===== verification/Heap.v ===== *)
(** * The kernel heap (mm/heap.c)

    Blocks lie in byte memory, with their headers and, while they are free,
    the two links of the free list. A [Block *] is an address, 0 the null
    pointer; a [HeapSegment *] is an index into the segment table. The walks of
    the free list take their fuel as an argument. *)

From S2P Require Import Prelude PageAlloc.

(** ** Data *)

Definition HEAP_MAGIC : Z := 1212498256.
Definition HEAP_GROW_PAGES : Z := 16.
Definition HEAP_KEEP_PAGES : Z := HEAP_GROW_PAGES.
Definition HEAP_SEGMENT_CAP : Z := 8.
Definition HEAP_ALIGN : Z := 8.
Definition HEAP_ALIGN_UP (x : Z) : Z := Z.land (x +w (HEAP_ALIGN - 1)) (u32_not (HEAP_ALIGN - 1)).

(** [sizeof(BlockMeta)]. *)
Definition sizeof_BlockMeta : Z := 16.

(** The fields of the block at [b]. *)
Definition Magic (m : Mem) (b : Z) : Z := load32 m b.
Definition Size (m : Mem) (b : Z) : Z := load32 m (b + 4).
Definition PrevSize (m : Mem) (b : Z) : Z := load32 m (b + 8).
Definition IsFree (m : Mem) (b : Z) : bool := negb (load8 m (b + 12) =? 0).
Definition NodePrev (m : Mem) (b : Z) : Z := load32 m (b + 16).
Definition NodeNext (m : Mem) (b : Z) : Z := load32 m (b + 20).

Definition set_Magic (v b : Z) (m : Mem) : Mem := store32 m b v.
Definition set_Size (v b : Z) (m : Mem) : Mem := store32 m (b + 4) v.
Definition set_PrevSize (v b : Z) (m : Mem) : Mem := store32 m (b + 8) v.
Definition set_IsFree (v : bool) (b : Z) (m : Mem) : Mem := store8 m (b + 12) (Z.b2z v).
Definition set_NodePrev (v b : Z) (m : Mem) : Mem := store32 m (b + 16) v.
Definition set_NodeNext (v b : Z) (m : Mem) : Mem := store32 m (b + 20) v.

(** The four assignments to a header. *)
Definition set_Meta (magic size prev : Z) (free : bool) (b : Z) (m : Mem) : Mem :=
  set_IsFree free b (set_PrevSize prev b (set_Size size b (set_Magic magic b m))).

Record HeapSegment := mkSeg { Base : Z; End_ : Z; SegNext : option nat }.
#[global] Instance HeapSegment_inhabited : Inhabited HeapSegment := populate (mkSeg 0 0 None).

Record Heap := mkHeap {
  hmem : Mem; HeapSegments : option nat; HeapSegmentTable : list HeapSegment;
  HeapSegmentCount : Z; FreeListHead : Z; hpmm : Pmm }.

Definition set_hmem v h := mkHeap v (HeapSegments h) (HeapSegmentTable h) (HeapSegmentCount h)
  (FreeListHead h) (hpmm h).
Definition set_FreeListHead v h := mkHeap (hmem h) (HeapSegments h) (HeapSegmentTable h)
  (HeapSegmentCount h) v (hpmm h).
Definition set_hpmm v h := mkHeap (hmem h) (HeapSegments h) (HeapSegmentTable h) (HeapSegmentCount h)
  (FreeListHead h) v.
Definition on_mem (f : Mem -> Mem) (h : Heap) : Heap := set_hmem (f (hmem h)) h.

Definition seg (h : Heap) (i : nat) : HeapSegment := HeapSegmentTable h !!! i.

(** The segment list holds at most eight. *)
Definition seg_fuel : nat := 9.

(** ** Operations *)

Definition HeapGrowthHint (h : Heap) : option Z :=
  loop seg_fuel (fun '(sg, hint) =>
    match sg with
    | None => Some (inr hint)
    | Some i =>
        let seg_end := End_ (seg h i) in
        Some (inl (SegNext (seg h i), if hint <? seg_end then seg_end else hint))
    end) (HeapSegments h, 0).

Definition HeapFindSegment (b : Z) (h : Heap) : option (option nat) :=
  if b =? 0 then Some None
  else
    loop seg_fuel (fun sg =>
      match sg with
      | None => Some (inr None)
      | Some i =>
          if (Base (seg h i) <=? b) && (b <? End_ (seg h i)) then Some (inr (Some i))
          else Some (inl (SegNext (seg h i)))
      end) (HeapSegments h).

Section FreeList.
Context (fuel : nat).

Definition HeapListInsert (b : Z) (h : Heap) : option Heap :=
  '(cur, prev) ← loop fuel (fun '(cur, prev) =>
    if negb (cur =? 0) && (cur <? b) then Some (inl (NodeNext (hmem h) cur, cur))
    else Some (inr (cur, prev))) (FreeListHead h, 0);
  let h := on_mem (set_NodePrev prev b) h in
  let h := on_mem (set_NodeNext cur b) h in
  let h := if negb (prev =? 0) then on_mem (set_NodeNext b prev) h else set_FreeListHead b h in
  Some (if negb (cur =? 0) then on_mem (set_NodePrev b cur) h else h).

Definition HeapListRemove (b : Z) (h : Heap) : Heap :=
  let h := if negb (NodePrev (hmem h) b =? 0)
           then on_mem (set_NodeNext (NodeNext (hmem h) b) (NodePrev (hmem h) b)) h
           else set_FreeListHead (NodeNext (hmem h) b) h in
  let h := if negb (NodeNext (hmem h) b =? 0)
           then on_mem (set_NodePrev (NodePrev (hmem h) b) (NodeNext (hmem h) b)) h
           else h in
  let h := on_mem (set_NodePrev 0 b) h in
  on_mem (set_NodeNext 0 b) h.

Definition HeapFindFree (size : Z) (h : Heap) : option (Z * Heap) :=
  loop fuel (fun b =>
    if negb (b =? 0) then
      if size <=? Size (hmem h) b then Some (inr (b, HeapListRemove b h))
      else Some (inl (NodeNext (hmem h) b))
    else Some (inr (0, h))) (FreeListHead h).

Definition HeapGrow (pages : Z) (h : Heap) : option (Z * Heap) :=
  if HEAP_SEGMENT_CAP <=? HeapSegmentCount h then Some (0, h)
  else
    hint ← HeapGrowthHint h;
    '(addr, p) ← PageAllocPagesAt hint pages (hpmm h);
    let h := set_hpmm p h in
    if addr =? 0 then Some (0, h)
    else
      let b := addr in
      let h := on_mem (set_Meta HEAP_MAGIC (pages *w PAGE_SIZE) 0 true b) h in
      let i := Z.to_nat (HeapSegmentCount h) in
      let h := mkHeap (hmem h) (Some i)
                 (<[i := mkSeg b (b +w Size (hmem h) b) (HeapSegments h)]> (HeapSegmentTable h))
                 (HeapSegmentCount h +w 1) (FreeListHead h) (hpmm h) in
      h ← HeapListInsert b h;
      Some (b, h).

(** [if (seg != 0 && next < seg->End) next->Meta.PrevSize = v], the segment
    being that of [b]. *)
Definition stamp_next (b next v : Z) (h : Heap) : option Heap :=
  sg ← HeapFindSegment b h;
  Some (match sg with
        | Some i => if next <? End_ (seg h i) then on_mem (set_PrevSize v next) h else h
        | None => h
        end).

Definition HeapSplit (b size : Z) (h : Heap) : option Heap :=
  let LeftOver := Size (hmem h) b -w size in
  if LeftOver <? HEAP_ALIGN + sizeof_BlockMeta then Some h
  else
    let rest := b +w size in
    let h := on_mem (set_Meta HEAP_MAGIC LeftOver size true rest) h in
    let next := rest +w LeftOver in
    h ← stamp_next b next LeftOver h;
    let h := on_mem (set_Size size b) h in
    HeapListInsert rest h.

Definition HeapInit (h : Heap) : option Heap :=
  let h := set_FreeListHead 0 h in
  '(_, h) ← HeapGrow HEAP_GROW_PAGES h;
  Some h.

Definition kmalloc (size : Z) (h : Heap) : option (Z * Heap) :=
  if size =? 0 then Some (0, h)
  else if 4294967295 -w sizeof_BlockMeta -w HEAP_ALIGN <? size then Some (0, h)
  else
    let TotalSize := HEAP_ALIGN_UP (size +w sizeof_BlockMeta) in
    '(b, h) ← HeapFindFree TotalSize h;
    '(b, h) ← (if b =? 0 then
                 let pages := (TotalSize +w PAGE_SIZE -w 1) / PAGE_SIZE in
                 '(b, h) ← HeapGrow pages h;
                 if b =? 0 then Some (0, h) else Some (b, HeapListRemove b h)
               else Some (b, h));
    if b =? 0 then Some (0, h)
    else
      let OriginalSize := Size (hmem h) b in
      h ← (if TotalSize <? OriginalSize then HeapSplit b TotalSize h
           else Some (on_mem (set_Size TotalSize b) h));
      let h := on_mem (set_Magic HEAP_MAGIC b) h in
      let h := on_mem (set_IsFree false b) h in
      let next := b +w Size (hmem h) b in
      h ← stamp_next b next (Size (hmem h) b) h;
      Some (b +w sizeof_BlockMeta, h).

(** The merge with the block on the left: the block to go on with. *)
Definition merge_left (b : Z) (h : Heap) : Z * bool * Heap :=
  if negb (PrevSize (hmem h) b =? 0) then
    let left := b -w PrevSize (hmem h) b in
    if (Magic (hmem h) left =? HEAP_MAGIC) && IsFree (hmem h) left then
      let h := on_mem (set_Size (Size (hmem h) left +w Size (hmem h) b) left) h in
      (left, true, on_mem (set_Meta 0 0 0 false b) h)
    else (b, false, h)
  else (b, false, h).

Definition merge_right (b : Z) (h : Heap) : option Heap :=
  let next := b +w Size (hmem h) b in
  sg ← HeapFindSegment b h;
  Some (match sg with
        | Some i =>
            if (next <? End_ (seg h i)) && IsFree (hmem h) next then
              let next_size := Size (hmem h) next in
              let h := HeapListRemove next h in
              let h := on_mem (set_Size (Size (hmem h) b +w next_size) b) h in
              on_mem (set_Meta 0 0 0 false next) h
            else h
        | None => h
        end).

(** Giving back the pages past the keep threshold. *)
Definition give_back (b : Z) (h : Heap) : option Heap :=
  sg ← HeapFindSegment b h;
  let at_end := match sg with
                | Some i => End_ (seg h i) <=? b +w Size (hmem h) b
                | None => false
                end in
  if at_end : bool then Some h
  else if HEAP_KEEP_PAGES * PAGE_SIZE <? Size (hmem h) b then
    let Keep := HEAP_KEEP_PAGES * PAGE_SIZE in
    let Give := Size (hmem h) b -w Keep in
    let pages := Give / PAGE_SIZE in
    if pages =? 0 then Some h
    else
      let split := b +w Keep in
      let h := on_mem (set_Meta HEAP_MAGIC Give Keep true split) h in
      let beyond := split +w Give in
      h ← stamp_next b beyond Keep h;
      let h := on_mem (set_Size Keep b) h in
      h ← HeapListInsert split h;
      p ← PageFreePages split pages (hpmm h);
      Some (set_hpmm p h)
  else Some h.

Definition kfree (addr : Z) (h : Heap) : option Heap :=
  let b := addr -w sizeof_BlockMeta in
  if negb (Magic (hmem h) b =? HEAP_MAGIC) || IsFree (hmem h) b then Some h
  else
    let '(b, merged_left, h) := merge_left b h in
    h ← merge_right b h;
    h ← stamp_next b (b +w Size (hmem h) b) (Size (hmem h) b) h;
    let h := on_mem (set_IsFree true b) h in
    h ← (if negb merged_left then HeapListInsert b h else Some h);
    give_back b h.
End FreeList.
