(* ===== verification/HeapInv.v ===== *)
(** * The heap's blocks and its free list

    The blocks in memory as a map from addresses to their fields ([hrep]), the
    assignments of heap.c as updates of that map, and the free list as a
    sorted list of addresses ([dseg]). *)

From Stdlib Require Import Sorted.
From S2P Require Import Prelude PageAlloc Heap.

(** ** Blocks as records *)

Record Fields := mkF {
  fmagic : Z; fsize : Z; fprev : Z; ffree : bool; fnp : Z; fnn : Z }.

Definition fields (m : Mem) (a : Z) : Fields :=
  mkF (Magic m a) (Size m a) (PrevSize m a) (IsFree m a) (NodePrev m a) (NodeNext m a).

Definition w_magic v f := mkF v (fsize f) (fprev f) (ffree f) (fnp f) (fnn f).
Definition w_size v f := mkF (fmagic f) v (fprev f) (ffree f) (fnp f) (fnn f).
Definition w_prev v f := mkF (fmagic f) (fsize f) v (ffree f) (fnp f) (fnn f).
Definition w_free v f := mkF (fmagic f) (fsize f) (fprev f) v (fnp f) (fnn f).
Definition w_np v f := mkF (fmagic f) (fsize f) (fprev f) (ffree f) v (fnn f).
Definition w_nn v f := mkF (fmagic f) (fsize f) (fprev f) (ffree f) (fnp f) v.

(** Two blocks at least a header and two links apart. *)
Definition apart (a b : Z) : Prop := a + 24 <= b \/ b + 24 <= a.

Ltac fields_ne := intros; unfold apart in *;
  unfold fields, Magic, Size, PrevSize, IsFree, NodePrev, NodeNext,
    set_Magic, set_Size, set_PrevSize, set_IsFree, set_NodePrev, set_NodeNext;
  rewrite ?load32_store32_ne, ?load8_store32_ne, ?load32_store8_ne, ?load8_store8_ne by lia; done.

Lemma fields_Magic_ne v b m a : apart a b -> fields (set_Magic v b m) a = fields m a.
Proof. fields_ne. Qed.
Lemma fields_Size_ne v b m a : apart a b -> fields (set_Size v b m) a = fields m a.
Proof. fields_ne. Qed.
Lemma fields_PrevSize_ne v b m a : apart a b -> fields (set_PrevSize v b m) a = fields m a.
Proof. fields_ne. Qed.
Lemma fields_IsFree_ne v b m a : apart a b -> fields (set_IsFree v b m) a = fields m a.
Proof. fields_ne. Qed.
Lemma fields_NodePrev_ne v b m a : apart a b -> fields (set_NodePrev v b m) a = fields m a.
Proof. fields_ne. Qed.
Lemma fields_NodeNext_ne v b m a : apart a b -> fields (set_NodeNext v b m) a = fields m a.
Proof. fields_ne. Qed.

Ltac fields_eq := intros;
  unfold fields, w_magic, w_size, w_prev, w_free, w_np, w_nn, Magic, Size, PrevSize, IsFree, NodePrev, NodeNext,
    set_Magic, set_Size, set_PrevSize, set_IsFree, set_NodePrev, set_NodeNext; cbn;
  rewrite ?load32_store32_eq, ?load32_store32_ne, ?load8_store32_ne, ?load32_store8_ne by lia;
  rewrite ?wrap32_small by done; done.

Lemma fields_Magic_eq v b m : is_u32 v -> fields (set_Magic v b m) b = w_magic v (fields m b).
Proof. fields_eq. Qed.
Lemma fields_Size_eq v b m : is_u32 v -> fields (set_Size v b m) b = w_size v (fields m b).
Proof. fields_eq. Qed.
Lemma fields_PrevSize_eq v b m : is_u32 v -> fields (set_PrevSize v b m) b = w_prev v (fields m b).
Proof. fields_eq. Qed.
Lemma fields_IsFree_eq v b m : fields (set_IsFree v b m) b = w_free v (fields m b).
Proof.
  unfold fields, w_free, Magic, Size, PrevSize, IsFree, NodePrev, NodeNext, set_IsFree. cbn.
  rewrite !load32_store8_ne, load8_store8_eq by lia. by destruct v.
Qed.
Lemma fields_NodePrev_eq v b m : is_u32 v -> fields (set_NodePrev v b m) b = w_np v (fields m b).
Proof. fields_eq. Qed.
Lemma fields_NodeNext_eq v b m : is_u32 v -> fields (set_NodeNext v b m) b = w_nn v (fields m b).
Proof. fields_eq. Qed.

(** ** Memory as a map of blocks *)

Abbreviation Blocks := (gmap Z Fields).

Definition far (V : Blocks) : Prop :=
  forall a b, a <> b -> is_Some (V !! a) -> is_Some (V !! b) -> apart a b.

Record hrep (m : Mem) (V : Blocks) : Prop := {
  h_fields : forall a f, V !! a = Some f -> fields m a = f;
  h_far : far V }.

Lemma hrep_get m V a f :
  hrep m V -> V !! a = Some f ->
  Magic m a = fmagic f /\ Size m a = fsize f /\ PrevSize m a = fprev f /\ IsFree m a = ffree f /\
  NodePrev m a = fnp f /\ NodeNext m a = fnn f.
Proof. intros H E. by rewrite <- (h_fields m V H a f E). Qed.

(** Assignments to a field of a block. *)
Lemma hrep_alter m V (set : Z -> Mem -> Mem) (w : Fields -> Fields) b :
  (forall a, apart a b -> fields (set b m) a = fields m a) ->
  fields (set b m) b = w (fields m b) ->
  is_Some (V !! b) -> hrep m V -> hrep (set b m) (alter w b V).
Proof.
  intros Hne Heq Hb [HF HA]. split.
  - intros a f. destruct (decide (a = b)) as [->|Hab].
    + rewrite lookup_alter_eq. intros (f0 & Ef & ->)%fmap_Some. by rewrite Heq, (HF b f0 Ef).
    + rewrite lookup_alter_ne by done. intros E. rewrite Hne; [by apply HF|]. by apply HA.
  - intros a c Hac. rewrite !lookup_alter_is_Some. by apply HA.
Qed.

Lemma hrep_Magic v b m V : is_u32 v -> is_Some (V !! b) -> hrep m V -> hrep (set_Magic v b m) (alter (w_magic v) b V).
Proof. intros. apply (hrep_alter m V (set_Magic v)); auto using fields_Magic_ne, fields_Magic_eq. Qed.
Lemma hrep_Size v b m V : is_u32 v -> is_Some (V !! b) -> hrep m V -> hrep (set_Size v b m) (alter (w_size v) b V).
Proof. intros. apply (hrep_alter m V (set_Size v)); auto using fields_Size_ne, fields_Size_eq. Qed.
Lemma hrep_PrevSize v b m V : is_u32 v -> is_Some (V !! b) -> hrep m V -> hrep (set_PrevSize v b m) (alter (w_prev v) b V).
Proof. intros. apply (hrep_alter m V (set_PrevSize v)); auto using fields_PrevSize_ne, fields_PrevSize_eq. Qed.
Lemma hrep_IsFree v b m V : is_Some (V !! b) -> hrep m V -> hrep (set_IsFree v b m) (alter (w_free v) b V).
Proof. intros. apply (hrep_alter m V (set_IsFree v)); auto using fields_IsFree_ne, fields_IsFree_eq. Qed.
Lemma hrep_NodePrev v b m V : is_u32 v -> is_Some (V !! b) -> hrep m V -> hrep (set_NodePrev v b m) (alter (w_np v) b V).
Proof. intros. apply (hrep_alter m V (set_NodePrev v)); auto using fields_NodePrev_ne, fields_NodePrev_eq. Qed.
Lemma hrep_NodeNext v b m V : is_u32 v -> is_Some (V !! b) -> hrep m V -> hrep (set_NodeNext v b m) (alter (w_nn v) b V).
Proof. intros. apply (hrep_alter m V (set_NodeNext v)); auto using fields_NodeNext_ne, fields_NodeNext_eq. Qed.

(** A block that leaves the map, and a new one away from the others. *)
Lemma hrep_delete b m V : hrep m V -> hrep m (delete b V).
Proof.
  intros [HF HA]. split.
  - intros a f E. apply HF. by apply lookup_delete_Some in E as [_ E].
  - intros a c Hac [f E] [g G]. apply lookup_delete_Some in E as [_ E]. apply lookup_delete_Some in G as [_ G].
    apply HA; eauto.
Qed.

Lemma hrep_new b m V :
  (forall a, is_Some (V !! a) -> apart a b) -> hrep m V -> hrep m (<[b := fields m b]> V).
Proof.
  intros Hb [HF HA]. split.
  - intros a f. rewrite lookup_insert. case_decide; [by intros [= <-]; subst|by apply HF].
  - intros a c Hac. rewrite !lookup_insert. repeat case_decide; subst; [done| | |by apply HA].
    + intros _ Hc. specialize (Hb c Hc). unfold apart in *. lia.
    + intros Ha _. by apply Hb.
Qed.

(** Writing a whole header. *)
Lemma hrep_Meta magic size prev free b m V :
  is_u32 magic -> is_u32 size -> is_u32 prev -> is_Some (V !! b) -> hrep m V ->
  hrep (set_Meta magic size prev free b m)
    (alter (fun f => mkF magic size prev free (fnp f) (fnn f)) b V).
Proof.
  intros H1 H2 H3 Hb HR. unfold set_Meta.
  assert (E : alter (fun f => mkF magic size prev free (fnp f) (fnn f)) b V =
              alter (w_free free) b (alter (w_prev prev) b (alter (w_size size) b (alter (w_magic magic) b V)))).
  { by rewrite !alter_alter_eq. }
  rewrite E. apply hrep_IsFree; [by rewrite !lookup_alter_is_Some|].
  apply hrep_PrevSize; [done|by rewrite !lookup_alter_is_Some|].
  apply hrep_Size; [done|by rewrite !lookup_alter_is_Some|]. by apply hrep_Magic.
Qed.

(** ** The free list *)

(** The first address of a list, or [n]; the last, or [p]. *)
Definition first (l : list Z) (n : Z) : Z := match l with [] => n | x :: _ => x end.
Definition final (p : Z) (l : list Z) : Z := default p (last l).

Lemma final_snoc p l x : final p (l ++ [x]) = x.
Proof. unfold final. by rewrite last_snoc. Qed.
Lemma final_cons p x l : final p (x :: l) = final x l.
Proof. unfold final. rewrite last_cons. by destruct (last l). Qed.

(** The links of [l], between [p] on the left and [n] on the right. *)
Fixpoint dseg (V : Blocks) (p : Z) (l : list Z) (n : Z) : Prop :=
  match l with
  | [] => True
  | x :: l => (exists f, V !! x = Some f /\ fnp f = p /\ fnn f = first l n) /\ dseg V x l n
  end.

Lemma dseg_app V l1 : forall p l2 n,
  dseg V p (l1 ++ l2) n <-> dseg V p l1 (first l2 n) /\ dseg V (final p l1) l2 n.
Proof.
  induction l1 as [|x l1 IH]; intros p l2 n; [cbn; tauto|]. rewrite final_cons. cbn [app dseg].
  rewrite IH. replace (first (l1 ++ l2) n) with (first l1 (first l2 n)) by (by destruct l1). tauto.
Qed.

(** Only the links of its elements matter. *)
Lemma dseg_ext V V' l : forall p n,
  (forall x f, x ∈ l -> V !! x = Some f -> exists f', V' !! x = Some f' /\ fnp f' = fnp f /\ fnn f' = fnn f) ->
  dseg V p l n -> dseg V' p l n.
Proof.
  induction l as [|x l IH]; intros p n Hx; [done|]. cbn [dseg]. intros [(f & E & H1 & H2) Hl]. split.
  - destruct (Hx x f) as (f' & E' & H3 & H4); [set_solver|done|]. exists f'. split; [done|]. by rewrite H3, H4.
  - apply IH; [|done]. intros y g Hy. apply Hx. set_solver.
Qed.

Lemma dseg_alter V w x l p n :
  (forall f, fnp (w f) = fnp f) -> (forall f, fnn (w f) = fnn f) ->
  dseg V p l n -> dseg (alter w x V) p l n.
Proof.
  intros H1 H2. apply dseg_ext. intros y f _ E. destruct (decide (x = y)) as [->|Hne].
  - exists (w f). rewrite lookup_alter_eq, E. by split; [|split].
  - exists f. by rewrite lookup_alter_ne.
Qed.

Lemma dseg_alter_out V w x l p n : x ∉ l -> dseg V p l n -> dseg (alter w x V) p l n.
Proof.
  intros Hx. apply dseg_ext. intros y f Hy E. exists f. split; [|done].
  rewrite lookup_alter_ne; [done|]. intros ->. done.
Qed.

(** Redirecting the right end and the left end. *)
Lemma dseg_set_right V l x p n n' :
  x ∉ l -> dseg V p (l ++ [x]) n -> dseg (alter (w_nn n') x V) p (l ++ [x]) n'.
Proof.
  intros Hx. rewrite !dseg_app. cbn [dseg first]. intros [H1 [(f & E & H2 & H3) _]].
  split; [by apply dseg_alter_out|]. split; [|done]. exists (w_nn n' f). by rewrite lookup_alter_eq, E.
Qed.

Lemma dseg_set_left V l x p n p' :
  x ∉ l -> dseg V p (x :: l) n -> dseg (alter (w_np p') x V) p' (x :: l) n.
Proof.
  intros Hx. cbn [dseg]. intros [(f & E & H1 & H2) Hl]. split; [|by apply dseg_alter_out].
  exists (w_np p' f). by rewrite lookup_alter_eq, E.
Qed.

Lemma dseg_is_Some V l : forall p n x, dseg V p l n -> x ∈ l -> is_Some (V !! x).
Proof.
  induction l as [|y l IH]; intros p n x; [set_solver|]. cbn. intros [(f & E & _) Hl] [->|Hx]%elem_of_cons; eauto.
Qed.

(** The headers are the same. *)
Definition hdr (f : Fields) : Z * Z * Z * bool := (fmagic f, fsize f, fprev f, ffree f).
Definition same_hdr (V V' : Blocks) : Prop := forall a, hdr <$> V' !! a = hdr <$> V !! a.

#[global] Instance same_hdr_equiv : Equivalence same_hdr.
Proof. unfold same_hdr. split; red; intros; [done|congruence|congruence]. Qed.

Lemma same_hdr_alter w b V : (forall f, hdr (w f) = hdr f) -> same_hdr V (alter w b V).
Proof.
  intros Hw a. destruct (decide (b = a)) as [->|Hne]; [|by rewrite lookup_alter_ne].
  rewrite lookup_alter_eq. destruct (V !! a); cbn; [by rewrite Hw|done].
Qed.

Lemma same_hdr_Some V V' a f : same_hdr V V' -> V !! a = Some f -> exists f', V' !! a = Some f' /\ hdr f' = hdr f.
Proof. intros H E. specialize (H a). rewrite E in H. by apply fmap_Some_1 in H as (f' & ? & ?); eauto. Qed.

Lemma same_hdr_is_Some V V' a : same_hdr V V' -> is_Some (V !! a) -> is_Some (V' !! a).
Proof. intros H [f E]. destruct (same_hdr_Some V V' a f H E) as (f' & E' & _). eauto. Qed.

(** Bytes that are not among the links of the blocks of [L]. *)
Definition no_link (L : list Z) (x : Z) : Prop := forall c, c ∈ L -> x < c + 16 \/ c + 24 <= x.

Lemma agree_trans P m1 m2 m3 : mem_agree P m1 m2 -> mem_agree P m2 m3 -> mem_agree P m1 m3.
Proof. intros H1 H2 x Hx. rewrite H2, H1 by done. done. Qed.
Lemma agree_refl P m : mem_agree P m m.
Proof. done. Qed.

Lemma agree_NodePrev L v b m : b ∈ L -> mem_agree (no_link L) m (set_NodePrev v b m).
Proof. intros Hb x Hx. specialize (Hx b Hb). apply load8_store32_ne. lia. Qed.
Lemma agree_NodeNext L v b m : b ∈ L -> mem_agree (no_link L) m (set_NodeNext v b m).
Proof. intros Hb x Hx. specialize (Hx b Hb). apply load8_store32_ne. lia. Qed.

(** The links and the head, with the blocks of the list between the two ends. *)
Record linked (h : Heap) (V : Blocks) (F : list Z) : Prop := {
  l_rep : hrep (hmem h) V;
  l_links : dseg V 0 F 0;
  l_head : FreeListHead h = first F 0;
  l_sorted : StronglySorted Z.lt F;
  l_addr : forall x, x ∈ F -> 0 < x < 4294967296 }.

(** Everything of the heap but memory and the head of the list. *)
Definition same_rest (h h' : Heap) : Prop :=
  HeapSegments h' = HeapSegments h /\ HeapSegmentTable h' = HeapSegmentTable h /\
  HeapSegmentCount h' = HeapSegmentCount h /\ hpmm h' = hpmm h.

#[global] Instance same_rest_equiv : Equivalence same_rest.
Proof. unfold same_rest. split; red; intros; intuition congruence. Qed.

Lemma sorted_app_split l1 (x : Z) l2 :
  StronglySorted Z.lt (l1 ++ x :: l2) -> (x ∉ l1) /\ (x ∉ l2) /\ StronglySorted Z.lt (l1 ++ l2).
Proof.
  induction l1 as [|y l1 IH]; cbn [app]; intros HS; inversion HS as [|? ? HS' HF]; subst.
  - rewrite Forall_forall in HF. split; [set_solver|]. split; [|done]. intros Hx. specialize (HF x Hx). lia.
  - destruct (IH HS') as (H1 & H2 & H3). rewrite Forall_app, Forall_cons in HF.
    destruct HF as (HF1 & Hyx & HF2). split; [|split; [done|]].
    + rewrite not_elem_of_cons. split; [lia|done].
    + constructor; [done|]. by apply Forall_app.
Qed.

Lemma first_zero l : (forall x, x ∈ l -> 0 < x < 4294967296) -> first l 0 = 0 -> l = [].
Proof. destruct l as [|x l]; [done|]. cbn. intros H ->. specialize (H 0). set_solver by lia. Qed.

Lemma final_cases p l : (l = [] /\ final p l = p) \/ exists l' x, l = l' ++ [x] /\ final p l = x.
Proof.
  destruct l as [|y l] using rev_ind; [by left|]. right. exists l, y. by rewrite final_snoc.
Qed.

Section Remove.
Context (b : Z) (l1 l2 : list Z) (V : Blocks) (h : Heap) (HL : linked h V (l1 ++ b :: l2)).

(** The state after the left neighbour (or the head) has been redirected. *)
Lemma remove_left :
  let p := NodePrev (hmem h) b in
  let n := NodeNext (hmem h) b in
  let h1 := if negb (p =? 0) then on_mem (set_NodeNext n p) h else set_FreeListHead n h in
  exists V1, p = final 0 l1 /\ n = first l2 0 /\ hrep (hmem h1) V1 /\ same_hdr V V1 /\ same_rest h h1 /\
    mem_agree (no_link (l1 ++ b :: l2)) (hmem h) (hmem h1) /\
    FreeListHead h1 = first (l1 ++ l2) 0 /\
    dseg V1 0 l1 n /\ dseg V1 b l2 0 /\ V1 !! b = V !! b.
Proof.
  destruct HL as [HR HD HH HS HA]. destruct (sorted_app_split _ _ _ HS) as (Hb1 & Hb2 & HS').
  apply dseg_app in HD as [HD1 HD2]. cbn [dseg first] in HD1, HD2. destruct HD2 as [(f & Ef & Hp & Hn) HD2].
  destruct (hrep_get _ _ _ _ HR Ef) as (_ & _ & _ & _ & Ep & En).
  intros p n h1. assert (Hpe : p = final 0 l1) by (unfold p; congruence).
  assert (Hne : n = first l2 0) by (unfold n; congruence).
  assert (Hnu : is_u32 n).
  { rewrite Hne. destruct l2 as [|y l2']; cbn; [unfold is_u32; lia|]. pose proof (HA y ltac:(set_solver)).
    unfold is_u32. lia. }
  destruct (final_cases 0 l1) as [[-> E0]|(l1' & x & -> & Ex)].
  - assert (Eh : h1 = set_FreeListHead n h) by (unfold h1; by rewrite Hpe, E0).
    rewrite Eh. exists V. cbn [hmem FreeListHead set_FreeListHead app first].
    split; [done|]. split; [done|]. split; [done|]. split; [done|]. split; [done|]. split; [done|].
    split; [by rewrite Hne|]. done.
  - pose proof (HA x ltac:(set_solver)) as Hx.
    assert (Eh : h1 = on_mem (set_NodeNext n x) h).
    { unfold h1. rewrite Hpe, Ex, (proj2 (Z.eqb_neq x 0)) by lia. done. }
    assert (Hxs : is_Some (V !! x)) by (eapply dseg_is_Some; [exact HD1|set_solver]).
    assert (Hxb : x <> b) by set_solver.
    rewrite Eh. exists (alter (w_nn n) x V). cbn [hmem FreeListHead on_mem set_hmem].
    split; [done|]. split; [done|]. split; [by apply hrep_NodeNext|].
    split; [by apply same_hdr_alter|]. split; [done|]. split; [apply agree_NodeNext; set_solver|].
    split; [rewrite HH; by destruct l1'|].
    destruct (sorted_app_split l1' x l2) as (Hx1 & Hx2 & _); [by rewrite <- app_assoc in HS'|].
    split; [by eapply dseg_set_right|]. split; [by apply dseg_alter_out|]. by rewrite lookup_alter_ne.
Qed.
End Remove.

Lemma HeapListRemove_spec b l1 l2 V h :
  linked h V (l1 ++ b :: l2) ->
  exists V', linked (HeapListRemove b h) V' (l1 ++ l2) /\ same_hdr V V' /\
    same_rest h (HeapListRemove b h) /\
    mem_agree (no_link (l1 ++ b :: l2)) (hmem h) (hmem (HeapListRemove b h)).
Proof.
  intros HL. pose proof (remove_left b l1 l2 V h HL) as H1. cbv zeta in H1.
  unfold HeapListRemove. set (p := NodePrev (hmem h) b) in *. set (n := NodeNext (hmem h) b) in *.
  set (h1 := if negb (p =? 0) then _ else _) in *.
  destruct H1 as (V1 & Hp & Hn & HR1 & HV1 & Hh1 & Hm1 & Hf1 & HD1 & HD2 & Hb).
  destruct HL as [HR HD HH HS HA]. destruct (sorted_app_split _ _ _ HS) as (Hb1 & Hb2 & HS').
  apply dseg_app in HD as [_ [(f & Ef & _) _]]. rewrite Ef in Hb.
  destruct (hrep_get _ _ _ _ HR Ef) as (_ & _ & _ & _ & Ep & En).
  destruct (hrep_get _ _ _ _ HR1 Hb) as (_ & _ & _ & _ & Ep1 & En1).
  replace (NodeNext (hmem h1) b) with n by (unfold n; congruence).
  replace (NodePrev (hmem h1) b) with p by (unfold p; congruence).
  set (h2 := if negb (n =? 0) then _ else _).
  assert (H2 : exists V2, hrep (hmem h2) V2 /\ same_hdr V1 V2 /\ same_rest h1 h2 /\
    mem_agree (no_link (l1 ++ b :: l2)) (hmem h1) (hmem h2) /\ FreeListHead h2 = FreeListHead h1 /\
    dseg V2 0 (l1 ++ l2) 0 /\ is_Some (V2 !! b)).
  { unfold h2. rewrite Hn. destruct l2 as [|y l2']; cbn [first negb Z.eqb].
    - exists V1. repeat (split; [done|]). rewrite app_nil_r. rewrite Hn in HD1. by rewrite Hb.
    - pose proof (HA y ltac:(set_solver)). rewrite (proj2 (Z.eqb_neq y 0)) by lia. cbn [negb].
      cbn [hmem FreeListHead on_mem set_hmem]. exists (alter (w_np p) y V1).
      assert (is_Some (V1 !! y)) by (eapply dseg_is_Some; [exact HD2|set_solver]).
      assert (Hpu : is_u32 p).
      { rewrite Hp. destruct (final_cases 0 l1) as [[_ ->]|(l' & x & -> & ->)]; [unfold is_u32; lia|].
        pose proof (HA x ltac:(set_solver)). unfold is_u32. lia. }
      destruct (sorted_app_split l1 y l2' HS') as (Hy1 & Hy2 & _).
      split; [by apply hrep_NodePrev|]. split; [by apply same_hdr_alter|]. split; [done|].
      split; [apply agree_NodePrev; set_solver|]. split; [done|].
      split; [|rewrite lookup_alter_ne by set_solver; by rewrite Hb].
      apply dseg_app. rewrite <- Hp. cbn [first]. rewrite Hn in HD1. cbn [first] in HD1.
      split; [by apply dseg_alter_out|by eapply dseg_set_left]. }
  destruct H2 as (V2 & HR2 & HV2 & Hh2 & Hm2 & Hf2 & HD & Hbs). clearbody h2. clear -HR2 HV2 Hh2 Hm2 Hf2 HD Hbs
    HV1 Hh1 Hm1 Hf1 HS' Hb1 Hb2 HA.
  exists (alter (w_nn 0) b (alter (w_np 0) b V2)).
  assert (Hb12 : b ∉ l1 ++ l2) by set_solver.
  split; [split|split; [|split]].
  - apply hrep_NodeNext; [unfold is_u32; lia|by rewrite lookup_alter_is_Some|].
    apply hrep_NodePrev; [unfold is_u32; lia|done|done].
  - apply dseg_alter_out; [done|]. by apply dseg_alter_out.
  - cbn. by rewrite Hf2.
  - done.
  - set_solver.
  - etrans; [exact HV1|]. etrans; [exact HV2|]. etrans; [|by apply same_hdr_alter]. by apply same_hdr_alter.
  - etrans; [exact Hh1|]. exact Hh2.
  - eapply agree_trans; [exact Hm1|]. eapply agree_trans; [exact Hm2|].
    eapply agree_trans; [apply (agree_NodePrev _ 0 b); set_solver|apply (agree_NodeNext _ 0 b); set_solver].
Qed.

(** ** Insertion *)

(** The part of the list below an address, and the rest. *)
Fixpoint below (b : Z) (l : list Z) : list Z :=
  match l with [] => [] | x :: l => if x <? b then x :: below b l else [] end.
Fixpoint above (b : Z) (l : list Z) : list Z :=
  match l with [] => [] | x :: l' => if x <? b then above b l' else l end.

Lemma below_above b l : below b l ++ above b l = l.
Proof. induction l as [|x l IH]; [done|]. cbn. case_match; cbn; [by rewrite IH|done]. Qed.

Definition insert_sorted (b : Z) (l : list Z) : list Z := below b l ++ b :: above b l.

Lemma elem_of_insert_sorted b l x : x ∈ insert_sorted b l <-> x = b \/ x ∈ l.
Proof. unfold insert_sorted. rewrite <- (below_above b l) at 3. set_solver. Qed.

Lemma length_insert_sorted b l : length (insert_sorted b l) = S (length l).
Proof.
  unfold insert_sorted. rewrite length_app. cbn. rewrite <- (below_above b l) at 3. rewrite length_app. lia.
Qed.

Lemma insert_sorted_sorted b l :
  StronglySorted Z.lt l -> b ∉ l -> StronglySorted Z.lt (insert_sorted b l).
Proof.
  unfold insert_sorted. induction l as [|x l IH]; intros HS Hb; cbn; [by repeat constructor|].
  inversion HS as [|? ? HS' HF]; subst. destruct (Z.ltb_spec x b) as [Hlt|Hge]; cbn.
  - constructor; [by apply IH; [|set_solver]|]. rewrite Forall_app, Forall_cons.
    rewrite <- (below_above b l), Forall_app in HF. tauto.
  - constructor; [done|]. assert (b < x) by (assert (b <> x) by set_solver; lia).
    constructor; [done|]. eapply Forall_impl; [exact HF|]. cbn. lia.
Qed.

Lemma insert_loop b V m : hrep m V -> forall l fuel p,
  (forall x, x ∈ l -> 0 < x < 4294967296) -> dseg V p l 0 -> (length l < fuel)%nat ->
  loop fuel (fun '(cur, prev) =>
    if negb (cur =? 0) && (cur <? b) then Some (inl (NodeNext m cur, cur))
    else Some (inr (cur, prev))) (first l 0, p) = Some (first (above b l) 0, final p (below b l)).
Proof.
  intros HR l. induction l as [|x l IH]; intros fuel p HA HD Hf; destruct fuel as [|fuel];
    try (cbn in Hf; lia); rewrite loop_unfold.
  - done.
  - cbn [first]. pose proof (HA x ltac:(set_solver)). rewrite (proj2 (Z.eqb_neq x 0)) by lia.
    cbn [negb andb below above]. destruct (x <? b) eqn:E; [|done].
    cbn [dseg] in HD. destruct HD as [(f & Ef & _ & Hn) HD].
    destruct (hrep_get _ _ _ _ HR Ef) as (_ & _ & _ & _ & _ & ->). rewrite Hn, final_cons.
    apply IH; [intros y Hy; apply HA; set_solver|done|cbn in Hf; lia].
Qed.

(** The left neighbour (or the head) and then the right neighbour are led to
    the new block, whose own links are set. *)
Lemma insert_left b l1 l2 p c h0 V0 F :
  F = l1 ++ l2 -> p = final 0 l1 -> (forall x, x ∈ F -> 0 < x < 4294967296) -> 0 < b < 4294967296 ->
  b ∉ l1 -> StronglySorted Z.lt F -> hrep (hmem h0) V0 -> FreeListHead h0 = first F 0 ->
  dseg V0 0 l1 c -> dseg V0 p l2 0 -> (exists f, V0 !! b = Some f /\ fnp f = p /\ fnn f = c) ->
  exists h1 V1,
    (if negb (p =? 0) then on_mem (set_NodeNext b p) h0 else set_FreeListHead b h0) = h1 /\
    hrep (hmem h1) V1 /\ same_hdr V0 V1 /\ same_rest h0 h1 /\
    mem_agree (no_link (b :: F)) (hmem h0) (hmem h1) /\ FreeListHead h1 = first (l1 ++ b :: l2) 0 /\
    dseg V1 0 l1 b /\ dseg V1 p l2 0 /\ (exists f, V1 !! b = Some f /\ fnp f = p /\ fnn f = c).
Proof.
  intros -> Hp HA Hbr Hb1 HS HR HH HD1 HD2 Hb. rewrite Hp in *. clear Hp p.
  destruct (final_cases 0 l1) as [[-> E0]|(l1' & x & -> & Ex)].
  - rewrite E0. eexists _, V0. split; [done|]. cbn. by rewrite E0 in *.
  - rewrite Ex in *. pose proof (HA x ltac:(set_solver)). rewrite (proj2 (Z.eqb_neq x 0)) by lia. cbn [negb].
    assert (is_Some (V0 !! x)) by (eapply dseg_is_Some; [exact HD1|set_solver]).
    destruct (sorted_app_split l1' x l2) as (Hx1 & Hx2 & _); [by rewrite <- app_assoc in HS|].
    eexists _, (alter (w_nn b) x V0). split; [done|]. cbn [hmem FreeListHead on_mem set_hmem].
    split; [apply hrep_NodeNext; [unfold is_u32; lia|done|done]|]. split; [by apply same_hdr_alter|].
    split; [done|]. split; [apply agree_NodeNext; set_solver|]. split; [rewrite HH; by destruct l1'|].
    split; [by eapply dseg_set_right|]. split; [by apply dseg_alter_out|].
    rewrite lookup_alter_ne by set_solver. done.
Qed.

Lemma insert_right b l1 l2 p c h1 V1 F :
  F = l1 ++ l2 -> p = final 0 l1 -> c = first l2 0 -> (forall x, x ∈ F -> 0 < x < 4294967296) ->
  0 < b < 4294967296 -> b ∉ F -> StronglySorted Z.lt F -> hrep (hmem h1) V1 ->
  dseg V1 0 l1 b -> dseg V1 p l2 0 -> (exists f, V1 !! b = Some f /\ fnp f = p /\ fnn f = c) ->
  exists h2 V2,
    (if negb (c =? 0) then on_mem (set_NodePrev b c) h1 else h1) = h2 /\
    hrep (hmem h2) V2 /\ same_hdr V1 V2 /\ same_rest h1 h2 /\
    mem_agree (no_link (b :: F)) (hmem h1) (hmem h2) /\ FreeListHead h2 = FreeListHead h1 /\
    dseg V2 0 (l1 ++ b :: l2) 0.
Proof.
  intros -> Hp Hc HA Hbr HbF HS HR HD1 HD2 (f & Ef & Hfp & Hfn).
  destruct l2 as [|y l2']; cbn [first] in Hc.
  - rewrite Hc. eexists _, V1. split; [done|]. repeat (split; [done|]). apply dseg_app. split; [done|].
    cbn. split; [|done]. exists f. split; [done|]. split; congruence.
  - rewrite Hc. pose proof (HA y ltac:(set_solver)). rewrite (proj2 (Z.eqb_neq y 0)) by lia. cbn [negb].
    assert (is_Some (V1 !! y)) by (eapply dseg_is_Some; [exact HD2|set_solver]).
    destruct (sorted_app_split l1 y l2') as (Hy1 & Hy2 & _); [done|].
    eexists _, (alter (w_np b) y V1). split; [done|]. cbn [hmem FreeListHead on_mem set_hmem].
    split; [apply hrep_NodePrev; [unfold is_u32; lia|done|done]|]. split; [by apply same_hdr_alter|].
    split; [done|]. split; [apply agree_NodePrev; set_solver|]. split; [done|].
    apply dseg_app. cbn [first]. split; [by apply dseg_alter_out|].
    rewrite <- Hp. change (y :: l2') with ([] ++ y :: l2'). cbn [dseg app]. split.
    + exists f. rewrite lookup_alter_ne by set_solver. split; [done|]. split; cbn; congruence.
    + by apply (dseg_set_left V1 l2' y p 0 b).
Qed.

Lemma HeapListInsert_spec fuel b V h F :
  linked h V F -> is_Some (V !! b) -> b ∉ F -> 0 < b < 4294967296 -> (length F < fuel)%nat ->
  exists h' V', HeapListInsert fuel b h = Some h' /\ linked h' V' (insert_sorted b F) /\
    same_hdr V V' /\ same_rest h h' /\ mem_agree (no_link (b :: F)) (hmem h) (hmem h').
Proof.
  intros [HR HD HH HS HA] Hbs Hb Hbr Hf. unfold HeapListInsert. rewrite HH.
  rewrite (insert_loop b V _ HR F fuel 0 HA HD Hf), some_bind.
  set (l1 := below b F). set (l2 := above b F).
  assert (EF : F = l1 ++ l2) by (symmetry; apply below_above).
  assert (EI : insert_sorted b F = l1 ++ b :: l2) by done. clearbody l1 l2.
  assert (Hb1 : b ∉ l1) by set_solver. assert (Hb2 : b ∉ l2) by set_solver.
  set (c := first l2 0). set (p := final 0 l1). rewrite EF in HD. apply dseg_app in HD as [HD1 HD2].
  fold c in HD1. fold p in HD2.
  assert (Hcu : is_u32 c).
  { unfold c. destruct l2 as [|y l2']; cbn; [unfold is_u32; lia|].
    pose proof (HA y ltac:(set_solver)). unfold is_u32. lia. }
  assert (Hpu : is_u32 p).
  { unfold p. destruct (final_cases 0 l1) as [[_ ->]|(l' & x & E & ->)]; [unfold is_u32; lia|].
    pose proof (HA x ltac:(set_solver)). unfold is_u32. lia. }
  set (h0 := on_mem (set_NodeNext c b) (on_mem (set_NodePrev p b) h)).
  set (V0 := alter (w_nn c) b (alter (w_np p) b V)).
  assert (HR0 : hrep (hmem h0) V0).
  { apply hrep_NodeNext; [done|by rewrite lookup_alter_is_Some|]. by apply hrep_NodePrev. }
  assert (HV0 : same_hdr V V0) by (etrans; by apply same_hdr_alter).
  assert (Hm0 : mem_agree (no_link (b :: F)) (hmem h) (hmem h0)).
  { eapply agree_trans; [apply (agree_NodePrev _ p b); set_solver|apply (agree_NodeNext _ c b); set_solver]. }
  assert (Hb0 : exists f, V0 !! b = Some f /\ fnp f = p /\ fnn f = c).
  { destruct Hbs as [f Ef]. exists (w_nn c (w_np p f)). unfold V0. by rewrite !lookup_alter_eq, Ef. }
  assert (HD10 : dseg V0 0 l1 c) by by apply dseg_alter_out, dseg_alter_out.
  assert (HD20 : dseg V0 p l2 0) by by apply dseg_alter_out, dseg_alter_out.
  assert (HH0 : FreeListHead h0 = first F 0) by exact HH. assert (Hr0 : same_rest h h0) by done.
  destruct (insert_left b l1 l2 p c h0 V0 F) as (h1 & V1 & E1 & HR1 & HV1 & Hr1 & Hm1 & HH1 & HD11 & HD21 & Hb1');
    [done..|]. rewrite E1.
  destruct (insert_right b l1 l2 p c h1 V1 F) as (h2 & V2 & E2 & HR2 & HV2 & Hr2 & Hm2 & HH2 & HD2');
    [done..|]. rewrite E2. exists h2, V2. split; [done|].
  split; [split; [done|by rewrite EI|rewrite EI; congruence|by apply insert_sorted_sorted|]|].
  { intros x [->|Hx]%elem_of_insert_sorted; [done|by apply HA]. }
  split; [by etrans; [|etrans]|]. split; [by etrans; [|etrans]|].
  by eapply agree_trans; [|eapply agree_trans].
Qed.
