(* ===== verification/HeapTiling.v ===== *)
(** * Segments tiled by blocks

    What the headers say of the layout: every segment is cut into blocks, each
    of which knows its size and the size of the block before it. Splitting and
    merging keep this. [X] is the one block whose PrevSize may be stale while a
    neighbour changes; 0 is none. *)

From S2P Require Import Prelude PageAlloc Heap HeapInv.

Definition left_ok (V : Blocks) (X lo a : Z) (f : Fields) : Prop :=
  (a = lo /\ fprev f = 0) \/
  (lo < a /\ (a <> X -> 0 < fprev f /\ exists g, V !! (a - fprev f) = Some g /\ fsize g = fprev f)).

Definition right_ok (V : Blocks) (X hi a : Z) (f : Fields) : Prop :=
  a + fsize f = hi \/
  exists g, V !! (a + fsize f) = Some g /\ (a + fsize f <> X -> fprev g = fsize f).

Record tiling (X : Z) (V : Blocks) (S : list (Z * Z)) : Prop := {
  t_seg : forall lo hi, (lo, hi) ∈ S -> 0 < lo /\ lo < hi /\ hi < 4294967296 /\ lo mod 4096 = 0 /\ hi mod 4096 = 0;
  t_disj : forall i j lo hi lo' hi', i <> j -> S !! i = Some (lo, hi) -> S !! j = Some (lo', hi') ->
           hi <= lo' \/ hi' <= lo;
  t_blk : forall a f, V !! a = Some f ->
          fmagic f = HEAP_MAGIC /\ 24 <= fsize f /\ fsize f mod 8 = 0 /\ a mod 8 = 0;
  t_in : forall a f, V !! a = Some f -> exists lo hi, (lo, hi) ∈ S /\ lo <= a /\ a + fsize f <= hi /\
         left_ok V X lo a f /\ right_ok V X hi a f;
  t_sep : forall a b f g, a < b -> V !! a = Some f -> V !! b = Some g -> a + fsize f <= b;
  t_first : forall lo hi, (lo, hi) ∈ S -> is_Some (V !! lo) }.

(** The segment around an address is unique. *)
Lemma seg_unique X V S lo hi lo' hi' a :
  tiling X V S -> (lo, hi) ∈ S -> (lo', hi') ∈ S -> lo <= a < hi -> lo' <= a < hi' -> lo = lo' /\ hi = hi'.
Proof.
  intros T (i & Hi)%list_elem_of_lookup (j & Hj)%list_elem_of_lookup H1 H2.
  destruct (decide (i = j)) as [->|Hne]; [by simplify_eq|].
  destruct (t_disj _ _ _ T _ _ _ _ _ _ Hne Hi Hj); lia.
Qed.

Lemma blk_in X V S a f lo hi :
  tiling X V S -> V !! a = Some f -> (lo, hi) ∈ S -> lo <= a < hi ->
  a + fsize f <= hi /\ left_ok V X lo a f /\ right_ok V X hi a f.
Proof.
  intros T E Hs Ha. destruct (t_in _ _ _ T a f E) as (lo' & hi' & Hs' & H1 & H2 & H3 & H4).
  destruct (t_blk _ _ _ T a f E) as (_ & Hsz & _).
  destruct (seg_unique _ _ _ lo hi lo' hi' a T) as [-> ->]; [done|done|done|lia|done].
Qed.

Lemma blk_range X V S a f :
  tiling X V S -> V !! a = Some f -> 0 < a /\ a + fsize f < 4294967296 /\ 24 <= fsize f.
Proof.
  intros T E. destruct (t_in _ _ _ T a f E) as (lo & hi & Hs & H1 & H2 & _).
  pose proof (t_seg _ _ _ T lo hi Hs). destruct (t_blk _ _ _ T a f E) as (_ & ? & _). lia.
Qed.

Lemma tiling_far X V S : tiling X V S -> far V.
Proof.
  intros T a b Hab [f E] [g G]. unfold apart.
  pose proof (blk_range _ _ _ _ _ T E). pose proof (blk_range _ _ _ _ _ T G).
  destruct (Z.lt_total a b) as [Hl|[Hl|Hl]]; [|done|].
  - pose proof (t_sep _ _ _ T a b f g Hl E G). lia.
  - pose proof (t_sep _ _ _ T b a g f Hl G E). lia.
Qed.

Lemma tiling_weaken X V S : tiling 0 V S -> tiling X V S.
Proof.
  intros T. pose proof T as [T1 T2 T3 T4 T5 T6]. split; try done. intros a f E.
  destruct (T4 a f E) as (lo & hi & Hs & H1 & H2 & H3 & H4). pose proof (blk_range _ _ _ _ _ T E).
  exists lo, hi. do 3 (split; [done|]). split; [destruct H3 as [?|[? H3]]; [by left|right; split; [done|intros _; apply H3; lia]]|].
  destruct H4 as [H4|(g & G & H4)]; [by left|right]. exists g. split; [done|]. intros _. apply H4. lia.
Qed.

(** Only sizes, previous sizes and magic numbers matter. *)
Definition shape (f : Fields) : Z * Z * Z := (fmagic f, fsize f, fprev f).
Definition same_shape (V V' : Blocks) : Prop := forall a, shape <$> V' !! a = shape <$> V !! a.

Lemma same_shape_Some V V' a f :
  same_shape V V' -> V !! a = Some f -> exists f', V' !! a = Some f' /\ shape f' = shape f.
Proof. intros H E. specialize (H a). rewrite E in H. apply fmap_Some_1 in H as (f' & ? & ?). eauto. Qed.

Lemma tiling_shape X V V' S : same_shape V V' -> tiling X V S -> tiling X V' S.
Proof.
  intros H [T1 T2 T3 T4 T5 T6].
  assert (Hb : forall a f', V' !! a = Some f' -> exists f, V !! a = Some f /\ shape f = shape f').
  { intros a f' E. apply (same_shape_Some V' V a f'); [intros x; by rewrite H|done]. }
  assert (Hf : forall a f, V !! a = Some f -> exists f', V' !! a = Some f' /\ shape f' = shape f).
  { intros a f. by apply same_shape_Some. }
  split; [done|done| | | |].
  - intros a f' E. destruct (Hb a f' E) as (f & Ef & [= E1 E2 E3]). rewrite <- E1, <- E2. by apply T3.
  - intros a f' E. destruct (Hb a f' E) as (f & Ef & [= E1 E2 E3]).
    destruct (T4 a f Ef) as (lo & hi & Hs & H1 & H2 & H3 & H4). exists lo, hi.
    split; [done|]. split; [done|]. split; [lia|]. unfold left_ok, right_ok in *. rewrite <- E2, <- E3. split.
    + destruct H3 as [?|[? H3]]; [by left|right]. split; [done|]. intros HX.
      destruct (H3 HX) as (? & g & G & Hg). split; [done|].
      destruct (Hf _ _ G) as (g' & G' & [=]). exists g'. split; [done|congruence].
    + destruct H4 as [?|(g & G & Hg)]; [by left|right]. destruct (Hf _ _ G) as (g' & G' & [= F1 F2 F3]).
      exists g'. split; [done|]. by rewrite F3.
  - intros a b f' g' Hab E G. destruct (Hb a f' E) as (f & Ef & [= E1 E2 E3]).
    destruct (Hb b g' G) as (g & Eg & _). rewrite <- E2. by eapply T5.
  - intros lo hi Hs. destruct (T6 lo hi Hs) as [f Ef]. destruct (Hf _ _ Ef) as (f' & ? & _). by exists f'.
Qed.

Lemma tiling_hdr X V V' S : same_hdr V V' -> tiling X V S -> tiling X V' S.
Proof.
  intros H. apply tiling_shape. intros a. specialize (H a).
  destruct (V !! a), (V' !! a); cbn in *; try done. unfold hdr, shape in *. congruence.
Qed.

(** Changing the free flag. *)
Lemma tiling_free X V S b v : tiling X V S -> tiling X (alter (w_free v) b V) S.
Proof.
  apply tiling_shape. intros a. destruct (decide (b = a)) as [->|Hne].
  - rewrite lookup_alter_eq. by destruct (V !! a).
  - by rewrite lookup_alter_ne.
Qed.

(** ** Stamping, merging, splitting *)

(** The end of a segment is no block inside another one. *)
Lemma tiling_end X V S lo hi : (lo, hi) ∈ S -> X = hi -> tiling X V S -> tiling 0 V S.
Proof.
  intros Hs -> T. pose proof T as [T1 T2 T3 T4 T5 T6]. split; try done. intros a f E.
  destruct (T4 a f E) as (lo' & hi' & Hs' & H1 & H2 & H3 & H4). pose proof (blk_range _ _ _ _ _ T E).
  pose proof (T1 _ _ Hs) as Hw.
  assert (Hno : ~ (lo' < hi < hi')).
  { intros Hin. destruct (seg_unique _ _ _ lo hi lo' hi' (Z.max lo lo') T) as [-> ->]; [done|done|lia|lia|lia]. }
  exists lo', hi'. do 3 (split; [done|]). split.
  - destruct H3 as [?|[? H3]]; [by left|right]. split; [done|]. intros _. apply H3. lia.
  - destruct (decide (a + fsize f = hi')) as [E'|E']; [by left|].
    destruct H4 as [?|(g & G & H4)]; [by left|right]. exists g. split; [done|]. intros _. apply H4. lia.
Qed.

(** The block after [b] learns the size of [b]. *)
Lemma tiling_stamp V S b f lo hi :
  V !! b = Some f -> (lo, hi) ∈ S -> lo <= b -> b + fsize f < hi -> tiling (b + fsize f) V S ->
  tiling 0 (alter (w_prev (fsize f)) (b + fsize f) V) S.
Proof.
  intros Eb Hs Hlo Hhi T. pose proof (blk_range _ _ _ _ _ T Eb) as Hb. set (X := b + fsize f) in *.
  pose proof T as [T1 T2 T3 T4 T5 T6]. set (V' := alter _ X V).
  assert (Hlk : forall a g', V' !! a = Some g' -> exists g, V !! a = Some g /\ fmagic g' = fmagic g /\
    fsize g' = fsize g /\ fprev g' = if decide (a = X) then fsize f else fprev g).
  { intros a g'. unfold V'. destruct (decide (a = X)) as [->|Hne].
    - rewrite lookup_alter_eq. intros (g & E & ->)%fmap_Some. by exists g.
    - rewrite lookup_alter_ne by done. intros E. by exists g'. }
  assert (Hup : forall a g, V !! a = Some g -> exists g', V' !! a = Some g' /\ fsize g' = fsize g /\
    fprev g' = if decide (a = X) then fsize f else fprev g).
  { intros a g E. unfold V'. destruct (decide (a = X)) as [->|Hne].
    - exists (w_prev (fsize f) g). by rewrite lookup_alter_eq, E.
    - exists g. by rewrite lookup_alter_ne. }
  split; [done|done| | | |].
  - intros a g' E. destruct (Hlk a g' E) as (g & Eg & E1 & E2 & _). rewrite E1, E2. by apply T3.
  - intros a g' E. destruct (Hlk a g' E) as (g & Eg & _ & E2 & E3).
    destruct (T4 a g Eg) as (lo' & hi' & Hs' & H1 & H2 & H3 & H4). exists lo', hi'.
    pose proof (blk_range _ _ _ _ _ T Eg) as Hg.
    split; [done|]. split; [done|]. split; [lia|]. unfold left_ok, right_ok. rewrite E2, E3. split.
    + case_decide as Ha.
      * subst a. destruct (seg_unique _ _ _ lo hi lo' hi' X T) as [<- <-]; [done|done|lia|lia|].
        right. split; [lia|]. intros _. split; [lia|].
        destruct (Hup b f Eb) as (f' & Ef' & Hsz & _). exists f'.
        replace (X - fsize f) with b by lia. done.
      * destruct H3 as [?|[? H3]]; [by left|right]. split; [done|]. intros _.
        destruct (H3 Ha) as (? & k & Ek & Hk). split; [done|].
        destruct (Hup _ k Ek) as (k' & Ek' & Hk' & _). exists k'. split; [done|lia].
    + destruct H4 as [?|(k & Ek & Hk)]; [by left|right].
      destruct (Hup _ k Ek) as (k' & Ek' & _ & Hp). exists k'. split; [done|]. intros _. rewrite Hp.
      case_decide as Ha; [|by apply Hk].
      destruct (Z.lt_total a b) as [Hl|[->|Hl]].
      -- pose proof (T5 a b g f Hl Eg Eb). lia.
      -- congruence.
      -- pose proof (T5 b a f g Hl Eb Eg). lia.
  - intros a c g' k' Hac E G. destruct (Hlk a g' E) as (g & Eg & _ & E2 & _).
    destruct (Hlk c k' G) as (k & Ek & _). rewrite E2. by eapply T5.
  - intros lo' hi' Hs'. destruct (T6 lo' hi' Hs') as [k Ek]. destruct (Hup _ _ Ek) as (k' & ? & _). by exists k'.
Qed.

(** [b] swallows the block [n] after it. *)
Lemma tiling_merge X V S b f g lo hi :
  let n := b + fsize f in
  V !! b = Some f -> V !! n = Some g -> (lo, hi) ∈ S -> lo <= b -> n < hi -> X = 0 \/ X = n ->
  tiling X V S ->
  tiling (n + fsize g) (delete n (alter (w_size (fsize f + fsize g)) b V)) S.
Proof.
  intros n Eb En Hs Hlo Hn HX T. pose proof T as [T1 T2 T3 T4 T5 T6].
  pose proof (blk_range _ _ _ _ _ T Eb) as Hb. pose proof (blk_range _ _ _ _ _ T En) as Hg.
  destruct (blk_in _ _ _ _ _ lo hi T En Hs) as (Hnhi & _ & Hnr); [lia|].
  destruct (blk_in _ _ _ _ _ lo hi T Eb Hs) as (_ & Hbl & _); [lia|].
  set (V' := delete n _).
  assert (Hlk : forall a k', V' !! a = Some k' -> a <> n /\ exists k, V !! a = Some k /\ fmagic k' = fmagic k /\
    fprev k' = fprev k /\ fsize k' = if decide (a = b) then fsize f + fsize g else fsize k).
  { intros a k'. unfold V'. rewrite lookup_delete_Some. intros [Hne E]. split; [done|].
    destruct (decide (a = b)) as [->|Hab].
    - rewrite lookup_alter_eq in E. apply fmap_Some in E as (k & E & ->). by exists k.
    - rewrite lookup_alter_ne in E by done. by exists k'. }
  assert (Hup : forall a k, V !! a = Some k -> a <> n -> exists k', V' !! a = Some k' /\ fprev k' = fprev k /\
    fsize k' = if decide (a = b) then fsize f + fsize g else fsize k).
  { intros a k E Hne. unfold V'. rewrite lookup_delete_ne by done. destruct (decide (a = b)) as [->|Hab].
    - exists (w_size (fsize f + fsize g) k). by rewrite lookup_alter_eq, E.
    - exists k. by rewrite lookup_alter_ne. }
  assert (Hbn : b <> n) by lia.
  split; [done|done| | | |].
  - intros a k' E. destruct (Hlk a k' E) as (Hne & k & Ek & E1 & _ & E2). rewrite E1, E2.
    destruct (T3 a k Ek) as (H1 & H2 & H3 & H4). split; [done|]. case_decide as Ha; [|done]. subst a. simplify_eq.
    destruct (T3 b f Eb) as (_ & ? & F3 & _). destruct (T3 n g En) as (_ & ? & G3 & _). split; [lia|].
    split; [|done]. rewrite Zplus_mod, F3, G3. done.
  - intros a k' E. destruct (Hlk a k' E) as (Hne & k & Ek & _ & E1 & E2).
    destruct (T4 a k Ek) as (lo' & hi' & Hs' & H1 & H2 & H3 & H4). exists lo', hi'.
    pose proof (blk_range _ _ _ _ _ T Ek) as Hk.
    split; [done|]. split; [done|]. unfold left_ok, right_ok. rewrite E1, E2.
    assert (HaX : a <> X) by (destruct HX; lia).
    assert (HL : (a = lo' /\ fprev k = 0) \/ lo' < a /\ (a <> n + fsize g -> 0 < fprev k /\
      exists k0, V' !! (a - fprev k) = Some k0 /\ fsize k0 = fprev k)).
    { destruct H3 as [?|[? H3]]; [by left|right]. split; [done|]. intros Hag.
      destruct (H3 HaX) as (Hp & k0 & Ek0 & Hk0). split; [done|].
      assert (Hkn : a - fprev k <> n).
      { intros Heq. rewrite Heq, En in Ek0. simplify_eq. lia. }
      destruct (Hup _ k0 Ek0 Hkn) as (k1 & Ek1 & _ & Hk1). exists k1. split; [done|]. rewrite Hk1.
      case_decide as Hab; [|done]. exfalso. rewrite Hab in Ek0. simplify_eq. lia. }
    case_decide as Ha.
    + subst a. simplify_eq.
      destruct (seg_unique _ _ _ lo hi lo' hi' b T) as [<- <-]; [done|done|lia|lia|].
      split; [lia|]. split; [done|].
      replace (b + (fsize f + fsize g)) with (n + fsize g) by lia.
      destruct Hnr as [Hnr|(k1 & Ek1 & Hk1)]; [by left|right].
      destruct (Hup _ k1 Ek1) as (k2 & Ek2 & _); [lia|]. by exists k2.
    + split; [done|]. split; [done|]. destruct H4 as [?|(k1 & Ek1 & Hk1)]; [by left|right].
      assert (Han : a + fsize k <> n).
      { intros Heq. destruct (Z.lt_total a b) as [Hl|[->|Hl]]; [|done|].
        - pose proof (T5 a b k f Hl Ek Eb). lia.
        - pose proof (T5 b a f k Hl Eb Ek). lia. }
      destruct (Hup _ k1 Ek1 Han) as (k2 & Ek2 & Hp & _). exists k2. split; [done|]. intros _. rewrite Hp.
      apply Hk1. destruct HX; lia.
  - intros a c k' j' Hac E G. destruct (Hlk a k' E) as (Hne & k & Ek & _ & _ & E2).
    destruct (Hlk c j' G) as (Hne' & j & Ej & _). rewrite E2. pose proof (blk_range _ _ _ _ _ T Ej).
    case_decide as Ha; [|by eapply T5]. subst a. simplify_eq.
    pose proof (T5 b c _ j Hac Eb Ej). destruct (Z.lt_total n c) as [Hl|[->|Hl]]; [|done|lia].
    pose proof (T5 n c g j Hl En Ej). lia.
  - intros lo' hi' Hs'. destruct (T6 lo' hi' Hs') as [k Ek]. destruct (Hup _ _ Ek) as (k' & ? & _); [|by exists k'].
    intros ->. pose proof (T1 _ _ Hs'). destruct (seg_unique _ _ _ lo hi n hi' n T) as [-> _]; [done|done|lia|lia|lia].
Qed.

(** [b] is cut after [T] bytes; [r] is the new block's fields. *)
Lemma tiling_split V S b f T r lo hi :
  V !! b = Some f -> (lo, hi) ∈ S -> lo <= b < hi -> tiling 0 V S ->
  24 <= T -> T + 24 <= fsize f -> T mod 8 = 0 ->
  fmagic r = HEAP_MAGIC -> fsize r = fsize f - T -> fprev r = T ->
  tiling (b + fsize f) (alter (w_size T) b (<[b + T := r]> V)) S.
Proof.
  intros Eb Hs Hlo HT HT1 HT2 HT8 R1 R2 R3. pose proof HT as [T1 T2 T3 T4 T5 T6].
  pose proof (blk_range _ _ _ _ _ HT Eb) as Hb.
  destruct (blk_in _ _ _ _ _ lo hi HT Eb Hs Hlo) as (Hbhi & Hbl & Hbr).
  set (V' := alter _ b _).
  assert (Hout : forall a k, V !! a = Some k -> a <> b -> a + fsize k <= b \/ b + fsize f <= a).
  { intros a k E Hne. destruct (Z.lt_total a b) as [Hl|[->|Hl]]; [|done|].
    - left. by eapply T5.
    - right. by eapply T5. }
  assert (Hlk : forall a k', V' !! a = Some k' -> (a = b + T /\ k' = r) \/ (a = b /\ k' = w_size T f) \/
    (a <> b /\ V !! a = Some k' /\ (a + fsize k' <= b \/ b + fsize f <= a))).
  { intros a k'. unfold V'. destruct (decide (a = b)) as [->|Hab].
    - rewrite lookup_alter_eq, lookup_insert_ne, Eb by lia. cbn. intros [= <-]. auto.
    - rewrite lookup_alter_ne by done. rewrite lookup_insert. case_decide; [intros [= <-]; auto|].
      intros E. right. right. split; [done|]. split; [done|]. by apply Hout. }
  assert (Hup : forall a k, V !! a = Some k -> exists k', V' !! a = Some k' /\ fprev k' = fprev k /\
    fsize k' = if decide (a = b) then T else fsize k).
  { intros a k E. unfold V'. destruct (decide (a = b)) as [->|Hab].
    - exists (w_size T k). by rewrite lookup_alter_eq, lookup_insert_ne, E by lia.
    - exists k. rewrite lookup_alter_ne by done. rewrite lookup_insert_ne; [done|].
      pose proof (blk_range _ _ _ _ _ HT E). destruct (Hout a k E Hab); lia. }
  assert (Hr : V' !! (b + T) = Some r).
  { unfold V'. rewrite lookup_alter_ne, lookup_insert_eq by lia. done. }
  split; [done|done| | | |].
  - intros a k' [[-> ->]|[[-> ->]|(_ & E & _)]]%Hlk; [| |by apply T3];
      destruct (T3 b f Eb) as (H1 & _ & H3 & H4).
    + split; [done|]. split; [lia|]. rewrite R2. split; [by rewrite Zminus_mod, H3, HT8|].
      by rewrite Zplus_mod, H4, HT8.
    + done.
  - intros a k' [[-> ->]|[[-> ->]|(Hab & E & Ho)]]%Hlk.
    + exists lo, hi. split; [done|]. split; [lia|]. split; [lia|]. split.
      * right. split; [lia|]. intros _. rewrite R3. split; [lia|]. replace (b + T - T) with b by lia.
        destruct (Hup b f Eb) as (k & Ek & _ & Hk). exists k. split; [done|]. by rewrite decide_True in Hk.
      * unfold right_ok. rewrite R2. replace (b + T + (fsize f - T)) with (b + fsize f) by lia.
        destruct Hbr as [?|(k & Ek & _)]; [by left|right]. destruct (Hup _ k Ek) as (k1 & Ek1 & _). by exists k1.
    + exists lo, hi. cbn [fsize w_size fprev]. split; [done|]. split; [lia|]. split; [lia|]. split.
      * destruct Hbl as [?|[? H3]]; [by left|right]. split; [done|]. intros _. cbn.
        destruct H3 as (? & k & Ek & Hk); [lia|]. split; [done|].
        destruct (Hup _ k Ek) as (k1 & Ek1 & _ & Hk1). exists k1. split; [done|]. rewrite Hk1, decide_False by lia. done.
      * right. exists r. done.
    + destruct (T4 a k' E) as (lo' & hi' & Hs' & H1 & H2 & H3 & H4). exists lo', hi'.
      pose proof (blk_range _ _ _ _ _ HT E) as Hk.
      split; [done|]. split; [done|]. split; [done|]. split.
      * destruct H3 as [?|[? H3]]; [by left|right]. split; [done|]. intros HX.
        destruct H3 as (? & k & Ek & Hsz); [lia|]. split; [done|].
        destruct (Hup _ k Ek) as (k1 & Ek1 & _ & Hk1). exists k1. split; [done|]. rewrite Hk1.
        case_decide as Hc; [|done]. exfalso. rewrite Hc in Ek. simplify_eq. lia.
      * destruct H4 as [?|(k & Ek & Hp)]; [by left|right]. destruct (Hup _ k Ek) as (k1 & Ek1 & Hp1 & _).
        exists k1. split; [done|]. intros _. rewrite Hp1. apply Hp. lia.
  - intros a c k' j' Hac E G. pose proof (blk_range _ _ _ _ _ HT Eb).
    apply Hlk in E as [[-> ->]|[[-> ->]|(Hab & E & Ho)]];
      apply Hlk in G as [[-> ->]|[[-> ->]|(Hcb & G & Ho')]]; cbn [fsize w_size]; try lia;
      try (pose proof (blk_range _ _ _ _ _ HT G); lia); try (pose proof (blk_range _ _ _ _ _ HT E); lia).
    by eapply T5.
  - intros lo' hi' Hs'. destruct (T6 lo' hi' Hs') as [k Ek]. destruct (Hup _ _ Ek) as (k' & ? & _). by exists k'.
Qed.

(** A new segment of one block. *)
Lemma tiling_new V S lo hi r :
  tiling 0 V S -> 0 < lo -> lo + 24 <= hi -> hi < 4294967296 -> lo mod 4096 = 0 -> hi mod 4096 = 0 ->
  (forall lo' hi', (lo', hi') ∈ S -> hi <= lo' \/ hi' <= lo) ->
  fmagic r = HEAP_MAGIC -> fsize r = hi - lo -> fprev r = 0 ->
  tiling 0 (<[lo := r]> V) (S ++ [(lo, hi)]).
Proof.
  intros T H1 H2 H3 H4 H5 Hd R1 R2 R3. pose proof T as [T1 T2 T3 T4 T5 T6].
  assert (Hout : forall a k, V !! a = Some k -> a + fsize k <= lo \/ hi <= a).
  { intros a k E. destruct (T4 a k E) as (lo' & hi' & Hs & ? & ? & _). destruct (Hd _ _ Hs); lia. }
  assert (Hup : forall a k, V !! a = Some k -> <[lo := r]> V !! a = Some k).
  { intros a k E. rewrite lookup_insert_ne; [done|]. pose proof (blk_range _ _ _ _ _ T E).
    destruct (Hout a k E); lia. }
  split.
  - intros lo' hi' [Hs|[= -> ->]%list_elem_of_singleton]%elem_of_app; [by apply T1|lia].
  - intros i j a b a' b' Hij Hi Hj. apply lookup_app_Some in Hi as [Hi|[Hl Hi]], Hj as [Hj|[Hl' Hj]].
    + by eapply T2.
    + apply list_lookup_singleton_Some in Hj as [_ [= -> ->]].
      apply list_elem_of_lookup_2 in Hi. destruct (Hd _ _ Hi); lia.
    + apply list_lookup_singleton_Some in Hi as [_ [= -> ->]].
      apply list_elem_of_lookup_2 in Hj. destruct (Hd _ _ Hj); lia.
    + apply list_lookup_singleton_Some in Hi as [Hi _], Hj as [Hj _]. lia.
  - intros a k. rewrite lookup_insert. case_decide as Ha; [intros [= <-]; subst a|by apply T3].
    split; [done|]. split; [lia|]. rewrite R2.
    assert (forall x, x mod 4096 = 0 -> x mod 8 = 0) as H8.
    { intros x Hx. apply Z.mod_divide in Hx; [|lia]. apply Z.mod_divide; [lia|].
      destruct Hx as [y ->]. exists (y * 512). lia. }
    split; [by rewrite Zminus_mod, (H8 hi), (H8 lo) by done|by apply H8].
  - intros a k. rewrite lookup_insert. case_decide as Ha.
    + intros [= <-]. subst a. exists lo, hi. split; [set_solver|]. split; [lia|]. split; [lia|].
      split; [by left|left; lia].
    + intros E. destruct (T4 a k E) as (lo' & hi' & Hs & ? & ? & HL & HRt). exists lo', hi'.
      split; [set_solver|]. split; [done|]. split; [done|]. split.
      * destruct HL as [?|[? HL]]; [by left|right]. split; [done|]. intros HX.
        destruct (HL HX) as (? & g & G & Hg). split; [done|]. exists g. split; [by apply Hup|done].
      * destruct HRt as [?|(g & G & Hg)]; [by left|right]. exists g. split; [by apply Hup|done].
  - intros a c k j Hac. rewrite !lookup_insert. repeat case_decide; subst; [lia| | |by apply T5].
    + intros [= <-] G. destruct (Hout _ _ G); pose proof (blk_range _ _ _ _ _ T G); lia.
    + intros E [= <-]. destruct (Hout _ _ E); lia.
  - intros lo' hi' [Hs|[= -> ->]%list_elem_of_singleton]%elem_of_app; [|rewrite lookup_insert_eq; eauto].
    destruct (T6 _ _ Hs) as [k Ek]. exists k. by apply Hup.
Qed.
