(* ===== verification/HeapOps.v ===== *)
(** * The heap's operations

    The invariant of the heap and what each routine of heap.c does to it. *)

From Stdlib Require Import Sorted.
From S2P Require Import Prelude PageAlloc Heap HeapInv HeapTiling.

(** ** Segments *)

Definition idx (n : nat) : option nat := match n with O => None | S k => Some k end.

Record segs_ok (h : Heap) (S : list (Z * Z)) : Prop := {
  sg_len : length (HeapSegmentTable h) = 8%nat;
  sg_count : HeapSegmentCount h = Z.of_nat (length S);
  sg_cap : (length S <= 8)%nat;
  sg_head : HeapSegments h = idx (length S);
  sg_tab : forall i lo hi, S !! i = Some (lo, hi) -> seg h i = mkSeg lo hi (idx i) }.

Lemma segs_rest h h' S : same_rest h h' -> segs_ok h S -> segs_ok h' S.
Proof.
  intros (E1 & E2 & E3 & _) [H1 H2 H3 H4 H5]. split; rewrite ?E1, ?E2, ?E3; try done.
  intros i lo hi E. unfold seg. rewrite E2. by apply H5.
Qed.

Lemma find_loop h S b i lo hi :
  segs_ok h S -> S !! i = Some (lo, hi) -> lo <= b < hi ->
  (forall j lo' hi', S !! j = Some (lo', hi') -> lo' <= b < hi' -> j = i) ->
  forall k fuel, (i < k <= length S)%nat -> (k < fuel)%nat ->
  loop fuel (fun sg =>
      match sg with
      | None => Some (inr None)
      | Some i =>
          if (Base (seg h i) <=? b) && (b <? End_ (seg h i)) then Some (inr (Some i))
          else Some (inl (SegNext (seg h i)))
      end) (idx k) = Some (Some i).
Proof.
  intros HS Hi Hb Hu. induction k as [|k IH]; intros fuel Hk Hf; [lia|].
  destruct fuel as [|fuel]; [lia|]. rewrite loop_unfold. cbn [idx].
  destruct (lookup_lt_is_Some_2 S k ltac:(lia)) as [[lo' hi'] Ek].
  rewrite (sg_tab _ _ HS k lo' hi' Ek). cbn [Base End_ SegNext].
  destruct (Z.leb_spec lo' b), (Z.ltb_spec b hi'); cbn [andb];
    try (assert (k <> i) by (intros ->; simplify_eq; lia); apply IH; lia).
  by rewrite (Hu k lo' hi' Ek) by lia.
Qed.

Lemma HeapFindSegment_spec X V S h b lo hi :
  segs_ok h S -> tiling X V S -> (lo, hi) ∈ S -> lo <= b < hi ->
  exists i, HeapFindSegment b h = Some (Some i) /\ End_ (seg h i) = hi.
Proof.
  intros HS T Hs Hb. pose proof (t_seg _ _ _ T _ _ Hs). apply list_elem_of_lookup in Hs as (i & Hi).
  pose proof (lookup_lt_Some _ _ _ Hi).
  exists i. rewrite (sg_tab _ _ HS i lo hi Hi). split; [|done].
  unfold HeapFindSegment. rewrite (proj2 (Z.eqb_neq b 0)) by lia. rewrite (sg_head _ _ HS).
  eapply find_loop; [done|done|done| |lia|pose proof (sg_cap _ _ HS); unfold seg_fuel; lia].
  intros j lo' hi' Hj Hb'. destruct (decide (j = i)) as [?|Hne]; [done|].
  destruct (t_disj _ _ _ T _ _ _ _ _ _ Hne Hj Hi); lia.
Qed.

Lemma HeapGrowthHint_spec h S :
  segs_ok h S -> (forall lo hi, (lo, hi) ∈ S -> is_u32 hi) ->
  exists hint, HeapGrowthHint h = Some hint /\ is_u32 hint.
Proof.
  intros HS Hu. unfold HeapGrowthHint. rewrite (sg_head _ _ HS).
  assert (HL : forall k fuel hint, (k <= length S)%nat -> (k < fuel)%nat -> is_u32 hint ->
    exists r, loop fuel (fun '(sg, hint) =>
      match sg with
      | None => Some (inr hint)
      | Some i =>
          let seg_end := End_ (seg h i) in
          Some (inl (SegNext (seg h i), if hint <? seg_end then seg_end else hint))
      end) (idx k, hint) = Some r /\ is_u32 r).
  { induction k as [|k IH]; intros fuel hint Hk Hf Hh; (destruct fuel as [|fuel]; [lia|]);
      rewrite loop_unfold; cbn [idx]; [by exists hint|].
    destruct (lookup_lt_is_Some_2 S k ltac:(lia)) as [[lo hi] Ek].
    rewrite (sg_tab _ _ HS k lo hi Ek). cbn [End_ SegNext]. apply IH; [lia|lia|].
    case_match; [|done]. apply (Hu lo). by eapply list_elem_of_lookup_2. }
  apply HL; [lia|pose proof (sg_cap _ _ HS); unfold seg_fuel; lia|unfold is_u32; lia].
Qed.

Lemma stamp_next_spec X V S h b next v lo hi :
  segs_ok h S -> tiling X V S -> (lo, hi) ∈ S -> lo <= b < hi ->
  stamp_next b next v h = Some (if next <? hi then on_mem (set_PrevSize v next) h else h).
Proof.
  intros HS T Hs Hb. destruct (HeapFindSegment_spec X V S h b lo hi HS T Hs Hb) as (i & E & Ei).
  unfold stamp_next. by rewrite E, some_bind, Ei.
Qed.

(** ** What leaves the page allocator alone *)

Lemma HeapListInsert_hpmm fuel b h h' : HeapListInsert fuel b h = Some h' -> hpmm h' = hpmm h.
Proof.
  unfold HeapListInsert. destruct (loop _ _ _) as [[cur prev]|]; [|done]. rewrite some_bind. cbv zeta.
  intros [= <-]. by destruct (negb (prev =? 0)), (negb (cur =? 0)).
Qed.

Lemma HeapListRemove_hpmm b h : hpmm (HeapListRemove b h) = hpmm h.
Proof. unfold HeapListRemove. cbv zeta. by destruct (negb _), (negb _). Qed.

Lemma stamp_next_hpmm b next v h h' : stamp_next b next v h = Some h' -> hpmm h' = hpmm h.
Proof.
  unfold stamp_next. destruct (HeapFindSegment b h) as [[i|]|]; [| |done]; rewrite some_bind; intros [= <-]; [|done].
  by destruct (_ <? _).
Qed.

(** [h'] has taken no page that was not free in [h], neither for itself nor
    for one of its segments. *)
Definition claims (h h' : Heap) (S S' : list (Z * Z)) : Prop :=
  forall q, page_free (hpmm h) q = false ->
    page_free (hpmm h') q = false /\
    forall lo hi, (lo, hi) ∈ S' -> lo / 4096 <= q < hi / 4096 -> (lo, hi) ∈ S.

Lemma claims_same h h' S : hpmm h' = hpmm h -> claims h h' S S.
Proof. by intros E q Hq; rewrite E. Qed.

(** ** What must not change *)

(** [Lv a sz]: the block at [a], of [sz] bytes, is in use. *)
Definition keeps (Lv : Z -> Z -> Prop) (m m' : Mem) : Prop :=
  forall a sz x, Lv a sz -> a + 16 <= x < a + sz -> load8 m' x = load8 m x.

#[global] Instance keeps_preorder Lv : PreOrder (keeps Lv).
Proof.
  split; [done|]. intros m1 m2 m3 H1 H2 a sz x Ha Hx. by rewrite (H2 a sz), (H1 a sz).
Qed.

Definition sub (Lv : Z -> Z -> Prop) (V : Blocks) : Prop :=
  forall a sz, Lv a sz -> exists f, V !! a = Some f /\ fsize f = sz.

Definition outside (w n x : Z) : Prop := x < w \/ w + n <= x.

Section Keeps.
Context (X : Z) (V : Blocks) (S : list (Z * Z)) (T : tiling X V S) (Lv : Z -> Z -> Prop) (HLv : sub Lv V).

Lemma keeps_in m m' c g w n :
  V !! c = Some g -> (forall sz, ~ Lv c sz) -> c <= w -> w + n <= c + fsize g -> 0 <= n ->
  mem_agree (outside w n) m m' -> keeps Lv m m'.
Proof.
  intros E Hc Hw Hn Hn0 Hm a sz x Ha Hx. apply Hm. destruct (HLv a sz Ha) as (f & Ef & <-).
  unfold outside. destruct (Z.lt_total a c) as [Hl|[->|Hl]].
  - pose proof (t_sep _ _ _ T a c f g Hl Ef E). lia.
  - by destruct (Hc (fsize f)).
  - pose proof (t_sep _ _ _ T c a g f Hl E Ef). lia.
Qed.

Lemma keeps_hdr m m' c g w n :
  V !! c = Some g -> c <= w -> w + n <= c + 16 -> 0 <= n ->
  mem_agree (outside w n) m m' -> keeps Lv m m'.
Proof.
  intros E Hw Hn Hn0 Hm a sz x Ha Hx. apply Hm. destruct (HLv a sz Ha) as (f & Ef & <-).
  pose proof (blk_range _ _ _ _ _ T E). unfold outside. destruct (Z.lt_total a c) as [Hl|[->|Hl]].
  - pose proof (t_sep _ _ _ T a c f g Hl Ef E). lia.
  - lia.
  - pose proof (t_sep _ _ _ T c a g f Hl E Ef). lia.
Qed.

(** A place inside a block that is not in use. *)
Definition spare (c : Z) : Prop :=
  exists d g, V !! d = Some g /\ (forall sz, ~ Lv d sz) /\ d <= c /\ c + 24 <= d + fsize g.

Lemma keeps_links m m' L :
  (forall c, c ∈ L -> spare c) -> mem_agree (no_link L) m m' -> keeps Lv m m'.
Proof.
  intros HL Hm a sz x Ha Hx. apply Hm. intros c Hc. destruct (HL c Hc) as (d & g & E & Hd & H1 & H2).
  destruct (HLv a sz Ha) as (f & Ef & <-). destruct (Z.lt_total a d) as [Hl|[->|Hl]].
  - pose proof (t_sep _ _ _ T a d f g Hl Ef E). lia.
  - by destruct (Hd (fsize f)).
  - pose proof (t_sep _ _ _ T d a g f Hl E Ef). lia.
Qed.

Lemma spare_self c g : V !! c = Some g -> (forall sz, ~ Lv c sz) -> spare c.
Proof. intros E Hc. pose proof (blk_range _ _ _ _ _ T E). exists c, g. split; [done|]. split; [done|]. lia. Qed.
End Keeps.

Lemma agree_store32 w v m : mem_agree (outside w 4) m (store32 m w v).
Proof. intros x Hx. apply load8_store32_ne. unfold outside in Hx. lia. Qed.
Lemma agree_store8 w v m : mem_agree (outside w 1) m (store8 m w v).
Proof. intros x Hx. apply load8_store8_ne. unfold outside in Hx. lia. Qed.
Lemma agree_Meta magic size prev free b m : mem_agree (outside b 16) m (set_Meta magic size prev free b m).
Proof.
  intros x Hx. unfold set_Meta, set_IsFree, set_PrevSize, set_Size, set_Magic, outside in *.
  rewrite load8_store8_ne, !load8_store32_ne by lia. done.
Qed.

(** ** The invariant *)

(** The blocks in use. *)
Definition live (V : Blocks) (a sz : Z) : Prop :=
  exists f, V !! a = Some f /\ ffree f = false /\ fsize f = sz.

Lemma live_sub V : sub (live V) V.
Proof. intros a sz (f & E & _ & H). by exists f. Qed.

Definition is_free (V : Blocks) (a : Z) : Prop := exists f, V !! a = Some f /\ ffree f = true.

(** ** Size and flag of a block *)

Definition view (V : Blocks) (a : Z) : option (Z * bool) := (fun f => (fsize f, ffree f)) <$> V !! a.

Lemma live_view V a sz : live V a sz <-> view V a = Some (sz, false).
Proof.
  unfold live, view. destruct (V !! a) as [f|]; cbn; split.
  - intros (g & [= <-] & -> & <-). done.
  - intros [= <- Hf]. by exists f.
  - intros (g & [=] & _).
  - done.
Qed.

Lemma free_view V a : is_free V a <-> exists sz, view V a = Some (sz, true).
Proof.
  unfold is_free, view. destruct (V !! a) as [f|]; cbn; split.
  - intros (g & [= <-] & Hf). exists (fsize f). by rewrite Hf.
  - intros (sz & [= _ Hf]). by exists f.
  - intros (g & [=] & _).
  - intros (sz & [=]).
Qed.

Lemma view_hdr_at V V' a : hdr <$> V' !! a = hdr <$> V !! a -> view V' a = view V a.
Proof. unfold view. intros H. destruct (V !! a), (V' !! a); cbn in *; try done. unfold hdr in H. congruence. Qed.

Lemma view_hdr V V' a : same_hdr V V' -> view V' a = view V a.
Proof.
  intros H. apply view_hdr_at, H.
Qed.

Lemma view_alter w b V a :
  (forall f, fsize (w f) = fsize f) -> (forall f, ffree (w f) = ffree f) -> view (alter w b V) a = view V a.
Proof.
  intros H1 H2. unfold view. destruct (decide (b = a)) as [->|Hne]; [|by rewrite lookup_alter_ne].
  rewrite lookup_alter_eq. destruct (V !! a); cbn; [by rewrite H1, H2|done].
Qed.

Lemma view_size v b V a :
  view (alter (w_size v) b V) a = if decide (a = b) then (fun '(_, fr) => (v, fr)) <$> view V a else view V a.
Proof.
  unfold view. case_decide as Ha; [subst; rewrite lookup_alter_eq|by rewrite lookup_alter_ne].
  by destruct (V !! b).
Qed.

Lemma view_free v b V a :
  view (alter (w_free v) b V) a = if decide (a = b) then (fun '(sz, _) => (sz, v)) <$> view V a else view V a.
Proof.
  unfold view. case_decide as Ha; [subst; rewrite lookup_alter_eq|by rewrite lookup_alter_ne].
  by destruct (V !! b).
Qed.

Lemma view_Some V a sz fr : view V a = Some (sz, fr) -> exists f, V !! a = Some f /\ fsize f = sz /\ ffree f = fr.
Proof. unfold view. destruct (V !! a) as [f|]; [|done]. intros [= <- <-]. by exists f. Qed.

(** ** Coalescing *)

(** A block that is free, or counts as free. *)
Definition frees (V : Blocks) (P : Z -> Prop) (a : Z) : Prop := (exists s, view V a = Some (s, true)) \/ P a.

(** No two neighbours in a segment are free, but for a first one in [E]. *)
Definition merged (V : Blocks) (S : list (Z * Z)) (P E : Z -> Prop) : Prop :=
  forall a sz fl lo hi, view V a = Some (sz, fl) -> frees V P a ->
    (lo, hi) ∈ S -> lo <= a < hi -> a + sz < hi -> frees V P (a + sz) -> E a.

Definition nowhere (a : Z) : Prop := False.

Lemma merged_ext V V' S P E :
  (forall a, view V' a = view V a) -> merged V S P E -> merged V' S P E.
Proof.
  intros HV HM a sz fl lo hi Ha Hfa Hs Hlh Hlt Hfn. unfold frees in *. rewrite HV in Ha, Hfa, Hfn.
  by apply (HM a sz fl lo hi).
Qed.

Lemma merged_weaken V S P (E E' : Z -> Prop) : (forall a, E a -> E' a) -> merged V S P E -> merged V S P E'.
Proof. intros HE HM a sz fl lo hi Ha Hfa Hs Hlh Hlt Hfn. by eapply HE, HM. Qed.

(** The block [b] stops being free, or goes. *)
Lemma merged_less V V' S E :
  (forall a sz fl, view V' a = Some (sz, fl) -> exists fl', view V a = Some (sz, fl') /\ (fl = true -> fl' = true)) ->
  merged V S nowhere E -> merged V' S nowhere E.
Proof.
  intros HV HM a sz fl lo hi Ha [[s Hfa]|[]] Hs Hlh Hlt [[s' Hfn]|[]].
  destruct (HV a s true Hfa) as (fl1 & H1 & H1'). destruct (HV (a + sz) s' true Hfn) as (fl2 & H2 & H2').
  destruct (HV a sz fl Ha) as (fl3 & H3 & _).
  rewrite H1' in H1 by done. rewrite H2' in H2 by done.
  apply (HM a sz fl3 lo hi); [done|left; eauto|done|done|done|left; eauto].
Qed.

(** The pages of the segments are not free in the page allocator, and the last
    page of the address space is never handed out. *)
Record pages_ok (p : Pmm) (S : list (Z * Z)) : Prop := {
  pg_wf : pmm_inv p;
  pg_used : forall lo hi q, (lo, hi) ∈ S -> lo / 4096 <= q < hi / 4096 -> page_free p q = false;
  pg_top : page_free p 1048575 = false }.

Record heap_inv (h : Heap) (V : Blocks) (F : list Z) (S : list (Z * Z)) : Prop := {
  hi_linked : linked h V F;
  hi_tiling : tiling 0 V S;
  hi_segs : segs_ok h S;
  hi_free : forall a, a ∈ F <-> is_free V a;
  hi_merged : merged V S nowhere nowhere;
  hi_pages : pages_ok (hpmm h) S }.

(** ** Searching the free list *)

Definition too_small (V : Blocks) (size : Z) (x : Z) : Prop := exists g, V !! x = Some g /\ fsize g < size.

Lemma HeapFindFree_spec fuel size h V F :
  linked h V F -> (length F < fuel)%nat ->
  (exists l1 b l2 f, F = l1 ++ b :: l2 /\ V !! b = Some f /\ size <= fsize f /\
     Forall (too_small V size) l1 /\ HeapFindFree fuel size h = Some (b, HeapListRemove b h)) \/
  (HeapFindFree fuel size h = Some (0, h) /\ Forall (too_small V size) F).
Proof.
  intros [HR HD HH HS HA] Hf. unfold HeapFindFree. rewrite HH. clear HH HS.
  assert (HG : forall l p fuel, dseg V p l 0 -> (length l < fuel)%nat -> (forall x, x ∈ l -> 0 < x < 4294967296) ->
    let r := loop fuel (fun b =>
      if negb (b =? 0) then
        if size <=? Size (hmem h) b then Some (inr (b, HeapListRemove b h))
        else Some (inl (NodeNext (hmem h) b))
      else Some (inr (0, h))) (first l 0) in
    (exists l1 b l2 f, l = l1 ++ b :: l2 /\ V !! b = Some f /\ size <= fsize f /\
       Forall (too_small V size) l1 /\ r = Some (b, HeapListRemove b h)) \/
    (r = Some (0, h) /\ Forall (too_small V size) l)).
  { induction l as [|x l IH]; intros p fu HDl Hfu HAl; (destruct fu as [|fu]; [cbn in Hfu; lia|]);
      cbv zeta; rewrite loop_unfold; [by right|]. cbn [first].
    pose proof (HAl x ltac:(set_solver)). rewrite (proj2 (Z.eqb_neq x 0)) by lia. cbn [negb].
    cbn [dseg] in HDl. destruct HDl as [(f & Ef & _ & Hn) HDl].
    destruct (hrep_get _ _ _ _ HR Ef) as (_ & -> & _ & _ & _ & ->). rewrite Hn.
    destruct (Z.leb_spec size (fsize f)).
    - left. exists [], x, l, f. done.
    - destruct (IH x fu HDl ltac:(cbn in Hfu; lia)) as [(l1 & b & l2 & g & -> & Eg & Hg & Hl & E)|[E Hl]];
        [intros y Hy; apply HAl; set_solver| |]; cbv zeta in E; rewrite E.
      + left. exists (x :: l1), b, l2, g. split; [done|]. split; [done|]. split; [done|]. split; [|done].
        constructor; [by exists f|done].
      + right. split; [done|]. constructor; [by exists f|done]. }
  by apply (HG F 0 fuel).
Qed.

(** ** Growing *)

Lemma dseg_insert_out V b f l p n : b ∉ l -> dseg V p l n -> dseg (<[b := f]> V) p l n.
Proof.
  intros Hb. apply dseg_ext. intros x g Hx E. exists g. split; [|done].
  rewrite lookup_insert_ne; [done|]. intros ->. done.
Qed.

Lemma set_hpmm_id h : set_hpmm (hpmm h) h = h.
Proof. by destruct h. Qed.

(** The run of pages is a place for a segment. *)
Lemma run_place p S st cnt :
  pages_ok p S -> 1 <= cnt -> 0 <= st -> st + cnt <= PAGE_COUNT -> run_free p st cnt ->
  (forall lo hi, (lo, hi) ∈ S -> 0 < lo /\ lo < hi /\ hi < 4294967296 /\ lo mod 4096 = 0 /\ hi mod 4096 = 0) ->
  0 < st * 4096 /\ st * 4096 + cnt * 4096 < 4294967296 /\
  forall lo hi, (lo, hi) ∈ S -> st * 4096 + cnt * 4096 <= lo \/ hi <= st * 4096.
Proof.
  intros [[Hwf H0] Hu Htop] Hc Hst Hle Hrun Hseg. unfold PAGE_COUNT in Hle.
  assert (st <> 0) by (intros ->; rewrite Hrun in H0 by lia; done).
  assert (st + cnt <= 1048575).
  { destruct (decide (st + cnt <= 1048575)); [done|]. rewrite Hrun in Htop by lia. done. }
  split; [lia|]. split; [lia|]. intros lo hi Hs. destruct (Hseg lo hi Hs) as (? & ? & ? & Hlo & Hhi).
  pose proof (Z.div_mod lo 4096 ltac:(lia)). pose proof (Z.div_mod hi 4096 ltac:(lia)).
  destruct (decide (st * 4096 + cnt * 4096 <= lo \/ hi <= st * 4096)) as [?|Hno]; [done|]. exfalso.
  assert (Hq : page_free p (Z.max st (lo / 4096)) = false) by (apply (Hu lo hi); [done|lia]).
  rewrite Hrun in Hq by lia. done.
Qed.

Lemma hrep_create magic size prev free b m V :
  is_u32 magic -> is_u32 size -> is_u32 prev -> (forall a, is_Some (V !! a) -> apart a b) -> hrep m V ->
  exists r, hrep (set_Meta magic size prev free b m) (<[b := r]> V) /\ hdr r = (magic, size, prev, free).
Proof.
  intros H1 H2 H3 Hb HR.
  pose proof (hrep_Meta magic size prev free b m _ H1 H2 H3
    ltac:(rewrite lookup_insert_eq; eauto) (hrep_new b m V Hb HR)) as HR'.
  rewrite alter_insert_eq in HR'. eexists. split; [exact HR'|done].
Qed.

Lemma segs_grow h S lo hi :
  segs_ok h S -> (length S < 8)%nat ->
  segs_ok (mkHeap (hmem h) (Some (Z.to_nat (HeapSegmentCount h)))
             (<[Z.to_nat (HeapSegmentCount h) := mkSeg lo hi (HeapSegments h)]> (HeapSegmentTable h))
             (HeapSegmentCount h +w 1) (FreeListHead h) (hpmm h)) (S ++ [(lo, hi)]).
Proof.
  intros [H1 H2 H3 H4 H5] Hl. rewrite H2, Nat2Z.id. split; cbn [HeapSegmentTable HeapSegmentCount HeapSegments].
  - by rewrite length_insert.
  - rewrite length_app. cbn [length]. rewrite wrap32_small by (unfold is_u32; lia). lia.
  - rewrite length_app. cbn [length]. lia.
  - rewrite length_app, Nat.add_1_r. done.
  - intros i lo' hi' Hi. unfold seg. cbn [HeapSegmentTable]. apply lookup_app_Some in Hi as [Hi|[Hle Hi]].
    + pose proof (lookup_lt_Some _ _ _ Hi). rewrite list_lookup_total_insert_ne by lia. by apply H5.
    + apply list_lookup_singleton_Some in Hi as [Hi [= -> ->]].
      assert (i = length S) as -> by lia. rewrite list_lookup_total_insert_eq by lia. by rewrite H4.
Qed.

(** [V'] is [V] with the new free block [b] of [size] bytes. *)
Record grown (V V' : Blocks) (b size : Z) : Prop := {
  gr_new : V !! b = None;
  gr_blk : exists f, V' !! b = Some f /\ fsize f = size /\ ffree f = true;
  gr_old : forall a, a <> b -> hdr <$> V' !! a = hdr <$> V !! a }.

(** Why growing can fail: the segment table is full, or above the highest
    segment there is no run of free pages of that length. *)
Definition no_room (pages : Z) (h : Heap) : Prop :=
  HEAP_SEGMENT_CAP <= HeapSegmentCount h \/
  exists hint, HeapGrowthHint h = Some hint /\
    forall st, hint / PAGE_SIZE <= st -> ~ run_free (hpmm h) st pages.

Lemma merged_grown V V' S b n :
  tiling 0 V S -> merged V S nowhere nowhere -> 0 < n ->
  (forall a f, V !! a = Some f -> a + fsize f <= b \/ b + n <= a) ->
  (forall lo hi, (lo, hi) ∈ S -> b + n <= lo \/ hi <= b) ->
  (forall a, view V' a = if decide (a = b) then Some (n, true) else view V a) ->
  merged V' (S ++ [(b, b + n)]) nowhere nowhere.
Proof.
  intros T HM Hn Hout Hdis HV a sz fl lo hi Ha Hfa Hs Hlh Hlt Hfn. rewrite HV in Ha.
  apply elem_of_app in Hs as [Hs|[= -> ->]%list_elem_of_singleton].
  - pose proof (Hdis lo hi Hs). rewrite decide_False in Ha by lia.
    apply (HM a sz fl lo hi Ha); [|done|done|done|].
    + unfold frees in *. by rewrite HV, decide_False in Hfa by lia.
    + unfold frees in *. destruct (view_Some _ _ _ _ Ha) as (f & E & Hsz & _). pose proof (blk_range _ _ _ _ _ T E).
      by rewrite HV, decide_False in Hfn by lia.
  - case_decide as Hab; [simplify_eq; lia|]. destruct (view_Some _ _ _ _ Ha) as (f & E & Hsz & _).
    pose proof (blk_range _ _ _ _ _ T E). destruct (Hout a f E); lia.
Qed.

Lemma HeapGrow_spec fuel pages h V F S :
  heap_inv h V F S -> 1 <= pages < 1048576 -> (length F < fuel)%nat ->
  exists b h', HeapGrow fuel pages h = Some (b, h') /\
    ((b = 0 /\ h' = h /\ no_room pages h) \/
     (exists V', heap_inv h' V' (insert_sorted b F) (S ++ [(b, b + pages * 4096)]) /\ 0 < b < 4294967296 /\
        grown V V' b (pages * 4096) /\ keeps (live V) (hmem h) (hmem h') /\
        claims h h' S (S ++ [(b, b + pages * 4096)]))).
Proof.
  intros [HL T HSg HF HM HP] Hp Hf. unfold HeapGrow, no_room. rewrite (sg_count _ _ HSg). unfold HEAP_SEGMENT_CAP.
  destruct (Z.leb_spec 8 (Z.of_nat (length S))) as [Hcap|Hcap]; [exists 0, h; auto 6|].
  pose proof (t_seg _ _ _ T) as Hseg.
  destruct (HeapGrowthHint_spec h S HSg) as (hint & Eh & Hhint).
  { intros lo hi Hs. destruct (Hseg lo hi Hs). unfold is_u32. lia. }
  rewrite Eh, some_bind. destruct HP as [[Hwf H0] Hu Htop].
  destruct (PageAllocPagesAt_post hint pages (hpmm h) Hwf H0 Hhint ltac:(unfold is_u32; lia))
    as ([addr p'] & -> & Hpost). rewrite some_bind.
  destruct Hpost as [(st & (Hhs & Hle & Hrun & _) & Ea & Hnz & Hwf' & Hset & _)|[[= -> ->] Hno]].
  2: { cbn [Z.eqb]. exists 0, h. rewrite set_hpmm_id. split; [done|]. left. split; [done|]. split; [done|].
       right. exists hint. split; [done|]. destruct Hno as [?|Hno]; [lia|exact Hno]. }
  cbn [fst snd] in *. rewrite (proj2 (Z.eqb_neq addr 0)) by done. unfold PAGE_SIZE in *. subst addr.
  assert (Hst : 0 <= st).
  { assert (0 <= hint / 4096) by (apply Z.div_pos; [apply Hhint|lia]). lia. }
  destruct (run_place (hpmm h) S st pages) as (Hb0 & Hbe & Hdis); [split; [split|..]; done|lia|done|done|done|done|].
  set (b := st * 4096) in *. destruct HL as [HR HD HH HS HA].
  assert (Hout : forall a f, V !! a = Some f -> a + fsize f <= b \/ b + pages * 4096 <= a).
  { intros a f E. destruct (t_in _ _ _ T a f E) as (lo & hi & Hs & ? & ? & _). destruct (Hdis _ _ Hs); lia. }
  assert (Hap : forall a, is_Some (V !! a) -> apart a b).
  { intros a [f E]. pose proof (blk_range _ _ _ _ _ T E). unfold apart. destruct (Hout a f E); lia. }
  assert (HVb : V !! b = None).
  { destruct (V !! b) as [f|] eqn:E; [|done]. specialize (Hap b ltac:(eauto)). unfold apart in Hap. lia. }
  cbv zeta. rewrite (wrap32_small (pages * 4096)) by (unfold is_u32; lia).
  cbn [hmem HeapSegmentCount HeapSegmentTable HeapSegments FreeListHead hpmm on_mem set_hmem set_hpmm].
  destruct (hrep_create HEAP_MAGIC (pages * 4096) 0 true b (hmem h) V) as (r & HR1 & Hr);
    [unfold is_u32, HEAP_MAGIC; lia|unfold is_u32; lia|unfold is_u32; lia|done|done|].
  set (m1 := set_Meta _ _ _ _ b _) in *. injection Hr as Hr1 Hr2 Hr3 Hr4.
  destruct (hrep_get _ _ b r HR1 ltac:(by rewrite lookup_insert_eq)) as (_ & -> & _).
  rewrite Hr2, (wrap32_small (b + _)) by (unfold is_u32; lia).
  pose proof (segs_grow h S b (b + pages * 4096) HSg ltac:(lia)) as HSg1.
  set (V1 := <[b := r]> V) in *.
  set (h1 := mkHeap m1 _ _ _ _ _).
  assert (HSg1' : segs_ok h1 (S ++ [(b, b + pages * 4096)])) by (destruct HSg1; split; done).
  assert (HbF : b ∉ F).
  { intros Hin. destruct (proj1 (HF b) Hin) as (f & E & _). congruence. }
  assert (HL1 : linked h1 V1 F) by (split; [done|by apply dseg_insert_out|done|done|done]).
  destruct (HeapListInsert_spec fuel b V1 h1 F HL1) as (h' & V' & -> & HL' & HV' & Hr' & Hm');
    [unfold V1; rewrite lookup_insert_eq; eauto|done|lia|done|]. rewrite some_bind.
  exists b, h'. split; [done|]. right. exists V'.
  assert (T1 : tiling 0 V1 (S ++ [(b, b + pages * 4096)])).
  { apply tiling_new; try done; [lia|apply Z.mod_mul; lia| |lia].
    unfold b. replace (st * 4096 + pages * 4096) with ((st + pages) * 4096) by lia. apply Z.mod_mul. lia. }
  assert (Hold : forall a, a <> b -> hdr <$> V' !! a = hdr <$> V !! a).
  { intros a Ha. rewrite (HV' a). unfold V1. by rewrite lookup_insert_ne. }
  assert (Hnew : exists f, V' !! b = Some f /\ fsize f = pages * 4096 /\ ffree f = true).
  { destruct (same_hdr_Some V1 V' b r HV') as (f & E & [= E1 E2 E3 E4]); [unfold V1; by rewrite lookup_insert_eq|].
    exists f. split; [done|]. split; congruence. }
  split; [split|split; [lia|split; [by split|split]]].
  - done.
  - by eapply tiling_hdr.
  - by eapply segs_rest.
  - intros a. rewrite elem_of_insert_sorted. destruct (decide (a = b)) as [->|Ha].
    + destruct Hnew as (f & E & _ & Hfr). unfold is_free. naive_solver.
    + rewrite HF. unfold is_free. specialize (Hold a Ha).
      destruct (V !! a) as [f|] eqn:E, (V' !! a) as [f'|] eqn:E'; cbn in Hold; try done; [|naive_solver].
      injection Hold as _ _ _ Hfr. naive_solver congruence.
  - apply (merged_grown V V' S b (pages * 4096)); [exact T|exact HM|lia|exact Hout|exact Hdis|].
    + intros a. destruct (decide (a = b)) as [->|Ha].
      * destruct Hnew as (f & E & Hsz & Hfr). unfold view. rewrite E. cbn. by rewrite Hsz, Hfr.
      * by apply view_hdr_at, Hold.
  - destruct Hr' as (_ & _ & _ & ->). cbn [hpmm h1]. split.
    + split; [done|]. rewrite (Hset 0), decide_False by lia. done.
    + intros lo hi q [Hs|[= -> ->]%list_elem_of_singleton]%elem_of_app Hq; rewrite (Hset q).
      * case_decide; [done|]. by eapply Hu.
      * rewrite decide_True; [done|]. unfold b in Hq. rewrite Z.div_mul in Hq by lia.
        replace (st * 4096 + pages * 4096) with ((st + pages) * 4096) in Hq by lia.
        rewrite Z.div_mul in Hq by lia. lia.
    + rewrite (Hset 1048575). by case_decide.
  - etrans; [|eapply (keeps_links 0 V1 (S ++ [(b, b + pages * 4096)]) T1); [| |exact Hm']].
    + intros a sz x (f & E & _ & <-) Hx. apply agree_Meta. unfold outside. pose proof (Hout a f E). lia.
    + intros a sz (f & E & _ & Hsz). exists f. split; [|done]. unfold V1.
      rewrite lookup_insert_ne; [done|]. intros ->. congruence.
    + intros c Hc. assert (Hcs : exists g, V1 !! c = Some g /\ forall sz, ~ live V c sz).
      { apply elem_of_cons in Hc as [->|Hc].
        - exists r. unfold V1. rewrite lookup_insert_eq. split; [done|]. intros sz (f & E & _). congruence.
        - destruct (proj1 (HF c) Hc) as (f & E & Hfr). exists f. unfold V1.
          rewrite lookup_insert_ne by (intros ->; congruence). split; [done|].
          intros sz (f' & E' & Hfr' & _). congruence. }
      destruct Hcs as (g & Eg & Hg). by eapply spare_self.
  - intros q Hq. destruct Hr' as (_ & _ & _ & ->). cbn [hpmm h1]. rewrite (Hset q). split; [by case_decide|].
    intros lo hi [Hs|[= -> ->]%list_elem_of_singleton]%elem_of_app Hlh; [done|].
    rewrite Hrun in Hq; [done|]. unfold b in Hlh. rewrite Z.div_mul in Hlh by lia.
    replace (st * 4096 + pages * 4096) with ((st + pages) * 4096) in Hlh by lia.
    rewrite Z.div_mul in Hlh by lia. lia.
Qed.
