(* ===== verification/HeapAlloc.v ===== *)
(** * kmalloc

    Splitting a free block and handing it out. *)

From Stdlib Require Import Sorted.
From S2P Require Import Prelude PageAlloc Heap HeapInv HeapTiling HeapOps.

(** ** A block off the list *)

(** The heap while the free block [b] is off the free list. *)
Record taken (h : Heap) (V : Blocks) (F : list Z) (S : list (Z * Z)) (b size : Z) (E : Z -> Prop) : Prop := {
  tk_linked : linked h V F;
  tk_tiling : tiling 0 V S;
  tk_segs : segs_ok h S;
  tk_view : view V b = Some (size, true);
  tk_free : forall a, a ∈ F <-> is_free V a /\ a <> b;
  tk_merged : merged V S nowhere E;
  tk_pages : pages_ok (hpmm h) S }.

Lemma elem_of_removed (a b : Z) l1 l2 :
  (b ∉ l1) -> (b ∉ l2) -> a ∈ l1 ++ l2 <-> a ∈ l1 ++ b :: l2 /\ a <> b.
Proof. set_solver. Qed.

Lemma elem_of_middle {A} (b : A) l1 l2 : b ∈ l1 ++ b :: l2.
Proof. set_solver. Qed.

Lemma take_free h V F S b l1 l2 f :
  heap_inv h V F S -> F = l1 ++ b :: l2 -> V !! b = Some f ->
  exists V', taken (HeapListRemove b h) V' (l1 ++ l2) S b (fsize f) nowhere /\ same_hdr V V' /\
    keeps (live V) (hmem h) (hmem (HeapListRemove b h)).
Proof.
  intros [HL T HSg HF HM HP] -> E. destruct (HeapListRemove_spec b l1 l2 V h HL) as (V' & HL' & HV & Hr & Hm).
  destruct (sorted_app_split _ _ _ (l_sorted _ _ _ HL)) as (Hb1 & Hb2 & _).
  exists V'. split; [split|split; [done|]].
  - done.
  - by eapply tiling_hdr.
  - by eapply segs_rest.
  - rewrite (view_hdr _ _ _ HV). destruct (proj1 (HF b) (elem_of_middle b l1 l2)) as (g & G & Hg).
    unfold view. rewrite E in G |- *. simplify_eq. cbn. by rewrite Hg.
  - intros a. rewrite free_view, (view_hdr _ _ _ HV), <- free_view, <- HF. by apply elem_of_removed.
  - eapply merged_ext; [|exact HM]. intros a. by apply view_hdr.
  - destruct Hr as (_ & _ & _ & ->). done.
  - eapply (keeps_links 0 V S T); [apply live_sub| |exact Hm]. intros c Hc.
    destruct (proj1 (HF c) Hc) as (g & G & Hg). eapply spare_self; [exact T|exact G|].
    intros sz (g' & G' & Hg' & _). congruence.
Qed.

(** The block a stamp goes to, where the segment does not end. *)
Lemma next_block X V S b f lo hi :
  tiling X V S -> V !! b = Some f -> (lo, hi) ∈ S -> lo <= b < hi ->
  (b + fsize f < hi -> is_Some (V !! (b + fsize f))) /\ b + fsize f <= hi.
Proof.
  intros T E Hs Hb. destruct (blk_in _ _ _ _ _ _ _ T E Hs Hb) as (H1 & _ & [H2|(g & G & _)]); [lia|].
  split; [eauto|done].
Qed.

(** Stamping the next block, as the code does it. *)
Lemma stamp_ok V S h b f F lo hi :
  linked h V F -> segs_ok h S -> V !! b = Some f -> (lo, hi) ∈ S -> lo <= b < hi ->
  tiling (b + fsize f) V S ->
  exists h' V', stamp_next b (b + fsize f) (fsize f) h = Some h' /\ linked h' V' F /\ tiling 0 V' S /\
    same_rest h h' /\ (forall a, view V' a = view V a) /\
    (forall Lv, sub Lv V -> keeps Lv (hmem h) (hmem h')).
Proof.
  intros HL HSg E Hs Hb T. rewrite (stamp_next_spec _ V S h b _ _ lo hi HSg T Hs Hb).
  destruct (next_block _ _ _ _ _ _ _ T E Hs Hb) as [Hn Hle]. pose proof (blk_range _ _ _ _ _ T E).
  destruct (Z.ltb_spec (b + fsize f) hi) as [Hlt|Hge].
  - destruct (Hn Hlt) as [g G]. eexists _, (alter (w_prev (fsize f)) (b + fsize f) V). split; [done|].
    split; [|split; [apply (tiling_stamp V S b f lo hi); [done|done|lia|done|done]|split; [done|split]]].
    + destruct HL as [HR HD HH HS HA]. split; [|by apply dseg_alter|done|done|done].
      apply hrep_PrevSize; [unfold is_u32; lia|eauto|done].
    + intros a. by apply view_alter.
    + intros Lv HLv. eapply (keeps_hdr _ V S T Lv HLv); [exact G|..|apply agree_store32]; lia.
  - exists h, V. split; [done|]. split; [done|]. split; [|done].
    eapply tiling_end; [exact Hs| |exact T]. lia.
Qed.

(** ** Splitting *)

(** What an operation on block [b] leaves of the others: the same, but for new
    free blocks. *)
Definition others (b : Z) (V V' : Blocks) : Prop :=
  forall a, a <> b -> view V' a = view V a \/ (view V a = None /\ exists sz, view V' a = Some (sz, true)).

Lemma others_refl b V : others b V V.
Proof. by left. Qed.

(** The new block, before it is on the list. *)
Lemma split_new h V F S b f T lo hi :
  linked h V F -> V !! b = Some f -> (lo, hi) ∈ S -> lo <= b < hi -> tiling 0 V S ->
  24 <= T -> T + 24 <= fsize f -> T mod 8 = 0 ->
  exists r, let V1 := <[b + T := r]> V in
    linked (on_mem (set_Meta HEAP_MAGIC (fsize f - T) T true (b + T)) h) V1 F /\
    hdr r = (HEAP_MAGIC, fsize f - T, T, true) /\ V !! (b + T) = None /\
    tiling (b + fsize f) (alter (w_size T) b V1) S.
Proof.
  intros [HR HD HH HS HA] Eb Hs Hb HT H24 Hle H8. pose proof (blk_range _ _ _ _ _ HT Eb).
  assert (Hap : forall a, is_Some (V !! a) -> apart a (b + T)).
  { intros a [g G]. pose proof (blk_range _ _ _ _ _ HT G). unfold apart.
    destruct (Z.lt_total a b) as [Hl|[->|Hl]]; [|lia|].
    - pose proof (t_sep _ _ _ HT a b g f Hl G Eb). lia.
    - pose proof (t_sep _ _ _ HT b a f g Hl Eb G). lia. }
  assert (Hno : V !! (b + T) = None).
  { destruct (V !! (b + T)) as [g|] eqn:E; [|done]. specialize (Hap (b + T) ltac:(eauto)).
    unfold apart in Hap. lia. }
  destruct (hrep_create HEAP_MAGIC (fsize f - T) T true (b + T) (hmem h) V) as (r & HR1 & Hr);
    [unfold is_u32, HEAP_MAGIC; lia|unfold is_u32; lia|unfold is_u32; lia|done|done|].
  exists r. cbv zeta. split; [|split; [done|split; [done|]]].
  - split; [done| |done|done|done]. apply dseg_insert_out; [|done].
    intros Hin. destruct (dseg_is_Some _ _ _ _ _ HD Hin). congruence.
  - injection Hr as R1 R2 R3 _. by eapply (tiling_split V S b f T r lo hi).
Qed.

(** The stamp and the shrinking that follow. *)
Lemma split_stamp h V F S b f T r lo hi :
  let V1 := <[b + T := r]> V in
  linked h V1 F -> segs_ok h S -> V !! b = Some f -> (lo, hi) ∈ S -> lo <= b < hi -> tiling 0 V S ->
  24 <= T -> T + 24 <= fsize f -> fsize r = fsize f - T ->
  tiling (b + fsize f) (alter (w_size T) b V1) S ->
  exists h' V', (h2 ← stamp_next b (b + fsize f) (fsize f - T) h; Some (on_mem (set_Size T b) h2)) = Some h' /\
    linked h' V' F /\ tiling 0 V' S /\ same_rest h h' /\
    (forall a, view V' a = view (alter (w_size T) b V1) a) /\ keeps (live V) (hmem h) (hmem h').
Proof.
  intros V1 HL HSg Eb Hs Hb HT H24 Hle R2 Ts. pose proof (blk_range _ _ _ _ _ HT Eb).
  destruct (next_block _ _ _ _ _ _ _ HT Eb Hs Hb) as [Hn Hnle].
  assert (E1 : V1 !! b = Some f) by (unfold V1; rewrite lookup_insert_ne by lia; done).
  assert (Er : alter (w_size T) b V1 !! (b + T) = Some r).
  { rewrite lookup_alter_ne by lia. unfold V1. by rewrite lookup_insert_eq. }
  rewrite (stamp_next_spec 0 V S h b _ _ lo hi HSg HT Hs Hb), some_bind.
  assert (Hk : forall m, keeps (live V) m (set_Size T b m)).
  { intros m. eapply (keeps_hdr 0 V S HT (live V) (live_sub V)); [exact Eb|..|apply agree_store32]; lia. }
  destruct HL as [HR HD HH HS HA].
  destruct (Z.ltb_spec (b + fsize f) hi) as [Hlt|Hge].
  - destruct (Hn Hlt) as [g G].
    assert (G1 : V1 !! (b + fsize f) = Some g) by (unfold V1; rewrite lookup_insert_ne by lia; done).
    set (V2 := alter (w_prev (fsize f - T)) (b + fsize f) V1).
    eexists _, (alter (w_size T) b V2). split; [done|]. cbn [hmem on_mem set_hmem].
    split; [split|split; [|split; [done|split]]]; try done.
    + apply hrep_Size; [unfold is_u32; lia|unfold V2; rewrite lookup_alter_ne by lia; eauto|].
      apply hrep_PrevSize; [unfold is_u32; lia|eauto|done].
    + apply dseg_alter; [done|done|]. by apply dseg_alter.
    + unfold V2. rewrite alter_alter_ne by lia.
      pose proof (tiling_stamp (alter (w_size T) b V1) S (b + T) r lo hi Er Hs) as Hst.
      rewrite R2 in Hst. replace (b + T + (fsize f - T)) with (b + fsize f) in Hst by lia. apply Hst; [lia|lia|done].
    + intros a. unfold V2. rewrite !view_size. by rewrite !view_alter.
    + etrans; [|apply Hk].
      eapply (keeps_hdr 0 V S HT (live V) (live_sub V)); [exact G|..|apply agree_store32]; lia.
  - eexists _, (alter (w_size T) b V1). split; [done|]. cbn [hmem on_mem set_hmem].
    split; [split|split; [|split; [done|split]]]; try done.
    + apply hrep_Size; [unfold is_u32; lia|eauto|done].
    + by apply dseg_alter.
    + eapply tiling_end; [exact Hs| |exact Ts]. lia.
Qed.

(** The two halves are the only free neighbours. *)
Lemma merged_split V V' S b sz T :
  tiling 0 V S -> view V b = Some (sz, true) -> 0 < T < sz -> merged V S nowhere nowhere ->
  (forall a, view V' a = if decide (a = b + T) then Some (sz - T, true)
     else if decide (a = b) then Some (T, true) else view V a) ->
  view V (b + T) = None -> merged V' S nowhere (eq b).
Proof.
  intros Ti Hb HT HM HV Hno a s fl lo hi Ha [[s1 Hfa]|[]] Hs Hlh Hlt [[s2 Hfn]|[]].
  destruct (view_Some _ _ _ _ Hb) as (f & Eb & Hsz & _). rewrite HV in Ha, Hfa, Hfn.
  destruct (decide (a = b + T)) as [Hr|Hr]; [|destruct (decide (a = b)) as [->|Hab]; [done|]].
  - injection Ha as <- <-. exfalso. destruct (t_in _ _ _ Ti b f Eb) as (lo' & hi' & Hs' & ? & ? & _).
    destruct (seg_unique _ _ _ lo hi lo' hi' a Ti Hs Hs') as [-> ->]; [lia|lia|].
    replace (a + (sz - T)) with (b + sz) in Hfn, Hlt by lia. rewrite !decide_False in Hfn by lia.
    apply (HM b sz true lo' hi' Hb); [left; eauto|done|lia|done|left; eauto].
  - destruct (view_Some _ _ _ _ Ha) as (g & Eg & Hg & _). pose proof (blk_range _ _ _ _ _ Ti Eg).
    assert (a + s <> b + T).
    { destruct (Z.lt_total a b) as [Hl|[?|Hl]]; [|done|].
      - pose proof (t_sep _ _ _ Ti a b g f Hl Eg Eb). lia.
      - pose proof (t_sep _ _ _ Ti b a f g Hl Eb Eg). lia. }
    rewrite decide_False in Hfn by done. exfalso. apply (HM a s fl lo hi Ha); [left; eauto|done|done|done|].
    left. case_decide as Hn; [rewrite Hn; eauto|eauto].
Qed.

(** The size of a block handed out for [T] bytes from one of [osz]: what is too
    small for a block of its own stays with it. *)
Definition cut (T osz : Z) : Z := if decide (osz - T < 24) then osz else T.

Lemma cut_bounds T osz : T <= osz -> T <= cut T osz < T + 24.
Proof. unfold cut. intros. case_decide; lia. Qed.

Lemma HeapSplit_spec fuel h V F S b f T :
  taken h V F S b (fsize f) nowhere -> V !! b = Some f -> 24 <= T -> T < fsize f -> T mod 8 = 0 ->
  (length F < fuel)%nat ->
  exists h' V' F', HeapSplit fuel b T h = Some h' /\ taken h' V' F' S b (cut T (fsize f)) (eq b) /\
    others b V V' /\ keeps (live V) (hmem h) (hmem h') /\ (length F' <= length F + 1)%nat.
Proof.
  intros [HL HT HSg Hvb HF HM HP] Eb H24 Hlt H8 Hf.
  destruct (hrep_get _ _ _ _ (l_rep _ _ _ HL) Eb) as (_ & Esz & _).
  pose proof (blk_range _ _ _ _ _ HT Eb). destruct (t_in _ _ _ HT b f Eb) as (lo & hi & Hs & Hlo & Hhi & _).
  pose proof (t_seg _ _ _ HT lo hi Hs).
  unfold HeapSplit. rewrite Esz. cbv zeta. rewrite (wrap32_small (fsize f - T)) by (unfold is_u32; lia).
  change (HEAP_ALIGN + sizeof_BlockMeta) with 24.
  destruct (Z.ltb_spec (fsize f - T) 24) as [Hsm|Hbig].
  { unfold cut. rewrite decide_True by lia. exists h, V, F. split; [done|].
    split; [by split; try done; eapply merged_weaken; [|exact HM]|].
    split; [apply others_refl|]. split; [done|lia]. }
  unfold cut. rewrite decide_False by lia.
  rewrite !wrap32_small by (unfold is_u32; rewrite ?wrap32_small; unfold is_u32; lia).
  replace (b + T + (fsize f - T)) with (b + fsize f) by lia.
  destruct (split_new h V F S b f T lo hi HL Eb Hs ltac:(lia) HT H24 ltac:(lia) H8) as (r & HL1 & Hr & Hno & Ts).
  cbv zeta in HL1, Ts. injection Hr as R1 R2 R3 R4. set (h1 := on_mem _ h) in *. set (V1 := <[b + T := r]> V) in *.
  assert (HSg1 : segs_ok h1 S) by (eapply segs_rest; [|exact HSg]; done).
  destruct (split_stamp h1 V F S b f T r lo hi) as (h2 & V2 & E2 & HL2 & T2 & Hr2 & Hv2 & Hk2); [done..|lia|done|lia|lia|done|done|].
  destruct (stamp_next b (b + fsize f) (fsize f - T) h1) as [h2'|]; [|done].
  rewrite some_bind in E2 |- *. injection E2 as E2. cbv zeta. rewrite E2. clear E2 h2'.
  assert (Hvr : view V2 (b + T) = Some (fsize f - T, true)).
  { rewrite Hv2, view_size, decide_False by lia. unfold view, V1. rewrite lookup_insert_eq. cbn. by rewrite R2, R4. }
  assert (Hs2 : is_Some (V2 !! (b + T))) by (unfold view in Hvr; destruct (V2 !! (b + T)); [eauto|done]).
  assert (HrF : b + T ∉ F).
  { rewrite HF. intros [(g & G & _) _]. congruence. }
  destruct (HeapListInsert_spec fuel (b + T) V2 h2 F HL2 Hs2 HrF) as (h3 & V3 & -> & HL3 & HV3 & Hr3 & Hm3); [lia|done|].
  assert (Hv3 : forall a, view V3 a = if decide (a = b + T) then Some (fsize f - T, true)
     else if decide (a = b) then Some (T, true) else view V a).
  { intros a. rewrite (view_hdr _ _ _ HV3). case_decide as Ha; [by subst|]. rewrite Hv2, view_size.
    unfold view, V1. rewrite lookup_insert_ne by done. fold (view V a).
    case_decide as Hab; [|done]. subst a. by rewrite Hvb. }
  assert (Hr13 : same_rest h h3) by (etrans; [|exact Hr3]; exact Hr2).
  exists h3, V3, (insert_sorted (b + T) F). split; [done|].
  split; [split|split; [|split; [|rewrite length_insert_sorted; lia]]].
  - done.
  - by eapply tiling_hdr.
  - by eapply segs_rest.
  - rewrite Hv3, decide_False, decide_True by lia. done.
  - intros a. rewrite elem_of_insert_sorted, free_view, Hv3. case_decide as Ha; [|case_decide as Hab].
    + subst a. split; [|by left]. intros _. split; [eauto|lia].
    + subst a. split; [|by intros [_ []]]. intros [?|Hin]; [lia|]. by apply HF in Hin as [_ []].
    + rewrite HF, free_view. naive_solver.
  - apply (merged_split V V3 S b (fsize f) T); [done|done|lia|done|done|unfold view; by rewrite Hno].
  - destruct Hr13 as (_ & _ & _ & ->). done.
  - intros a Ha. rewrite Hv3. case_decide as Har; [|rewrite decide_False by done; by left].
    subst a. right. split; [unfold view; by rewrite Hno|eauto].
  - etrans; [|etrans; [exact Hk2|]].
    + eapply (keeps_in 0 V S HT (live V) (live_sub V) _ _ b f (b + T) 16); [exact Eb| |lia|lia|lia|apply agree_Meta].
      intros sz Hl. apply live_view in Hl. congruence.
    + eapply (keeps_links 0 V S HT (live V) (live_sub V)); [|exact Hm3].
      intros c [->|Hc]%elem_of_cons.
      * exists b, f. split; [done|]. split; [|lia]. intros sz Hl. apply live_view in Hl. congruence.
      * apply HF in Hc as [(g & G & Hg) _]. eapply spare_self; [exact HT|exact G|].
        intros sz (g' & G' & Hg' & _). congruence.
Qed.

(** ** Handing out *)

Lemma dseg_w_magic V v x l p n : dseg V p l n -> dseg (alter (w_magic v) x V) p l n.
Proof. by apply dseg_alter. Qed.
Lemma dseg_w_free V v x l p n : dseg V p l n -> dseg (alter (w_free v) x V) p l n.
Proof. by apply dseg_alter. Qed.

(** The last steps of kmalloc on a block that is off the list. *)
Definition hand_out (b : Z) (h : Heap) : option Heap :=
  let h := on_mem (set_Magic HEAP_MAGIC b) h in
  let h := on_mem (set_IsFree false b) h in
  stamp_next b (b +w Size (hmem h) b) (Size (hmem h) b) h.

Lemma hand_out_spec h V F S b size :
  taken h V F S b size (eq b) ->
  exists h' V', hand_out b h = Some h' /\ heap_inv h' V' F S /\ view V' b = Some (size, false) /\
    (forall a, a <> b -> view V' a = view V a) /\ keeps (live V) (hmem h) (hmem h').
Proof.
  intros [[HR HD HH HS HA] HT HSg Hvb HF HM HP]. unfold view in Hvb. destruct (V !! b) as [f|] eqn:Eb; [|done].
  injection Hvb as Hsz Hfr. pose proof (blk_range _ _ _ _ _ HT Eb).
  destruct (t_in _ _ _ HT b f Eb) as (lo & hi & Hs & Hlo & Hhi & _). pose proof (t_seg _ _ _ HT lo hi Hs).
  destruct (t_blk _ _ _ HT b f Eb) as (Hmg & _).
  set (V1 := alter (w_magic HEAP_MAGIC) b V). set (V2 := alter (w_free false) b V1).
  set (h2 := on_mem (set_IsFree false b) (on_mem (set_Magic HEAP_MAGIC b) h)).
  assert (E1 : V1 !! b = Some (w_magic HEAP_MAGIC f)) by (unfold V1; by rewrite lookup_alter_eq, Eb).
  assert (E2 : V2 !! b = Some (w_free false (w_magic HEAP_MAGIC f))) by (unfold V2; by rewrite lookup_alter_eq, E1).
  assert (HL2 : linked h2 V2 F).
  { split; [|by apply dseg_w_free, dseg_w_magic|done..]. apply hrep_IsFree; [eauto|].
    apply hrep_Magic; [unfold is_u32, HEAP_MAGIC; lia|eauto|done]. }
  assert (T2 : tiling 0 V2 S).
  { apply tiling_free. eapply tiling_shape; [|exact HT]. intros a. unfold V1.
    destruct (decide (b = a)) as [<-|Hne]; [|by rewrite lookup_alter_ne].
    rewrite lookup_alter_eq, Eb. cbn. unfold shape. cbn. by rewrite Hmg. }
  assert (HSg2 : segs_ok h2 S) by (eapply segs_rest; [|exact HSg]; done).
  destruct (stamp_ok V2 S h2 b _ F lo hi HL2 HSg2 E2 Hs) as (h3 & V3 & E3 & HL3 & T3 & Hr3 & Hv3 & Hk3);
    [lia|by apply tiling_weaken|]. cbn [fsize w_free w_magic] in E3.
  destruct (hrep_get _ _ _ _ (l_rep _ _ _ HL2) E2) as (_ & Esz & _).
  unfold hand_out. fold h2. rewrite Esz. cbn [fsize w_free w_magic].
  rewrite (wrap32_small (b + fsize f)) by (unfold is_u32; lia). rewrite E3.
  assert (Hview : forall a, view V3 a = if decide (a = b) then Some (fsize f, false) else view V a).
  { intros a. rewrite Hv3. unfold V2. rewrite view_free. unfold V1. rewrite view_alter by done.
    case_decide as Ha; [|done]. subst a. unfold view. by rewrite Eb. }
  exists h3, V3. split; [done|]. split; [split|split; [|split]].
  - done.
  - done.
  - by eapply segs_rest.
  - intros a. rewrite HF, !free_view, Hview. case_decide as Ha; [|naive_solver].
    subst a. split; [by intros [_ []]|by intros [sz [=]]].
  - intros a sz fl lo' hi' Ha [[s1 Hfa]|[]] Hs' Hlh Hlt [[s2 Hfn]|[]]. rewrite Hview in Ha, Hfa, Hfn.
    destruct (decide (a = b)) as [|Hab]; [done|]. destruct (decide (a + sz = b)); [done|]. apply Hab. symmetry.
    apply (HM a sz fl lo' hi' Ha); [left; eauto|done|done|done|left; eauto].
  - destruct Hr3 as (_ & _ & _ & ->). done.
  - by rewrite Hview, decide_True, Hsz by done.
  - intros a Ha. by rewrite Hview, decide_False.
  - etrans; [transitivity (set_Magic HEAP_MAGIC b (hmem h))|apply Hk3].
    + eapply (keeps_hdr 0 V S HT (live V) (live_sub V)); [exact Eb|..|apply agree_store32]; lia.
    + eapply (keeps_hdr 0 V S HT (live V) (live_sub V)); [exact Eb|..|apply agree_store8]; lia.
    + intros a sz Hl. apply live_view in Hl. assert (a <> b).
      { intros ->. unfold view in Hl. rewrite Eb in Hl. cbn in Hl. congruence. }
      assert (Hv2 : view V2 a = Some (sz, false)).
      { unfold V2. rewrite view_free, decide_False by done. unfold V1. by rewrite view_alter. }
      unfold view in Hv2. destruct (V2 !! a) as [g|]; [|done]. injection Hv2 as ? ?. by exists g.
Qed.

(** Neither takes pages. *)
Lemma HeapSplit_hpmm fuel b T h h' : HeapSplit fuel b T h = Some h' -> hpmm h' = hpmm h.
Proof.
  unfold HeapSplit. cbv zeta. case_match; [by intros [= <-]|].
  destruct (stamp_next _ _ _ _) as [h1|] eqn:E1; [|done]. rewrite some_bind.
  intros E2%HeapListInsert_hpmm. rewrite E2. by apply stamp_next_hpmm in E1.
Qed.

Lemma tail_hpmm fuel b T h h' a :
  (if b =? 0 then Some (0, h)
   else
     h2 ← (h2 ← (if T <? Size (hmem h) b then HeapSplit fuel b T h else Some (on_mem (set_Size T b) h));
           hand_out b h2);
     Some (b +w sizeof_BlockMeta, h2)) = Some (a, h') -> hpmm h' = hpmm h.
Proof.
  case_match; [by intros [= _ <-]|]. destruct (if T <? _ then _ else _) as [h1|] eqn:E1; [|done].
  rewrite some_bind. destruct (hand_out b h1) as [h2|] eqn:E2; [|done]. rewrite some_bind. intros [= _ <-].
  unfold hand_out in E2. apply stamp_next_hpmm in E2. rewrite E2. cbn.
  case_match; [by apply HeapSplit_hpmm in E1|by injection E1 as <-].
Qed.

(** ** Sizes *)

Lemma total_size size :
  0 < size <= 4294967271 ->
  let T := HEAP_ALIGN_UP (size +w sizeof_BlockMeta) in
  size + 16 <= T < size + 24 /\ T mod 8 = 0 /\ 24 <= T /\ T < 4294967296.
Proof.
  intros Hs T. unfold T, HEAP_ALIGN_UP, sizeof_BlockMeta, HEAP_ALIGN.
  rewrite (wrap32_small (size + 16)) by (unfold is_u32; lia). rewrite wrap32_small by (unfold is_u32; lia).
  set (x := size + 16 + (8 - 1)).
  assert (E : Z.land x (u32_not (8 - 1)) = 8 * (x / 8)).
  { change (u32_not (8 - 1)) with (Z.ldiff (Z.ones 32) (Z.ones 3)).
    assert (E1 : Z.land x (Z.ldiff (Z.ones 32) (Z.ones 3)) = Z.ldiff (Z.land x (Z.ones 32)) (Z.ones 3)).
    { apply Z.bits_inj'. intros n Hn. rewrite !Z.land_spec, !Z.ldiff_spec, Z.land_spec.
      by destruct (Z.testbit x n), (Z.testbit (Z.ones 32) n), (Z.testbit (Z.ones 3) n). }
    rewrite E1, Z.land_ones, Z.mod_small by lia.
    rewrite Z.ldiff_ones_r, Z.shiftl_mul_pow2, Z.shiftr_div_pow2 by lia. change (2 ^ 3) with 8. lia. }
  rewrite E. pose proof (Z.div_mod x 8 ltac:(lia)). pose proof (Z.mod_pos_bound x 8 ltac:(lia)).
  split; [lia|]. split; [rewrite Z.mul_comm; apply Z.mod_mul; lia|]. lia.
Qed.

(** The pages asked for: none when the sum wraps, enough otherwise. *)
Lemma grow_pages T :
  24 <= T < 4294967296 -> T mod 8 = 0 ->
  let pages := (T +w PAGE_SIZE -w 1) / PAGE_SIZE in
  pages = 0 \/ (1 <= pages < 1048576 /\ T <= pages * 4096).
Proof.
  intros HT H8 pages. unfold pages, PAGE_SIZE, wrap32.
  destruct (Z.lt_ge_cases T 4294963200).
  - right. rewrite (Z.mod_small (T + 4096)), Z.mod_small by lia.
    pose proof (Z.div_mod (T + 4096 - 1) 4096 ltac:(lia)).
    pose proof (Z.mod_pos_bound (T + 4096 - 1) 4096 ltac:(lia)). lia.
  - destruct (decide (T = 4294963200)) as [->|Hne]; [by right; vm_compute; intuition congruence|left].
    replace (T + 4096) with (T - 4294963200 + 1 * 4294967296) by lia. rewrite Z.mod_add by lia.
    rewrite (Z.mod_small (T - 4294963200)), Z.mod_small by (Z.to_euclidean_division_equations; lia).
    apply Z.div_small. Z.to_euclidean_division_equations; lia.
Qed.

Lemma HeapGrow_zero fuel h V F S :
  heap_inv h V F S -> HeapGrow fuel 0 h = Some (0, h).
Proof.
  intros [HL T HSg HF HM HP]. unfold HeapGrow. case_match; [done|].
  destruct (HeapGrowthHint_spec h S HSg) as (hint & -> & _).
  { intros lo hi Hs. destruct (t_seg _ _ _ T lo hi Hs). unfold is_u32. lia. }
  rewrite some_bind. change (PageAllocPagesAt hint 0 (hpmm h)) with (Some (0, hpmm h)).
  rewrite some_bind. cbn [Z.eqb]. by rewrite set_hpmm_id.
Qed.

(** ** kmalloc *)

(** The block at [b] of [sz] bytes has come into use, and nothing else
    changed: it was not in use before, the other blocks in use are those that
    were, and their contents are untouched. *)
Record gained (V V' : Blocks) (m m' : Mem) (b sz : Z) : Prop := {
  gn_live : live V' b sz;
  gn_fresh : forall s, ~ live V b s;
  gn_same : forall a s, a <> b -> live V' a s <-> live V a s;
  gn_keeps : keeps (live V) m m' }.

Lemma others_live b V V' a s : others b V V' -> a <> b -> live V' a s <-> live V a s.
Proof.
  intros H Ha. rewrite !live_view. destruct (H a Ha) as [->|[-> [sz ->]]]; [done|]. split; congruence.
Qed.

(** From a block off the list to the result. *)
Lemma kmalloc_tail fuel h V F S b osz T :
  taken h V F S b osz nowhere -> 24 <= T <= osz -> T mod 8 = 0 -> (length F < fuel)%nat ->
  exists h' V' F',
    (h ← (if T <? Size (hmem h) b then HeapSplit fuel b T h else Some (on_mem (set_Size T b) h));
     hand_out b h) = Some h' /\
    heap_inv h' V' F' S /\ gained V V' (hmem h) (hmem h') b (cut T osz) /\
    (length F' <= length F + 1)%nat.
Proof.
  intros Htk HT H8 Hf. pose proof Htk as [HL Ti HSg Hvb HF HM HP].
  pose proof Hvb as Hvb'. unfold view in Hvb. destruct (V !! b) as [f|] eqn:Eb; [|done]. injection Hvb as Hsz Hfr.
  destruct (hrep_get _ _ _ _ (l_rep _ _ _ HL) Eb) as (_ & Esz & _). rewrite Esz.
  assert (HA : exists h1 V1 F1,
    (if T <? fsize f then HeapSplit fuel b T h else Some (on_mem (set_Size T b) h)) = Some h1 /\
    taken h1 V1 F1 S b (cut T osz) (eq b) /\ others b V V1 /\ keeps (live V) (hmem h) (hmem h1) /\
    (length F1 <= length F + 1)%nat).
  { destruct (Z.ltb_spec T (fsize f)).
    - rewrite <- Hsz in Htk |- *. apply (HeapSplit_spec fuel h V F S b f T); [done|done|lia|lia|done|done].
    - assert (ET : T = fsize f) by lia. unfold cut. rewrite decide_True by lia.
      exists (on_mem (set_Size T b) h), (alter (w_size T) b V), F.
      assert (Hsame : forall a, view (alter (w_size T) b V) a = view V a).
      { intros a. rewrite view_size. case_decide; [subst a|done]. rewrite Hvb'. cbn. by rewrite ET, Hsz. }
      split; [done|]. split; [split|split; [intros a _; left; apply Hsame|split; [|lia]]].
      + destruct HL as [HR HD HH HS HAd]. pose proof (blk_range _ _ _ _ _ Ti Eb).
        split; [|by apply dseg_alter|done..]. apply hrep_Size; [unfold is_u32; lia|eauto|done].
      + eapply tiling_shape; [|exact Ti]. intros a. destruct (decide (b = a)) as [<-|Hne];
          [|by rewrite lookup_alter_ne]. rewrite lookup_alter_eq, Eb. cbn. unfold shape. cbn. by rewrite ET.
      + eapply segs_rest; [|exact HSg]. done.
      + by rewrite Hsame.
      + intros a. by rewrite HF, !free_view, Hsame.
      + eapply merged_ext; [exact Hsame|]. by eapply merged_weaken; [|exact HM].
      + done.
      + eapply (keeps_hdr 0 V S Ti (live V) (live_sub V)); [exact Eb|..|apply agree_store32]; lia. }
  destruct HA as (h1 & V1 & F1 & -> & Htk1 & Ho & Hk & HF1). rewrite some_bind.
  destruct (hand_out_spec h1 V1 F1 S b _ Htk1) as (h' & V' & -> & Hinv & Hvb1 & Hv & Hk').
  exists h', V', F1. split; [done|]. split; [done|]. split; [split|done].
  - by apply live_view.
  - intros s Hl. apply live_view in Hl. congruence.
  - intros a s Ha. rewrite live_view, (Hv a Ha), <- live_view. by eapply others_live.
  - etrans; [exact Hk|]. intros a s x Ha Hx. apply (Hk' a s x); [|done].
    assert (a <> b) by (intros ->; apply live_view in Ha; congruence).
    by apply (others_live b V V1 a s Ho).
Qed.

Lemma kmalloc_unfold fuel size h :
  0 < size <= 4294967271 ->
  kmalloc fuel size h =
  (let T := HEAP_ALIGN_UP (size +w sizeof_BlockMeta) in
   '(b, h) ← HeapFindFree fuel T h;
   '(b, h) ← (if b =? 0 then
                '(b, h) ← HeapGrow fuel ((T +w PAGE_SIZE -w 1) / PAGE_SIZE) h;
                if b =? 0 then Some (0, h) else Some (b, HeapListRemove b h)
              else Some (b, h));
   if b =? 0 then Some (0, h)
   else
     h ← (h ← (if T <? Size (hmem h) b then HeapSplit fuel b T h else Some (on_mem (set_Size T b) h));
          hand_out b h);
     Some (b +w sizeof_BlockMeta, h)).
Proof.
  intros Hs. unfold kmalloc. rewrite (proj2 (Z.eqb_neq size 0)) by lia.
  change (4294967295 -w sizeof_BlockMeta -w HEAP_ALIGN) with 4294967271.
  rewrite (proj2 (Z.ltb_ge 4294967271 size)) by lia. cbv zeta.
  destruct (HeapFindFree _ _ _) as [[b h1]|]; [|done]. rewrite !some_bind.
  destruct (if b =? 0 then _ else _) as [[b2 h2]|]; [|done]. rewrite !some_bind.
  case_match; [done|]. destruct (if _ <? _ then _ else _) as [h3|]; [|done]. rewrite !some_bind.
  unfold hand_out. cbv zeta. by destruct (stamp_next _ _ _ _).
Qed.

(** What comes out of the free list or of a new segment. *)
Lemma gained_hdr V V1 V' m m1 m' b sz :
  same_hdr V V1 -> keeps (live V) m m1 -> gained V1 V' m1 m' b sz -> gained V V' m m' b sz.
Proof.
  intros HV Hk [G1 G2 G3 G4].
  assert (Hl : forall a s, live V1 a s <-> live V a s) by (intros; by rewrite !live_view, (view_hdr _ _ _ HV)).
  split; [done| | |].
  - intros s Hs. by apply (G2 s), Hl.
  - intros a s Ha. rewrite (G3 a s Ha). apply Hl.
  - etrans; [exact Hk|]. intros a s x Ha Hx. apply (G4 a s x); [by apply Hl|done].
Qed.

Lemma gained_grown V V1 V' m m1 m' b g sz :
  grown V V1 b g -> keeps (live V) m m1 -> gained V1 V' m1 m' b sz -> gained V V' m m' b sz.
Proof.
  intros [Hno Hb Hold] Hk [G1 G2 G3 G4].
  assert (Hl : forall a s, a <> b -> live V1 a s <-> live V a s).
  { intros a s Ha. specialize (Hold a Ha). unfold live.
    destruct (V !! a) as [f|], (V1 !! a) as [f1|]; cbn in Hold; try done.
    injection Hold as _ E1 _ E2. naive_solver congruence. }
  split; [done| | |].
  - intros s (f & E & _). congruence.
  - intros a s Ha. rewrite (G3 a s Ha). by apply Hl.
  - etrans; [exact Hk|]. intros a s x Ha Hx. apply (G4 a s x); [|done]. apply Hl; [|done].
    intros ->. destruct Ha as (f & E & _). congruence.
Qed.

Lemma kmalloc_spec fuel size h V F S :
  heap_inv h V F S -> 0 < size <= 4294967271 -> (length F + 1 < fuel)%nat ->
  let T := HEAP_ALIGN_UP (size +w sizeof_BlockMeta) in
  let pages := (T +w PAGE_SIZE -w 1) / PAGE_SIZE in
  (kmalloc fuel size h = Some (0, h) /\ Forall (too_small V T) F /\ (pages = 0 \/ no_room pages h)) \/
  (exists b h' V' F' S' sz, kmalloc fuel size h = Some (b + 16, h') /\ 0 < b /\
     heap_inv h' V' F' S' /\ T <= sz < T + 24 /\ gained V V' (hmem h) (hmem h') b sz /\
     (length F' <= length F + 1)%nat /\
     ((S' = S /\ hpmm h' = hpmm h /\ exists l1 l2 osz, F = l1 ++ b :: l2 /\ Forall (too_small V T) l1 /\
         view V b = Some (osz, true) /\ sz = cut T osz) \/
      (S' = S ++ [(b, b + pages * 4096)] /\ Forall (too_small V T) F /\ sz = cut T (pages * 4096))) /\
     claims h h' S S').
Proof.
  intros Hinv Hs Hf T pages. rewrite (kmalloc_unfold fuel size h Hs). cbv zeta. fold T. fold pages.
  destruct (total_size size Hs) as (HT1 & HT8 & HT24 & HT32). fold T in HT1, HT8, HT24, HT32.
  assert (Hend : forall b h1 V1 F1 S1 osz, taken h1 V1 F1 S1 b osz nowhere -> T <= osz -> (length F1 < fuel)%nat ->
    exists h' V' F',
      (if b =? 0 then Some (0, h1)
       else
         h2 ← (h2 ← (if T <? Size (hmem h1) b then HeapSplit fuel b T h1 else Some (on_mem (set_Size T b) h1));
               hand_out b h2);
         Some (b +w sizeof_BlockMeta, h2)) = Some (b + 16, h') /\ 0 < b /\
      heap_inv h' V' F' S1 /\ gained V1 V' (hmem h1) (hmem h') b (cut T osz) /\
      (length F' <= length F1 + 1)%nat).
  { intros b h1 V1 F1 S1 osz Htk Ho Hf1.
    destruct (kmalloc_tail fuel h1 V1 F1 S1 b osz T Htk ltac:(lia) HT8 Hf1)
      as (h' & V' & F' & E & Hinv' & Hg & HF').
    destruct (V1 !! b) as [f|] eqn:Eb; [|pose proof (tk_view _ _ _ _ _ _ _ Htk) as Hv; unfold view in Hv; by rewrite Eb in Hv].
    pose proof (blk_range _ _ _ _ _ (tk_tiling _ _ _ _ _ _ _ Htk) Eb).
    rewrite (proj2 (Z.eqb_neq b 0)) by lia. rewrite E, some_bind.
    unfold sizeof_BlockMeta. rewrite wrap32_small by (unfold is_u32; lia).
    exists h', V', F'. split; [done|]. split; [lia|]. done. }
  pose proof (hi_linked _ _ _ _ Hinv) as HL.
  destruct (HeapFindFree_spec fuel T h V F HL ltac:(lia)) as [(l1 & b & l2 & f & EF & Eb & Hsz & Hsm & ->)|[-> Hsm]];
    rewrite some_bind.
  - right. destruct (take_free h V F S b l1 l2 f Hinv EF Eb) as (V1 & Htk & HV & Hk).
    pose proof (blk_range _ _ _ _ _ (hi_tiling _ _ _ _ Hinv) Eb). rewrite (proj2 (Z.eqb_neq b 0)) by lia.
    rewrite some_bind.
    destruct (Hend b (HeapListRemove b h) V1 (l1 ++ l2) S (fsize f) Htk) as (h' & V' & F' & E & Hb & Hi & Hg & HF');
      [lia|rewrite EF, length_app in Hf; rewrite length_app; cbn in Hf; lia|].
    rewrite E. exists b, h', V', F', S, (cut T (fsize f)). do 3 (split; [done|]).
    split; [by apply cut_bounds|]. split; [by eapply gained_hdr|].
    split; [rewrite EF, length_app; rewrite length_app in HF'; cbn; lia|]. 
    apply tail_hpmm in E. rewrite HeapListRemove_hpmm in E. split; [left|by apply claims_same].
    split; [done|]. split; [done|]. exists l1, l2, (fsize f). split; [done|]. split; [done|]. split; [|done].
    destruct (proj1 (hi_free _ _ _ _ Hinv b)) as (g & G & Hg'); [rewrite EF; apply elem_of_middle|].
    unfold view. rewrite Eb in G |- *. simplify_eq. cbn. by rewrite Hg'.
  - cbn [Z.eqb]. destruct (grow_pages T ltac:(lia) HT8) as [Hz|[Hp Hpg]]; [fold pages in Hz|fold pages in Hp, Hpg].
    { left. rewrite Hz, (HeapGrow_zero fuel h V F S Hinv), some_bind. auto. }
    destruct (HeapGrow_spec fuel pages h V F S Hinv Hp ltac:(lia)) as (b & h1 & -> & Hc). rewrite some_bind.
    destruct Hc as [(-> & -> & Hno)|(V1 & Hinv1 & Hb & Hgr & Hk & Hcl)]; [left; auto|right].
    rewrite (proj2 (Z.eqb_neq b 0)) by lia. rewrite some_bind.
    destruct (gr_blk _ _ _ _ Hgr) as (f & Eb & Hfs & Hff).
    destruct (take_free h1 V1 _ _ b (below b F) (above b F) f Hinv1 eq_refl Eb) as (V2 & Htk & HV & Hk2).
    destruct (Hend b (HeapListRemove b h1) V2 _ _ (fsize f) Htk) as (h' & V' & F' & E & _ & Hi & Hg & HF');
      [lia|rewrite below_above; lia|].
    rewrite E. exists b, h', V', F', (S ++ [(b, b + pages * 4096)]), (cut T (fsize f)). split; [done|].
    split; [lia|]. split; [exact Hi|]. split; [apply cut_bounds; lia|].
    split; [eapply gained_grown; [exact Hgr|exact Hk|]; by eapply gained_hdr|].
    rewrite below_above in HF'. split; [done|]. split; [right; by rewrite Hfs|].
    apply tail_hpmm in E. intros q. rewrite E, HeapListRemove_hpmm. apply Hcl.
Qed.
