(* ===== verification/HeapFree.v ===== *)
(** * kfree

    The two merges, the stamp and the return to the free list. *)

From Stdlib Require Import Sorted.
From S2P Require Import Prelude PageAlloc Heap HeapInv HeapTiling HeapOps HeapAlloc.

(** ** What every step keeps *)

(** The blocks in use but for [b], the one being freed. *)
Definition used (V : Blocks) (b a s : Z) : Prop := a <> b /\ view V a = Some (s, false).

Lemma used_sub V b : sub (used V b) V.
Proof.
  intros a s [_ H]. unfold view in H. destruct (V !! a) as [f|]; [|done]. injection H as ? ?. by exists f.
Qed.

(** The other blocks in use and their contents stay as they are. *)
Definition kept (V : Blocks) (b : Z) (m : Mem) (V' : Blocks) (b' : Z) (m' : Mem) : Prop :=
  (forall a s, used V' b' a s <-> used V b a s) /\ keeps (used V b) m m'.

Lemma kept_trans V1 b1 m1 V2 b2 m2 V3 b3 m3 :
  kept V1 b1 m1 V2 b2 m2 -> kept V2 b2 m2 V3 b3 m3 -> kept V1 b1 m1 V3 b3 m3.
Proof.
  intros [H1 K1] [H2 K2]. split; [intros a s; by rewrite H2|].
  etrans; [exact K1|]. intros a s x Ha. apply (K2 a s x). by apply H1.
Qed.

Lemma kept_view V b m V' m' :
  (forall a, view V' a = view V a) -> keeps (used V b) m m' -> kept V b m V' b m'.
Proof. intros Hv Hk. split; [|done]. intros a s. unfold used. by rewrite Hv. Qed.

(** The heap while [b], of [sz] bytes and flag [fr], is being freed: only the
    block after it may have a stale previous size, and only the pair with it,
    if [E] allows it, may be left to merge. *)
Record freeing (h : Heap) (V : Blocks) (F : list Z) (S : list (Z * Z)) (b sz : Z) (fr : bool)
    (E : Z -> Prop) : Prop := {
  fg_linked : linked h V F;
  fg_tiling : tiling (b + sz) V S;
  fg_segs : segs_ok h S;
  fg_view : view V b = Some (sz, fr);
  fg_free : forall a, a ∈ F <-> is_free V a;
  fg_merged : merged V S (eq b) E;
  fg_pages : pages_ok (hpmm h) S }.

Lemma free_spare X V S (F : list Z) b c :
  tiling X V S -> (forall a, a ∈ F <-> is_free V a) -> c ∈ F -> spare V (used V b) c.
Proof.
  intros T HF Hc. destruct (proj1 (HF c) Hc) as (g & G & Hg). eapply spare_self; [exact T|exact G|].
  intros s [_ Hv]. unfold view in Hv. rewrite G in Hv. cbn in Hv. congruence.
Qed.

(** ** Merging a block with the one after it *)

(** The two assignments of a merge: [b] grows over [n], whose header is wiped. *)
Definition absorb (b n size : Z) (h : Heap) : Heap :=
  on_mem (set_Meta 0 0 0 false n) (on_mem (set_Size size b) h).

Lemma view_absorbed V b n size a :
  b <> n -> view (delete n (alter (w_size size) b V)) a =
    if decide (a = n) then None
    else if decide (a = b) then (fun '(_, fr) => (size, fr)) <$> view V a else view V a.
Proof.
  intros Hbn. case_decide as Ha.
  - subst a. unfold view. by rewrite lookup_delete_eq.
  - rewrite <- view_size. unfold view. by rewrite lookup_delete_ne.
Qed.

Lemma absorb_spec h V F S X b n f g lo hi :
  linked h V F -> tiling X V S -> X = 0 \/ X = n ->
  V !! b = Some f -> n = b + fsize f -> V !! n = Some g -> (lo, hi) ∈ S -> lo <= b -> n < hi -> (n ∉ F) ->
  let h' := absorb b n (fsize f + fsize g) h in
  let V' := delete n (alter (w_size (fsize f + fsize g)) b V) in
  linked h' V' F /\ tiling (b + (fsize f + fsize g)) V' S /\ same_rest h h' /\
  (forall x, keeps (used V x) (hmem h) (hmem h')).
Proof.
  intros [HR HD HH HS HA] T HX Eb -> Eg Hs Hlo Hn HnF h' V'.
  pose proof (blk_range _ _ _ _ _ T Eb). pose proof (blk_range _ _ _ _ _ T Eg).
  set (n := b + fsize f) in *. set (size := fsize f + fsize g) in *.
  split; [split|split; [|split; [done|]]]; try done.
  - unfold V'. rewrite <- (delete_alter_eq (alter (w_size size) b V) n (fun k => mkF 0 0 0 false (fnp k) (fnn k))).
    apply hrep_delete, hrep_Meta; [unfold is_u32; lia..|rewrite lookup_alter_ne by lia; eauto|].
    apply hrep_Size; [unfold is_u32; lia|eauto|done].
  - apply (dseg_ext (alter (w_size size) b V)); [|by apply dseg_alter].
    intros x k Hx E. exists k. split; [|done]. unfold V'. rewrite lookup_delete_ne; [done|]. intros ->. done.
  - replace (b + size) with (n + fsize g) by lia. by apply (tiling_merge X V S b f g lo hi).
  - intros x. transitivity (set_Size size b (hmem h)).
    + eapply (keeps_hdr X V S T _ (used_sub V x)); [exact Eb|..|apply agree_store32]; lia.
    + eapply (keeps_hdr X V S T _ (used_sub V x)); [exact Eg|..|apply agree_Meta]; lia.
Qed.

(** What a merge does to sizes and flags. *)
Section Merged.
Context (V V' : Blocks) (b n size : Z) (fr : bool).
Context (Hview : forall a, view V' a =
  if decide (a = n) then None else if decide (a = b) then Some (size, fr) else view V a).

(** Over the free block on the right. *)
Lemma merged_free_right a s0 sn :
  view V b = Some (s0, fr) -> view V n = Some (sn, true) -> is_free V' a <-> is_free V a /\ a <> n.
Proof.
  intros Hb Hn. rewrite !free_view, Hview. case_decide as Han; [naive_solver|].
  case_decide as Hab; [subst a; rewrite Hb|]; naive_solver.
Qed.

Lemma merged_used_right a s sn : view V n = Some (sn, true) -> used V' b a s <-> used V b a s.
Proof.
  intros Hn. unfold used. rewrite Hview. case_decide as Han; [subst a; naive_solver|].
  case_decide; naive_solver.
Qed.

(** Of the block being freed into the free one on its left. *)
Lemma merged_free_left a s0 sn :
  fr = true -> view V b = Some (s0, true) -> view V n = Some (sn, false) -> is_free V' a <-> is_free V a.
Proof.
  intros -> Hb Hn. rewrite !free_view, Hview. case_decide as Han; [subst a; rewrite Hn; naive_solver|].
  case_decide as Hab; [subst a; rewrite Hb|]; naive_solver.
Qed.

Lemma merged_used_left a s s0 : view V b = Some (s0, true) -> used V' b a s <-> used V n a s.
Proof.
  intros Hb. unfold used. rewrite Hview. case_decide as Han; [subst a; naive_solver|].
  case_decide as Hab; [subst a; rewrite Hb|]; naive_solver.
Qed.

Lemma merged_join_left S s0 :
  fr = true -> view V b = Some (s0, true) -> merged V S nowhere nowhere -> merged V' S (eq b) (eq b).
Proof.
  intros -> Hb HM a sz fl lo hi Ha Hfa Hs Hlh Hlt Hfn. destruct (decide (b = a)) as [|Hab]; [done|]. exfalso.
  destruct Hfa as [[s1 Hfa]|]; [|done]. rewrite Hview in Ha, Hfa. destruct (decide (a = n)); [done|].
  rewrite decide_False in Ha, Hfa by done. apply (HM a sz fl lo hi Ha); [left; eauto|done|done|done|left].
  destruct Hfn as [[s2 Hfn]|<-]; [|eauto]. rewrite Hview in Hfn. destruct (decide (a + sz = n)); [done|].
  destruct (decide (a + sz = b)) as [->|]; eauto.
Qed.

Lemma merged_join_right S s0 sn :
  view V b = Some (s0, fr) -> n = b + s0 -> 0 < s0 -> view V n = Some (sn, true) -> size = s0 + sn ->
  0 < sn -> merged V S (eq b) (eq b) -> merged V' S (eq b) nowhere.
Proof.
  intros Hb -> H0 Hn -> Hsn HM a sz fl lo hi Ha Hfa Hs Hlh Hlt Hfn.
  assert (Hfn' : frees V (eq b) (a + sz)).
  { destruct Hfn as [[s2 Hfn]|]; [|by right]. rewrite Hview in Hfn. destruct (decide _); [done|].
    destruct (decide _) as [|]; [by right|left; eauto]. }
  destruct (decide (a = b)) as [->|Hab].
  - rewrite Hview, decide_False, decide_True in Ha by lia. injection Ha as <- <-.
    assert (b = b + s0); [|lia]. apply (HM (b + s0) sn true lo hi Hn); [left; eauto|done|lia|lia|].
    by replace (b + s0 + sn) with (b + (s0 + sn)) by lia.
  - rewrite Hview in Ha. destruct (decide (a = b + s0)); [done|]. rewrite decide_False in Ha by done.
    apply Hab. symmetry. apply (HM a sz fl lo hi Ha); [|done|done|done|done].
    destruct Hfa as [[s1 Hfa]|]; [|by right]. rewrite Hview, !decide_False in Hfa by done. left; eauto.
Qed.
End Merged.

(** Where there is nothing to merge. *)
Lemma merged_skip_left V S b :
  merged V S nowhere nowhere ->
  (forall a s lo hi, view V a = Some (s, true) -> (lo, hi) ∈ S -> lo <= a < hi -> a + s < hi -> a + s <> b) ->
  merged V S (eq b) (eq b).
Proof.
  intros HM Hl a sz fl lo hi Ha Hfa Hs Hlh Hlt Hfn. destruct (decide (b = a)) as [|Hab]; [done|]. exfalso.
  destruct Hfa as [[s1 Hfa]|]; [|done]. rewrite Ha in Hfa. injection Hfa as <- ->.
  destruct Hfn as [[s2 Hfn]|Hb].
  - apply (HM a sz true lo hi Ha); [left; eauto|done|done|done|left; eauto].
  - by apply (Hl a sz lo hi).
Qed.

Lemma merged_skip_right V S b sz fr lo hi :
  view V b = Some (sz, fr) -> 0 < sz -> (lo, hi) ∈ S -> lo <= b < hi ->
  (forall lo' hi', (lo', hi') ∈ S -> lo' <= b < hi' -> hi' = hi) ->
  (b + sz < hi -> forall s, view V (b + sz) <> Some (s, true)) ->
  merged V S (eq b) (eq b) -> merged V S (eq b) nowhere.
Proof.
  intros Hb H0 Hs Hlh Hu Hn HM a s fl lo' hi' Ha Hfa Hs' Hlh' Hlt Hfn.
  pose proof (HM a s fl lo' hi' Ha Hfa Hs' Hlh' Hlt Hfn) as <-. rewrite (Hu lo' hi' Hs' Hlh') in Hlt. simplify_eq.
  destruct Hfn as [[s2 Hfn]|]; [by eapply Hn|lia].
Qed.

Lemma merged_retire V V' S b sz fr :
  view V b = Some (sz, fr) -> (forall a, view V' a = if decide (a = b) then Some (sz, true) else view V a) ->
  merged V S (eq b) nowhere -> merged V' S nowhere nowhere.
Proof.
  intros Hb HV HM a s fl lo hi Ha Hfa Hs Hlh Hlt Hfn.
  assert (Hfr : forall c, frees V' nowhere c -> frees V (eq b) c).
  { intros c [[s1 Hc]|[]]. rewrite HV in Hc. case_decide; [by right|left; eauto]. }
  rewrite HV in Ha. case_decide as Hab; [|by apply (HM a s fl lo hi Ha); auto].
  subst a. injection Ha as <- <-. apply (HM b sz fr lo hi Hb); auto.
Qed.

(** The block at [left] before [b] is no free one. *)
Lemma no_free_left V S b f :
  tiling 0 V S -> V !! b = Some f ->
  (fprev f <> 0 -> exists g, V !! (b - fprev f) = Some g /\ fsize g = fprev f /\ ffree g = false) ->
  forall a s lo hi, view V a = Some (s, true) -> (lo, hi) ∈ S -> lo <= a < hi -> a + s < hi -> a + s <> b.
Proof.
  intros T Eb Hg a s lo hi Ha Hs Hlh Hlt Hn. destruct (view_Some _ _ _ _ Ha) as (k & Ek & Hk & Hfk).
  pose proof (blk_range _ _ _ _ _ T Ek). pose proof (blk_range _ _ _ _ _ T Eb).
  destruct (blk_in _ _ _ _ _ _ _ T Eb Hs) as (_ & HLo & _); [lia|].
  destruct HLo as [[? _]|[_ HL]]; [lia|]. destruct (HL ltac:(lia)) as (Hpos & _).
  destruct (Hg ltac:(lia)) as (g & Eg & Hgs & Hgf). pose proof (blk_range _ _ _ _ _ T Eg).
  destruct (Z.lt_total a (b - fprev f)) as [Hl|[->|Hl]].
  - pose proof (t_sep _ _ _ T _ _ k g Hl Ek Eg). lia.
  - congruence.
  - pose proof (t_sep _ _ _ T _ _ g k Hl Eg Ek). lia.
Qed.

(** The block before [b] is in the same segment. *)
Lemma left_block V S b f lo hi :
  tiling 0 V S -> V !! b = Some f -> (lo, hi) ∈ S -> lo <= b < hi -> fprev f <> 0 ->
  exists g, V !! (b - fprev f) = Some g /\ fsize g = fprev f /\ lo <= b - fprev f.
Proof.
  intros T Eb Hs Hb Hp. pose proof (blk_range _ _ _ _ _ T Eb).
  destruct (blk_in _ _ _ _ _ _ _ T Eb Hs Hb) as (_ & [[_ H0]|[Hlt HL]] & _); [done|].
  destruct HL as (Hpos & g & G & Hg); [lia|]. exists g. split; [done|]. split; [done|].
  destruct (t_in _ _ _ T _ _ G) as (lo' & hi' & Hs' & H1 & H2 & _). rewrite Hg in H2.
  destruct (seg_unique _ _ _ lo hi lo' hi' (b - 1) T Hs Hs') as [-> ->]; lia.
Qed.

Lemma merge_left_spec h V F S b sz :
  heap_inv h V F S -> view V b = Some (sz, false) ->
  exists b' fr h' V' sz', merge_left b h = (b', fr, h') /\ freeing h' V' F S b' sz' fr (eq b') /\
    kept V b (hmem h) V' b' (hmem h') /\ (fr = false -> b' = b) /\
    (forall lo hi, (lo, hi) ∈ S -> lo <= b < hi -> lo <= b' < hi).
Proof.
  intros [HL T HSg HF HM HP] Hv. destruct (view_Some _ _ _ _ Hv) as (f & Eb & Hsz & Hfr).
  pose proof (blk_range _ _ _ _ _ T Eb).
  destruct (hrep_get _ _ _ _ (l_rep _ _ _ HL) Eb) as (_ & Esz & Epv & _ & _ & _).
  assert (Hskip : (fprev f <> 0 -> exists g, V !! (b - fprev f) = Some g /\ fsize g = fprev f /\ ffree g = false) ->
    freeing h V F S b sz false (eq b)).
  { intros Hg. split; try done; [by apply tiling_weaken|]. apply merged_skip_left; [done|].
    by apply (no_free_left V S b f). }
  assert (Hkept : kept V b (hmem h) V b (hmem h)) by (by apply kept_view).
  unfold merge_left. rewrite Epv. destruct (Z.eqb_spec (fprev f) 0) as [Hp|Hp]; cbn [negb].
  { exists b, false, h, V, sz. split; [done|]. by split; [apply Hskip|]. }
  destruct (t_in _ _ _ T b f Eb) as (lo & hi & Hs & Hlo & Hhi & _). pose proof (t_seg _ _ _ T lo hi Hs).
  destruct (left_block V S b f lo hi T Eb Hs) as (g & Eg & Hg & Hll); [lia|done|].
  pose proof (blk_range _ _ _ _ _ T Eg). rewrite (wrap32_small (b - fprev f)) by (unfold is_u32; lia).
  set (left := b - fprev f) in *. destruct (t_blk _ _ _ T left g Eg) as (Hmg & _).
  destruct (hrep_get _ _ _ _ (l_rep _ _ _ HL) Eg) as (-> & Elz & _ & -> & _ & _).
  rewrite Hmg, Z.eqb_refl. cbn [andb]. destruct (ffree g) eqn:Hgf.
  2: { exists b, false, h, V, sz. split; [done|]. split; [|done]. apply Hskip. intros _. by exists g. }
  rewrite Esz, Elz. rewrite (wrap32_small (fsize g + fsize f)) by (unfold is_u32; lia).
  assert (HbF : b ∉ F).
  { rewrite HF, free_view. intros [s Hs']. congruence. }
  destruct (absorb_spec h V F S 0 left b g f lo hi) as (HL' & T' & Hr' & Hk');
    [done|done|by left|done|lia|done|done|done|lia|done|]. cbv zeta in *.
  set (V' := delete b _) in *. fold (absorb left b (fsize g + fsize f) h).
  assert (Hlb : left <> b) by lia.
  assert (Hview : forall a, view V' a = if decide (a = b) then None
     else if decide (a = left) then Some (fsize g + fsize f, true) else view V a).
  { intros a. unfold V'. rewrite view_absorbed by done. case_decide; [done|]. case_decide; [subst a|done].
    unfold view. rewrite Eg. cbn. by rewrite Hgf. }
  assert (Hvl : view V left = Some (fsize g, true)) by (unfold view; rewrite Eg; cbn; by rewrite Hgf).
  exists left, true, (absorb left b (fsize g + fsize f) h), V', (fsize g + fsize f). split; [done|].
  split; [split|split; [split; [|apply Hk']|split; [done|]]].
  - done.
  - done.
  - by eapply segs_rest.
  - by rewrite Hview, decide_False, decide_True by done.
  - intros a. rewrite HF. symmetry.
    exact (merged_free_left V V' left b _ true Hview a _ sz eq_refl Hvl Hv).
  - exact (merged_join_left V V' left b _ true Hview S _ eq_refl Hvl HM).
  - destruct Hr' as (_ & _ & _ & ->). done.
  - intros a s. exact (merged_used_left V V' left b _ true Hview a s _ Hvl).
  - intros lo' hi' Hs' Hb'. destruct (seg_unique _ _ _ lo hi lo' hi' b T) as [<- <-]; [done..|lia|done|lia].
Qed.

Lemma merge_right_spec h V F S b sz fr lo hi :
  freeing h V F S b sz fr (eq b) -> (lo, hi) ∈ S -> lo <= b < hi ->
  exists h' V' F' sz', merge_right b h = Some h' /\ freeing h' V' F' S b sz' fr nowhere /\
    kept V b (hmem h) V' b (hmem h') /\ (length F' <= length F)%nat.
Proof.
  intros Hfg Hs Hb. pose proof Hfg as [HL T HSg Hv HF HM HP]. destruct (view_Some _ _ _ _ Hv) as (f & Eb & Hsz & Hfr).
  pose proof (blk_range _ _ _ _ _ T Eb). pose proof (t_seg _ _ _ T lo hi Hs).
  destruct (hrep_get _ _ _ _ (l_rep _ _ _ HL) Eb) as (_ & Esz & _).
  destruct (next_block _ _ _ _ _ _ _ T Eb Hs Hb) as [Hn Hnle]. rewrite Hsz in *.
  assert (Hskip : (b + sz < hi -> forall s, view V (b + sz) <> Some (s, true)) ->
    exists h' V' F' sz', Some h = Some h' /\ freeing h' V' F' S b sz' fr nowhere /\
    kept V b (hmem h) V' b (hmem h') /\ (length F' <= length F)%nat).
  { intros Hnf. exists h, V, F, sz. split; [done|]. split.
    { split; try done. apply (merged_skip_right V S b sz fr lo hi); [done|lia|done|done| |done|done].
      intros lo' hi' Hs' Hb'. by destruct (seg_unique _ _ _ lo hi lo' hi' b T). } split; [by apply kept_view|done]. }
  unfold merge_right. rewrite Esz. destruct (HeapFindSegment_spec _ _ _ _ _ _ _ HSg T Hs Hb) as (i & -> & Ei).
  rewrite some_bind, Ei. cbv zeta. rewrite (wrap32_small (b + sz)) by (unfold is_u32; lia).
  destruct (Z.ltb_spec (b + sz) hi) as [Hlt|]; [|apply Hskip; lia]. destruct (Hn Hlt) as [g Eg].
  destruct (hrep_get _ _ _ _ (l_rep _ _ _ HL) Eg) as (_ & Enz & _ & -> & _). cbn [andb].
  destruct (ffree g) eqn:Hgf.
  2: { apply Hskip. intros _ s Hvn. unfold view in Hvn. rewrite Eg in Hvn. cbn in Hvn. congruence. }
  clear Hskip. set (n := b + sz) in *.
  pose proof (blk_range _ _ _ _ _ T Eg). destruct (blk_in _ _ _ _ _ _ _ T Eg Hs ltac:(lia)) as (Hnh & _).
  assert (HnF : n ∈ F) by (apply HF; by exists g).
  apply list_elem_of_split in HnF as (l1 & l2 & ->).
  destruct (HeapListRemove_spec n l1 l2 V h HL) as (V1 & HL1 & HV1 & Hr1 & Hm1).
  destruct (sorted_app_split _ _ _ (l_sorted _ _ _ HL)) as (Hn1 & Hn2 & _).
  set (h1 := HeapListRemove n h) in *.
  destruct (same_hdr_Some V V1 b f HV1 Eb) as (f1 & Eb1 & [= F1 F2 F3 F4]).
  destruct (same_hdr_Some V V1 n g HV1 Eg) as (g1 & Eg1 & [= G1 G2 G3 G4]).
  destruct (hrep_get _ _ _ _ (l_rep _ _ _ HL1) Eb1) as (_ & Esz1 & _).
  rewrite Enz, Esz1, F2, Hsz. rewrite (wrap32_small (sz + fsize g)) by (unfold is_u32; lia).
  destruct (absorb_spec h1 V1 (l1 ++ l2) S n b n f1 g1 lo hi) as (HL' & T' & Hr' & Hk');
    [done|by eapply tiling_hdr|by right|done|lia|done|done|lia|lia|
     rewrite not_elem_of_app; done|]. cbv zeta in *. rewrite F2, G2, Hsz in *.
  set (V' := delete n _) in *. fold (absorb b n (sz + fsize g) h1).
  assert (Hview : forall a, view V' a = if decide (a = n) then None
     else if decide (a = b) then Some (sz + fsize g, fr) else view V a).
  { intros a. unfold V'. rewrite view_absorbed by lia. rewrite (view_hdr _ _ _ HV1).
    case_decide; [done|]. case_decide; [subst a; by rewrite Hv|done]. }
  assert (Hvn : view V n = Some (fsize g, true)) by (unfold view; rewrite Eg; cbn; by rewrite Hgf).
  exists (absorb b n (sz + fsize g) h1), V', (l1 ++ l2), (sz + fsize g). split; [done|].
  split; [split|split; [split|rewrite !length_app; cbn; lia]].
  - done.
  - done.
  - apply (segs_rest h1); [exact Hr'|]. exact (segs_rest h h1 S Hr1 HSg).
  - by rewrite Hview, decide_False, decide_True by lia.
  - intros a. rewrite (elem_of_removed a n l1 l2 Hn1 Hn2), HF. symmetry.
    exact (merged_free_right V V' b n _ fr Hview a sz (fsize g) Hv Hvn).
  - apply (merged_join_right V V' b n (sz + fsize g) fr Hview S sz (fsize g)); [done|done|lia|done|done|lia|done].
  - destruct Hr' as (_ & _ & _ & ->). destruct Hr1 as (_ & _ & _ & ->). done.
  - intros a s. exact (merged_used_right V V' b n _ fr Hview a s (fsize g) Hvn).
  - transitivity (hmem h1).
    + eapply (keeps_links _ V S T _ (used_sub V b)); [|exact Hm1]. intros c Hc. by eapply free_spare.
    + intros a s x [Ha Hva]. apply (Hk' b a s x). split; [done|]. by rewrite (view_hdr _ _ _ HV1).
Qed.

(** ** The rest of kfree *)

(** Stamp, flag and list. *)
Definition retire (fuel : nat) (b : Z) (merged_left : bool) (h : Heap) : option Heap :=
  h ← stamp_next b (b +w Size (hmem h) b) (Size (hmem h) b) h;
  let h := on_mem (set_IsFree true b) h in
  if negb merged_left then HeapListInsert fuel b h else Some h.

Lemma retire_spec fuel h V F S b sz fr lo hi :
  freeing h V F S b sz fr nowhere -> (lo, hi) ∈ S -> lo <= b < hi -> (length F < fuel)%nat ->
  exists h' V' F', retire fuel b fr h = Some h' /\ heap_inv h' V' F' S /\
    view V' b = Some (sz, true) /\ kept V b (hmem h) V' b (hmem h') /\ (length F' <= length F + 1)%nat.
Proof.
  intros [HL T HSg Hv HF HM HP] Hs Hb Hf. destruct (view_Some _ _ _ _ Hv) as (f & Eb & Hsz & Hfr). rewrite <- Hsz in *.
  pose proof (blk_range _ _ _ _ _ T Eb). destruct (hrep_get _ _ _ _ (l_rep _ _ _ HL) Eb) as (_ & Esz & _).
  unfold retire. rewrite Esz, (wrap32_small (b + fsize f)) by (unfold is_u32; lia).
  destruct (stamp_ok V S h b f F lo hi HL HSg Eb Hs Hb T) as (h1 & V1 & -> & HL1 & T1 & Hr1 & Hv1 & Hk1).
  rewrite some_bind. cbv zeta. set (h2 := on_mem (set_IsFree true b) h1). set (V2 := alter (w_free true) b V1).
  destruct (view_Some V1 b (fsize f) fr) as (f1 & Eb1 & _); [by rewrite Hv1|].
  assert (HL2 : linked h2 V2 F).
  { destruct HL1 as [HR HD HH HS HA]. split; [|by apply dseg_w_free|done..]. apply hrep_IsFree; [eauto|done]. }
  assert (T2 : tiling 0 V2 S) by by apply tiling_free.
  assert (Hview : forall a, view V2 a = if decide (a = b) then Some (fsize f, true) else view V a).
  { intros a. unfold V2. rewrite view_free, Hv1. case_decide; [subst a; by rewrite Hv|done]. }
  assert (Hk2 : keeps (used V b) (hmem h) (hmem h2)).
  { etrans; [apply Hk1, used_sub|]. eapply (keeps_hdr 0 V1 S T1 (used V b)); [|exact Eb1|..|apply agree_store8]; try lia.
    intros a s [_ Ha]. rewrite <- Hv1 in Ha. by destruct (view_Some _ _ _ _ Ha) as (g & G & Hg & _); exists g. }
  assert (Hused : forall a s, used V2 b a s <-> used V b a s).
  { intros a s. unfold used. rewrite Hview. case_decide; naive_solver. }
  assert (Hfree : forall a, is_free V2 a <-> a = b \/ is_free V a).
  { intros a. rewrite !free_view, Hview. case_decide; naive_solver. }
  assert (HP2 : pages_ok (hpmm h2) S) by (destruct Hr1 as (_ & _ & _ & Ep); unfold h2; cbn; by rewrite Ep).
  assert (HM2 : merged V2 S nowhere nowhere) by by apply (merged_retire V V2 S b (fsize f) fr).
  assert (HSg2 : segs_ok h2 S) by (apply (segs_rest h1); [done|exact (segs_rest h h1 S Hr1 HSg)]).
  destruct fr; cbn [negb].
  - exists h2, V2, F. split; [done|]. split; [split; try done|split; [by rewrite Hview, decide_True|split; [by split|lia]]].
    intros a. rewrite Hfree, <- HF. split; [by right|]. intros [->|?]; [|done]. apply HF. by exists f.
  - assert (HbF : b ∉ F) by (rewrite HF, free_view; intros [s Hs']; congruence).
    destruct (HeapListInsert_spec fuel b V2 h2 F HL2) as (h3 & V3 & -> & HL3 & HV3 & Hr3 & Hm3);
      [unfold V2; by rewrite lookup_alter_is_Some|done|lia|done|].
    exists h3, V3, (insert_sorted b F). split; [done|].
    split; [split|split; [by rewrite (view_hdr _ _ _ HV3), Hview, decide_True|
      split; [split|rewrite length_insert_sorted; lia]]].
    + done.
    + by eapply tiling_hdr.
    + exact (segs_rest h2 h3 S Hr3 HSg2).
    + intros a. rewrite elem_of_insert_sorted, HF, <- Hfree, !free_view. by rewrite (view_hdr _ _ _ HV3).
    + eapply merged_ext; [|exact HM2]. intros a. by apply view_hdr.
    + destruct Hr3 as (_ & _ & _ & ->). done.
    + intros a s. rewrite <- Hused. unfold used. by rewrite (view_hdr _ _ _ HV3).
    + etrans; [exact Hk2|]. eapply (keeps_links _ V S T _ (used_sub V b)); [|exact Hm3].
      intros c [->|Hc]%elem_of_cons; [|by eapply free_spare].
      eapply spare_self; [exact T|exact Eb|]. by intros s [[] _].
Qed.

(** In a segment of at most 16 pages nothing is given back. *)
Lemma give_back_small fuel h V F S b sz lo hi :
  heap_inv h V F S -> view V b = Some (sz, true) -> (lo, hi) ∈ S -> lo <= b < hi -> hi - lo <= 65536 ->
  give_back fuel b h = Some h.
Proof.
  intros [HL T HSg HF HM HP] Hv Hs Hb Hsm. destruct (view_Some _ _ _ _ Hv) as (f & Eb & Hsz & _).
  pose proof (blk_range _ _ _ _ _ T Eb). destruct (hrep_get _ _ _ _ (l_rep _ _ _ HL) Eb) as (_ & Esz & _).
  destruct (blk_in _ _ _ _ _ _ _ T Eb Hs Hb) as (Hle & _).
  unfold give_back. destruct (HeapFindSegment_spec _ _ _ _ _ _ _ HSg T Hs Hb) as (i & -> & Ei).
  rewrite some_bind, Esz. cbv zeta. rewrite Ei. case_match; [done|].
  change (HEAP_KEEP_PAGES * PAGE_SIZE) with 65536. by rewrite (proj2 (Z.ltb_ge 65536 (fsize f))) by lia.
Qed.

Lemma kfree_unfold fuel b h :
  0 < b < 4294967280 -> Magic (hmem h) b = HEAP_MAGIC -> IsFree (hmem h) b = false ->
  kfree fuel (b + 16) h =
    let '(b, merged_left, h) := merge_left b h in
    h ← merge_right b h; h ← retire fuel b merged_left h; give_back fuel b h.
Proof.
  intros Hb Hm Hf. unfold kfree, sizeof_BlockMeta. rewrite (wrap32_small (b + 16 - 16)) by (unfold is_u32; lia).
  replace (b + 16 - 16) with b by lia. rewrite Hm, Hf, Z.eqb_refl. cbn [negb orb].
  destruct (merge_left b h) as [[b1 ml] h1]. destruct (merge_right b1 h1) as [h2|]; [|done].
  rewrite !some_bind. unfold retire. destruct (stamp_next _ _ _ _) as [h3|]; [|done]. by rewrite !some_bind.
Qed.

Lemma freeing_hpmm fuel b b1 fr h h1 h2 h3 :
  merge_left b h = (b1, fr, h1) -> merge_right b1 h1 = Some h2 -> retire fuel b1 fr h2 = Some h3 ->
  hpmm h3 = hpmm h.
Proof.
  intros E1 E2 E3. transitivity (hpmm h2); [|transitivity (hpmm h1)].
  - unfold retire in E3. destruct (stamp_next _ _ _ _) as [h4|] eqn:E; [|done]. rewrite some_bind in E3.
    apply stamp_next_hpmm in E. cbv zeta in E3. rewrite <- E.
    case_match; [by apply HeapListInsert_hpmm in E3|by injection E3 as <-].
  - unfold merge_right in E2. cbv zeta in E2. destruct (HeapFindSegment _ _) as [[i|]|]; [| |done];
      rewrite some_bind in E2; injection E2 as <-; [|done].
    case_match; [exact (HeapListRemove_hpmm _ _)|done].
  - unfold merge_left in E1. cbv zeta in E1. by repeat case_match; simplify_eq.
Qed.

(** Everything but the giving back. *)
Lemma kfree_core fuel h V F S b sz lo hi :
  heap_inv h V F S -> live V b sz -> (length F < fuel)%nat -> (lo, hi) ∈ S -> lo <= b < hi ->
  exists b1 sz1 h' V' F', kfree fuel (b + 16) h = give_back fuel b1 h' /\ heap_inv h' V' F' S /\
    view V' b1 = Some (sz1, true) /\ lo <= b1 < hi /\
    (forall a s, live V' a s <-> live V a s /\ a <> b) /\
    keeps (fun a s => live V a s /\ a <> b) (hmem h) (hmem h') /\ (length F' <= length F + 1)%nat /\
    hpmm h' = hpmm h.
Proof.
  intros Hinv Hl Hf Hs Hb. apply live_view in Hl. destruct (view_Some _ _ _ _ Hl) as (f & Eb & Hsz & Hfr).
  pose proof (blk_range _ _ _ _ _ (hi_tiling _ _ _ _ Hinv) Eb).
  destruct (t_blk _ _ _ (hi_tiling _ _ _ _ Hinv) _ _ Eb) as (Hmg & _).
  destruct (hrep_get _ _ _ _ (l_rep _ _ _ (hi_linked _ _ _ _ Hinv)) Eb) as (Em & _ & _ & Ef & _).
  rewrite kfree_unfold by first [lia|congruence].
  destruct (merge_left_spec h V F S b sz Hinv Hl) as (b1 & fr & h1 & V1 & sz1 & E1 & Hfg1 & Hk1 & _ & Hin).
  destruct (merge_right_spec h1 V1 F S b1 sz1 fr lo hi Hfg1 Hs (Hin lo hi Hs Hb))
    as (h2 & V2 & F2 & sz2 & E2 & Hfg2 & Hk2 & HF2). rewrite E1, E2, some_bind.
  destruct (retire_spec fuel h2 V2 F2 S b1 sz2 fr lo hi Hfg2 Hs (Hin lo hi Hs Hb))
    as (h3 & V3 & F3 & E3 & Hinv3 & Hv3 & Hk3 & HF3); [lia|]. rewrite E3, some_bind.
  destruct (kept_trans _ _ _ _ _ _ _ _ _ Hk1 (kept_trans _ _ _ _ _ _ _ _ _ Hk2 Hk3)) as [Hu Hk].
  exists b1, sz2, h3, V3, F3. split; [done|]. split; [done|]. split; [done|].
  split; [by apply (Hin lo hi)|].
  split; [|split; [|split; [lia|exact (freeing_hpmm fuel b b1 fr h h1 h2 h3 E1 E2 E3)]]].
  - intros a s. rewrite !live_view. specialize (Hu a s). unfold used in Hu. split.
    + intros Ha. assert (a <> b1) by (intros ->; congruence). tauto.
    + intros [Ha Hab]. tauto.
  - intros a s x [Ha Hab]. apply (Hk a s x). split; [done|]. by apply live_view.
Qed.

Lemma kfree_spec fuel h V F S b sz lo hi :
  heap_inv h V F S -> live V b sz -> (length F < fuel)%nat ->
  (lo, hi) ∈ S -> lo <= b < hi -> hi - lo <= 65536 ->
  exists h' V' F', kfree fuel (b + 16) h = Some h' /\ heap_inv h' V' F' S /\
    (forall a s, live V' a s <-> live V a s /\ a <> b) /\
    keeps (fun a s => live V a s /\ a <> b) (hmem h) (hmem h') /\ (length F' <= length F + 1)%nat /\
    hpmm h' = hpmm h.
Proof.
  intros Hinv Hl Hf Hs Hb Hsm.
  destruct (kfree_core fuel h V F S b sz lo hi Hinv Hl Hf Hs Hb)
    as (b1 & sz1 & h' & V' & F' & -> & Hinv' & Hv & Hb1 & Hrest).
  exists h', V', F'. rewrite (give_back_small fuel h' V' F' S b1 sz1 lo hi) by done. done.
Qed.

(** Freeing what is not in use: a free block, or no block at all. *)
Lemma kfree_ignores fuel addr h :
  Magic (hmem h) (addr -w 16) <> HEAP_MAGIC \/ IsFree (hmem h) (addr -w 16) = true ->
  kfree fuel addr h = Some h.
Proof.
  intros H. unfold kfree. change sizeof_BlockMeta with 16. destruct H as [H|H].
  - by rewrite (proj2 (Z.eqb_neq _ _) H).
  - rewrite H. by rewrite orb_true_r.
Qed.

Lemma kfree_free fuel h V F S b :
  heap_inv h V F S -> is_free V b -> kfree fuel (b + 16) h = Some h.
Proof.
  intros Hinv (f & E & Hfr). pose proof (blk_range _ _ _ _ _ (hi_tiling _ _ _ _ Hinv) E).
  apply kfree_ignores. right. rewrite wrap32_small by (unfold is_u32; lia). replace (b + 16 - 16) with b by lia.
  destruct (hrep_get _ _ _ _ (l_rep _ _ _ (hi_linked _ _ _ _ Hinv)) E) as (_ & _ & _ & -> & _). done.
Qed.

(** ** Giving back returns *)

(** The header written inside a free block [b] that reaches past [k]. *)
Lemma give_back_new h V F S b f k g :
  heap_inv h V F S -> V !! b = Some f -> 24 <= k -> k + 24 <= fsize f -> is_u32 g ->
  exists r, linked (on_mem (set_Meta HEAP_MAGIC g k true (b + k)) h) (<[b + k := r]> V) F /\
    V !! (b + k) = None.
Proof.
  intros [[HR HD HH HS HA] T _ HF _ _] Eb Hk Hle Hg. pose proof (blk_range _ _ _ _ _ T Eb).
  assert (Hap : forall a, is_Some (V !! a) -> apart a (b + k)).
  { intros a [e E]. pose proof (blk_range _ _ _ _ _ T E). unfold apart.
    destruct (Z.lt_total a b) as [Hl|[->|Hl]]; [|lia|].
    - pose proof (t_sep _ _ _ T a b e f Hl E Eb). lia.
    - pose proof (t_sep _ _ _ T b a f e Hl Eb E). lia. }
  assert (Hno : V !! (b + k) = None).
  { destruct (V !! (b + k)) as [e|] eqn:E; [|done]. specialize (Hap (b + k) ltac:(eauto)).
    unfold apart in Hap. lia. }
  destruct (hrep_create HEAP_MAGIC g k true (b + k) (hmem h) V) as (r & HR1 & Hr);
    [unfold is_u32, HEAP_MAGIC; lia|done|unfold is_u32; lia|done|done|].
  exists r. split; [|done]. split; [done| |done|done|done]. apply dseg_insert_out; [|done].
  intros Hin. destruct (dseg_is_Some _ _ _ _ _ HD Hin). congruence.
Qed.

Lemma give_back_returns fuel h V F S b sz lo hi :
  heap_inv h V F S -> view V b = Some (sz, true) -> (lo, hi) ∈ S -> lo <= b < hi -> (length F < fuel)%nat ->
  exists h', give_back fuel b h = Some h'.
Proof.
  intros Hinv Hv Hs Hb Hf. pose proof Hinv as [HL T HSg HF HM HP]. destruct (view_Some _ _ _ _ Hv) as (f & Eb & Hsz & _).
  pose proof (blk_range _ _ _ _ _ T Eb). destruct (hrep_get _ _ _ _ (l_rep _ _ _ HL) Eb) as (_ & Esz & _).
  destruct (next_block _ _ _ _ _ _ _ T Eb Hs Hb) as [Hn Hle].
  unfold give_back. destruct (HeapFindSegment_spec _ _ _ _ _ _ _ HSg T Hs Hb) as (i & -> & Ei).
  rewrite some_bind, Esz. cbv zeta. rewrite Ei, (wrap32_small (b + fsize f)) by (unfold is_u32; lia).
  change (HEAP_KEEP_PAGES * PAGE_SIZE) with 65536. destruct (Z.leb_spec hi (b + fsize f)); [by eexists|].
  destruct (Z.ltb_spec 65536 (fsize f)); [|by eexists].
  rewrite (wrap32_small (fsize f - 65536)) by (unfold is_u32; lia).
  destruct (Z.eqb_spec ((fsize f - 65536) / PAGE_SIZE) 0) as [|Hpg]; [by eexists|].
  assert (4096 <= fsize f - 65536).
  { destruct (Z.le_gt_cases 4096 (fsize f - 65536)); [done|]. unfold PAGE_SIZE in Hpg. rewrite Z.div_small in Hpg by lia. done. }
  rewrite (wrap32_small (b + 65536)) by (unfold is_u32; lia).
  replace (b + 65536 +w (fsize f - 65536)) with (b + fsize f) by (rewrite wrap32_small; [lia|unfold is_u32; lia]).
  destruct (give_back_new h V F S b f 65536 (fsize f - 65536) Hinv Eb) as (r & HL1 & Hno); [lia|lia|unfold is_u32; lia|].
  set (h1 := on_mem _ h) in *. set (V1 := <[b + 65536 := r]> V) in *.
  assert (HSg1 : segs_ok h1 S) by (eapply segs_rest; [|exact HSg]; done).
  rewrite (stamp_next_spec 0 V S h1 b _ _ lo hi HSg1 T Hs Hb), some_bind.
  rewrite (proj2 (Z.ltb_lt (b + fsize f) hi)) by lia. destruct (Hn ltac:(lia)) as [g Eg].
  destruct HL1 as [HR1 HD1 HH1 HS1 HA1].
  set (h2 := on_mem (set_Size 65536 b) _). set (V2 := alter (w_size 65536) b (alter (w_prev 65536) (b + fsize f) V1)).
  assert (HL2 : linked h2 V2 F).
  { split; [|by do 2 (apply dseg_alter; [done|done|])|done..].
    apply hrep_Size; [unfold is_u32; lia|unfold V1; rewrite lookup_alter_ne, lookup_insert_ne by lia; eauto|].
    apply hrep_PrevSize; [unfold is_u32; lia|unfold V1; rewrite lookup_insert_ne by lia; eauto|done]. }
  destruct (HeapListInsert_spec fuel (b + 65536) V2 h2 F HL2) as (h3 & V3 & -> & _ & _ & Hr3 & _);
    [unfold V2, V1; rewrite !lookup_alter_is_Some, lookup_insert_eq; eauto| |lia|done|].
  { intros Hin. apply HF in Hin as (e & E & _). congruence. }
  rewrite some_bind. destruct (PageFreePages_inv (b + 65536) ((fsize f - 65536) / PAGE_SIZE) (hpmm h3)) as (p & -> & _).
  - unfold is_u32; lia.
  - unfold PAGE_SIZE, is_u32. pose proof (Z.div_pos (fsize f - 65536) 4096). pose proof (Z.div_le_upper_bound (fsize f - 65536) 4096 4294967295). lia.
  - destruct Hr3 as (_ & _ & _ & ->). apply HP.
  - rewrite some_bind. by eexists.
Qed.

(** Whatever the sizes, freeing a block in use returns. *)
Lemma kfree_returns fuel h V F S b sz :
  heap_inv h V F S -> live V b sz -> (length F + 1 < fuel)%nat -> exists h', kfree fuel (b + 16) h = Some h'.
Proof.
  intros Hinv Hl Hf. pose proof Hl as (f & Eb & _).
  pose proof (blk_range _ _ _ _ _ (hi_tiling _ _ _ _ Hinv) Eb).
  destruct (t_in _ _ _ (hi_tiling _ _ _ _ Hinv) b f Eb) as (lo & hi & Hs & Hlo & Hhi & _).
  destruct (kfree_core fuel h V F S b sz lo hi Hinv Hl) as (b1 & sz1 & h' & V' & F' & -> & Hinv' & Hv & Hb1 & _ & _ & HF' & _);
    [lia|done|lia|]. apply (give_back_returns fuel h' V' F' S b1 sz1 lo hi); [done..|lia].
Qed.
