(* ===== verification/HeapClient.v ===== *)
(** * The heap and its clients

    What the kernel may expect of kmalloc, kfree and the page allocator
    together, as a small abstract machine (the arena), and the machine that
    runs the code. A client is any program that picks its next call from the
    results it has seen. *)

From S2P Require Import Prelude PageAlloc Heap HeapInv HeapTiling HeapOps HeapAlloc HeapFree.

(** ** The abstract machine *)

(** What the clients own: the blocks from kmalloc with their bytes, and the
    runs of pages taken from the page allocator, first page and length. *)
Record Arena := mkArena { blocks : gmap Z (list Z); runs : gmap Z Z }.

Inductive MemOp :=
| OpMalloc (size : Z)
| OpFree (addr : Z)
| OpWrite (addr : Z) (i : nat) (v : Z)
| OpRead (addr : Z) (i : nat)
| OpPages (count : Z)
| OpPagesFree (addr count : Z).

(** The [n] bytes from [a] on belong to nobody. *)
Definition unowned (A : Arena) (a n : Z) : Prop :=
  (forall a' bs, blocks A !! a' = Some bs -> a + n <= a' \/ a' + Z.of_nat (length bs) <= a) /\
  (forall st cnt, runs A !! st = Some cnt -> a + n <= st * PAGE_SIZE \/ (st + cnt) * PAGE_SIZE <= a).

Inductive arena_step (A : Arena) : MemOp -> Z -> Arena -> Prop :=
| arena_malloc size a bs :
    Z.of_nat (length bs) = size -> a mod 8 = 0 -> 0 < a -> a + size < 4294967296 -> unowned A a size ->
    arena_step A (OpMalloc size) a (mkArena (<[a := bs]> (blocks A)) (runs A))
| arena_malloc_fail size : arena_step A (OpMalloc size) 0 A
| arena_free a bs :
    blocks A !! a = Some bs -> arena_step A (OpFree a) 0 (mkArena (delete a (blocks A)) (runs A))
| arena_write a i v bs :
    blocks A !! a = Some bs ->
    arena_step A (OpWrite a i v) 0 (mkArena (<[a := <[i := v mod 256]> bs]> (blocks A)) (runs A))
| arena_read a i bs v :
    blocks A !! a = Some bs -> bs !! i = Some v -> arena_step A (OpRead a i) v A
| arena_pages count st :
    0 < st -> st + count <= PAGE_COUNT -> unowned A (st * PAGE_SIZE) (count * PAGE_SIZE) ->
    arena_step A (OpPages count) (st * PAGE_SIZE) (mkArena (blocks A) (<[st := count]> (runs A)))
| arena_pages_fail count : arena_step A (OpPages count) 0 A
| arena_pages_free st cnt :
    runs A !! st = Some cnt ->
    arena_step A (OpPagesFree (st * PAGE_SIZE) cnt) 0 (mkArena (blocks A) (delete st (runs A))).

(** What a client may ask for: blocks that fit a segment of the initial size,
    and only what it owns given back, written or read. *)
Definition legal (A : Arena) (op : MemOp) : Prop :=
  match op with
  | OpMalloc size => 0 <= size <= 65520
  | OpFree a => is_Some (blocks A !! a)
  | OpWrite a i _ | OpRead a i => exists bs, blocks A !! a = Some bs /\ (i < length bs)%nat
  | OpPages count => 0 < count < 4294967296
  | OpPagesFree a cnt => exists st, a = st * PAGE_SIZE /\ runs A !! st = Some cnt
  end.

(** ** The code *)

Definition heap_step (fuel : nat) (op : MemOp) (h : Heap) : option (Z * Heap) :=
  match op with
  | OpMalloc size => kmalloc fuel size h
  | OpFree a => h ← kfree fuel a h; Some (0, h)
  | OpWrite a i v => Some (0, on_mem (fun m => store8 m (a + Z.of_nat i) v) h)
  | OpRead a i => Some (load8 (hmem h) (a + Z.of_nat i), h)
  | OpPages count => '(a, p) ← PageAllocPages count (hpmm h); Some (a, set_hpmm p h)
  | OpPagesFree a count => p ← PageFreePages a count (hpmm h); Some (0, set_hpmm p h)
  end.

(** ** Clients *)

(** The next call, from the results so far, the latest first. *)
Definition Client : Type := list Z -> MemOp.

Fixpoint heap_run (fuel : nat) (c : Client) (n : nat) (h : Heap) : option (list Z * Heap) :=
  match n with
  | O => Some ([], h)
  | Datatypes.S n =>
      '(rs, h) ← heap_run fuel c n h;
      '(r, h) ← heap_step fuel (c rs) h;
      Some (r :: rs, h)
  end.

Inductive arena_run (c : Client) : list Z -> Arena -> Prop :=
| arena_run_start : arena_run c [] (mkArena ∅ ∅)
| arena_run_step rs A r A' : arena_run c rs A -> arena_step A (c rs) r A' -> arena_run c (r :: rs) A'.

(** A client that keeps to the rules, whatever the machine answers. *)
Definition client_ok (c : Client) : Prop := forall rs A, arena_run c rs A -> legal A (c rs).

Definition read_bytes (m : Mem) (a : Z) (n : nat) : list Z :=
  (fun i => load8 m (a + Z.of_nat i)) <$> seq 0 n.

(** The static data of heap.c at start-up, over any memory. *)
Record heap_bss (h : Heap) : Prop := {
  bss_head : HeapSegments h = None;
  bss_table : length (HeapSegmentTable h) = 8%nat;
  bss_count : HeapSegmentCount h = 0;
  bss_pmm : pmm_inv (hpmm h);
  bss_top : page_free (hpmm h) 1048575 = false }.
