(* ===== verification/HeapTheorems.v ===== *)
(** * What the heap promises

    kmalloc on every outcome, the calls that return, the refinement of the
    arena by kmalloc, kfree and the page allocator together, and the free that
    breaks it. *)

From S2P Require Import Prelude PageAlloc Heap HeapInv HeapTiling HeapOps HeapAlloc HeapFree HeapClient.

(** ** Bytes *)

Lemma length_read_bytes m a n : length (read_bytes m a n) = n.
Proof. unfold read_bytes. by rewrite length_fmap, length_seq. Qed.

Lemma read_bytes_lookup m a n i : (i < n)%nat -> read_bytes m a n !! i = Some (load8 m (a + Z.of_nat i)).
Proof. intros Hi. unfold read_bytes. rewrite list_lookup_fmap, lookup_seq_lt by done. done. Qed.

Lemma read_bytes_ext m m' a n :
  (forall x, a <= x < a + Z.of_nat n -> load8 m' x = load8 m x) -> read_bytes m' a n = read_bytes m a n.
Proof.
  intros H. unfold read_bytes. apply list_fmap_ext. intros i j Hj. apply lookup_seq in Hj. apply H. lia.
Qed.

Lemma read_bytes_store m a n i v :
  (i < n)%nat -> read_bytes (store8 m (a + Z.of_nat i) v) a n = <[i := v mod 256]> (read_bytes m a n).
Proof.
  intros Hi. apply list_eq. intros j. destruct (decide (j < n)%nat) as [Hj|Hj].
  - rewrite read_bytes_lookup by done. destruct (decide (i = j)) as [->|Hij].
    + rewrite list_lookup_insert_eq by (by rewrite length_read_bytes). by rewrite load8_store8_eq.
    + rewrite list_lookup_insert_ne, read_bytes_lookup by done. by rewrite load8_store8_ne by lia.
  - rewrite !lookup_ge_None_2; [done|rewrite length_insert|]; rewrite length_read_bytes; lia.
Qed.

(** ** The invariant of a client's heap *)

(** The pages of the runs the clients hold. *)
Record runs_ok (p : Pmm) (S : list (Z * Z)) (R : gmap Z Z) : Prop := {
  ro_range : forall st cnt, R !! st = Some cnt -> 0 < st /\ 0 < cnt /\ st + cnt <= 1048575;
  ro_used : forall st cnt q, R !! st = Some cnt -> st <= q < st + cnt -> page_free p q = false;
  ro_segs : forall st cnt q lo hi, R !! st = Some cnt -> st <= q < st + cnt -> (lo, hi) ∈ S ->
    ~ lo / 4096 <= q < hi / 4096;
  ro_disj : forall st st' cnt cnt', st <> st' -> R !! st = Some cnt -> R !! st' = Some cnt' ->
    st + cnt <= st' \/ st' + cnt' <= st }.

(** A client's block is in use, and holds what the arena says. *)
Definition block_ok (V : Blocks) (m : Mem) (a : Z) (bs : list Z) : Prop :=
  exists sz, live V (a - 16) sz /\ 16 + Z.of_nat (length bs) <= sz /\ read_bytes m a (length bs) = bs.

Definition small (S : list (Z * Z)) : Prop := forall lo hi, (lo, hi) ∈ S -> hi - lo <= 65536.

Record holds (n : nat) (h : Heap) (A : Arena) (V : Blocks) (F : list Z) (S : list (Z * Z)) : Prop := {
  ho_inv : heap_inv h V F S;
  ho_small : small S;
  ho_len : (length F <= n)%nat;
  ho_blocks : forall a bs, blocks A !! a = Some bs -> block_ok V (hmem h) a bs;
  ho_owned : forall a sz, live V a sz -> is_Some (blocks A !! (a + 16));
  ho_runs : runs_ok (hpmm h) S (runs A) }.

Lemma block_ok_keeps V V' m m' a bs :
  block_ok V m a bs -> (forall s, live V (a - 16) s -> live V' (a - 16) s) ->
  (forall s x, live V (a - 16) s -> a <= x < a - 16 + s -> load8 m' x = load8 m x) -> block_ok V' m' a bs.
Proof.
  intros (sz & Hl & Hsz & Hb) HV Hm. exists sz. split; [by apply HV|]. split; [done|].
  rewrite <- Hb at 2. apply read_bytes_ext. intros x Hx. apply (Hm sz); [done|lia].
Qed.

Lemma live_range V S a sz : tiling 0 V S -> live V a sz -> 0 < a /\ a + sz < 4294967296 /\ 24 <= sz /\ a mod 8 = 0.
Proof.
  intros T (f & E & _ & <-). pose proof (blk_range _ _ _ _ _ T E). destruct (t_blk _ _ _ T a f E) as (_ & _ & _ & ?). lia.
Qed.

Lemma live_apart V S a b sa sb :
  tiling 0 V S -> live V a sa -> live V b sb -> a <> b -> a + sa <= b \/ b + sb <= a.
Proof.
  intros T (f & E & _ & <-) (g & G & _ & <-) Hab. destruct (Z.lt_total a b) as [Hl|[->|Hl]]; [|done|].
  - left. by apply (t_sep _ _ _ T a b f g).
  - right. by apply (t_sep _ _ _ T b a g f).
Qed.

(** Pages and segments do not overlap where their page numbers do not. *)
Lemma pages_off_seg lo hi st cnt :
  lo mod 4096 = 0 -> hi mod 4096 = 0 -> 0 < cnt -> lo < hi ->
  (forall q, st <= q < st + cnt -> ~ lo / 4096 <= q < hi / 4096) ->
  hi <= st * PAGE_SIZE \/ (st + cnt) * PAGE_SIZE <= lo.
Proof.
  intros Hlo Hhi Hc Hlt Hq. unfold PAGE_SIZE. pose proof (Z.div_mod lo 4096 ltac:(lia)). pose proof (Z.div_mod hi 4096 ltac:(lia)).
  destruct (Z.le_gt_cases hi (st * 4096)); [by left|]. destruct (Z.le_gt_cases ((st + cnt) * 4096) lo); [by right|].
  destruct (Hq (Z.max st (lo / 4096))); lia.
Qed.

Lemma live_off_run V S a sz st cnt :
  tiling 0 V S -> live V a sz -> 0 < cnt ->
  (forall q lo hi, st <= q < st + cnt -> (lo, hi) ∈ S -> ~ lo / 4096 <= q < hi / 4096) ->
  a + sz <= st * PAGE_SIZE \/ (st + cnt) * PAGE_SIZE <= a.
Proof.
  intros T (f & E & _ & <-) Hc Hq. destruct (t_in _ _ _ T a f E) as (lo & hi & Hs & ? & ? & _).
  destruct (t_seg _ _ _ T lo hi Hs) as (? & ? & ? & ? & ?).
  destruct (pages_off_seg lo hi st cnt); [done..|intros q Hq'; by apply (Hq q)|lia|lia].
Qed.

(** ** Each call implements its step *)

(** Call and step, and what the client then holds. *)
Definition simulates (fuel n : nat) (op : MemOp) (h : Heap) (A : Arena) : Prop :=
  exists r h' A' V' F' S', heap_step fuel op h = Some (r, h') /\ arena_step A op r A' /\
    holds (n + 1) h' A' V' F' S'.

Lemma runs_claims h h' S S' R : runs_ok (hpmm h) S R -> claims h h' S S' -> runs_ok (hpmm h') S' R.
Proof.
  intros [H1 H2 H3 H4] Hcl. split; [done| | |done].
  - intros st cnt q E Hq. by apply Hcl, (H2 st cnt).
  - intros st cnt q lo hi E Hq Hs Hlh. destruct (Hcl q (H2 st cnt q E Hq)) as [_ Hold].
    by destruct (H3 st cnt q lo hi E Hq (Hold lo hi Hs Hlh)).
Qed.

Lemma small_total size :
  0 < size <= 65520 -> let T := HEAP_ALIGN_UP (size +w sizeof_BlockMeta) in (T +w PAGE_SIZE -w 1) / PAGE_SIZE <= 16.
Proof.
  intros Hs T. destruct (total_size size ltac:(lia)) as (HT & H8 & H24 & _). fold T in HT, H8, H24.
  assert (T <= 65536) by (Z.to_euclidean_division_equations; lia).
  unfold PAGE_SIZE. rewrite (wrap32_small (T + 4096)) by (unfold is_u32; lia).
  rewrite wrap32_small by (unfold is_u32; lia). apply Z.lt_succ_r, Z.div_lt_upper_bound; lia.
Qed.

Lemma malloc_sim fuel n size h A V F S :
  holds n h A V F S -> legal A (OpMalloc size) -> (n + 1 < fuel)%nat -> simulates fuel n (OpMalloc size) h A.
Proof.
  intros [Hinv Hsm Hlen HB HO HRn] Hlg Hf. cbn [legal] in Hlg.
  assert (Hfail : holds (n + 1) h A V F S) by (split; [done|done|lia|done|done|done]).
  destruct (decide (size = 0)) as [->|Hs0].
  { exists 0, h, A, V, F, S. split; [done|]. split; [constructor|done]. }
  destruct (kmalloc_spec fuel size h V F S Hinv) as [(E & _)|(b & h' & V' & F' & S' & sz & E & Hb & Hinv' & Hle & Hg & HF' & HS' & Hcl)];
    [lia|lia|exists 0, h, A, V, F, S; split; [exact E|]; split; [constructor|done]|].
  destruct (total_size size ltac:(lia)) as (HT & _). pose proof (small_total size ltac:(lia)) as Hpg. cbv zeta in Hpg.
  destruct Hg as [Hl Hfresh Hsame Hk]. pose proof (hi_tiling _ _ _ _ Hinv') as T'.
  destruct (live_range V' S' b sz T' Hl) as (? & ? & ? & Hb8).
  assert (HRn' : runs_ok (hpmm h') S' (runs A)) by by eapply runs_claims.
  assert (Hold : forall a s, live V a s -> live V' a s /\ a <> b).
  { intros a s Ha. assert (a <> b) by (intros ->; by destruct (Hfresh s)). split; [|done]. by apply Hsame. }
  exists (b + 16), h', (mkArena (<[b + 16 := read_bytes (hmem h') (b + 16) (Z.to_nat size)]> (blocks A)) (runs A)), V', F', S'.
  split; [exact E|]. split; [constructor|split; cbn [blocks runs]].
  - rewrite length_read_bytes. lia.
  - rewrite <- (Z.add_mod_idemp_l b 16 8), Hb8 by lia. done.
  - lia.
  - lia.
  - split.
    + intros a' bs Ea. destruct (HB a' bs Ea) as (s & Ha & Hs & _). destruct (Hold _ _ Ha) as [Ha' Hne].
      destruct (live_apart V' S' b (a' - 16) sz s T' Hl Ha'); [congruence|lia|lia].
    + intros st cnt Er. destruct (ro_range _ _ _ HRn' st cnt Er) as (? & ? & ?).
      destruct (live_off_run V' S' b sz st cnt T' Hl); [done| |lia|lia].
      intros q lo hi Hq Hs. exact (ro_segs _ _ _ HRn' st cnt q lo hi Er Hq Hs).
  - done.
  - destruct HS' as [(-> & _)|(-> & _)]; [done|]. intros lo hi [Hs|[= -> ->]%list_elem_of_singleton]%elem_of_app; [by apply Hsm|].
    unfold PAGE_SIZE in *. lia.
  - lia.
  - intros a bs. rewrite lookup_insert. case_decide as Ha.
    + intros [= <-]. exists sz. rewrite length_read_bytes. replace (a - 16) with b by lia.
      split; [done|]. split; [lia|by subst a].
    + intros Ea. apply (block_ok_keeps V V' (hmem h)); [by apply HB|intros s Hs; by apply Hold|].
      intros s x Hs Hx. apply (Hk (a - 16) s x Hs). lia.
  - intros a s Ha. rewrite lookup_insert_is_Some. destruct (decide (a = b)) as [->|Hne]; [by left|right].
    split; [lia|]. apply (HO a s). by apply Hsame.
  - done.
Qed.

Lemma free_sim fuel n a h A V F S :
  holds n h A V F S -> legal A (OpFree a) -> (n + 1 < fuel)%nat -> simulates fuel n (OpFree a) h A.
Proof.
  intros [Hinv Hsm Hlen HB HO HRn] [bs Ea] Hf. destruct (HB a bs Ea) as (sz & Hl & Hsz & _).
  pose proof Hl as (f & Ef & _). pose proof (blk_range _ _ _ _ _ (hi_tiling _ _ _ _ Hinv) Ef).
  destruct (t_in _ _ _ (hi_tiling _ _ _ _ Hinv) _ f Ef) as (lo & hi & Hs & Hlo & Hhi & _).
  destruct (kfree_spec fuel h V F S (a - 16) sz lo hi Hinv Hl) as (h' & V' & F' & E & Hinv' & Hlv & Hk & HF' & Hp);
    [lia|done|lia|by apply Hsm|]. replace (a - 16 + 16) with a in E by lia.
  exists 0, h', (mkArena (delete a (blocks A)) (runs A)), V', F', S.
  split; [cbn [heap_step]; by rewrite E|]. split; [by econstructor|split; cbn [blocks runs]].
  - done.
  - done.
  - lia.
  - intros a' bs' [Hne Ea']%lookup_delete_Some. apply (block_ok_keeps V V' (hmem h)); [by apply HB| |].
    + intros s Hs'. apply Hlv. split; [done|lia].
    + intros s x Hs' Hx. apply (Hk (a' - 16) s x); [split; [done|lia]|lia].
  - intros a' s [Ha' Hne]%Hlv. rewrite lookup_delete_ne by lia. by apply (HO a' s).
  - by rewrite Hp.
Qed.

(** A byte of a block in use is written: only the links of its own header may
    read differently. *)
Lemma heap_inv_write h V F S a sz x v :
  heap_inv h V F S -> live V a sz -> a + 16 <= x < a + sz ->
  exists V', heap_inv (on_mem (fun m => store8 m x v) h) V' F S /\ same_hdr V V'.
Proof.
  intros [HL T HSg HF HM HP] (f & E & Hfr & <-) Hx. set (h' := on_mem _ h).
  set (f' := fields (hmem h') a). exists (<[a := f']> V). destruct HL as [[HR Hfar] HD HH HS HA].
  assert (Hf' : hdr f' = hdr f).
  { rewrite <- (HR a f E). unfold f', h', fields, hdr, Magic, Size, PrevSize, IsFree. cbn.
    rewrite !load32_store8_ne, load8_store8_ne by lia. done. }
  assert (HV : same_hdr V (<[a := f']> V)).
  { intros c. destruct (decide (a = c)) as [<-|Hac]; [|by rewrite lookup_insert_ne].
    rewrite lookup_insert_eq, E. cbn. by rewrite Hf'. }
  assert (HaF : a ∉ F).
  { intros Hin. apply HF in Hin as (g & G & Hg). congruence. }
  split; [split|done].
  - split; [split|by apply dseg_insert_out|done..].
    + intros c g. destruct (decide (a = c)) as [<-|Hac]; [rewrite lookup_insert_eq; by intros [= <-]|].
      rewrite lookup_insert_ne by done. intros G. rewrite <- (HR c g G).
      pose proof (blk_range _ _ _ _ _ T G).
      assert (x < c \/ c + 24 <= x).
      { destruct (Z.lt_total a c) as [Hl|[?|Hl]]; [|done|].
        - pose proof (t_sep _ _ _ T a c f g Hl E G). lia.
        - pose proof (t_sep _ _ _ T c a g f Hl G E). lia. }
      unfold h', fields, Magic, Size, PrevSize, IsFree, NodePrev, NodeNext. cbn.
      rewrite !load32_store8_ne, load8_store8_ne by lia. done.
    + eapply tiling_far, tiling_hdr; [exact HV|exact T].
  - by eapply tiling_hdr.
  - eapply segs_rest; [|exact HSg]. done.
  - intros c. by rewrite HF, !free_view, (view_hdr _ _ _ HV).
  - eapply merged_ext; [|exact HM]. intros c. by apply view_hdr.
  - done.
Qed.

Lemma write_sim fuel n a i v h A V F S :
  holds n h A V F S -> legal A (OpWrite a i v) -> simulates fuel n (OpWrite a i v) h A.
Proof.
  intros [Hinv Hsm Hlen HB HO HRn] (bs & Ea & Hi). destruct (HB a bs Ea) as (sz & Hl & Hsz & Hbs).
  destruct (heap_inv_write h V F S (a - 16) sz (a + Z.of_nat i) v Hinv Hl) as (V' & Hinv' & HV); [lia|].
  assert (HlV : forall c s, live V c s -> live V' c s) by (intros c s; by rewrite !live_view, (view_hdr _ _ _ HV)).
  eexists 0, _, _, V', F, S. split; [done|]. split; [by apply (arena_write A a i v bs)|split; cbn [blocks runs]].
  - done.
  - done.
  - lia.
  - intros a' bs'. rewrite lookup_insert. case_decide as Ha.
    + intros [= <-]. subst a'. exists sz. rewrite length_insert. split; [by apply HlV|]. split; [done|].
      rewrite <- Hbs at 2. by apply read_bytes_store.
    + intros Ea'. apply (block_ok_keeps V V' (hmem h)); [by apply HB|by apply HlV|].
      intros s x Hs Hx. apply load8_store8_ne.
      destruct (live_apart V S (a - 16) (a' - 16) sz s (hi_tiling _ _ _ _ Hinv) Hl Hs); lia.
  - intros a' s Ha'. rewrite live_view, (view_hdr _ _ _ HV), <- live_view in Ha'.
    rewrite lookup_insert_is_Some'. right. by apply (HO a' s).
  - done.
Qed.

Lemma read_sim fuel n a i h A V F S :
  holds n h A V F S -> legal A (OpRead a i) -> simulates fuel n (OpRead a i) h A.
Proof.
  intros [Hinv Hsm Hlen HB HO HRn] (bs & Ea & Hi). destruct (HB a bs Ea) as (sz & Hl & Hsz & Hbs).
  eexists _, h, A, V, F, S. split; [done|]. split; [|split; [done|done|lia|done|done|done]].
  apply (arena_read A a i bs); [done|]. rewrite <- Hbs. by apply read_bytes_lookup.
Qed.

(** The page allocator under the heap's feet: only pages outside the segments
    may become free, and the last one never. *)
Lemma heap_inv_pmm h V F S p :
  heap_inv h V F S -> pages_ok p S -> heap_inv (set_hpmm p h) V F S.
Proof.
  intros [[HR HD HH HS HA] T [S1 S2 S3 S4 S5] HF HM _] HP.
  split; [by split|done|by split|done|done|done].
Qed.

Lemma pages_sim fuel n count h A V F S :
  holds n h A V F S -> legal A (OpPages count) -> simulates fuel n (OpPages count) h A.
Proof.
  intros [Hinv Hsm Hlen HB HO HRn] Hc. cbn [legal] in Hc. pose proof (hi_pages _ _ _ _ Hinv) as HP.
  pose proof HP as [[Hwf H0] Hu Htop]. unfold simulates. cbn [heap_step]. rewrite PageAllocPages_At.
  destruct (PageAllocPagesAt_post 0 count (hpmm h)) as ([a p] & -> & Hpost);
    [done|done|unfold is_u32; lia|unfold is_u32; lia|]. rewrite some_bind.
  destruct Hpost as [(st & (Hst & Hle & Hrun & _) & Ea & Hnz & Hwf' & Hset & _)|[[= -> ->] _]].
  2: { exists 0, (set_hpmm (hpmm h) h), A, V, F, S. split; [done|]. split; [constructor|].
       rewrite set_hpmm_id. split; [done|done|lia|done|done|done]. }
  cbn [fst snd] in *. subst a. change (0 / PAGE_SIZE) with 0 in Hst.
  assert (0 < st) by (unfold PAGE_SIZE in Hnz; lia).
  assert (Htop' : st + count <= 1048575).
  { unfold PAGE_COUNT in Hle. destruct (decide (st + count <= 1048575)); [done|].
    rewrite Hrun in Htop by lia. done. }
  assert (Hoff : forall q lo hi, st <= q < st + count -> (lo, hi) ∈ S -> ~ lo / 4096 <= q < hi / 4096).
  { intros q lo hi Hq Hs Hlh. specialize (Hu lo hi q Hs Hlh). by rewrite Hrun in Hu. }
  assert (Hoffr : forall st' cnt', runs A !! st' = Some cnt' -> st + count <= st' \/ st' + cnt' <= st).
  { intros st' cnt' Er. destruct (ro_range _ _ _ HRn st' cnt' Er) as (? & ? & ?).
    destruct (Z.le_gt_cases (st + count) st'); [by left|]. destruct (Z.le_gt_cases (st' + cnt') st); [by right|].
    pose proof (ro_used _ _ _ HRn st' cnt' (Z.max st st') Er ltac:(lia)) as Hq. by rewrite Hrun in Hq by lia. }
  exists (st * PAGE_SIZE), (set_hpmm p h), (mkArena (blocks A) (<[st := count]> (runs A))), V, F, S.
  split; [done|]. split; [apply arena_pages; [done|done|split]|split; cbn [blocks runs hpmm set_hpmm]].
  - intros a bs Ea. destruct (HB a bs Ea) as (sz & Hl & Hsz & _).
    destruct (live_off_run V S (a - 16) sz st count (hi_tiling _ _ _ _ Hinv) Hl); [lia|done|right; lia|left; lia].
  - intros st' cnt' Er. unfold PAGE_SIZE. destruct (Hoffr st' cnt' Er); [left|right]; lia.
  - apply heap_inv_pmm; [done|]. split.
    + split; [done|]. rewrite (Hset 0). by case_decide.
    + intros lo hi q Hs Hq. rewrite (Hset q). case_decide; [done|]. by apply (Hu lo hi).
    + rewrite (Hset 1048575). by case_decide.
  - done.
  - lia.
  - done.
  - done.
  - destruct HRn as [R1 R2 R3 R4]. split.
    + intros st' cnt'. rewrite lookup_insert. case_decide; [intros [= <-]; subst; lia|by apply R1].
    + intros st' cnt' q Er Hq. rewrite (Hset q). case_decide as Hd; [done|].
      rewrite lookup_insert in Er. case_decide; [simplify_eq; lia|by apply (R2 st' cnt')].
    + intros st' cnt' q lo hi Er Hq Hs. rewrite lookup_insert in Er.
      case_decide; [simplify_eq; by apply Hoff|by apply (R3 st' cnt' q)].
    + intros s1 s2 c1 c2 Hne. rewrite !lookup_insert. repeat case_decide; subst; [done| | |by apply R4].
      * intros [= <-] E2. by apply Hoffr.
      * intros E1 [= <-]. destruct (Hoffr _ _ E1); [by right|by left].
Qed.

Lemma pages_free_sim fuel n a cnt h A V F S :
  holds n h A V F S -> legal A (OpPagesFree a cnt) -> simulates fuel n (OpPagesFree a cnt) h A.
Proof.
  intros [Hinv Hsm Hlen HB HO HRn] (st & -> & Er). pose proof (hi_pages _ _ _ _ Hinv) as [[Hwf H0] Hu Htop].
  destruct (ro_range _ _ _ HRn st cnt Er) as (? & ? & ?). unfold simulates. cbn [heap_step].
  rewrite PageFreePages_run by (unfold PAGE_COUNT; lia).
  destruct (set_run_spec st cnt PageStateAvailable (hpmm h)) as (p & -> & Hwf' & Hset & _); [done|unfold PAGE_COUNT; lia..|].
  rewrite some_bind. exists 0, (set_hpmm p h), (mkArena (blocks A) (delete st (runs A))), V, F, S.
  split; [done|]. split; [by constructor|split; cbn [blocks runs hpmm set_hpmm]].
  - apply heap_inv_pmm; [done|]. split.
    + split; [done|]. rewrite (Hset 0). case_decide; [lia|done].
    + intros lo hi q Hs Hq. rewrite (Hset q). case_decide as Hd; [|by apply (Hu lo hi)].
      by destruct (ro_segs _ _ _ HRn st cnt q lo hi Er Hd Hs).
    + rewrite (Hset 1048575). case_decide; [lia|done].
  - done.
  - lia.
  - done.
  - done.
  - destruct HRn as [R1 R2 R3 R4]. split.
    + intros st' cnt' [_ E]%lookup_delete_Some. by apply R1.
    + intros st' cnt' q [Hne E]%lookup_delete_Some Hq. rewrite (Hset q). case_decide as Hd; [|by apply (R2 st' cnt')].
      destruct (R4 st st' cnt cnt' Hne Er E); lia.
    + intros st' cnt' q lo hi [_ E]%lookup_delete_Some. by apply R3.
    + intros s1 s2 c1 c2 Hne [_ E1]%lookup_delete_Some [_ E2]%lookup_delete_Some. by apply R4.
Qed.

Lemma step_sim fuel n op h A V F S :
  holds n h A V F S -> legal A op -> (n + 1 < fuel)%nat -> simulates fuel n op h A.
Proof.
  intros H Hlg Hf. destruct op.
  - by eapply malloc_sim.
  - by eapply free_sim.
  - by eapply write_sim.
  - by eapply read_sim.
  - by eapply pages_sim.
  - by eapply pages_free_sim.
Qed.

(** ** The start *)

(** The heap before its first segment. *)
Lemma heap_empty h : heap_bss h -> heap_inv (set_FreeListHead 0 h) ∅ [] [].
Proof.
  intros [B1 B2 B3 B4 B5]. split.
  - split; [split|done|done|constructor|]; [by intros ? ?|by intros a b _ [? [=]]|by intros x Hx%elem_of_nil].
  - split; try (by intros ? ? ?%elem_of_nil); try done.
  - split; cbn; try done. lia.
  - intros a. split; [by intros ?%elem_of_nil|by intros (f & [=] & _)].
  - by intros a sz fl lo hi [=].
  - split; [done| |done]. by intros lo hi q ?%elem_of_nil.
Qed.

Lemma HeapInit_spec fuel h :
  heap_bss h -> (1 < fuel)%nat ->
  exists h' V F S, HeapInit fuel h = Some h' /\ holds 1 h' (mkArena ∅ ∅) V F S.
Proof.
  intros Hb Hf. pose proof (heap_empty h Hb) as H0.
  assert (Hruns : forall p S, runs_ok p S ∅) by by
    (intros p S; split; [by intros ? ? [=]|by intros ? ? ? [=]|by intros ? ? ? ? ? [=]|by intros ? ? ? ? _ [=]]).
  unfold HeapInit. change HEAP_GROW_PAGES with 16.
  destruct (HeapGrow_spec fuel 16 (set_FreeListHead 0 h) ∅ [] [] H0) as (b & h' & -> & Hc); [lia|cbn; lia|].
  rewrite some_bind. exists h'. destruct Hc as [(_ & -> & _)|(V & Hinv & _ & [_ Hnew Hold] & _)].
  - exists ∅, [], []. split; [done|]. split; [done| |cbn; lia|by intros ? ? [=]|by intros a sz (f & [=] & _)|apply Hruns].
    by intros lo hi ?%elem_of_nil.
  - exists V, (insert_sorted b []), ([] ++ [(b, b + 16 * 4096)]). split; [done|].
    split; [done| |cbn; lia|by intros ? ? [=]| |apply Hruns].
    { intros lo hi [= -> ->]%list_elem_of_singleton. lia. }
    intros a sz (f & E & Hf' & _). destruct (decide (a = b)) as [->|Ha].
    + destruct Hnew as (f' & E' & _ & ?). congruence.
    + specialize (Hold a Ha). rewrite E in Hold. done.
Qed.

(** Any number of calls. *)
Lemma client_run fuel (c : Client) n h0 :
  heap_bss h0 -> client_ok c -> (n + 1 < fuel)%nat ->
  exists h1 rs A h' V F S, HeapInit fuel h0 = Some h1 /\ heap_run fuel c n h1 = Some (rs, h') /\
    length rs = n /\ arena_run c rs A /\ holds (n + 1) h' A V F S.
Proof.
  intros Hb Hc Hf. destruct (HeapInit_spec fuel h0 Hb ltac:(lia)) as (h1 & V1 & F1 & S1 & -> & H1). exists h1.
  assert (Hrun : forall k, (k <= n)%nat -> exists rs A h' V F S, heap_run fuel c k h1 = Some (rs, h') /\
    length rs = k /\ arena_run c rs A /\ holds (k + 1) h' A V F S).
  { induction k as [|k IH]; intros Hk.
    - exists [], (mkArena ∅ ∅), h1, V1, F1, S1. do 2 (split; [done|]). by split; [constructor|].
    - destruct (IH ltac:(lia)) as (rs & A & h2 & V & F & S & E & Hl & HA & Hh). cbn [heap_run]. rewrite E, some_bind.
      destruct (step_sim fuel (k + 1) (c rs) h2 A V F S Hh (Hc rs A HA) ltac:(lia))
        as (r & h3 & A' & V' & F' & S' & -> & Hst & Hh'). rewrite some_bind.
      exists (r :: rs), A', h3, V', F', S'. split; [done|]. split; [cbn; lia|].
      split; [by econstructor|]. by replace (Datatypes.S k + 1)%nat with (k + 1 + 1)%nat by lia. }
  destruct (Hrun n ltac:(lia)) as (rs & A & h' & V & F & S & ?). by exists rs, A, h', V, F, S.
Qed.

(** With nothing in use, every segment is one free block. *)
Lemma drained h V F S :
  heap_inv h V F S -> (forall a s, ~ live V a s) -> forall lo hi, (lo, hi) ∈ S -> view V lo = Some (hi - lo, true).
Proof.
  intros [HL T HSg HF HM HP] Hno lo hi Hs. destruct (t_seg _ _ _ T lo hi Hs) as (? & ? & _).
  assert (Hfr : forall a f, V !! a = Some f -> view V a = Some (fsize f, true)).
  { intros a f E. unfold view. rewrite E. cbn. destruct (ffree f) eqn:Hf; [done|]. destruct (Hno a (fsize f)). by exists f. }
  destruct (t_first _ _ _ T lo hi Hs) as [f E]. pose proof (Hfr lo f E) as Hv.
  destruct (next_block _ _ _ _ _ _ _ T E Hs) as [Hn Hle]; [lia|].
  destruct (decide (lo + fsize f = hi)) as [Hhi|Hne]; [rewrite Hv; do 2 f_equal; lia|].
  destruct (Hn ltac:(lia)) as [g G]. destruct (HM lo (fsize f) true lo hi Hv); [left; eauto|done|lia|lia|left].
  exists (fsize g). by apply Hfr.
Qed.

(** ** Properties *)

(** C5. The heap and the page allocator implement the arena. Any client that
    keeps to the rules — requests of at most 65520 bytes, and only what it owns
    is written, read or given back — gets from HeapInit, kmalloc, kfree,
    PageAllocPages and PageFreePages, in any order and any number, only answers
    the arena allows: every call returns; a block is 8-aligned and as long as
    asked for; what one owner holds never overlaps what another holds, pages
    taken past the heap included; and every byte reads back as last written
    until its block is freed. *)
Theorem heap_refines_arena fuel (c : Client) n h0 :
  heap_bss h0 -> client_ok c -> (n + 1 < fuel)%nat ->
  exists h1 rs A h', HeapInit fuel h0 = Some h1 /\ heap_run fuel c n h1 = Some (rs, h') /\
    length rs = n /\ arena_run c rs A /\
    forall a bs, blocks A !! a = Some bs -> read_bytes (hmem h') a (length bs) = bs.
Proof.
  intros Hb Hc Hf. destruct (client_run fuel c n h0 Hb Hc Hf) as (h1 & rs & A & h' & V & F & S & E1 & E & Hl & HA & Hh).
  exists h1, rs, A, h'. do 4 (split; [done|]). intros a bs Ea.
  by destruct (ho_blocks _ _ _ _ _ _ Hh a bs Ea) as (sz & _ & _ & ?).
Qed.

(** A client that writes a byte of a block, takes a second block and reads the
    byte back. *)
Definition sample_client : Client := fun rs =>
  match rs with
  | [] => OpMalloc 100
  | [a] => if a =? 0 then OpPages 1 else OpWrite a 7 200
  | [_; a] => OpMalloc 5000
  | [_; _; a] => if a =? 0 then OpPages 1 else OpRead a 7
  | _ => OpPages 1
  end.

(** 200 pages from the first MiB on, and a heap nobody has touched. *)
Definition sample_pages : Pmm := default (mkPmm ∅ 0) (set_run 256 200 PageStateAvailable (mkPmm ∅ 0)).
Definition sample_heap : Heap := mkHeap ∅ None (replicate 8 (mkSeg 0 0 None)) 0 0 sample_pages.

Lemma no_pages_wf : pmm_wf (mkPmm ∅ 0).
Proof.
  assert (Hw : forall w, word (mkPmm ∅ 0) w = 0) by (intros w; unfold word; cbn [PageBitmap]; by rewrite lookup_empty).
  assert (Hf : forall p, page_free (mkPmm ∅ 0) p = false) by (intros p; unfold page_free; rewrite Hw; apply Z.bits_0).
  split; [intros w; rewrite Hw; unfold is_u32; lia|by intros p _|]. cbn [FreePages]. unfold free_count. symmetry.
  rewrite (count_ext _ (fun _ => false)) by (intros; apply Hf). apply count_false.
Qed.

Lemma sample_heap_bss : heap_bss sample_heap.
Proof.
  destruct (set_run_spec 256 200 PageStateAvailable (mkPmm ∅ 0) no_pages_wf) as (p & E & Hwf & Hset & _); [unfold PAGE_COUNT; lia..|].
  assert (Hp : sample_pages = p) by (unfold sample_pages; by rewrite E). split; [done|done|done| |]; cbn [hpmm sample_heap]; rewrite Hp.
  - split; [done|]. rewrite (Hset 0). apply Z.bits_0.
  - rewrite (Hset 1048575). apply Z.bits_0.
Qed.

Lemma sample_client_ok : client_ok sample_client.
Proof.
  intros rs A Hrun. destruct rs as [|a [|r [|r2 [|r3 rs]]]]; cbn [sample_client]; try (cbn; lia).
  - case_match; [cbn; lia|]. inversion Hrun as [|? ? ? ? _ Hst]; subst. cbn [sample_client] in Hst. inversion Hst; subst; [|done].
    cbn. eexists. rewrite lookup_insert_eq. split; [done|lia].
  - case_match; [cbn; lia|]. inversion Hrun as [|? ? ? ? Hrun1 Hst]; subst. cbn [sample_client] in Hst.
    inversion Hrun1 as [|? ? ? ? Hrun2 Hst1]; subst. cbn [sample_client] in Hst1.
    inversion Hrun2 as [|? ? ? ? _ Hst2]; subst. cbn [sample_client] in Hst2. rewrite H in Hst1.
    inversion Hst2; subst; [|done]. inversion Hst1; subst.
    match goal with E : blocks _ !! r2 = Some ?bs |- _ => cbn [blocks] in E; rewrite lookup_insert_eq in E; injection E as <- end.
    inversion Hst; subst; cbn [legal blocks].
    + rewrite lookup_insert. case_decide; [eexists; split; [done|lia]|].
      rewrite lookup_insert_eq. eexists. split; [done|]. rewrite length_insert. lia.
    + rewrite lookup_insert_eq. eexists. split; [done|]. rewrite length_insert. lia.
Qed.

Lemma heap_refines_arena_witness :
  exists h1 h', HeapInit 6 sample_heap = Some h1 /\
    heap_run 6 sample_client 4 h1 = Some ([200; 1048712; 0; 1048592], h').
Proof.
  destruct (heap_refines_arena 6 sample_client 4 sample_heap sample_heap_bss sample_client_ok)
    as (h1 & rs & A & h' & E1 & E & _); [lia|].
  exists h1, h'. split; [exact E1|]. rewrite E. f_equal. f_equal.
  apply (f_equal (fun o => h1 ← o; fst <$> heap_run 6 sample_client 4 h1)) in E1.
  rewrite some_bind, E in E1. vm_compute in E1. congruence.
Defined.

(** C8. Free neighbours are always merged. Whatever a client that keeps to the
    rules has done, when it has freed all its blocks every segment of the heap is
    a single free block again: no sequence of calls fragments the heap. *)
Theorem heap_coalesces fuel (c : Client) n h0 :
  heap_bss h0 -> client_ok c -> (n + 1 < fuel)%nat ->
  exists h1 rs A h', HeapInit fuel h0 = Some h1 /\ heap_run fuel c n h1 = Some (rs, h') /\ arena_run c rs A /\
    (blocks A = ∅ -> forall i, Z.of_nat i < HeapSegmentCount h' ->
       IsFree (hmem h') (Base (seg h' i)) = true /\
       Size (hmem h') (Base (seg h' i)) = End_ (seg h' i) - Base (seg h' i)).
Proof.
  intros Hb Hc Hf. destruct (client_run fuel c n h0 Hb Hc Hf) as (h1 & rs & A & h' & V & F & S & E1 & E & Hl & HA & Hh).
  exists h1, rs, A, h'. do 3 (split; [done|]). intros HA0 i Hi. pose proof (ho_inv _ _ _ _ _ _ Hh) as [HL T HSg HF HM HP].
  rewrite (sg_count _ _ HSg) in Hi. destruct (lookup_lt_is_Some_2 S i ltac:(lia)) as [[lo hi] Es].
  rewrite (sg_tab _ _ HSg i lo hi Es). cbn [Base End_].
  assert (Hv : view V lo = Some (hi - lo, true)).
  { apply (drained h' V F S); [apply (ho_inv _ _ _ _ _ _ Hh)| |by eapply list_elem_of_lookup_2].
    intros a s Ha. destruct (ho_owned _ _ _ _ _ _ Hh a s Ha) as [bs Hbs]. by rewrite HA0 in Hbs. }
  destruct (view_Some _ _ _ _ Hv) as (f & Ef & <- & Hff).
  destruct (hrep_get _ _ _ _ (l_rep _ _ _ HL) Ef) as (_ & -> & _ & -> & _). done.
Qed.

(** A client that takes a block and frees it. *)
Definition drain_client : Client := fun rs =>
  match rs with
  | [] => OpMalloc 3000
  | [a] => if a =? 0 then OpPages 1 else OpFree a
  | _ => OpPages 1
  end.

Lemma drain_client_ok : client_ok drain_client.
Proof.
  intros rs A Hrun. destruct rs as [|a [|r rs]]; cbn [drain_client]; try (cbn; lia).
  case_match; [cbn; lia|]. inversion Hrun as [|? ? ? ? _ Hst]; subst. cbn [drain_client] in Hst. inversion Hst; subst; [|done].
  cbn. by rewrite lookup_insert_eq.
Qed.

Lemma heap_coalesces_witness :
  exists h1 rs h', HeapInit 4 sample_heap = Some h1 /\ heap_run 4 drain_client 2 h1 = Some (rs, h') /\
    IsFree (hmem h') (Base (seg h' 0)) = true /\ Size (hmem h') (Base (seg h' 0)) = 65536.
Proof.
  destruct (heap_coalesces 4 drain_client 2 sample_heap sample_heap_bss drain_client_ok)
    as (h1 & rs & A & h' & E1 & E & HA & H); [lia|].
  assert (Er : (h1 ← HeapInit 4 sample_heap; '(rs, h') ← heap_run 4 drain_client 2 h1;
    Some (rs, HeapSegmentCount h', End_ (seg h' 0) - Base (seg h' 0))) = Some ([0; 1048592], 1, 65536))
    by (vm_compute; reflexivity).
  rewrite E1, some_bind, E, some_bind in Er. injection Er as -> Hc Hs.
  exists h1, [0; 1048592], h'. split; [exact E1|]. split; [exact E|]. rewrite <- Hs. apply H; [|lia].
  inversion HA as [|? A1 ? ? Hrun1 Hst]; subst. inversion Hrun1 as [|? A2 ? ? Hrun2 Hst1]; subst.
  inversion Hrun2; subst. cbn in Hst, Hst1. inversion Hst1; subst. inversion Hst; subst. cbn [blocks].
  by rewrite delete_insert_eq, delete_empty.
Defined.

(** C6. kmalloc on every outcome. It is refused for an empty request, for one
    within a header and an alignment of 4 GiB, and where no free block is large
    enough and the heap cannot grow; then nothing changes. Otherwise the result
    is the payload of a block that was not in use, at least as large as asked
    for and larger only by what could not be a block of its own; it is the first
    that fits in address order, or the start of a new segment when none fits.
    Blocks in use and their bytes stay as they were, and the invariant of the
    heap holds again. *)
Theorem kmalloc_correct fuel size h V F S :
  heap_inv h V F S -> is_u32 size -> (length F + 1 < fuel)%nat ->
  let T := HEAP_ALIGN_UP (size +w sizeof_BlockMeta) in
  let pages := (T +w PAGE_SIZE -w 1) / PAGE_SIZE in
  (kmalloc fuel size h = Some (0, h) /\
     (size = 0 \/ 4294967271 < size \/ (Forall (too_small V T) F /\ (pages = 0 \/ no_room pages h)))) \/
  (exists b h' V' F' S' sz, kmalloc fuel size h = Some (b + 16, h') /\ 0 < b /\ b mod 8 = 0 /\
     size + 16 <= sz < size + 48 /\ heap_inv h' V' F' S' /\ gained V V' (hmem h) (hmem h') b sz /\
     ((S' = S /\ hpmm h' = hpmm h /\ exists l1 l2 osz, F = l1 ++ b :: l2 /\ Forall (too_small V T) l1 /\
         view V b = Some (osz, true) /\ sz = cut T osz) \/
      (S' = S ++ [(b, b + pages * 4096)] /\ Forall (too_small V T) F /\ sz = cut T (pages * 4096)))).
Proof.
  intros Hinv Hs Hf T pages. unfold is_u32 in Hs.
  destruct (decide (size = 0)) as [->|Hs0]; [by left; split; [|left]|].
  destruct (Z.lt_ge_cases 4294967271 size) as [Hbig|Hle].
  { left. split; [|by right; left]. unfold kmalloc. rewrite (proj2 (Z.eqb_neq size 0)) by done.
    change (4294967295 -w sizeof_BlockMeta -w HEAP_ALIGN) with 4294967271.
    by rewrite (proj2 (Z.ltb_lt 4294967271 size)) by done. }
  destruct (kmalloc_spec fuel size h V F S Hinv ltac:(lia) Hf)
    as [(E & Hno)|(b & h' & V' & F' & S' & sz & E & Hb & Hinv' & Hsz & Hg & _ & HS' & _)].
  - left. split; [exact E|]. by right; right.
  - right. destruct (total_size size ltac:(lia)) as (HT & _). fold T in HT, Hsz.
    destruct (live_range V' S' b sz (hi_tiling _ _ _ _ Hinv') (gn_live _ _ _ _ _ _ Hg)) as (_ & _ & _ & Hb8).
    exists b, h', V', F', S', sz. do 3 (split; [done|]). split; [lia|]. done.
Qed.

Lemma kmalloc_correct_witness :
  exists h1 h', HeapInit 5 sample_heap = Some h1 /\ kmalloc 5 64 h1 = Some (1048592, h').
Proof.
  destruct (HeapInit_spec 5 sample_heap sample_heap_bss ltac:(lia)) as (h1 & V & F & S & E & Hh). exists h1.
  assert (E1 : (h1 ← HeapInit 5 sample_heap; fst <$> kmalloc 5 64 h1) = Some 1048592) by (vm_compute; reflexivity).
  rewrite E, some_bind in E1.
  destruct (kmalloc_correct 5 64 h1 V F S) as [[Ek _]|(b & h' & V' & F' & S' & sz & Ek & _)];
    [apply Hh|unfold is_u32; lia|pose proof (ho_len _ _ _ _ _ _ Hh); lia|rewrite Ek in E1; discriminate|].
  rewrite Ek in E1 |- *. exists h'. split; [exact E|]. injection E1 as ->. reflexivity.
Defined.

(** C7. Every call returns: kmalloc for any size, kfree for any block in use
    whatever its size and its neighbours, and kfree of what is not in use, which
    changes nothing. The walks of the free list take at most one step more than
    it has blocks, and the one kfree may add. *)
Theorem heap_calls_return fuel h V F S :
  heap_inv h V F S -> (length F + 1 < fuel)%nat ->
  (forall size, is_u32 size -> exists r, kmalloc fuel size h = Some r) /\
  (forall b sz, live V b sz -> exists h', kfree fuel (b + 16) h = Some h') /\
  (forall b, is_free V b -> kfree fuel (b + 16) h = Some h).
Proof.
  intros Hinv Hf. split; [|split].
  - intros size Hs. unfold is_u32 in Hs. destruct (decide (0 < size <= 4294967271)) as [Hok|Hno].
    + destruct (kmalloc_spec fuel size h V F S Hinv Hok Hf) as [(E & _)|(b & h' & V' & F' & S' & sz & E & _)]; eauto.
    + exists (0, h). unfold kmalloc. destruct (Z.eqb_spec size 0); [done|].
      change (4294967295 -w sizeof_BlockMeta -w HEAP_ALIGN) with 4294967271.
      by rewrite (proj2 (Z.ltb_lt 4294967271 size)) by lia.
  - intros b sz Hl. by apply (kfree_returns fuel h V F S b sz).
  - intros b. by apply (kfree_free fuel h V F S).
Qed.

Lemma heap_calls_return_witness :
  exists h1, HeapInit 5 sample_heap = Some h1 /\ forall size, is_u32 size -> exists r, kmalloc 5 size h1 = Some r.
Proof.
  destruct (HeapInit_spec 5 sample_heap sample_heap_bss ltac:(lia)) as (h1 & V & F & S & E & Hh). exists h1.
  split; [exact E|]. apply (heap_calls_return 5 h1 V F S); [apply Hh|pose proof (ho_len _ _ _ _ _ _ Hh); lia].
Defined.

(** Six calls that respect ownership, the second for more than a segment of the
    initial size holds. *)
Definition overlap_client : Client := fun rs =>
  match rs with
  | [] => OpMalloc 65520
  | [_] => OpMalloc 140000
  | [_; _] => OpMalloc 64
  | [_; a; _] => OpFree a
  | [_; _; _; _] => OpMalloc 70000
  | _ => OpPages 1
  end.

(** The pages kfree gives back stay on the free list. A block of more than
    16 pages is freed with a block in use behind it; the pages past the sixteenth
    go to the page allocator, but the free block on them is handed out by the
    next kmalloc that fits, and a page of it by the page allocator: two owners of
    the same bytes, which no run of the arena allows. So the bound on requests
    in what clients may ask for is needed. *)
Theorem kfree_give_back_overlaps :
  exists h1 rs h', HeapInit 10 sample_heap = Some h1 /\ heap_run 10 overlap_client 6 h1 = Some (rs, h') /\
    forall A, ~ arena_run overlap_client rs A.
Proof.
  assert (E : (h1 ← HeapInit 10 sample_heap; fst <$> heap_run 10 overlap_client 6 h1) =
    Some [1179648; 1179664; 0; 1254144; 1114128; 1048592]) by (vm_compute; reflexivity).
  destruct (HeapInit 10 sample_heap) as [h1|]; [|discriminate]. rewrite some_bind in E.
  destruct (heap_run 10 overlap_client 6 h1) as [[rs h']|] eqn:Er; [|discriminate]. injection E as ->.
  exists h1. eexists _, h'. split; [done|]. split; [done|]. intros A Hrun.
  inversion Hrun as [|? A1 ? ? Hrun1 Hst]; subst. inversion Hrun1 as [|? A2 ? ? _ Hst1]; subst.
  cbn [overlap_client] in Hst, Hst1. inversion Hst1 as [? ? bs Hbs| | | | | | |]; subst.
  inversion Hst as [| | | | |? st _ _ [Hb _] Hop Hr| |]; subst.
  specialize (Hb 1179664 bs). cbn [blocks] in Hb. rewrite lookup_insert_eq in Hb. unfold PAGE_SIZE in Hb, Hr.
  destruct (Hb eq_refl); lia.
Qed.
