(* ===== verification/KernelMain.v ===== *)
(** * Kernel entry and self tests (init/main.c)

    kernel_main up to SchedInit: the boot report, the start of the memory
    parts, and the heap's self tests. What it prints goes through kprintf to the
    console; the parts it calls are those of the other files. *)

From stdpp Require Import strings.
From S2P Require Import Prelude PageAlloc Paging Strings Console Stdio Heap.

(** ** Text *)

(** The bytes of a string literal, and with a newline. *)
Definition text (s : String.string) : list Z := (fun c => Z.of_N (Ascii.N_of_ascii c)) <$> String.list_ascii_of_string s.
Definition line (s : String.string) : list Z := text s ++ [10].

(** ** State *)

Definition MULTIBOOT_BOOTLOADER_MAGIC : Z := 732803074.

(** The parts kernel_main starts, the page allocator inside the heap. *)
Record Kernel := mkKernel { con : Console; heap : Heap; paging : Paging }.

Definition set_con v k := mkKernel v (heap k) (paging k).
Definition set_heap v k := mkKernel (con k) v (paging k).
Definition set_paging v k := mkKernel (con k) (heap k) v.
Definition kpmm (k : Kernel) : Pmm := hpmm (heap k).

Definition say (fmt : list Z) (args : list Arg) (c : Console) : option Console :=
  kprintf (console_putchar putchar_fuel) fmt args c.
Definition kprint (fmt : list Z) (args : list Arg) (k : Kernel) : option Kernel :=
  c ← say fmt args (con k); Some (set_con c k).

Section Main.
Context (fuel : nat).

Definition kalloc (size : Z) (k : Kernel) : option (Z * Kernel) :=
  '(a, h) ← kmalloc fuel size (heap k); Some (a, set_heap h k).

Definition krelease (addr : Z) (k : Kernel) : option Kernel :=
  h ← kfree fuel addr (heap k); Some (set_heap h k).

(** ** The boot report *)

Definition boot_report (boot : option boot_info) (k : Kernel) : option Kernel :=
  let k := set_con (console_clear (con k)) k in
  k ← kprint (line "NoviumOS" ++ [10]) [] k;
  match boot with
  | Some b =>
      if multiboot_magic b =? MULTIBOOT_BOOTLOADER_MAGIC then
        k ← kprint (line "OK: Multiboot info valid.") [] k;
        if negb (memory_map_length b =? 0)
        then kprint (line "OK: Memory map available.") [] k
        else kprint (line "WARNING: no memory map available.") [] k
      else kprint (line "WARNING: no valid boot info") [] k
  | None => kprint (line "WARNING: no valid boot info") [] k
  end.

(** PageAllocInit, HeapInit and PagingInit, over the linker's kernel bounds, the
    memory the map is read from and the addresses of the page tables. *)
Definition memory_init (kstart kend : Z) (m : Mem) (pd pt : Z) (boot : option boot_info) (k : Kernel)
    : option Kernel :=
  p ← PageAllocInit kstart kend m boot (kpmm k);
  h ← HeapInit fuel (set_hpmm p (heap k));
  let k := set_heap h k in
  k ← kprint (line "OK: %u physical pages available.") [AWord (PageAllocFreeCount (kpmm k))] k;
  P ← PagingInit pd pt (paging k);
  kprint (line "OK: 4 GiB paging enabled with 4 KiB pages.") [] (set_paging P k).

(** ** The heap's self tests *)

Definition multi_page_test (HeapPagesBefore : Z) (k : Kernel) : option Kernel :=
  '(HeapTestMemory, k) ← kalloc (PAGE_SIZE +w 1) k;
  if HeapTestMemory =? 0 then kprint (line "ERROR: multi-page kmalloc test failed.") [] k
  else
    k ← kprint (line "OK: kmalloc(PAGE_SIZE + 1) returned 0x%x.") [AWord HeapTestMemory] k;
    k ← (if PageAllocFreeCount (kpmm k) =? HeapPagesBefore
         then kprint (line "OK: kmalloc reused a free block, no pages taken.") [] k
         else kprint (line "WARNING: kmalloc took new pages, free list was empty.") [] k);
    krelease HeapTestMemory k.

Definition merge_test (k : Kernel) : option Kernel :=
  '(MergeA, k) ← kalloc (PAGE_SIZE *w 2) k;
  '(MergeB, k) ← kalloc (PAGE_SIZE *w 2) k;
  if (MergeA =? 0) || (MergeB =? 0)
  then kprint (line "ERROR: merge test could not allocate two blocks.") [] k
  else
    k ← kprint (line "OK: two 2 page blocks allocated at 0x%x and 0x%x.") [AWord MergeA; AWord MergeB] k;
    k ← krelease MergeA k;
    k ← krelease MergeB k;
    '(MergeBig, k) ← kalloc (PAGE_SIZE *w 4) k;
    if negb (MergeBig =? 0) then
      k ← kprint (line "OK: two freed blocks coalesced into one 4 page block.") [] k;
      krelease MergeBig k
    else kprint (line "WARNING: two freed blocks did not coalesce.") [] k.

Definition double_free_test (k : Kernel) : option Kernel :=
  '(DoubleFreeA, k) ← kalloc (PAGE_SIZE *w 2) k;
  '(DoubleFreeB, k) ← kalloc (PAGE_SIZE *w 2) k;
  if (DoubleFreeA =? 0) || (DoubleFreeB =? 0)
  then kprint (line "ERROR: double free test could not allocate two blocks.") [] k
  else
    k ← krelease DoubleFreeA k;
    k ← krelease DoubleFreeB k;
    k ← krelease DoubleFreeA k;
    '(AfterDoubleFree, k) ← kalloc (PAGE_SIZE *w 4) k;
    if negb (AfterDoubleFree =? 0) then
      k ← kprint (line "OK: double free did not corrupt the heap.") [] k;
      krelease AfterDoubleFree k
    else kprint (line "ERROR: double free corrupted the heap.") [] k.

Definition pages_report (HeapPagesBefore : Z) (k : Kernel) : option Kernel :=
  let PagesAfterMerge := PageAllocFreeCount (kpmm k) in
  if HeapPagesBefore <? PagesAfterMerge
  then kprint (line "OK: heap returned pages to the page allocator.") [] k
  else if PagesAfterMerge =? HeapPagesBefore
  then kprint (line "OK: heap kept its pages, nothing large enough to return.") [] k
  else kprint (line "ERROR: heap lost pages, %u before and %u after.")
         [AWord HeapPagesBefore; AWord PagesAfterMerge] k.

Definition heap_self_tests (k : Kernel) : option Kernel :=
  let HeapPagesBefore := PageAllocFreeCount (kpmm k) in
  k ← multi_page_test HeapPagesBefore k;
  k ← merge_test k;
  k ← double_free_test k;
  pages_report HeapPagesBefore k.

(** kernel_main up to SchedInit. *)
Definition kernel_main_memory (kstart kend : Z) (m : Mem) (pd pt : Z) (boot : option boot_info) (k : Kernel)
    : option Kernel :=
  k ← boot_report boot k;
  k ← memory_init kstart kend m pd pt boot k;
  heap_self_tests k.
End Main.
