(* ===== verification/KernelMainTheorems.v ===== *)
(** * What kernel_main reports

    The heap's self tests on the heap HeapInit leaves, and the text of the boot. *)

From stdpp Require Import strings.
From S2P Require Import Prelude PageAlloc Paging Strings Console Stdio Heap HeapInv HeapTiling HeapOps HeapAlloc HeapFree HeapClient HeapTheorems KernelMain.

(** ** One segment and the blocks in use *)

(** The heap is one segment of 16 pages at [lo], the blocks in use are those of
    [L], and the free list has at most [n] blocks. *)
Definition owns (n : nat) (lo : Z) (L : gmap Z Z) (h : Heap) : Prop :=
  exists V F, heap_inv h V F [(lo, lo + 65536)] /\ (length F <= n)%nat /\
    forall a s, live V a s <-> L !! a = Some s.

Lemma owns_range n lo L h : owns n lo L h -> 0 < lo /\ lo + 65536 < 4294967296 /\ lo mod 4096 = 0.
Proof.
  intros (V & F & Hinv & _). destruct (t_seg _ _ _ (hi_tiling _ _ _ _ Hinv) lo (lo + 65536)) as (? & ? & ? & ? & ?);
    [by left|done].
Qed.

Lemma in_segment V lo a f :
  tiling 0 V [(lo, lo + 65536)] -> V !! a = Some f -> lo <= a /\ a + fsize f <= lo + 65536.
Proof. intros T E. by destruct (t_in _ _ _ T a f E) as (l & h & [= -> ->]%list_elem_of_singleton & ? & ? & _). Qed.

(** The only free block, of [osz] bytes. *)
Definition only_free (V : Blocks) (b osz : Z) : Prop :=
  view V b = Some (osz, true) /\ forall a, is_free V a -> a = b.

(** kmalloc cuts the only free block. *)
Lemma alloc_only fuel n lo L h b osz size :
  owns n lo L h ->
  (forall V F, heap_inv h V F [(lo, lo + 65536)] -> (forall a s, live V a s <-> L !! a = Some s) -> only_free V b osz) ->
  0 < size <= 65520 -> HEAP_ALIGN_UP (size +w sizeof_BlockMeta) + 24 <= osz -> (n + 1 < fuel)%nat ->
  exists h', kmalloc fuel size h = Some (b + 16, h') /\ hpmm h' = hpmm h /\
    owns (n + 1) lo (<[b := HEAP_ALIGN_UP (size +w sizeof_BlockMeta)]> L) h'.
Proof.
  intros (V & F & Hinv & Hn & HL) Hb Hs Hle Hf. destruct (Hb V F Hinv HL) as [Hv Hone].
  assert (HbF : b ∈ F) by (apply (hi_free _ _ _ _ Hinv), free_view; eauto).
  set (T := HEAP_ALIGN_UP (size +w sizeof_BlockMeta)) in *.
  assert (Hno : ~ Forall (too_small V T) F).
  { intros Hall. rewrite Forall_forall in Hall. destruct (Hall b HbF) as (g & G & Hg).
    unfold view in Hv. rewrite G in Hv. cbn in Hv. simplify_eq. lia. }
  destruct (kmalloc_spec fuel size h V F _ Hinv ltac:(lia) ltac:(lia))
    as [(_ & Hall & _)|(b' & h' & V' & F' & S' & sz & E & Hb' & Hinv' & _ & Hg & HF' & HS' & _)]; [done|].
  destruct HS' as [(-> & Hp & l1 & l2 & o & EF & _ & Hv' & Hsz)|(_ & Hall & _)]; [|done].
  assert (b' = b) as ->.
  { apply Hone, (hi_free _ _ _ _ Hinv). rewrite EF. apply elem_of_middle. }
  rewrite Hv in Hv'. injection Hv' as <-. fold T in Hsz. unfold cut in Hsz. rewrite decide_False in Hsz by lia. subst sz.
  exists h'. split; [exact E|]. split; [done|]. exists V', F'. split; [done|]. split; [lia|].
  destruct Hg as [Hl Hfresh Hsame _]. intros a s. rewrite lookup_insert. case_decide as Ha.
  - subst a. split; [|by intros [= <-]]. intros Hl'. apply live_view in Hl, Hl'. congruence.
  - by rewrite Hsame.
Qed.

Lemma only_first h V F lo :
  heap_inv h V F [(lo, lo + 65536)] -> (forall a s, live V a s <-> (∅ : gmap Z Z) !! a = Some s) -> only_free V lo 65536.
Proof.
  intros Hinv HL. pose proof (drained h V F _ Hinv) as Hd. pose proof (hi_tiling _ _ _ _ Hinv) as T.
  specialize (Hd ltac:(by intros a s ?%HL) lo (lo + 65536) ltac:(by left)).
  replace (lo + 65536 - lo) with 65536 in Hd by lia. split; [done|]. intros a (f & E & _).
  destruct (view_Some _ _ _ _ Hd) as (g & G & Hg & _). destruct (in_segment V lo a f T E).
  destruct (Z.eq_dec a lo) as [|Hne]; [done|]. pose proof (t_sep _ _ _ T lo a g f ltac:(lia) G E).
  pose proof (blk_range _ _ _ _ _ T E). lia.
Qed.

Lemma only_rest h V F lo s :
  heap_inv h V F [(lo, lo + 65536)] -> s < 65536 ->
  (forall a n, live V a n <-> ({[lo := s]} : gmap Z Z) !! a = Some n) -> only_free V (lo + s) (65536 - s).
Proof.
  intros Hinv Hs HL. pose proof Hinv as [_ T _ _ HM _].
  assert (Hfr : forall a f, V !! a = Some f -> a <> lo -> view V a = Some (fsize f, true)).
  { intros a f E Ha. unfold view. rewrite E. cbn. destruct (ffree f) eqn:Hf; [done|].
    assert (Hlv : live V a (fsize f)) by by exists f. apply HL, lookup_singleton_Some in Hlv as [? _]. congruence. }
  destruct (proj2 (HL lo s) (lookup_singleton_eq lo s)) as (f & E & _ & Hfs).
  assert (Hin : (lo, lo + 65536) ∈ [(lo, lo + 65536)]) by by left.
  destruct (next_block _ _ _ _ _ _ _ T E Hin) as [Hn _]; [lia|]. destruct (Hn ltac:(lia)) as [g G].
  pose proof (blk_range _ _ _ _ _ T E). pose proof (blk_range _ _ _ _ _ T G). rewrite Hfs in *.
  pose proof (Hfr _ g G ltac:(lia)) as Hg. destruct (in_segment V lo _ g T G).
  assert (Hsz : fsize g = 65536 - s).
  { destruct (next_block _ _ _ _ _ _ _ T G Hin) as [Hn' _]; [lia|].
    destruct (decide (lo + s + fsize g < lo + 65536)) as [Hlt|]; [|lia]. destruct (Hn' Hlt) as [k K].
    destruct (HM (lo + s) (fsize g) true lo (lo + 65536) Hg); [left; eauto|done|lia|done|left].
    exists (fsize k). apply Hfr; [done|lia]. }
  split; [by rewrite <- Hsz|]. intros a (k & K & Hk). destruct (in_segment V lo a k T K).
  pose proof (blk_range _ _ _ _ _ T K). destruct (Z.lt_total a (lo + s)) as [Hl|[?|Hl]]; [|done|].
  - destruct (Z.eq_dec a lo) as [->|]; [|pose proof (t_sep _ _ _ T lo a f k ltac:(lia) E K); lia].
    destruct (proj2 (HL lo s) (lookup_singleton_eq lo s)) as (f' & E' & Hf' & _). congruence.
  - pose proof (t_sep _ _ _ T _ a g k Hl G K). lia.
Qed.

Lemma owns_free fuel n lo L h a s :
  owns n lo L h -> L !! a = Some s -> (n < fuel)%nat ->
  exists h', kfree fuel (a + 16) h = Some h' /\ hpmm h' = hpmm h /\ owns (n + 1) lo (delete a L) h'.
Proof.
  intros (V & F & Hinv & Hn & HL) Ha Hf. pose proof (proj2 (HL a s) Ha) as Hl. pose proof Hl as (f & E & _).
  pose proof (hi_tiling _ _ _ _ Hinv) as T. destruct (in_segment V lo a f T E). pose proof (blk_range _ _ _ _ _ T E).
  destruct (kfree_spec fuel h V F _ a s lo (lo + 65536) Hinv Hl) as (h' & V' & F' & E' & Hinv' & Hlv & _ & HF' & Hp);
    [lia|by left|lia|lia|]. exists h'. split; [done|]. split; [done|]. exists V', F'. split; [done|]. split; [lia|].
  intros b m. rewrite Hlv, HL, lookup_delete_Some. naive_solver.
Qed.

(** With nothing in use the free list is the segment. *)
Lemma owns_drained n lo h : owns n lo ∅ h -> owns 1 lo ∅ h /\ forall fuel, kfree fuel (lo + 16) h = Some h.
Proof.
  intros (V & F & Hinv & Hn & HL). destruct (only_first h V F lo Hinv HL) as [Hv Hone]. split.
  - exists V, F. split; [done|]. split; [|done].
    assert (HF : forall x, x ∈ F -> x = lo) by (intros x Hx; apply Hone, (hi_free _ _ _ _ Hinv), Hx).
    pose proof (l_sorted _ _ _ (hi_linked _ _ _ _ Hinv)) as Hs. destruct F as [|x [|y F]]; [cbn; lia..|].
    inversion Hs as [|? ? _ Hall]; subst. inversion Hall as [|? ? Hlt _]; subst.
    rewrite (HF x), (HF y) in Hlt by set_solver. lia.
  - intros fuel. apply (kfree_free fuel h V F _ lo Hinv). apply free_view. eauto.
Qed.

(** HeapInit on memory that has a run of 16 free pages. *)
Lemma HeapInit_owns fuel h st :
  heap_bss h -> 0 <= st -> run_free (hpmm h) st 16 -> (1 < fuel)%nat ->
  exists h' lo, HeapInit fuel h = Some h' /\ owns 1 lo ∅ h'.
Proof.
  intros Hb Hst Hrun Hf. unfold HeapInit. change HEAP_GROW_PAGES with 16.
  destruct (HeapGrow_spec fuel 16 (set_FreeListHead 0 h) ∅ [] [] (heap_empty h Hb)) as (b & h' & -> & Hc); [lia|cbn; lia|].
  rewrite some_bind. destruct Hc as [(_ & _ & Hno)|(V & Hinv & _ & [_ Hnew Hold] & _)].
  - exfalso. destruct Hno as [Hno|(hint & Eh & Hno)].
    + unfold HEAP_SEGMENT_CAP in Hno. cbn in Hno. rewrite (bss_count _ Hb) in Hno. lia.
    + unfold HeapGrowthHint in Eh. cbn in Eh. rewrite (bss_head _ Hb) in Eh. injection Eh as <-.
      by apply (Hno st).
  - exists h', b. split; [done|]. exists V, (insert_sorted b []). split; [done|]. split; [done|].
    intros a s. split; [|done]. intros (f & E & Hf' & _). destruct (decide (a = b)) as [->|Ha].
    + destruct Hnew as (f' & E' & _ & ?). congruence.
    + specialize (Hold a Ha). rewrite E in Hold. done.
Qed.

(** ** What is printed *)

Definition decimal (v : Z) : list Z := glyphs dec_digits (digits_of 10 v).
Definition hexa (v : Z) : list Z := glyphs hex_lower (digits_of 16 v).

Lemma render_lit l fmt args : Forall (fun c => c <> 37) l -> render (l ++ fmt) args = app l <$> render fmt args.
Proof.
  intros Hl. induction Hl as [|c l Hc _ IH]; cbn [app render]; [by destruct (render fmt args)|].
  rewrite decide_True, IH by done. by destruct (render fmt args).
Qed.

Lemma render_hex v fmt args : render (37 :: 120 :: fmt) (AWord v :: args) = app (hexa v) <$> render fmt args.
Proof. done. Qed.
Lemma render_dec v fmt args : render (37 :: 117 :: fmt) (AWord v :: args) = app (decimal v) <$> render fmt args.
Proof. done. Qed.

Ltac plain_text := apply (bool_decide_unpack _); vm_compute; exact I.

Lemma console_write_app a b s : console_write (a ++ b) s = (s ← console_write a s; console_write b s).
Proof.
  rewrite <- put_string_console, put_string_app, put_string_console. destruct (console_write a s); [|done].
  by rewrite !some_bind, put_string_console.
Qed.

(** [c'] is [c] with [out] printed. *)
Definition prints (out : list Z) (c c' : Console) : Prop := console_write out c = Some c' /\ con_inv c'.

Lemma prints_app a b c1 c2 c3 : prints a c1 c2 -> prints b c2 c3 -> prints (a ++ b) c1 c3.
Proof. intros [H1 _] [H2 H3]. split; [|done]. by rewrite console_write_app, H1. Qed.

Lemma say_spec fmt args out c :
  con_inv c -> Forall arg_ok args -> render fmt args = Some out ->
  exists c', say fmt args c = Some c' /\ prints out c c'.
Proof.
  intros Hi Ha Hr. destruct (console_write_inv out c Hi) as (c' & E & Hc & _).
  exists c'. split; [|done]. unfold say.
  by rewrite (kprintf_loop _ (length fmt) fmt args out), put_string_console, E by done.
Qed.

Lemma kprint_spec fmt args out k :
  con_inv (con k) -> Forall arg_ok args -> render fmt args = Some out ->
  exists c, kprint fmt args k = Some (set_con c k) /\ prints out (con k) c.
Proof.
  intros Hi Ha Hr. destruct (say_spec fmt args out (con k) Hi Ha Hr) as (c & E & Hc).
  exists c. split; [|done]. unfold kprint. by rewrite E.
Qed.

(** A message without arguments. *)
Lemma kprint_plain l k :
  con_inv (con k) -> Forall (fun c => c <> 37) l ->
  exists c, kprint l [] k = Some (set_con c k) /\ prints l (con k) c.
Proof.
  intros Hi Hs. apply kprint_spec; [done|done|]. rewrite <- (app_nil_r l) at 1. rewrite render_lit by done.
  cbn. by rewrite app_nil_r.
Qed.

(** ** The tests *)

(** A test printed [out] and left the heap as it found it, whole. *)
Record passes (lo : Z) (out : list Z) (k k' : Kernel) : Prop := {
  ps_prints : prints out (con k) (con k');
  ps_owns : owns 1 lo ∅ (heap k');
  ps_pmm : kpmm k' = kpmm k;
  ps_paging : paging k' = paging k }.

Lemma passes_app lo a b k1 k2 k3 : passes lo a k1 k2 -> passes lo b k2 k3 -> passes lo (a ++ b) k1 k3.
Proof. intros [] []. split; [by eapply prints_app|done|congruence|congruence]. Qed.

Ltac pmm_same := unfold kpmm in *; cbn [heap set_heap set_con] in *; congruence.

(** Taking and freeing the first block. *)
Lemma take_first fuel lo k size :
  owns 1 lo ∅ (heap k) -> 0 < size <= 65520 -> HEAP_ALIGN_UP (size +w sizeof_BlockMeta) + 24 <= 65536 -> (10 < fuel)%nat ->
  exists h, kalloc fuel size k = Some (lo + 16, set_heap h k) /\ hpmm h = kpmm k /\
    owns 2 lo {[lo := HEAP_ALIGN_UP (size +w sizeof_BlockMeta)]} h.
Proof.
  intros Ho Hs Hle Hf. destruct (alloc_only fuel 1 lo ∅ (heap k) lo 65536 size Ho) as (h & E & Hp & Ho');
    [intros; by eapply only_first|done|done|lia|].
  exists h. unfold kalloc. by rewrite E, some_bind.
Qed.

Lemma take_second fuel n lo k s size :
  owns n lo {[lo := s]} (heap k) -> s < 65536 -> 0 < size <= 65520 ->
  HEAP_ALIGN_UP (size +w sizeof_BlockMeta) + 24 <= 65536 - s -> (n + 1 < fuel)%nat ->
  exists h, kalloc fuel size k = Some (lo + s + 16, set_heap h k) /\ hpmm h = kpmm k /\
    owns (n + 1) lo (<[lo + s := HEAP_ALIGN_UP (size +w sizeof_BlockMeta)]> {[lo := s]}) h.
Proof.
  intros Ho H0 Hs Hle Hf.
  destruct (alloc_only fuel n lo {[lo := s]} (heap k) (lo + s) (65536 - s) size Ho) as (h & E & Hp & Ho');
    [intros; by eapply only_rest|done|done|done|].
  exists h. unfold kalloc. by rewrite E, some_bind.
Qed.

Lemma give fuel n lo L k a :
  owns n lo L (heap k) -> is_Some (L !! a) -> (n < fuel)%nat ->
  exists h, krelease fuel (a + 16) k = Some (set_heap h k) /\ hpmm h = kpmm k /\ owns (n + 1) lo (delete a L) h.
Proof.
  intros Ho [s Ha] Hf. destruct (owns_free fuel n lo L (heap k) a s Ho Ha Hf) as (h & E & Hp & Ho').
  exists h. unfold krelease. by rewrite E, some_bind.
Qed.

(** A free that is ignored. *)
Lemma give_again fuel lo k :
  owns 1 lo ∅ (heap k) -> krelease fuel (lo + 16) k = Some k.
Proof. intros Ho. destruct (owns_drained _ _ _ Ho) as [_ Hdf]. unfold krelease. rewrite Hdf. by destruct k. Qed.

Definition multi_page_text (lo : Z) : list Z :=
  text "OK: kmalloc(PAGE_SIZE + 1) returned 0x" ++ hexa (lo + 16) ++ line "." ++
  line "OK: kmalloc reused a free block, no pages taken.".

Lemma multi_page_test_ok fuel lo k :
  con_inv (con k) -> owns 1 lo ∅ (heap k) -> (10 < fuel)%nat ->
  exists k', multi_page_test fuel (PageAllocFreeCount (kpmm k)) k = Some k' /\ passes lo (multi_page_text lo) k k'.
Proof.
  intros Hi Ho Hf. pose proof (owns_range _ _ _ _ Ho).
  unfold multi_page_test. change (PAGE_SIZE +w 1) with 4097.
  destruct (take_first fuel lo k 4097 Ho) as (h1 & -> & Hp1 & Ho1); [lia|vm_compute; congruence|lia|]. rewrite some_bind.
  rewrite (proj2 (Z.eqb_neq (lo + 16) 0)) by lia.
  destruct (kprint_spec (line "OK: kmalloc(PAGE_SIZE + 1) returned 0x%x.") [AWord (lo + 16)]
    (text "OK: kmalloc(PAGE_SIZE + 1) returned 0x" ++ hexa (lo + 16) ++ line ".") (set_heap h1 k)) as (c1 & -> & P1);
    [done|constructor; [cbn; lia|done]| |].
  { change (line "OK: kmalloc(PAGE_SIZE + 1) returned 0x%x.") with
      (text "OK: kmalloc(PAGE_SIZE + 1) returned 0x" ++ 37 :: 120 :: line ".").
    rewrite render_lit by plain_text. rewrite render_hex. done. }
  rewrite some_bind. unfold kpmm at 1. cbn [heap set_con set_heap]. rewrite Hp1, Z.eqb_refl.
  destruct (kprint_plain (line "OK: kmalloc reused a free block, no pages taken.") (set_con c1 (set_heap h1 k)))
    as (c2 & -> & P2); [apply P1|plain_text|]. rewrite some_bind.
  destruct (give fuel 2 lo _ (set_con c2 (set_con c1 (set_heap h1 k))) lo Ho1) as (h2 & -> & Hp2 & Ho2);
    [by rewrite lookup_singleton_eq|lia|]. eexists. split; [done|]. rewrite delete_singleton_eq in Ho2.
  split; cbn [con heap paging set_con set_heap].
  - pose proof (prints_app _ _ (con k) _ _ P1 P2) as P. by rewrite <- !app_assoc in P.
  - exact (proj1 (owns_drained _ _ _ Ho2)).
  - pmm_same.
  - done.
Qed.

Definition merge_text (lo : Z) : list Z :=
  text "OK: two 2 page blocks allocated at 0x" ++ hexa (lo + 16) ++ text " and 0x" ++ hexa (lo + 8224) ++ line "." ++
  line "OK: two freed blocks coalesced into one 4 page block.".

(** Two blocks of two pages, one behind the other. *)
Lemma take_two fuel lo k :
  owns 1 lo ∅ (heap k) -> (10 < fuel)%nat ->
  exists h1 h2, kalloc fuel 8192 k = Some (lo + 16, set_heap h1 k) /\
    kalloc fuel 8192 (set_heap h1 k) = Some (lo + 8224, set_heap h2 k) /\ hpmm h2 = kpmm k /\
    owns 3 lo (<[lo + 8208 := 8208]> {[lo := 8208]}) h2.
Proof.
  intros Ho Hf. destruct (take_first fuel lo k 8192 Ho) as (h1 & E1 & Hp1 & Ho1); [lia|vm_compute; congruence|lia|].
  change (HEAP_ALIGN_UP (8192 +w sizeof_BlockMeta)) with 8208 in Ho1.
  destruct (take_second fuel 2 lo (set_heap h1 k) 8208 8192 Ho1) as (h2 & E2 & Hp2 & Ho2);
    [lia|lia|vm_compute; congruence|lia|]. change (HEAP_ALIGN_UP (8192 +w sizeof_BlockMeta)) with 8208 in Ho2.
  replace (lo + 8208 + 16) with (lo + 8224) in E2 by lia. exists h1, h2. split; [done|]. split; [done|].
  split; [pmm_same|done].
Qed.

(** Freed in order, they leave the heap whole. *)
Lemma give_two fuel lo k :
  owns 3 lo (<[lo + 8208 := 8208]> {[lo := 8208]}) (heap k) -> (10 < fuel)%nat ->
  exists h1 h2, krelease fuel (lo + 16) k = Some (set_heap h1 k) /\
    krelease fuel (lo + 8224) (set_heap h1 k) = Some (set_heap h2 k) /\ hpmm h2 = kpmm k /\ owns 1 lo ∅ h2.
Proof.
  intros Ho Hf. destruct (give fuel 3 lo _ k lo Ho) as (h1 & E1 & Hp1 & Ho1);
    [by rewrite lookup_insert_ne, lookup_singleton_eq by lia|lia|].
  rewrite delete_insert_ne, delete_singleton_eq in Ho1 by lia.
  destruct (give fuel 4 lo _ (set_heap h1 k) (lo + 8208) Ho1) as (h2 & E2 & Hp2 & Ho2); [by rewrite lookup_insert_eq|lia|].
  replace (lo + 8208 + 16) with (lo + 8224) in E2 by lia. exists h1, h2. split; [done|]. split; [done|].
  split; [pmm_same|]. rewrite delete_insert_eq, delete_empty in Ho2.
  exact (proj1 (owns_drained _ _ _ Ho2)).
Qed.

(** The last block of a test, taken, reported and freed. *)
Lemma take_report_give fuel lo k s :
  con_inv (con k) -> owns 1 lo ∅ (heap k) -> (10 < fuel)%nat -> Forall (fun c => c <> 37) (line s) ->
  exists h k1 k2, kalloc fuel 16384 k = Some (lo + 16, set_heap h k) /\ kprint (line s) [] (set_heap h k) = Some k1 /\
    krelease fuel (lo + 16) k1 = Some k2 /\ passes lo (line s) k k2.
Proof.
  intros Hi Ho Hf Hs.
  destruct (take_first fuel lo k 16384 Ho) as (h1 & E1 & Hp1 & Ho1); [lia|vm_compute; congruence|lia|].
  destruct (kprint_plain (line s) (set_heap h1 k) Hi Hs) as (c & Ec & P).
  destruct (give fuel 2 lo _ (set_con c (set_heap h1 k)) lo Ho1) as (h2 & E2 & Hp2 & Ho2);
    [by rewrite lookup_singleton_eq|lia|]. rewrite delete_singleton_eq in Ho2.
  exists h1, (set_con c (set_heap h1 k)), (set_heap h2 (set_con c (set_heap h1 k))).
  split; [done|]. split; [done|]. split; [done|]. split; cbn [con heap paging set_con set_heap].
  - exact P.
  - exact (proj1 (owns_drained _ _ _ Ho2)).
  - pmm_same.
  - done.
Qed.

Lemma merge_test_ok fuel lo k :
  con_inv (con k) -> owns 1 lo ∅ (heap k) -> (10 < fuel)%nat ->
  exists k', merge_test fuel k = Some k' /\ passes lo (merge_text lo) k k'.
Proof.
  intros Hi Ho Hf. pose proof (owns_range _ _ _ _ Ho).
  unfold merge_test. change (PAGE_SIZE *w 2) with 8192. change (PAGE_SIZE *w 4) with 16384.
  destruct (take_two fuel lo k Ho Hf) as (h1 & h2 & -> & E2 & Hp2 & Ho2). rewrite some_bind, E2, some_bind.
  rewrite (proj2 (Z.eqb_neq (lo + 16) 0)), (proj2 (Z.eqb_neq (lo + 8224) 0)) by lia. cbn [orb].
  destruct (kprint_spec (line "OK: two 2 page blocks allocated at 0x%x and 0x%x.") [AWord (lo + 16); AWord (lo + 8224)]
    (text "OK: two 2 page blocks allocated at 0x" ++ hexa (lo + 16) ++ text " and 0x" ++ hexa (lo + 8224) ++ line ".")
    (set_heap h2 k)) as (c1 & -> & P1); [done|repeat constructor; cbn; lia| |].
  { change (line "OK: two 2 page blocks allocated at 0x%x and 0x%x.") with
      (text "OK: two 2 page blocks allocated at 0x" ++ 37 :: 120 :: text " and 0x" ++ 37 :: 120 :: line ".").
    rewrite render_lit by plain_text. rewrite render_hex, render_lit by plain_text. rewrite render_hex. done. }
  rewrite some_bind.
  destruct (give_two fuel lo (set_con c1 (set_heap h2 k)) Ho2 Hf) as (h3 & h4 & -> & E4 & Hp4 & Ho4).
  rewrite some_bind, E4, some_bind.
  destruct (take_report_give fuel lo (set_heap h4 (set_con c1 (set_heap h2 k)))
    "OK: two freed blocks coalesced into one 4 page block.") as (h5 & k5 & k6 & -> & E5 & E6 & [P5 Ho6 Hp6 Hg6]);
    [apply P1|done|done|plain_text|]. rewrite some_bind, (proj2 (Z.eqb_neq (lo + 16) 0)) by lia. cbn [negb].
  rewrite E5, some_bind, E6. exists k6. split; [done|]. split; [|done| |].
  - pose proof (prints_app _ _ (con k) c1 _ P1 P5) as P. by rewrite <- !app_assoc in P.
  - pmm_same.
  - done.
Qed.

Lemma double_free_test_ok fuel lo k :
  con_inv (con k) -> owns 1 lo ∅ (heap k) -> (10 < fuel)%nat ->
  exists k', double_free_test fuel k = Some k' /\ passes lo (line "OK: double free did not corrupt the heap.") k k'.
Proof.
  intros Hi Ho Hf. pose proof (owns_range _ _ _ _ Ho).
  unfold double_free_test. change (PAGE_SIZE *w 2) with 8192. change (PAGE_SIZE *w 4) with 16384.
  destruct (take_two fuel lo k Ho Hf) as (h1 & h2 & -> & E2 & Hp2 & Ho2). rewrite some_bind, E2, some_bind.
  rewrite (proj2 (Z.eqb_neq (lo + 16) 0)), (proj2 (Z.eqb_neq (lo + 8224) 0)) by lia. cbn [orb].
  destruct (give_two fuel lo (set_heap h2 k) Ho2 Hf) as (h3 & h4 & -> & E4 & Hp4 & Ho4).
  rewrite some_bind, E4, some_bind, give_again, some_bind by done.
  destruct (take_report_give fuel lo (set_heap h4 (set_heap h2 k)) "OK: double free did not corrupt the heap.")
    as (h5 & k5 & k6 & E3 & E5 & E6 & [P5 Ho6 Hp6 Hg6]); [done|done|done|plain_text|].
  rewrite E3, some_bind, (proj2 (Z.eqb_neq (lo + 16) 0)) by lia. cbn [negb].
  rewrite E5, some_bind, E6. exists k6. split; [done|]. split; [done|done| |done].
  pmm_same.
Qed.

Definition self_tests_text (lo : Z) : list Z :=
  multi_page_text lo ++ merge_text lo ++ line "OK: double free did not corrupt the heap." ++
  line "OK: heap kept its pages, nothing large enough to return.".

Lemma heap_self_tests_ok fuel lo k :
  con_inv (con k) -> owns 1 lo ∅ (heap k) -> (10 < fuel)%nat ->
  exists k', heap_self_tests fuel k = Some k' /\ passes lo (self_tests_text lo) k k'.
Proof.
  intros Hi Ho Hf. unfold heap_self_tests. cbv zeta.
  destruct (multi_page_test_ok fuel lo k Hi Ho Hf) as (k1 & -> & H1). rewrite some_bind.
  destruct (merge_test_ok fuel lo k1) as (k2 & -> & H2); [apply H1|apply H1|done|]. rewrite some_bind.
  destruct (double_free_test_ok fuel lo k2) as (k3 & -> & H3); [apply H2|apply H2|done|]. rewrite some_bind.
  pose proof (passes_app _ _ _ _ _ _ H1 (passes_app _ _ _ _ _ _ H2 H3)) as H.
  unfold pages_report. cbv zeta. rewrite (ps_pmm _ _ _ _ H), Z.ltb_irrefl, Z.eqb_refl.
  destruct (kprint_plain (line "OK: heap kept its pages, nothing large enough to return.") k3) as (c & -> & P);
    [apply H|plain_text|]. eexists. split; [done|]. unfold self_tests_text. rewrite !app_assoc, <- !app_assoc.
  assert (Hc : passes lo (line "OK: heap kept its pages, nothing large enough to return.") k3 (set_con c k3)).
  { split; [done|apply H|done|done]. }
  pose proof (passes_app _ _ _ _ _ _ H Hc) as HE. by rewrite <- !app_assoc in HE.
Qed.

(** ** The boot *)

Definition boot_text (boot : option boot_info) : list Z :=
  (line "NoviumOS" ++ [10]) ++
  match boot with
  | Some b =>
      if multiboot_magic b =? MULTIBOOT_BOOTLOADER_MAGIC then
        line "OK: Multiboot info valid." ++
        (if memory_map_length b =? 0 then line "WARNING: no memory map available."
         else line "OK: Memory map available.")
      else line "WARNING: no valid boot info"
  | None => line "WARNING: no valid boot info"
  end.

Lemma boot_report_ok boot k :
  exists c, boot_report boot k = Some (set_con c k) /\ prints (boot_text boot) (console_clear (con k)) c.
Proof.
  unfold boot_report, boot_text. destruct (console_clear_spec (con k)) as (Hi & _).
  destruct (kprint_plain (line "NoviumOS" ++ [10]) (set_con (console_clear (con k)) k) Hi) as (c1 & -> & P1); [plain_text|].
  rewrite some_bind.
  assert (Hwarn : exists c, kprint (line "WARNING: no valid boot info") [] (set_con c1 (set_con (console_clear (con k)) k)) =
    Some (set_con c k) /\ prints ((line "NoviumOS" ++ [10]) ++ line "WARNING: no valid boot info") (console_clear (con k)) c).
  { destruct (kprint_plain (line "WARNING: no valid boot info") (set_con c1 (set_con (console_clear (con k)) k)))
      as (c & -> & P); [apply P1|plain_text|]. exists c. split; [done|]. by eapply prints_app. }
  destruct boot as [b|]; [|exact Hwarn]. case_match; [clear Hwarn|exact Hwarn].
  destruct (kprint_plain (line "OK: Multiboot info valid.") (set_con c1 (set_con (console_clear (con k)) k)))
    as (c2 & -> & P2); [apply P1|plain_text|]. rewrite some_bind.
  destruct (memory_map_length b =? 0); cbn [negb].
  - destruct (kprint_plain (line "WARNING: no memory map available.") (set_con c2 (set_con c1 (set_con (console_clear (con k)) k))))
      as (c3 & -> & P3); [apply P2|plain_text|]. exists c3. split; [done|]. do 2 (eapply prints_app; [done|]). done.
  - destruct (kprint_plain (line "OK: Memory map available.") (set_con c2 (set_con c1 (set_con (console_clear (con k)) k))))
      as (c3 & -> & P3); [apply P2|plain_text|]. exists c3. split; [done|]. do 2 (eapply prints_app; [done|]). done.
Qed.

(** The heap's static data before HeapInit. *)
Definition heap_statics_zero (h : Heap) : Prop :=
  HeapSegments h = None /\ length (HeapSegmentTable h) = 8%nat /\ HeapSegmentCount h = 0.

Definition memory_text (pages : Z) : list Z :=
  text "OK: " ++ decimal pages ++ line " physical pages available." ++
  line "OK: 4 GiB paging enabled with 4 KiB pages.".

Lemma owns_pages n lo L h : owns n lo L h -> 0 <= FreePages (hpmm h) <= PAGE_COUNT.
Proof. intros (V & F & Hinv & _). apply FreePages_bounds, (hi_pages _ _ _ _ Hinv). Qed.

Lemma memory_init_ok fuel kstart kend m pd pt boot k p st :
  PageAllocInit kstart kend m boot (kpmm k) = Some p -> pmm_inv p -> page_free p 1048575 = false ->
  0 <= st -> run_free p st 16 -> heap_statics_zero (heap k) ->
  layout pd pt -> Z.testbit (cr0 (paging k)) 31 = false -> con_inv (con k) -> (1 < fuel)%nat ->
  exists k' lo, memory_init fuel kstart kend m pd pt boot k = Some k' /\
    owns 1 lo ∅ (heap k') /\ prints (memory_text (PageAllocFreeCount (kpmm k'))) (con k) (con k') /\
    PagingIsEnabled (paging k') = true /\ forall a, is_u32 a -> translate (paging k') a = Some a.
Proof.
  intros Ep Hp Htop Hst Hrun (B1 & B2 & B3) HL Hcr Hi Hf. unfold memory_init. rewrite Ep, some_bind.
  destruct (HeapInit_owns fuel (set_hpmm p (heap k)) st) as (h & lo & -> & Ho); [by split|done|done|done|].
  rewrite some_bind. cbv zeta. pose proof (owns_pages _ _ _ _ Ho) as Hpg. unfold PAGE_COUNT in Hpg.
  destruct (kprint_spec (line "OK: %u physical pages available.") [AWord (PageAllocFreeCount (hpmm h))]
    (text "OK: " ++ decimal (PageAllocFreeCount (hpmm h)) ++ line " physical pages available.") (set_heap h k))
    as (c1 & E1 & P1); [done|constructor; [unfold PageAllocFreeCount; cbn; lia|done]| |].
  { change (line "OK: %u physical pages available.") with (text "OK: " ++ 37 :: 117 :: line " physical pages available.").
    rewrite render_lit by plain_text. rewrite render_dec. done. }
  unfold kpmm at 1. cbn [heap set_heap]. rewrite E1, some_bind. cbn [paging set_con set_heap].
  destruct (PagingInit_spec pd pt HL (paging k) Hcr) as (P & -> & _ & Hen & Htr). rewrite some_bind.
  destruct (kprint_plain (line "OK: 4 GiB paging enabled with 4 KiB pages.") (set_paging P (set_con c1 (set_heap h k))))
    as (c2 & -> & P2); [apply P1|plain_text|].
  eexists _, lo. split; [done|]. split; [done|]. split; [|split; [done|done]].
  unfold memory_text, kpmm. cbn [heap set_heap set_con set_paging con].
  pose proof (prints_app _ _ _ _ _ P1 P2) as P3. by rewrite <- !app_assoc in P3.
Qed.

Lemma kernel_main_memory_spec fuel kstart kend m pd pt b k st :
  bitmap_shape (kpmm k) -> heap_statics_zero (heap k) ->
  0 < memory_map_addr b -> 0 < memory_map_length b < 4294967292 ->
  memory_map_addr b + memory_map_length b < 4294967296 -> 0 <= kstart < kend -> kend < 4294967296 ->
  (forall p, st <= p < st + 16 -> 256 <= p < PAGE_COUNT /\ usable m (memory_map_addr b) (memory_map_length b) p /\
     ~ (kstart < p * PAGE_SIZE + PAGE_SIZE /\ p * PAGE_SIZE < kend)) ->
  ~ usable m (memory_map_addr b) (memory_map_length b) 1048575 ->
  layout pd pt -> Z.testbit (cr0 (paging k)) 31 = false -> (10 < fuel)%nat ->
  exists k' lo, kernel_main_memory fuel kstart kend m pd pt (Some b) k = Some k' /\
    console_write (boot_text (Some b) ++ memory_text (PageAllocFreeCount (kpmm k')) ++ self_tests_text lo)
      (console_clear (con k)) = Some (con k') /\
    PagingIsEnabled (paging k') = true /\ forall a, is_u32 a -> translate (paging k') a = Some a.
Proof.
  intros Hsh Hz Ha Hl Hal Hk Hke Hrun Htop HL Hcr Hf.
  destruct (PageAllocInit_spec kstart kend m b (kpmm k)) as (p & Ep & Hwf & Hfree); [done..|].
  assert (Hp0 : page_free p 0 = false).
  { apply not_true_is_false. rewrite Hfree by (unfold PAGE_COUNT; lia). lia. }
  assert (Hptop : page_free p 1048575 = false).
  { apply not_true_is_false. rewrite Hfree by (unfold PAGE_COUNT; lia). tauto. }
  assert (Hprun : run_free p st 16).
  { intros q Hq. destruct (Hrun q Hq) as (? & ? & ?). apply Hfree; [lia|]. split; [done|]. split; [lia|done]. }
  destruct (Hrun st ltac:(lia)) as (Hst & _).
  unfold kernel_main_memory. destruct (boot_report_ok (Some b) k) as (c & -> & P1). rewrite some_bind.
  destruct (memory_init_ok fuel kstart kend m pd pt (Some b) (set_con c k) p st) as (k2 & lo & -> & Ho & P2 & Hen & Htr);
    [done|done|done|lia|done|done|done|done|apply P1|lia|]. rewrite some_bind.
  destruct (heap_self_tests_ok fuel lo k2) as (k3 & -> & [P3 _ Hp3 Hg3]); [apply P2|done|done|].
  exists k3, lo. split; [done|]. rewrite Hp3, Hg3. split; [|done].
  apply (prints_app _ _ _ _ _ P1 (prints_app _ _ _ _ _ P2 P3)).
Qed.

(** ** Properties *)

(** kernel_main up to SchedInit, on a Multiboot machine whose memory map has
    16 free pages in a row outside the first MiB and the kernel and does not offer
    the last page of the address space. It returns; paging is on and maps every
    address to itself; and the screen, cleared first, gets exactly the boot
    report, the number of free pages there really are, and the reports of the
    heap's self tests, each of them the OK line with the addresses at which the
    first segment begins: no test fails, and no page is taken or lost. *)
Theorem kernel_main_memory_ok fuel kstart kend m pd pt b k st :
  bitmap_shape (kpmm k) -> heap_statics_zero (heap k) ->
  0 < memory_map_addr b -> 0 < memory_map_length b < 4294967292 ->
  memory_map_addr b + memory_map_length b < 4294967296 -> 0 <= kstart < kend -> kend < 4294967296 ->
  (forall p, st <= p < st + 16 -> 256 <= p < PAGE_COUNT /\ usable m (memory_map_addr b) (memory_map_length b) p /\
     ~ (kstart < p * PAGE_SIZE + PAGE_SIZE /\ p * PAGE_SIZE < kend)) ->
  ~ usable m (memory_map_addr b) (memory_map_length b) 1048575 ->
  layout pd pt -> Z.testbit (cr0 (paging k)) 31 = false -> (10 < fuel)%nat ->
  exists k' lo, kernel_main_memory fuel kstart kend m pd pt (Some b) k = Some k' /\
    console_write (boot_text (Some b) ++ memory_text (PageAllocFreeCount (kpmm k')) ++ self_tests_text lo)
      (console_clear (con k)) = Some (con k') /\
    PagingIsEnabled (paging k') = true /\ forall a, is_u32 a -> translate (paging k') a = Some a.
Proof. apply kernel_main_memory_spec. Qed.

(** The sample map: 16 MiB at 1 MiB, with the kernel in the first of them. *)
Definition sample_kernel : Kernel :=
  mkKernel (mkConsole ∅ 0 0 false []) (mkHeap ∅ None (replicate 8 (mkSeg 0 0 None)) 0 0 (mkPmm ∅ 0)) paging_off.

Lemma kernel_main_memory_ok_witness :
  exists k' lo, kernel_main_memory 11 1048576 2097152 sample_map 4194304 8388608 (Some sample_boot) sample_kernel = Some k' /\
    console_write (boot_text (Some sample_boot) ++ memory_text (PageAllocFreeCount (kpmm k')) ++ self_tests_text lo)
      (console_clear (con sample_kernel)) = Some (con k').
Proof.
  assert (Hm : mmap_size sample_map 4096 = 20 /\ mmap_type sample_map 4096 = 1 /\
    mmap_base_addr sample_map 4096 = 1048576 /\ mmap_length sample_map 4096 = 16777216) by (vm_compute; done).
  destruct Hm as (Hs & Ht & Hb & Hl).
  destruct (kernel_main_memory_ok 11 1048576 2097152 sample_map 4194304 8388608 sample_boot sample_kernel 600)
    as (k' & lo & E & P & _); cbn [memory_map_addr memory_map_length sample_boot]; [done..|lia|lia|lia|lia|lia| | |exact demo_layout|done|lia|].
  - intros p Hp. unfold PAGE_COUNT, PAGE_SIZE. split; [lia|]. split; [|lia].
    exists 0. split; [constructor|]. unfold entry_ok, PAGE_SIZE. rewrite Z.add_0_r, Hs, Ht, Hb, Hl. repeat split; lia.
  - intros (off & Hc & [H1 H2] & _ & _ & _ & H3). apply chain_le in Hc.
    assert (off = 0) as -> by lia. rewrite Z.add_0_r, Hb, Hl in H3. unfold PAGE_SIZE in H3. lia.
  - exists k', lo. split; [exact E|exact P].
Defined.
