(* ===== verification/Boot.v ===== *)
(** * Boot (multiboot.S, bootstrap.S, hw_init.c)

    From the boot loader's jump to kernel_main: the Multiboot header, the
    assembly that clears .bss and calls hw_init, and hw_init, which brings up
    the interrupt controllers, the timer and the keyboard, and hands the memory
    map on. *)

From S2P Require Import Prelude PageAlloc Paging Heap Console Stdio Keyboard Timer Sched Machine Irq KernelMain KernelMainTheorems.

(** ** The Multiboot header *)

Definition MULTIBOOT_HEADER_MAGIC : Z := 464367618.
Definition MULTIBOOT_HEADER_FLAGS : Z := 3.
Definition MULTIBOOT_HEADER_CHECKSUM : Z := 3830599675.

(** The three words of the section .multiboot. *)
Definition multiboot_header : list Z :=
  [MULTIBOOT_HEADER_MAGIC; MULTIBOOT_HEADER_FLAGS; MULTIBOOT_HEADER_CHECKSUM].

(** The loader's test: the words add up to zero. *)
Lemma multiboot_header_sums : foldr (fun a b => a +w b) 0 multiboot_header = 0.
Proof. done. Qed.

(** ** The entry code *)

Section Bootstrap.
Context (stack_top bss_start bss_end hw_init_at ret : Z).

Definition bootstrap_entry : list instr :=
  [ Cli;
    Movl (Pl (Rg EAX)) (Rg EDX);
    Movl (Pl (Rg EBX)) (Rg ESI);
    Movw_imm 24 EAX;
    Movw_seg EAX DS; Movw_seg EAX ES; Movw_seg EAX FS; Movw_seg EAX GS; Movw_seg EAX SS;
    Movl (Imm stack_top) (Rg ESP);
    Cld;
    Movl (Imm bss_start) (Rg EDI);
    Movl (Imm bss_end) (Rg ECX);
    Subl EDI ECX;
    Xorl EAX EAX;
    Rep_stosb;
    Pushl (Pl (Rg ESI));
    Pushl (Pl (Rg EDX));
    Call hw_init_at ret ].

Lemma load8_fill a v n : forall m b,
  0 <= a -> a + Z.of_nat n <= 4294967296 ->
  load8 (fill a n v m) b = if decide (a <= b < a + Z.of_nat n) then v mod 256 else load8 m b.
Proof.
  unfold fill. induction n as [|n IH]; intros m b Ha Hn.
  - cbn. by rewrite decide_False by lia.
  - rewrite seq_S, foldl_app. cbn [foldl]. rewrite load8_store8, IH, Nat.add_0_l by lia. unwrap.
    repeat case_decide; lia || done.
Qed.

(** hw_init is entered with interrupts off, the kernel's data segments and the
    loader's two words as arguments; .bss, but for the top of the stack that
    lies in it, is zero, and outside it memory is as it was loaded. *)
Record entered (c e : Cpu) : Prop := {
  en_ip : cpu_ip e = hw_init_at;
  en_flags : Z.testbit (cpu_flags e) FLAG_IF = false /\ Z.testbit (cpu_flags e) FLAG_DF = false;
  en_segs : forall s, s <> CS -> sreg s e = 24;
  en_stack : top e = ret /\ load32 (cpu_mem e) (reg ESP e + 4) = reg EAX c /\
    load32 (cpu_mem e) (reg ESP e + 8) = reg EBX c;
  en_bss : forall a, bss_start <= a < bss_end -> ~ (stack_top - 12 <= a < stack_top) ->
    load8 (cpu_mem e) a = 0;
  en_rest : forall a, ~ (bss_start <= a < bss_end) -> ~ (stack_top - 12 <= a < stack_top) ->
    load8 (cpu_mem e) a = load8 (cpu_mem c) a }.

(** The flags at the call. *)
Definition entry_flags (c : Cpu) : Z :=
  let eax := reg EAX c / 65536 * 65536 + 24 in
  xor_flags (Z.lxor eax eax)
    (sub_flags bss_end bss_start (Z.clearbit (Z.clearbit (cpu_flags c) FLAG_IF) FLAG_DF)).

Lemma entry_flags_control c n : n = FLAG_IF \/ n = FLAG_DF -> Z.testbit (entry_flags c) n = false.
Proof.
  intros Hn. unfold entry_flags, xor_flags, sub_flags. rewrite !put_flags_control by done.
  destruct Hn as [->| ->]; rewrite !Z.clearbit_eqb; [|apply andb_false_r].
  change (FLAG_IF =? FLAG_IF) with true. by rewrite andb_false_r.
Qed.

Lemma bootstrap_exec c :
  cpu_wf c -> 0 <= bss_start <= bss_end -> bss_end < 4294967296 ->
  12 <= stack_top < 4294967296 -> is_u32 hw_init_at -> is_u32 ret ->
  exec bootstrap_entry c =
    mkCpu (mkGpr 0 (reg EBX c) 0 (reg EAX c) (reg EBX c) bss_end (reg EBP c) (stack_top - 12))
      (mkSegs (sreg CS c) 24 24 24 24 24) (entry_flags c) hw_init_at
      (store32 (store32 (store32
        (fill bss_start (Z.to_nat (bss_end - bss_start)) 0 (cpu_mem c))
        (stack_top - 4) (reg EBX c)) (stack_top - 8) (reg EAX c)) (stack_top - 12) ret).
Proof.
  intros Hwf Hb1 Hb2 Hst Hhw Hret.
  pose proof (w_reg _ Hwf EAX) as Ha. pose proof (entry_flags_control c FLAG_DF ltac:(by right)) as Hdf.
  unfold entry_flags in *.
  destruct c as [[a b cx d si di bp sp] [cs ds es fs gs ss] f ip m].
  cbn [reg gpr r_eax cpu_flags] in Ha, Hdf. unfold is_u32 in *.
  assert (E24 : (a / 65536 * 65536 + 24 mod 65536) mod 65536 = 24)
    by (Z.to_euclidean_division_equations; lia).
  unfold bootstrap_entry. run_machine. rewrite E24. change (24 mod 65536) with 24. unwrap.
  rewrite Hdf. cbn [negb]. rewrite Z.lxor_nilpotent. add_consts. change (0 mod 256) with 0.
  replace (bss_start + (bss_end - bss_start)) with bss_end by lia. done.
Qed.

Lemma bootstrap_enters c :
  cpu_wf c -> 0 <= bss_start <= bss_end -> bss_end < 4294967296 ->
  12 <= stack_top < 4294967296 -> is_u32 hw_init_at -> is_u32 ret ->
  entered c (exec bootstrap_entry c).
Proof.
  intros Hwf Hb1 Hb2 Hst Hhw Hret. rewrite bootstrap_exec by done.
  pose proof (w_reg _ Hwf EAX) as Ha. pose proof (w_reg _ Hwf EBX) as Hb. unfold is_u32 in *.
  split; unfold top; cbn [cpu_ip cpu_mem cpu_flags reg gpr r_esp].
  - done.
  - split; apply entry_flags_control; [by left|by right].
  - by intros [] ?.
  - mem_simpl. cbn [reg] in Ha, Hb. rewrite !wrap32_small by (unfold is_u32; lia). done.
  - intros a H1 H2. rewrite !load8_store32_ne by lia. rewrite load8_fill, decide_True by lia. done.
  - intros a H1 H2. rewrite !load8_store32_ne by lia. rewrite load8_fill, decide_False by lia. done.
Qed.
End Bootstrap.

(** ** hw_init *)

Definition MULTIBOOT_INFO_MEMORY_MAP : Z := 64.

(** The fields of struct multiboot_info at [a] that hw_init reads. *)
Definition mbi_flags (m : Mem) (a : Z) : Z := load32 m a.
Definition mbi_mmap_length (m : Mem) (a : Z) : Z := load32 m (a + 44).
Definition mbi_mmap_addr (m : Mem) (a : Z) : Z := load32 m (a + 48).

(** The parts that hw_init brings up. *)
Record Devices := mkDevices {
  dev_irq : Irq Handler; dev_idt : Idt; dev_timer : Timer; dev_sched : Sched }.

Definition set_irq v d := mkDevices v (dev_idt d) (dev_timer d) (dev_sched d).
Definition set_idt v d := mkDevices (dev_irq d) v (dev_timer d) (dev_sched d).
Definition set_timer v d := mkDevices (dev_irq d) (dev_idt d) v (dev_sched d).
Definition set_sched v d := mkDevices (dev_irq d) (dev_idt d) (dev_timer d) v.

Definition keyboard_init (q : Irq Handler) : Irq Handler := irq_register 1 (Some HKeyboard) q.

(** timer_init with the registration it ends with. *)
Definition timer_start (hz : Z) (d : Devices) : Devices :=
  let d := set_timer (timer_init hz (dev_timer d)) d in
  if irq0_registered (dev_timer d) then set_irq (irq_register 0 (Some HTimer) (dev_irq d)) d else d.

Section HwInit.
Context (stub_table : Z -> Z) (placeholder table : Z).

(** The first half: devices and interrupts. *)
Definition hw_init_devices (d : Devices) : Devices :=
  let d := set_sched (irq_disable (dev_sched d)) d in
  let d := set_idt (idt_init stub_table placeholder table (dev_idt d)) d in
  let d := set_irq (set_pics (pic_init (pics (dev_irq d))) (dev_irq d)) d in
  let d := timer_start 100 d in
  let d := set_irq (keyboard_init (dev_irq d)) d in
  set_sched (irq_enable (dev_sched d)) d.

(** The second half: struct boot_info from the loader's two words. *)
Definition boot_of (m : Mem) (magic addr : Z) : boot_info :=
  if (magic =? MULTIBOOT_BOOTLOADER_MAGIC) && negb (addr =? 0) then
    if negb (Z.land (mbi_flags m addr) MULTIBOOT_INFO_MEMORY_MAP =? 0)
    then {| multiboot_magic := magic; multiboot_info_addr := addr;
            memory_map_addr := mbi_mmap_addr m addr; memory_map_length := mbi_mmap_length m addr |}
    else {| multiboot_magic := magic; multiboot_info_addr := addr;
            memory_map_addr := 0; memory_map_length := 0 |}
  else {| multiboot_magic := magic; multiboot_info_addr := addr;
          memory_map_addr := 0; memory_map_length := 0 |}.

(** hw_init with kernel_main up to SchedInit. *)
Definition hw_init (fuel : nat) (kstart kend : Z) (m : Mem) (pd pt magic addr : Z)
    (d : Devices) (k : KernelMain.Kernel) : option (Devices * KernelMain.Kernel) :=
  let d := hw_init_devices d in
  k ← kernel_main_memory fuel kstart kend m pd pt (Some (boot_of m magic addr)) k;
  Some (d, k).

(** What is true of the devices when kernel_main starts. *)
Record devices_up (d : Devices) : Prop := {
  up_gates : forall n, 0 <= n < 256 -> exists g, idt (dev_idt d) !! n = Some g /\ selector g = 16 /\
    type_attr g = 142 /\ gate_target g = if n <? 48 then stub_table n else placeholder;
  up_vectors : vbase (master (pics (dev_irq d))) = 32 /\ vbase (slave (pics (dev_irq d))) = 40 /\
    pics_ready (pics (dev_irq d));
  up_lines : forall j, 0 <= j < 16 ->
    line_masked j (pics (dev_irq d)) = negb ((j =? 0) || (j =? 1));
  up_handlers : forall v, (v < 256)%nat -> handlers (dev_irq d) !! v =
    Some (if decide (v = 32)%nat then Some HTimer else if decide (v = 33)%nat then Some HKeyboard else None);
  up_rate : ticks_per_second (dev_timer d) = 100 /\
    exists outs, pit_outs (dev_timer d) = [(64, 46); (64, 155); (67, 54)] ++ outs;
  up_irqs : irq_on (dev_sched d) = true }.

Lemma hw_init_devices_up d :
  (forall i, is_u32 (stub_table i)) -> is_u32 placeholder ->
  handlers (dev_irq d) = replicate 256 None -> devices_up (hw_init_devices d).
Proof.
  intros Hst Hpl Hh. destruct d as [q i t s]. cbn [dev_irq] in Hh.
  unfold hw_init_devices, timer_start.
  cbv beta iota zeta delta [set_irq set_idt set_timer set_sched dev_irq dev_idt dev_timer dev_sched].
  change (irq0_registered (timer_init 100 t)) with true. cbv iota.
  set (q0 := set_pics (pic_init (pics q)) q).
  destruct (pic_init_spec (pics q)) as (Hr0 & Hv1 & Hv2 & Hm0).
  assert (Hr : pics_ready (pics q0)) by done.
  destruct (irq_register_spec 0 HTimer q0 ltac:(lia) Hr) as (Hh1 & Hr1 & Hm1).
  set (q1 := irq_register 0 (Some HTimer) q0) in *.
  destruct (irq_register_spec 1 HKeyboard q1 ltac:(lia) Hr1) as (Hh2 & Hr2 & Hm2).
  unfold keyboard_init. split; cbv beta iota delta [dev_irq dev_idt dev_timer dev_sched].
  - intros n Hn. by apply idt_init_spec.
  - split; [done|]. split; [done|]. exact Hr2.
  - intros j Hj. rewrite Hm2, Hm1 by done. unfold q0. cbn [pics set_pics]. rewrite Hm0 by done.
    destruct (Z.eqb_spec j 0), (Z.eqb_spec j 1); by try lia.
  - intros v Hv. rewrite Hh2, Hh1. unfold q0. cbn [handlers set_pics]. rewrite Hh.
    change (Z.to_nat (32 + 0)) with 32%nat. change (Z.to_nat (32 + 1)) with 33%nat.
    rewrite !list_lookup_insert_if by (rewrite ?length_insert, length_replicate; lia).
    rewrite lookup_replicate_2 by lia. repeat case_decide; lia || done.
  - split; [done|]. by exists (pit_outs t).
  - done.
Qed.
End HwInit.

(** ** Interrupts before SchedInit *)

(** hw_init sets the interrupt flag before kernel_main has started the
    scheduler. The master takes [line] into service. *)
Definition raise (line : Z) (q : Irq Handler) : Irq Handler :=
  let p := master (pics q) in
  set_pics (mkPics (mkPic (icw p) (vbase p) (imr p) (2 ^ line) (irr p) (reads_isr p)) (slave (pics q))) q.

(** The interrupts of the list, each through the dispatcher; there is no result
    if one of them switches or halts. *)
Fixpoint interrupts (r : Z) (lines : list Z) (q : Irq Handler) (k : Irq.Kernel)
    : option (Irq Handler * Irq.Kernel) :=
  match lines with
  | [] => Some (q, k)
  | line :: lines =>
      '(out, q, k) ← isr_dispatch r 0 (demo_regs (32 + line)) (raise line q) k;
      match out with Returned Done => interrupts r lines q k | _ => None end
  end.

(** The scheduler has not been started. *)
Record not_started (s : Sched) : Prop := {
  ns_current : CurrentTask s = None;
  ns_blocked : BlockedQueue s = None;
  ns_pending : PreemptPending s = false }.

Lemma early_tick r t s :
  not_started s ->
  timer_callback (Some r) t s =
    Some (mkTimer (tick_count t +w 1) (ticks_per_second t) (pit_outs t) (irq0_registered t),
          if SchedulerLocked s =? 0 then set_SchedulerTicks (SchedulerTicks s +w 1) s else s).
Proof.
  intros [Hc Hb Hp]. unfold timer_callback, SchedTick.
  destruct s as [ts rq bq dq ct pol tc ni tk cs lk pp irq sm x]. cbn in Hc, Hb. subst.
  cbn -[wrap32 SchedWakeExpired]. destruct (Z.eqb_spec lk 0) as [->|]; cbn -[wrap32 SchedWakeExpired];
    unfold SchedWakeExpired; cbn -[wrap32]; by destruct irq.
Qed.

Lemma early_irq r line q k :
  line = 0 \/ line = 1 -> quiet (pics q) ->
  handlers q !! 32%nat = Some (Some HTimer) -> handlers q !! 33%nat = Some (Some HKeyboard) ->
  not_started (k_sched k) ->
  exists q' k', isr_dispatch r 0 (demo_regs (32 + line)) (raise line q) k = Some (Returned Done, q', k') /\
    quiet (pics q') /\ handlers q' = handlers q /\ not_started (k_sched k') /\
    SchedInit (k_sched k') = SchedInit (k_sched k) /\
    tick_count (k_timer k') = (if line =? 0 then tick_count (k_timer k) +w 1 else tick_count (k_timer k)) /\
    k_kbd k' = (if line =? 1 then keyboard_callback (k_scan k) (k_kbd k) else k_kbd k) /\
    k_scan k' = k_scan k.
Proof.
  intros Hl [Hq1 Hq2] H32 H33 Hns.
  assert (Hserve : serving line (pics (raise line q))) by by destruct Hl as [->| ->].
  destruct (dispatch_real r 0 (demo_regs (32 + line)) (raise line q) k line) as (q' & -> & Hq & _ & Hh & _);
    [lia|done|done|].
  exists q'. unfold handle. change (handlers (raise line q)) with (handlers q) in *.
  destruct k as [t kb s c x]. cbn [k_sched k_timer k_kbd k_scan] in *.
  destruct Hl as [->| ->].
  - change (Z.to_nat (32 + 0)) with 32%nat. rewrite H32. cbn [default from_option id run_handler kernel_client k_timer k_sched].
    rewrite early_tick, !some_bind by done. cbn [client_preempt kernel_client k_sched k_kbd k_con k_scan k_timer].
    set (s1 := if SchedulerLocked s =? 0 then _ else s).
    assert (Hns1 : not_started s1 /\ SchedInit s1 = SchedInit s)
      by (unfold s1; destruct (SchedulerLocked s =? 0); [destruct Hns|]; done).
    destruct Hns1 as [Hns1 HI]. unfold SchedPreempt. cbn [k_sched]. rewrite (ns_pending _ Hns1). cbn [negb].
    rewrite some_bind. eexists. split; [done|]. split; [done|]. split; [done|]. split; [done|]. done.
  - change (Z.to_nat (32 + 1)) with 33%nat. rewrite H33.
    cbn [default from_option id run_handler kernel_client client_preempt k_sched k_kbd k_con k_scan k_timer].
    rewrite some_bind. unfold SchedPreempt. cbn [k_sched]. rewrite (ns_pending _ Hns). cbn [negb]. rewrite some_bind.
    eexists. split; [done|]. split; [done|]. split; [done|]. split; [done|]. done.
Qed.

(** C39. Interrupts may arrive as soon as hw_init has enabled them, before the
    scheduler is started: any sequence of timer and keyboard interrupts is
    dispatched without a switch and acknowledged, counts exactly the ticks and
    buffers the scancodes, and SchedInit starts the scheduler as if none had
    come. *)
Theorem early_interrupts_harmless r lines : forall q k,
  Forall (fun l => l = 0 \/ l = 1) lines -> quiet (pics q) ->
  handlers q !! 32%nat = Some (Some HTimer) -> handlers q !! 33%nat = Some (Some HKeyboard) ->
  not_started (k_sched k) -> is_u32 (tick_count (k_timer k)) ->
  exists q' k', interrupts r lines q k = Some (q', k') /\ quiet (pics q') /\ handlers q' = handlers q /\
    SchedInit (k_sched k') = SchedInit (k_sched k) /\
    tick_count (k_timer k') = tick_count (k_timer k) +w count (fun l => l =? 0) lines /\
    k_kbd k' = Nat.iter (Z.to_nat (count (fun l => l =? 1) lines)) (keyboard_callback (k_scan k)) (k_kbd k).
Proof.
  induction lines as [|line lines IH]; intros q k Hl Hq H32 H33 Hns Ht.
  - exists q, k. rewrite !count_nil, Z.add_0_r, wrap32_small by done. done.
  - apply Forall_cons in Hl as [Hl Hls].
    destruct (early_irq r line q k Hl Hq H32 H33 Hns) as (q1 & k1 & E & Hq1 & Hh1 & Hns1 & HI1 & Ht1 & Hk1 & Hs1).
    destruct (IH q1 k1 Hls Hq1) as (q2 & k2 & E2 & Hq2 & Hh2 & HI2 & Ht2 & Hk2);
      [by rewrite Hh1..|done|rewrite Ht1; destruct (line =? 0); [apply wrap32_range|done]|].
    exists q2, k2. cbn [interrupts]. rewrite E, some_bind. split; [exact E2|]. split; [done|].
    split; [congruence|]. split; [congruence|]. rewrite Ht2, Ht1, Hk2, Hk1, Hs1, !count_cons.
    pose proof (count_bounds (fun l => l =? 1) lines).
    destruct Hl as [->| ->]; cbn [Z.eqb Pos.eqb]; (split; [unfold wrap32; try rewrite Zplus_mod_idemp_l; f_equal; lia|]).
    + done.
    + rewrite Z2Nat.inj_add by lia. rewrite Nat.add_comm, Nat.iter_add. done.
Qed.

(** Two ticks and a key in the kernel that hw_init leaves. *)
Definition early_irq_state : Irq Handler :=
  mkIrq (chips 0 0) (<[33%nat := Some HKeyboard]> (<[32%nat := Some HTimer]> (replicate 256 None)))
    (replicate 16 0) 0.
Definition early_kernel : Irq.Kernel :=
  Irq.mkKernel (timer_init 100 timer_bss) kbd_init sched_bss sample_console 35.

Lemma early_interrupts_harmless_witness :
  exists q' k', interrupts 0 [0; 1; 0] early_irq_state early_kernel = Some (q', k') /\
    tick_count (k_timer k') = 2 /\ SchedInit (k_sched k') = SchedInit sched_bss.
Proof.
  destruct (early_interrupts_harmless 0 [0; 1; 0] early_irq_state early_kernel)
    as (q' & k' & E & _ & _ & HI & Ht & _);
    [repeat constructor; lia|by split|done|done|by split|cbn; u32|].
  exists q', k'. split; [exact E|]. split; [exact Ht|exact HI].
Defined.

(** ** Power on *)

(** C38. The machine boots. From the loader's jump with the Multiboot magic in
    eax and the address of its information in ebx, the entry code reaches
    hw_init with interrupts off and .bss zero, and hw_init, called with the two
    words it finds on the stack, brings up the devices (all 256 gates, the
    vectors at 32 and 40, the timer's and the keyboard's lines open and no
    other, 100 ticks a second, interrupts on) and hands kernel_main the
    loader's memory map, so that it starts pages, heap and paging and prints
    exactly the lines of [boot_text], [memory_text] and [self_tests_text]: every
    self test passes, and the last of them says that the heap kept its pages
    (the comment above that test in main.c expects the count of free pages to
    be higher than before; it is always the same). *)
Theorem system_boots stack_top bss_start bss_end hw_init_at ret stub_table placeholder table
    fuel kstart kend pd pt c d k st :
  cpu_wf c -> 0 <= bss_start <= bss_end -> bss_end < 4294967296 -> 12 <= stack_top < 4294967296 ->
  is_u32 hw_init_at -> is_u32 ret -> (forall i, is_u32 (stub_table i)) -> is_u32 placeholder ->
  let info := reg EBX c in
  let e := exec (bootstrap_entry stack_top bss_start bss_end hw_init_at ret) c in
  let m := cpu_mem e in
  let map := mbi_mmap_addr m info in
  let len := mbi_mmap_length m info in
  reg EAX c = MULTIBOOT_BOOTLOADER_MAGIC -> info <> 0 -> Z.testbit (mbi_flags m info) 6 = true ->
  handlers (dev_irq d) = replicate 256 None ->
  bitmap_shape (kpmm k) -> heap_statics_zero (heap k) ->
  0 < map -> 0 < len < 4294967292 -> map + len < 4294967296 -> 0 <= kstart < kend -> kend < 4294967296 ->
  (forall p, st <= p < st + 16 -> 256 <= p < PAGE_COUNT /\ usable m map len p /\
     ~ (kstart < p * PAGE_SIZE + PAGE_SIZE /\ p * PAGE_SIZE < kend)) ->
  ~ usable m map len 1048575 ->
  layout pd pt -> Z.testbit (cr0 (paging k)) 31 = false -> (10 < fuel)%nat ->
  entered stack_top bss_start bss_end hw_init_at ret c e /\
  exists d' k' lo, hw_init stub_table placeholder table fuel kstart kend m pd pt
      (load32 m (reg ESP e + 4)) (load32 m (reg ESP e + 8)) d k = Some (d', k') /\
    devices_up stub_table placeholder d' /\
    console_write (boot_text (Some (Build_boot_info (reg EAX c) info map len)) ++
      memory_text (PageAllocFreeCount (kpmm k')) ++ self_tests_text lo) (console_clear (con k)) = Some (con k') /\
    PagingIsEnabled (paging k') = true /\ forall a, is_u32 a -> translate (paging k') a = Some a.
Proof.
  intros Hwf Hb1 Hb2 Hst Hhw Hret Hstub Hpl info e m map len Hmagic Hinfo Hbit Hh Hsh Hz Hmap Hlen Hsum
    Hk Hke Hrun Htop HL Hcr Hf.
  pose proof (bootstrap_enters stack_top bss_start bss_end hw_init_at ret c Hwf Hb1 Hb2 Hst Hhw Hret) as He.
  split; [exact He|]. destruct (en_stack _ _ _ _ _ _ _ He) as (_ & Ha & Hb). fold e m in Ha, Hb.
  clearbody m e. rewrite Ha, Hb. fold info. clearbody info.
  assert (Hbo : boot_of m (reg EAX c) info = Build_boot_info (reg EAX c) info map len).
  { unfold boot_of. rewrite Hmagic, Z.eqb_refl, (proj2 (Z.eqb_neq info 0) Hinfo). cbn [negb andb].
    replace (Z.land (mbi_flags m info) MULTIBOOT_INFO_MEMORY_MAP =? 0) with false; [done|].
    symmetry. apply Z.eqb_neq. intros H0. apply (f_equal (fun z => Z.testbit z 6)) in H0.
    by rewrite Z.land_spec, Hbit in H0. }
  unfold hw_init. rewrite Hbo. clearbody map len.
  destruct (kernel_main_memory_spec fuel kstart kend m pd pt (Build_boot_info (reg EAX c) info map len) k st)
    as (k' & lo & -> & Hp & Hen & Htr); [done..|].
  rewrite some_bind. eexists _, k', lo. split; [done|]. split; [by apply hw_init_devices_up|].
  split; [exact Hp|]. split; [exact Hen|exact Htr].
Qed.

(** A loader's memory: the sample map at 4096 and its information at 8192. *)
Definition loaded : Mem :=
  store32 (store32 (store32 sample_map 8192 64) 8236 24) 8240 4096.
Definition loader_cpu : Cpu :=
  mkCpu (mkGpr 732803074 8192 0 0 0 0 0 0) (mkSegs 8 16 16 16 16 16) 2 1048576 loaded.
Definition loader_devices : Devices :=
  mkDevices (mkIrq (chips 0 0) (replicate 256 None) (replicate 16 0) 0) (mkIdt ∅ 0 0) timer_bss sched_bss.
Definition demo_bootstrap : list instr := bootstrap_entry 1100008 1100000 1100016 1048600 1048700.

Lemma loader_cpu_wf : cpu_wf loader_cpu.
Proof. split; [intros []; cbn; u32|intros []; cbn; lia|by vm_compute|cbn; u32]. Qed.

Lemma system_boots_witness :
  exists d' k', hw_init (fun i => wrap32 (4096 + 16 * i)) 80 9000 11 1048576 2097152 (cpu_mem (exec demo_bootstrap loader_cpu))
      4194304 8388608 732803074 8192 loader_devices sample_kernel = Some (d', k') /\
    devices_up (fun i => wrap32 (4096 + 16 * i)) 80 d'.
Proof.
  assert (Hm : let m := cpu_mem (exec demo_bootstrap loader_cpu) in
    mmap_size m 4096 = 20 /\ mmap_type m 4096 = 1 /\ mmap_base_addr m 4096 = 1048576 /\
    mmap_length m 4096 = 16777216 /\ mbi_mmap_addr m 8192 = 4096 /\ mbi_mmap_length m 8192 = 24 /\
    Z.testbit (mbi_flags m 8192) 6 = true) by (vm_compute; done).
  cbv zeta in Hm.
  pose proof (system_boots 1100008 1100000 1100016 1048600 1048700 (fun i => wrap32 (4096 + 16 * i)) 80 9000
    11 1048576 2097152 4194304 8388608 loader_cpu loader_devices sample_kernel 600 loader_cpu_wf) as H.
  cbv zeta in H. fold demo_bootstrap in H. change (reg EBX loader_cpu) with 8192 in H.
  set (e := exec demo_bootstrap loader_cpu) in *. clearbody e.
  destruct Hm as (Hs & Ht & Hb & Hl & Ha & Hn & Hf). rewrite Ha, Hn in H.
  destruct H as (He & d' & k' & lo & E & Hd & _);
    [lia|lia|lia|u32|u32|intros; apply wrap32_range|u32|done|lia|exact Hf|done|done|done
    |lia|lia|lia|lia|lia| | |exact demo_layout|done|lia|].
  - intros p Hp. unfold PAGE_COUNT, PAGE_SIZE. split; [lia|]. split; [|lia].
    exists 0. split; [constructor|]. unfold entry_ok, PAGE_SIZE. rewrite Z.add_0_r, Hs, Ht, Hb, Hl. repeat split; lia.
  - intros (off & Hc & [H1 H2] & _ & _ & _ & H3). apply chain_le in Hc.
    assert (off = 0) as -> by lia. rewrite Z.add_0_r, Hb, Hl in H3. unfold PAGE_SIZE in H3. lia.
  - destruct (en_stack _ _ _ _ _ _ _ He) as (_ & Hx & Hy).
    rewrite Hx, Hy in E. exists d', k'. split; [exact E|exact Hd].
Defined.
