(* ===== verification/Shell.v ===== *)
(** * The shell task (init/main.c, shell_task)

    The keyboard, the decoder and the console put together: what is typed is
    edited on the line behind the prompt. *)

From stdpp Require Import strings.
From S2P Require Import Prelude Strings Console Stdio Keyboard KernelMain KernelMainTheorems.

(** ** The task *)

Definition set_echo (b : bool) (c : Console) : Console :=
  mkConsole (vmem c) (cursor c) (user_cmdline_start c) b (outs c).

(** Before the loop. *)
Definition shell_begin (c : Console) : option Console :=
  c ← say (line "System ready. You can now type inside the console:") [] c; console_prompt c.

(** What the loop does with a key; [(char)key] keeps its low byte. *)
Definition shell_key (key : Z) (c : Console) : option Console :=
  let c := set_echo true c in
  c ← console_putchar putchar_fuel (key mod 256) c;
  let c := set_echo false c in
  if key =? 10 then console_prompt c else Some c.

(** How a turn of the loop ends: asleep in keyboard_getchar, in SchedYield, or
    at the head of the loop again. *)
Inductive ShellOut := ShWaits | ShYields | ShLoops.

Definition shell_turn (k : Keyboard) (c : Console) : option (ShellOut * Keyboard * Console) :=
  '(key, k) ← keyboard_getchar k;
  match key with
  | None => Some (ShWaits, k, c)
  | Some key => if key <? 0 then Some (ShYields, k, c) else c ← shell_key key c; Some (ShLoops, k, c)
  end.

(** A user at the keyboard: for each key its scancodes arrive as interrupts, and
    the shell takes a turn. *)
Fixpoint shell_session (keys : list Z) (k : Keyboard) (c : Console) : option (Keyboard * Console) :=
  match keys with
  | [] => Some (k, c)
  | key :: keys =>
      '(_, k, c) ← shell_turn (foldl (fun k sc => keyboard_callback sc k) k (strokes key)) c;
      shell_session keys k c
  end.

(** ** The line editor it is *)

(** The keys: printable characters and the backspace. *)
Definition edit_key (key : Z) : Prop := 32 <= key <= 126 \/ key = 8.

(** What a key makes of the line: the backspace takes the last character. *)
Definition line_edit (l : list Z) (key : Z) : list Z := if key =? 8 then removelast l else l ++ [key].

(** [l] stands on the screen behind the prompt that ends at [start], and behind
    it nothing: every cell from the cursor to the end of the page is blank. *)
Record shows (start : Z) (l : list Z) (c : Console) : Prop := {
  sh_inv : con_inv c;
  sh_echo : console_line_echo c = false;
  sh_start : user_cmdline_start c = start;
  sh_cursor : cursor c = start + Z.of_nat (length l);
  sh_cells : forall i x, l !! i = Some x -> cell c (start + Z.of_nat i) = (x, ConsoleAttribute);
  sh_blank : blank_after c }.

Lemma set_echo_inv b c : con_inv c -> con_inv (set_echo b c).
Proof. by intros []. Qed.

Lemma set_echo_cell b c i : cell (set_echo b c) i = cell c i.
Proof. done. Qed.

(** Writing a character in the middle of a row. *)
Lemma shell_key_char start l key c :
  shows start l c -> 32 <= key <= 126 -> start mod 80 + Z.of_nat (length l) < 79 ->
  exists c', shell_key key c = Some c' /\ shows start (l ++ [key]) c' /\
    forall i, i < start -> cell c' i = cell c i.
Proof.
  intros [Hi He Hs Hc Hl Hbl] Hk Hf. pose proof (c_cmdline _ Hi) as Hst. rewrite Hs in Hst.
  pose proof (set_echo_inv true c Hi) as Hi1.
  assert (Hp : plain (key mod 256)) by (rewrite Z.mod_small by lia; unfold plain; lia).
  assert (Hcol : cursor (set_echo true c) mod 80 <> 79).
  { cbn. rewrite Hc. con. Z.to_euclidean_division_equations. lia. }
  unfold shell_key, putchar_fuel. cbv zeta. rewrite (putchar_plain_stop 3 _ _ Hp Hi1) by by right.
  rewrite some_bind, (proj2 (Z.eqb_neq key 10)) by lia.
  destruct (plain_step (key mod 256) _ Hi1) as (I1 & _ & _ & C1). cbv zeta in *.
  assert (Hcur : cursor c + 1 < ConsoleCells) by (rewrite Hc; con; Z.to_euclidean_division_equations; lia).
  unfold advance in *. rewrite (proj2 (Z.leb_gt _ _)) in * by exact Hcur.
  destruct (console_set_cursor_spec (cursor (write_cell (key mod 256) (set_echo true c)) + 1)
              (write_cell (key mod 256) (set_echo true c))) as (E1 & _ & E2 & E3 & _);
    [destruct Hi; cbn; lia|]. set (c1 := console_set_cursor _ _) in *.
  assert (HV : forall i, cell c1 i = if decide (i = cursor c) then (key, ConsoleAttribute) else cell c i).
  { intros i. unfold cell at 1. rewrite E2. fold (cell (write_cell (key mod 256) (set_echo true c)) i).
    rewrite write_cell_cells. by rewrite Zmod_mod, Z.mod_small by lia. }
  exists (set_echo false c1). split; [done|]. split.
  - split; [by apply set_echo_inv|done|exact (eq_trans E3 Hs)| | |].
    { refine (eq_trans E1 _). rewrite length_app. cbn. lia. }
    2: { intros i. cbn [cursor set_echo]. rewrite E1, set_echo_cell, HV. cbn. intros Hr.
         rewrite decide_False by lia. apply Hbl. lia. }
    intros i x Hx. rewrite set_echo_cell, HV. apply lookup_app_Some in Hx as [Hx|[Hge Hx]].
    + pose proof (lookup_lt_Some _ _ _ Hx). rewrite decide_False by lia. by apply Hl.
    + apply list_lookup_singleton_Some in Hx as [Hn <-]. by rewrite decide_True by lia.
  - intros i Hlt. rewrite set_echo_cell, HV, decide_False by lia. done.
Qed.

(** The backspace stops at the prompt. *)
Lemma shell_key_backspace start l c :
  shows start l c ->
  exists c', shell_key 8 c = Some c' /\ shows start (removelast l) c' /\
    forall i, i < start -> cell c' i = cell c i.
Proof.
  intros [Hi He Hs Hc Hl Hbl]. pose proof (c_cmdline _ Hi) as Hst. rewrite Hs in Hst.
  unfold shell_key. change (8 mod 256) with 8. unfold putchar_fuel. rewrite putchar_backspace, some_bind.
  change (8 =? 10) with false. cbn [user_cmdline_start cursor set_echo].
  destruct (Z.ltb_spec (user_cmdline_start c) (cursor c)) as [Hlt|Hge].
  - set (c0 := set_cursor (cursor c - 1) (set_echo true c)).
    pose proof (c_cursor _ Hi) as Hcc.
    destruct (console_set_cursor_spec (cursor c - 1) (write_cell 32 c0)) as (E1 & E0 & E2 & E3 & _); [lia|].
    set (c1 := console_set_cursor _ _) in *.
    assert (HV : forall i, cell c1 i = if decide (i = cursor c - 1) then (32, ConsoleAttribute) else cell c i).
    { intros i. unfold cell at 1. rewrite E2. fold (cell (write_cell 32 c0) i). by rewrite write_cell_cells. }
    assert (Hlen : length (removelast l) = (length l - 1)%nat) by (rewrite removelast_firstn_len, length_take; lia).
    exists (set_echo false c1). split; [done|]. split.
    + assert (Es : user_cmdline_start c1 = start) by exact (eq_trans E3 Hs).
      split; [|done|exact Es| | |].
      { apply set_echo_inv. split; [rewrite E1; lia|rewrite Es; lia|exact E0]. }
      { refine (eq_trans E1 _). rewrite Hlen. lia. }
      2: { intros i. cbn [cursor set_echo]. rewrite E1, set_echo_cell, HV. intros Hr.
           case_decide; [done|]. apply Hbl. lia. }
      intros i x Hx. pose proof (lookup_lt_Some _ _ _ Hx). rewrite set_echo_cell, HV, decide_False by lia.
      rewrite removelast_firstn_len in Hx. apply lookup_take_Some in Hx as [Hx _]. by apply Hl.
    + intros i Hi'. rewrite set_echo_cell, HV, decide_False by lia. done.
  - assert (l = []) as -> by (destruct l; [done|cbn in Hc; lia]).
    exists (set_echo false (set_echo true c)). split; [done|]. split; [|done]. split; [by repeat apply set_echo_inv|done..].
Qed.

(** A new prompt: an empty line behind it. *)
Lemma prompt_shows c :
  con_inv c -> console_line_echo c = false -> blank_after c ->
  exists c', console_prompt c = Some c' /\ shows (cursor c') [] c'.
Proof.
  intros Hi He Hb. unfold console_prompt. cbn [console_write]. unfold putchar_fuel.
  rewrite (putchar_plain_stop 3 62 c) by (done || by left). rewrite some_bind.
  destruct (plain_step 62 c Hi) as (I1 & _ & E1 & _). pose proof (plain_blank 62 c Hi Hb) as B1. cbv zeta in *. set (c1 := advance _) in *. clearbody c1.
  rewrite (putchar_plain_stop 3 32 c1) by (done || left; congruence). rewrite !some_bind.
  destruct (plain_step 32 c1 I1) as (I2 & _ & E2 & _). pose proof (plain_blank 32 c1 I1 B1) as B2. cbv zeta in *. set (c2 := advance _) in *. clearbody c2.
  eexists. split; [done|]. split; cbn; [|congruence|done|lia|done|exact B2]. destruct I2 as [H1 H2 H3]. by split.
Qed.

(** Enter moves to the next row, scrolling at the last one, and prompts. *)
Lemma shell_key_enter start l c :
  shows start l c -> exists c', shell_key 10 c = Some c' /\ shows (cursor c') [] c'.
Proof.
  intros [Hi He _ _ _ Hb]. unfold shell_key. change (10 mod 256) with 10.
  destruct (putchar_inv 1 10 (set_echo true c) (set_echo_inv true c Hi)) as (c1 & E & I1 & _).
  pose proof (putchar_blank _ _ _ _ (set_echo_inv true c Hi) Hb E) as (_ & B1 & _).
  unfold putchar_fuel. rewrite E, some_bind. change (10 =? 10) with true. cbv iota.
  by apply prompt_shows; [apply set_echo_inv| |].
Qed.

Lemma edit_stroke_ok key : edit_key key -> stroke_ok key = true.
Proof. intros [H| ->]; [by apply strokes_ok|by vm_compute]. Qed.

Lemma length_line_edit l key : (length (line_edit l key) <= S (length l))%nat.
Proof.
  unfold line_edit. destruct (key =? 8); [|rewrite length_app; cbn; lia].
  rewrite removelast_firstn_len, length_take. lia.
Qed.

(** ** The property *)

(** The shell's first prompt. *)
Lemma shell_begin_shows c :
  con_inv c -> console_line_echo c = false -> blank_after c ->
  exists c', shell_begin c = Some c' /\ shows (cursor c') [] c'.
Proof.
  intros Hi He Hb. unfold shell_begin.
  destruct (say_spec (line "System ready. You can now type inside the console:") []
    (line "System ready. You can now type inside the console:") c) as (c1 & -> & [E I1]);
    [done|by apply Forall_nil|by vm_compute|]. rewrite some_bind.
  destruct (write_blank _ _ _ Hi Hb E) as (_ & B1 & Q1). apply prompt_shows; [done|congruence|done].
Qed.

Lemma session_shows keys : forall k c start l,
  idle k -> shows start l c -> Forall edit_key keys ->
  start mod 80 + Z.of_nat (length l) + Z.of_nat (length keys) < 80 ->
  exists k' c', shell_session keys k c = Some (k', c') /\ idle k' /\
    shows start (foldl line_edit l keys) c' /\ forall i, i < start -> cell c' i = cell c i.
Proof.
  induction keys as [|key keys IH]; intros k c start l Hk Hc He Hf; [by exists k, c|].
  inversion He as [|? ? He1 He2]; subst. cbn [shell_session foldl length] in *.
  destruct (type_key key k Hk (edit_stroke_ok _ He1)) as (k1 & E & Hk1). unfold shell_turn. rewrite E, some_bind.
  assert (exists c1, shell_key key c = Some c1 /\ shows start (line_edit l key) c1 /\
    forall i, i < start -> cell c1 i = cell c i) as (c1 & E1 & Hc1 & Hb1).
  { unfold line_edit. destruct (Z.eqb_spec key 8) as [->|]; [by apply shell_key_backspace|].
    apply shell_key_char; [done| |lia]. destruct He1; done. }
  rewrite (proj2 (Z.ltb_ge key 0)) by (destruct He1; lia). rewrite E1, !some_bind.
  pose proof (length_line_edit l key).
  destruct (IH k1 c1 start (line_edit l key)) as (k' & c' & -> & Hk' & Hc' & Hb'); [done|done|done|lia|].
  exists k', c'. split; [done|]. split; [done|]. split; [done|]. intros i Hi. rewrite Hb' by done. by apply Hb1.
Qed.

Lemma session_app keys1 : forall keys2 k c,
  shell_session (keys1 ++ keys2) k c = '(k, c) ← shell_session keys1 k c; shell_session keys2 k c.
Proof.
  induction keys1 as [|key keys1 IH]; intros keys2 k c; [done|]. cbn [app shell_session].
  destruct (shell_turn _ c) as [[[out k1] c1]|]; [|done]. rewrite !some_bind. apply IH.
Qed.

(** C25. The shell is a line editor. Whatever printable keys and backspaces are
    typed behind a prompt that is the last thing on the screen, as long as they
    fit on its row, their scancodes going through the interrupt handler and the
    decoder: the session goes on, the screen shows behind the prompt exactly
    the edited line, with the cursor after it and every cell from the cursor to
    the end of the page blank, and nothing before the prompt's end has changed.
    Enter then starts an empty line behind a new prompt. *)
Theorem shell_edits_line keys k c start :
  idle k -> shows start [] c -> Forall edit_key keys -> start mod 80 + Z.of_nat (length keys) < 80 ->
  exists k' c', shell_session keys k c = Some (k', c') /\
    shows start (foldl line_edit [] keys) c' /\ (forall i, i < start -> cell c' i = cell c i) /\
    exists k2 c2, shell_session (keys ++ [10]) k c = Some (k2, c2) /\ idle k2 /\ shows (cursor c2) [] c2.
Proof.
  intros Hk Hc He Hf. destruct (session_shows keys k c start [] Hk Hc He) as (k1 & c1 & E & Hk1 & Hc1 & Hb); [cbn [length]; lia|].
  exists k1, c1. split; [done|]. split; [done|]. split; [done|].
  destruct (type_key 10 k1 Hk1 ltac:(by vm_compute)) as (k2 & E2 & Hk2).
  destruct (shell_key_enter _ _ _ Hc1) as (c2 & E3 & Hc2). exists k2, c2.
  rewrite session_app, E, some_bind. cbn [shell_session]. unfold shell_turn. rewrite E2, some_bind.
  change (10 <? 0) with false. cbv iota. by rewrite E3.
Qed.

(** "hj", backspace, "i" behind the prompt on a cleared screen. *)
Definition cleared : Console := console_clear (mkConsole ∅ 0 0 false []).
Definition prompted : Console := default cleared (console_prompt cleared).

Lemma prompted_shows : shows 2 [] prompted.
Proof.
  destruct (console_clear_spec (mkConsole ∅ 0 0 false [])) as (Hi & _).
  destruct (prompt_shows cleared Hi eq_refl (clear_blank _)) as (c & E & H).
  unfold prompted. rewrite E. cbn [default]. assert (cursor c = 2) as Hc; [|by rewrite Hc in H].
  assert (Hv : cursor (default cleared (console_prompt cleared)) = 2) by (vm_compute; done).
  by rewrite E in Hv.
Qed.

Lemma shell_edits_line_witness :
  exists k' c', shell_session [104; 106; 8; 105; 106; 8] kbd_init prompted = Some (k', c') /\
    cell c' 2 = (104, ConsoleAttribute) /\ cell c' 3 = (105, ConsoleAttribute) /\ cursor c' = 4 /\
    cell c' 4 = (32, ConsoleAttribute).
Proof.
  destruct (shell_edits_line [104; 106; 8; 105; 106; 8] kbd_init prompted 2)
    as (k' & c' & E & [_ _ _ Hcur Hl Hb] & _).
  - split; [apply kbd_init_wf|done|vm_compute; lia].
  - exact prompted_shows.
  - repeat constructor; unfold edit_key; lia.
  - vm_compute. reflexivity.
  - exists k', c'. split; [exact E|]. split; [exact (Hl 0%nat 104 eq_refl)|].
    split; [exact (Hl 1%nat 105 eq_refl)|]. split; [exact Hcur|].
    apply Hb. change (cursor c' = 4) in Hcur. rewrite Hcur. con. lia.
Defined.
