(* ===== verification/IpcSelfTests.v ===== *)
(** * The IPC self tests (init/main.c, ipc_test_tasks)

    A consumer and a producer exchange messages through a blocking port: their
    bodies are cut where the code can be switched away from, so that they run
    on the machine of [TaskMachine.v]. The semaphore, the mutex and the port's
    life cycle are tested by the idle task alone. *)

From stdpp Require Import strings.
From S2P Require Import Prelude Sched SchedMachine TaskMachine Ipc Sync Message Strings Console Stdio KernelMain.

Definition IPC_TEST_MESSAGES : Z := 40.

(** ** The rendezvous *)

(** Where one of the two tasks stands: not created yet, at the head of its loop,
    asleep in a call of IpcPark (with what that call has saved), behind the
    loop, back in SchedExitStub, or dead. *)
Inductive Pc :=
| PcUnborn | PcLoop (Index : Z) | PcPark (Index Self : Z) (was_enabled : bool) | PcLeave | PcReturn | PcGone.

#[global] Instance Pc_eq_dec : EqDecision Pc.
Proof. solve_decision. Defined.

(** A null pointer to a task, or one not set yet: no descriptor. *)
Definition no_task : nat := 32.

(** The static data of the test, ipc_test_tasks' pointers to the two tasks and
    what these keep on their stacks. *)
Record Rendezvous := mkRendezvous {
  TestPort : IpcPort;
  ConsumerDone : Z; ProducerDone : Z; ConsumerBad : Z; ProducerId : Z;
  Consumer : nat; Producer : nat;
  cpc : Pc; ppc : Pc;
  cMessage : IpcMessage; pMessage : IpcMessage }.

Definition set_TestPort v a := mkRendezvous v (ConsumerDone a) (ProducerDone a) (ConsumerBad a)
  (ProducerId a) (Consumer a) (Producer a) (cpc a) (ppc a) (cMessage a) (pMessage a).
Definition set_ConsumerDone v a := mkRendezvous (TestPort a) v (ProducerDone a) (ConsumerBad a)
  (ProducerId a) (Consumer a) (Producer a) (cpc a) (ppc a) (cMessage a) (pMessage a).
Definition set_ProducerDone v a := mkRendezvous (TestPort a) (ConsumerDone a) v (ConsumerBad a)
  (ProducerId a) (Consumer a) (Producer a) (cpc a) (ppc a) (cMessage a) (pMessage a).
Definition set_ConsumerBad v a := mkRendezvous (TestPort a) (ConsumerDone a) (ProducerDone a) v
  (ProducerId a) (Consumer a) (Producer a) (cpc a) (ppc a) (cMessage a) (pMessage a).
Definition set_cpc v a := mkRendezvous (TestPort a) (ConsumerDone a) (ProducerDone a) (ConsumerBad a)
  (ProducerId a) (Consumer a) (Producer a) v (ppc a) (cMessage a) (pMessage a).
Definition set_ppc v a := mkRendezvous (TestPort a) (ConsumerDone a) (ProducerDone a) (ConsumerBad a)
  (ProducerId a) (Consumer a) (Producer a) (cpc a) v (cMessage a) (pMessage a).
Definition set_cMessage v a := mkRendezvous (TestPort a) (ConsumerDone a) (ProducerDone a) (ConsumerBad a)
  (ProducerId a) (Consumer a) (Producer a) (cpc a) (ppc a) v (pMessage a).
Definition set_pMessage v a := mkRendezvous (TestPort a) (ConsumerDone a) (ProducerDone a) (ConsumerBad a)
  (ProducerId a) (Consumer a) (Producer a) (cpc a) (ppc a) (cMessage a) v.

(** What ipc_consumer_task does with the outcome of its IpcReceive. *)
Definition consumer_received (Index Self : Z) (out : CallOut) (got : option IpcMessage) (a : Rendezvous)
    : Out * Rendezvous :=
  match out with
  | CSleep fs was => (Switched fs, set_cpc (PcPark Index Self was) a)
  | CRet Status =>
      if decide (Status <> IpcOk)
      then (Done, set_cpc PcLeave (set_ConsumerBad (ConsumerBad a +w 1) a))
      else
        let Message := default (cMessage a) got in
        let a := set_cMessage Message a in
        let a := if negb (Length Message =? 1) || negb (default 0 (Data Message !! 0%nat) =? Index)
                    || negb (Sender Message =? ProducerId a)
                 then set_ConsumerBad (ConsumerBad a +w 1) a else a in
        (Done, set_cpc (PcLoop (Index +w 1)) a)
  end.

Definition ipc_consumer_task (fuel : nat) (a : Rendezvous) (s : Sched) : option (Out * Rendezvous * Sched) :=
  match cpc a with
  | PcLoop Index =>
      if Index <? IPC_TEST_MESSAGES then
        '(out, port, got, s') ← IpcReceive fuel (Some (TestPort a)) true s;
        port ← port;
        Some (consumer_received Index (IpcSelfId s) out got (set_TestPort port a), s')
      else Some (Done, set_cpc PcLeave a, s)
  | PcPark Index Self was =>
      '(out, port, got, s') ← IpcReceive_resume fuel Self was (TestPort a) s;
      Some (consumer_received Index Self out got (set_TestPort port a), s')
  | PcLeave => Some (Done, set_cpc PcReturn (set_ConsumerDone 1 a), s)
  | PcReturn => '(out, s) ← SchedExit s; Some (out, set_cpc PcGone a, s)
  | PcUnborn | PcGone => Some (Done, a, s)
  end.

(** What ipc_producer_task does with the outcome of its IpcSend. *)
Definition producer_sent (Index Self : Z) (out : CallOut) (a : Rendezvous) : Out * Rendezvous :=
  match out with
  | CSleep fs was => (Switched fs, set_ppc (PcPark Index Self was) a)
  | CRet Status =>
      if decide (Status <> IpcOk)
      then (Done, set_ppc PcLeave (set_ConsumerBad (ConsumerBad a +w 1) a))
      else (Done, set_ppc (PcLoop (Index +w 1)) a)
  end.

Definition ipc_producer_task (fuel : nat) (a : Rendezvous) (s : Sched) : option (Out * Rendezvous * Sched) :=
  match ppc a with
  | PcLoop Index =>
      if Index <? IPC_TEST_MESSAGES then
        let Message := mkMsg 1 (Sender (pMessage a)) (<[0%nat := Index]> (Data (pMessage a))) in
        let a := set_pMessage Message a in
        '(out, port, s') ← IpcSend fuel (Some (TestPort a)) (Some Message) s;
        port ← port;
        Some (producer_sent Index (IpcSelfId s) out (set_TestPort port a), s')
      else Some (Done, set_ppc PcLeave a, s)
  | PcPark Index Self was =>
      '(out, port, s') ← IpcSend_resume fuel Self was (TestPort a) (pMessage a) s;
      Some (producer_sent Index Self out (set_TestPort port a), s')
  | PcLeave => Some (Done, set_ppc PcReturn (set_ProducerDone 1 a), s)
  | PcReturn => '(out, s) ← SchedExit s; Some (out, set_ppc PcGone a, s)
  | PcUnborn | PcGone => Some (Done, a, s)
  end.

(** The other tasks do not touch what the test uses. *)
Definition rendezvous_body (fuel : nat) (t : nat) (a : Rendezvous) (s : Sched)
    : option (Out * Rendezvous * Sched) :=
  if decide (t = Consumer a) then ipc_consumer_task fuel a s
  else if decide (t = Producer a) then ipc_producer_task fuel a s
  else Some (Done, a, s).

(** Where ipc_test_tasks stands in its set-up: before it creates each of the two
    tasks, before it checks the pointers and loads [Producer->Id], before it
    stores that id, behind it, or at its error message. Interrupts are on, so
    the tasks created so far may run between any two of these. *)
Inductive SetUp := SuConsumer | SuProducer | SuLoad | SuStore (Loaded : Z) | SuDone | SuFailed.

#[global] Instance SetUp_eq_dec : EqDecision SetUp.
Proof. solve_decision. Defined.

(** The port is claimed and the counters are cleared. [cM] and [pM] are what is
    on the two stacks; ProducerId is still as .bss has it. *)
Definition rendezvous_start (cM pM : IpcMessage) (port : IpcPort) (c : Console)
    : option (option Rendezvous * Console) :=
  match IpcPortCreate (Some port) with
  | (IpcOk, Some port) =>
      Some (Some (mkRendezvous port 0 0 0 0 no_task no_task PcUnborn PcUnborn cM pM), c)
  | _ => c ← say (line "ERROR: ipc port could not be created.") [] c; Some (None, c)
  end.

(** A task that was created starts at the head of its loop. *)
Definition consumer_born (t : option nat) (a : Rendezvous) : Rendezvous :=
  match t with
  | Some t => mkRendezvous (TestPort a) (ConsumerDone a) (ProducerDone a) (ConsumerBad a) (ProducerId a)
                t (Producer a) (PcLoop 0) (ppc a) (cMessage a) (pMessage a)
  | None => a
  end.
Definition producer_born (t : option nat) (a : Rendezvous) : Rendezvous :=
  match t with
  | Some t => mkRendezvous (TestPort a) (ConsumerDone a) (ProducerDone a) (ConsumerBad a) (ProducerId a)
                (Consumer a) t (cpc a) (PcLoop 0) (cMessage a) (pMessage a)
  | None => a
  end.
Definition set_ProducerId v a := mkRendezvous (TestPort a) (ConsumerDone a) (ProducerDone a) (ConsumerBad a)
  v (Consumer a) (Producer a) (cpc a) (ppc a) (cMessage a) (pMessage a).

(** The two tasks' code and stacks, and SchedExitStub, at their addresses. *)
Section SetUp.
Context (SchedExitStub consumer_entry ConsumerStackEnd producer_entry ProducerStackEnd : Z).

(** One step of the set-up, by the idle task. *)
Definition rendezvous_setup (p : SetUp) (a : Rendezvous) (s : Sched) : option (SetUp * Rendezvous * Sched) :=
  match p with
  | SuConsumer =>
      '(t, s) ← SchedCreate SchedExitStub (Some (text "Consumer")) consumer_entry ConsumerStackEnd s;
      Some (SuProducer, consumer_born t a, s)
  | SuProducer =>
      '(t, s) ← SchedCreate SchedExitStub (Some (text "Producer")) producer_entry ProducerStackEnd s;
      Some (SuLoad, producer_born t a, s)
  | SuLoad =>
      if decide (Consumer a = no_task \/ Producer a = no_task) then Some (SuFailed, a, s)
      else Some (SuStore (Id (task s (Producer a))), a, s)
  | SuStore Loaded => Some (SuDone, set_ProducerId Loaded a, s)
  | SuDone | SuFailed => Some (p, a, s)
  end.

(** The test from there on: the idle task sets it up, then halts in its wait
    loop and does not touch what the two tasks use. *)
Definition test_body (fuel : nat) (t : nat) (x : SetUp * Rendezvous) (s : Sched)
    : option (Out * (SetUp * Rendezvous) * Sched) :=
  if decide (t = 0%nat) then
    '(p, a, s) ← rendezvous_setup (fst x) (snd x) s; Some (Done, (p, a), s)
  else '(out, a, s) ← rendezvous_body fuel t (snd x) s; Some (out, (fst x, a), s).
End SetUp.

(** What is printed once the wait is over. *)
Definition rendezvous_report (a : Rendezvous) (c : Console) : option Console :=
  let Queued := IpcPortQueued (Some (TestPort a)) in
  if (ConsumerDone a =? 0) || (ProducerDone a =? 0) then
    say (line "ERROR: ipc rendezvous did not finish, %u of %u messages.")
      [AWord Queued; AWord IPC_TEST_MESSAGES] c
  else if negb (ConsumerBad a =? 0) then
    say (line "ERROR: ipc rendezvous reported %u bad messages.") [AWord (ConsumerBad a)] c
  else
    c ← say (line "OK: %u messages passed through a blocking port.") [AWord IPC_TEST_MESSAGES] c;
    if negb (Queued =? 0)
    then say (line "ERROR: port still holds %u messages after draining it.") [AWord Queued] c
    else say (line "OK: port drained, no message lost or duplicated.") [] c.

(** ** The tests of the idle task alone *)

(** A call on an object, and a condition over such calls: [||] stops at the
    first that holds. [reports] is the chain of if and else if that prints the
    message of the first condition that holds, or the last message; it also
    says whether it came to that. *)
Section Tests.
Context {X : Type}.

Definition unlike (call : X -> option (IpcStatus * X)) (expected : IpcStatus) (x : X) : option (bool * X) :=
  '(Status, x) ← call x; Some (bool_decide (Status <> expected), x).

Definition orelse (p q : X -> option (bool * X)) (x : X) : option (bool * X) :=
  '(b, x) ← p x; if (b : bool) then Some (true, x) else q x.

Fixpoint reports (tests : list ((X -> option (bool * X)) * String.string)) (ok : String.string) (x : X) (c : Console)
    : option (bool * X * Console) :=
  match tests with
  | [] => c ← say (line ok) [] c; Some (true, x, c)
  | (test, message) :: tests =>
      '(b, x) ← test x;
      if (b : bool) then c ← say (line message) [] c; Some (false, x, c) else reports tests ok x c
  end.
End Tests.

(** What a call that may sleep returns to a caller that never does. *)
Definition awake {X} (r : CallOut * X) : option (IpcStatus * X) :=
  match r with (CRet Status, x) => Some (Status, x) | (CSleep _ _, _) => None end.

Section Idle.
Context (fuel : nat).

Definition sem_wait (x : option IpcSemaphore * Sched) : option (IpcStatus * (option IpcSemaphore * Sched)) :=
  '(out, sem, s) ← SemWait fuel (fst x) (snd x); awake (out, (sem, s)).
Definition sem_try_wait (x : option IpcSemaphore * Sched) : option (IpcStatus * (option IpcSemaphore * Sched)) :=
  let '(st, sem, s) := SemTryWait (fst x) (snd x) in Some (st, (sem, s)).
Definition sem_post (x : option IpcSemaphore * Sched) : option (IpcStatus * (option IpcSemaphore * Sched)) :=
  '(st, sem, s) ← SemPost (fst x) (snd x); Some (st, (sem, s)).

Definition semaphore_test (TestSem : IpcSemaphore) (c : Console) (s : Sched)
    : option (bool * (option IpcSemaphore * Sched) * Console) :=
  '(Status, x) ← sem_wait (SemInit (Some TestSem) 1 1, s);
  reports
    [(orelse (fun x => Some (bool_decide (Status <> IpcOk), x)) (unlike sem_try_wait IpcErrEmpty),
      "ERROR: binary semaphore did not hold at its limit."%string);
     (orelse (unlike sem_post IpcOk) (unlike sem_post IpcErrFull),
      "ERROR: binary semaphore did not stop at its limit."%string);
     (orelse (unlike sem_wait IpcOk) (unlike sem_wait IpcErrNoTask),
      "ERROR: binary semaphore did not hand its permit back."%string)]
    "OK: binary semaphore counted, blocked, and refused to park the idle." x c.

Definition mutex_lock (x : option IpcMutex * Sched) : option (IpcStatus * (option IpcMutex * Sched)) :=
  '(out, m, s) ← MutexLock fuel (fst x) (snd x); awake (out, (m, s)).
Definition mutex_try_lock (x : option IpcMutex * Sched) : option (IpcStatus * (option IpcMutex * Sched)) :=
  let '(st, m, s) := MutexTryLock (fst x) (snd x) in Some (st, (m, s)).
Definition mutex_unlock (x : option IpcMutex * Sched) : option (IpcStatus * (option IpcMutex * Sched)) :=
  '(st, m, s) ← MutexUnlock (fst x) (snd x); Some (st, (m, s)).
Definition mutex_held (held : bool) (x : option IpcMutex * Sched) : option (bool * (option IpcMutex * Sched)) :=
  Some (Bool.eqb (MutexHeldByCaller (fst x) (snd x)) held, x).

Definition mutex_test (TestMutex : IpcMutex) (c : Console) (s : Sched)
    : option (bool * (option IpcMutex * Sched) * Console) :=
  reports
    [(orelse (unlike mutex_lock IpcOk) (mutex_held false), "ERROR: mutex could not be locked."%string);
     (unlike mutex_try_lock IpcErrBusy, "ERROR: mutex was free while this task held it."%string);
     (unlike mutex_lock IpcErrOwner, "ERROR: mutex allowed a recursive lock."%string);
     (orelse (unlike mutex_unlock IpcOk) (mutex_held true), "ERROR: mutex did not release."%string);
     (unlike mutex_unlock IpcErrOwner, "ERROR: mutex let a task unlock one it did not hold."%string)]
    "OK: mutex locked, refused a re-lock, and released." (MutexInit (Some TestMutex), s) c.

Definition port_create (p : option IpcPort) : option (IpcStatus * option IpcPort) := Some (IpcPortCreate p).
Definition port_destroy (p : option IpcPort) : option (IpcStatus * option IpcPort) := Some (IpcPortDestroy p).

Definition port_test (TestPort : IpcPort) (c : Console) : option (option IpcPort * Console) :=
  '(ok, port, c) ← reports
    [(orelse (unlike port_destroy IpcOk) (unlike port_destroy IpcErrInvalid),
      "ERROR: port could not be destroyed cleanly."%string);
     (orelse (unlike port_create IpcOk) (unlike port_create IpcErrInvalid),
      "ERROR: port was claimed twice."%string)]
    "OK: port rejected a second create and a second destroy." (Some TestPort) c;
  Some (if (ok : bool) then snd (IpcPortDestroy port) else port, c).
End Idle.
