(* ===== verification/IpcRendezvous.v ===== *)
(** * The rendezvous of main.c: invariant and progress

    What holds in every world the consumer and the producer can reach, whatever
    the timer does: the messages in the port are the ones between the two
    indices, a task is blocked exactly while it is queued, and only while it
    has to wait. *)

From S2P Require Import Prelude Sched SchedQueues SchedInv SchedOps SchedMachine TaskMachine Ipc Sync Message TaskFrame Strings Console Stdio KernelMain IpcSelfTests.

(** ** What waking leaves alone *)

Lemma wake_calm id s s' i :
  wake id s s' -> SchedFind id s <> Some i -> calm i s s' /\ SchedulerLocked s' = SchedulerLocked s.
Proof.
  intros (t & Ht & [[_ ->]|[_ F]]) Hi; [done|]. split; [|apply (fr_Locked F)].
  etrans; [|exact (frame_calm i _ _ F)]. apply calm_same; by rewrite task_upd_ne by congruence.
Qed.

(** ** One task and its wait queue *)

(** The task has been created and is not gone. *)
Definition here (pc : Pc) : bool := match pc with PcUnborn | PcGone => false | _ => true end.

Lemma here_born pc : here pc = true -> pc <> PcUnborn.
Proof. by intros H ->. Qed.

(** Task [t] stands at [pc] and may sleep on [w] only; it is queued exactly
    while it is blocked, and may go on exactly when [can] holds. Before it is
    created there is no descriptor; once the task is gone nothing is said of the
    descriptor, which another task may use. *)
Record side (s : Sched) (t : nat) (id : Z) (pc : Pc) (w : IpcWait) (can : Prop) : Prop := {
  sd_none : pc = PcUnborn -> t = no_task;
  sd_lt : pc <> PcUnborn -> (t < 32)%nat;
  sd_id : id <> 0;
  sd_alive : here pc = true -> State (task s t) <> TaskDead /\ Id (task s t) = id /\ WakeTick (task s t) = 0;
  sd_wait : entries w = if decide (State (task s t) = TaskBlocked /\ here pc = true) then [id] else [];
  sd_blocked : State (task s t) = TaskBlocked -> here pc = true -> ~ can /\ exists i was, pc = PcPark i id was;
  sd_awake : State (task s t) <> TaskBlocked -> forall i self was, pc = PcPark i self was -> self = id /\ can }.

Lemma side_calm s s' t id pc w can : side s t id pc w can -> (here pc = true -> calm t s s') -> side s' t id pc w can.
Proof.
  intros [H0 H1 H2 H3 H4 H5 H6] Hc. split; [done..| | | |].
  - intros Hg. destruct (H3 Hg) as (? & ? & ?), (Hc Hg) as [C1 C2 C3 C4].
    split; [by rewrite C2|]. split; [congruence|auto].
  - rewrite H4. apply decide_ext. destruct (decide (here pc = true)) as [Hg|]; [|tauto]. by rewrite (cm_Blocked _ _ (Hc Hg)).
  - intros Hb Hg. apply H5; [by rewrite <- (cm_Blocked _ _ (Hc Hg))|done].
  - intros Hb i self was Epc. eapply H6; [|done]. rewrite <- (cm_Blocked _ _ (Hc ltac:(by rewrite Epc))). done.
Qed.

(** Where the task may go on stays the same thing. *)
Lemma side_iff s t id pc w can can' : (can <-> can') -> side s t id pc w can -> side s t id pc w can'.
Proof. intros E [H1 H2 H3 H4 H5 H6]. split; [done..| |]; setoid_rewrite <- E; done. Qed.

Lemma side_untimed s t id pc w can : side s t id pc w can -> here pc = true -> untimed t s.
Proof. intros H Hg _. by apply H. Qed.

(** A task in its queue is blocked and can be found. *)
Lemma side_queued s t id pc w can x :
  side s t id pc w can -> x ∈ entries w -> x = id /\ State (task s t) = TaskBlocked /\ here pc = true.
Proof. intros H. rewrite (sd_wait _ _ _ _ _ _ H). case_decide; [|set_solver]. intros ->%elem_of_list_singleton'. tauto. Qed.

Lemma side_found s Q t id pc w can :
  side s t id pc w can -> sched_inv s Q -> State (task s t) = TaskBlocked -> here pc = true ->
  SchedFind id s = Some t /\ live s id.
Proof.
  intros H Hinv Hb Hg. destruct (sd_alive _ _ _ _ _ _ H Hg) as (Hd & <- & _).
  assert (Hf : SchedFind (Id (task s t)) s = Some t) by (eapply SchedFind_alive; done || by apply H, here_born).
  split; [done|]. apply (live_task s Q); [done|]. split; [apply (sd_id _ _ _ _ _ _ H)|by exists t].
Qed.

(** The task has been woken, if it slept, now that it may go on. *)
Lemma side_woken s s' t id pc w w' can (can' : Prop) :
  side s t id pc w can -> sched_ok s -> wakes_first w s w' s' -> can' -> side s' t id pc w' can'.
Proof.
  intros H (Q & Hinv & _) Hw Hc. pose proof (q_len _ _ (proj1 Hinv)) as Hlen.
  pose proof (sd_wait _ _ _ _ _ _ H) as He.
  destruct Hw as [(x & l1 & l2 & E & Hl & _ & P & Hwk)|(Hst & Ew & ->)].
  - destruct (side_queued _ _ _ _ _ _ x H) as (-> & Hb & Hg); [rewrite E; set_solver|].
    rewrite He, decide_True in P by done.
    apply (Permutation_cons_inv (l' := [])) in P. apply Permutation_nil_r in P.
    destruct (side_found _ _ _ _ _ _ _ H Hinv Hb Hg) as [Hf _].
    destruct (sd_blocked _ _ _ _ _ _ H Hb Hg) as (_ & i & was & Epc).
    destruct (sd_alive _ _ _ _ _ _ H Hg) as (_ & HI & HT).
    destruct Hwk as (t' & Hf' & Hs). assert (t' = t) as -> by congruence.
    destruct Hs as [[? _]|[_ F]]; [done|]. pose proof (sd_lt _ _ _ _ _ _ H (here_born _ Hg)) as Ht.
    assert (Hr : State (task s' t) = TaskReady) by (by rewrite (fr_State F), task_upd_eq by (by rewrite Hlen)).
    destruct H as [H0 H1 H2 H3 H4 H5 H6]. split; [done..| | | |]; rewrite ?Hr; [| |done|].
    + intros _. split; [done|]. rewrite (fr_Id F), (fr_WakeTick F), task_upd_eq by (by rewrite Hlen). done.
    + rewrite P, decide_False by (by intros []). done.
    + intros _ j self was'. rewrite Epc. by intros [= _ <- _].
  - assert (Hb : ~ (State (task s t) = TaskBlocked /\ here pc = true)).
    { intros [Hb Hg]. destruct (side_found _ _ _ _ _ _ _ H Hinv Hb Hg) as [_ Hl].
      apply (Hst id); [|done]. rewrite He, decide_True by done. set_solver. }
    destruct H as [H0 H1 H2 H3 H4 H5 H6]. split; [done..| | |].
    + by rewrite Ew, decide_False.
    + intros ? ?. by destruct Hb.
    + intros Hn j self was Epc. by destruct (H6 Hn j self was Epc).
Qed.

(** Waking the one task that may be in the queue leaves the others alone. *)
Lemma side_wakes_calm s s' t id pc w w' can i :
  side s t id pc w can -> sched_ok s -> wakes_first w s w' s' -> i <> t ->
  calm i s s' /\ SchedulerLocked s' = SchedulerLocked s.
Proof.
  intros H (Q & Hinv & _) [(x & l1 & l2 & E & _ & _ & _ & Hwk)|(_ & _ & ->)] Hi; [|done].
  destruct (side_queued _ _ _ _ _ _ x H) as (-> & Hb & Hg); [rewrite E; set_solver|].
  apply (wake_calm id); [done|]. destruct (side_found _ _ _ _ _ _ _ H Hinv Hb Hg) as [-> _]. congruence.
Qed.

(** The task has gone to sleep where it has to wait. *)
Lemma side_asleep s s' Q t id pc w w' (can : Prop) i was :
  side s t id pc w can -> State (task s t) = TaskRunning -> here pc = true -> ~ can ->
  asleep t s s' Q -> entries w' = entries w ++ [id] -> side s' t id (PcPark i id was) w' can.
Proof.
  intros [H0 H1 H2 H3 H4 H5 H6] Hr Hg Hc Ha Ew. destruct (H3 Hg) as (_ & HI & HT).
  pose proof (as_blocked _ _ _ _ Ha) as Hb. rewrite H4, Hr, decide_False in Ew by (by intros []).
  pose proof (H1 (here_born _ Hg)) as Ht. split; [done..| | | |]; rewrite ?Hb.
  - intros _. split; [done|]. by rewrite (as_ids _ _ _ _ Ha), (as_tick _ _ _ _ Ha).
  - by rewrite Ew, decide_True.
  - intros _ _. split; [done|by eexists _, _].
  - done.
Qed.

(** The running task moved on without sleeping. *)
Lemma side_moves s t id pc pc' w (can can' : Prop) :
  side s t id pc w can -> State (task s t) = TaskRunning -> here pc = true ->
  (forall i self was, pc' <> PcPark i self was) -> here pc' = true -> side s t id pc' w can'.
Proof.
  intros [H0 H1 H2 H3 H4 H5 H6] Hr Hg Hp Hg'. rewrite Hr, decide_False in H4 by (by intros []).
  destruct (H3 Hg) as (_ & ? & ?). pose proof (H1 (here_born _ Hg)) as Ht.
  split; rewrite ?Hr; try done; [by intros ->|].
  intros _ i self was E. by destruct (Hp i self was).
Qed.

Lemma side_dies s s' t id pc w (can can' : Prop) :
  side s t id pc w can -> State (task s t) = TaskRunning -> pc <> PcUnborn -> side s' t id PcGone w can'.
Proof.
  intros [H0 H1 H2 H3 H4 H5 H6] Hr Hg. pose proof (H1 Hg) as Ht. rewrite Hr, decide_False in H4 by (by intros []).
  split; try done. by rewrite H4, decide_False by (by intros []).
Qed.

(** The running task of the two can sleep. *)
Lemma side_runs s t id pc w can :
  side s t id pc w can -> sched_ok s -> SchedulerLocked s = 0 -> CurrentTask s = Some t -> here pc = true ->
  State (task s t) = TaskRunning /\ entries w = [] /\
  exists Q, can_sleep t s Q /\ Id (task s t) = id.
Proof.
  intros H (Q & Hinv & c & Hc & Hr) Hl Ht Hg. assert (c = t) as -> by congruence.
  destruct (sd_alive _ _ _ _ _ _ H Hg) as (_ & HI & _).
  split; [done|]. split; [rewrite (sd_wait _ _ _ _ _ _ H), Hr, decide_False by (by intros []); done|].
  exists Q. split; [|done]. split; try done. rewrite HI. apply H.
Qed.

(** ** The invariant *)

(** How far a task has got. *)
Definition position (pc : Pc) : Z :=
  match pc with PcUnborn => 0 | PcLoop i | PcPark i _ _ => i | PcLeave | PcReturn | PcGone => IPC_TEST_MESSAGES end.
Definition flag (pc : Pc) : Z := match pc with PcReturn | PcGone => 1 | _ => 0 end.

(** Message [i] as the port stores it. *)
Definition numbered (id i : Z) (m : IpcMessage) : Prop :=
  Length m = 1 /\ Data m !! 0%nat = Some i /\ Sender m = id.

Record exchange (idc idp : Z) (a : Rendezvous) (s : Sched) : Prop := {
  ex_ok : sched_ok s;
  ex_free : SchedulerLocked s = 0;
  ex_born : cpc a = PcUnborn -> ppc a = PcUnborn;
  ex_ne : cpc a <> PcUnborn -> Consumer a <> Producer a;
  ex_port : port_wf (TestPort a);
  ex_c : side s (Consumer a) idc (cpc a) (Receivers (TestPort a)) (queued (TestPort a) <> []);
  ex_p : side s (Producer a) idp (ppc a) (Senders (TestPort a)) (length (queued (TestPort a)) < 16)%nat;
  ex_count : 0 <= position (cpc a) <= position (ppc a) /\ position (ppc a) <= 40;
  ex_queue : Forall2 (numbered idp) (seqZ (position (cpc a)) (position (ppc a) - position (cpc a)))
               (queued (TestPort a));
  ex_data : length (Data (pMessage a)) = 8%nat;
  ex_msg : forall i self was, ppc a = PcPark i self was ->
             Length (pMessage a) = 1 /\ Data (pMessage a) !! 0%nat = Some i /\ i < 40;
  ex_got : 0 < position (cpc a) -> numbered idp (position (cpc a) - 1) (cMessage a);
  ex_bad : 0 <= ConsumerBad a <= position (cpc a);
  ex_late : ProducerId a <> idp -> ConsumerBad a = position (cpc a);
  ex_cdone : ConsumerDone a = flag (cpc a);
  ex_pdone : ProducerDone a = flag (ppc a);
  ex_cpark : forall i self was, cpc a = PcPark i self was -> i < 40 }.

Lemma exchange_calm idc idp a s s' :
  exchange idc idp a s -> sched_ok s' -> SchedulerLocked s' = SchedulerLocked s ->
  (here (cpc a) = true -> calm (Consumer a) s s') -> (here (ppc a) = true -> calm (Producer a) s s') ->
  exchange idc idp a s'.
Proof.
  intros [] Hok Hl Hc Hp. split; try done; [congruence|by eapply side_calm..].
Qed.

(** The timer interrupt, say. *)
Lemma exchange_untimed idc idp a s s' :
  exchange idc idp a s -> sched_ok s' -> SchedulerLocked s' = SchedulerLocked s ->
  (forall i, (i < 32)%nat -> untimed i s -> calm i s s') -> exchange idc idp a s'.
Proof.
  intros H Hok Hl Hc. pose proof (ex_c _ _ _ _ H) as C. pose proof (ex_p _ _ _ _ H) as P.
  apply (exchange_calm _ _ _ _ _ H Hok Hl); intros Hg; apply Hc;
    [by apply C, here_born|by eapply side_untimed|by apply P, here_born|by eapply side_untimed].
Qed.

(** Saving and restoring the interrupt flag. *)
Lemma exchange_irq idc idp a s b c :
  exchange idc idp a s -> exchange idc idp a (SchedUnlockIrq b (set_irq_on c s)).
Proof.
  intros H. apply (exchange_untimed _ _ _ _ _ H); [|by destruct b|].
  - destruct (ex_ok _ _ _ _ H) as (Q & Hinv & n & Hn & Hr). exists Q.
    split; [by apply sched_inv_unlock, sched_inv_irq|]. exists n. by destruct b.
  - intros i _ _. by destruct b.
Qed.

(** ** Turns of the consumer *)

Lemma Forall2_seqZ_cons {A} (P : Z -> A -> Prop) i n x l :
  Forall2 P (seqZ i n) (x :: l) -> 0 < n /\ P i x /\ Forall2 P (seqZ (i + 1) (n - 1)) l.
Proof.
  intros H. destruct (decide (0 < n)) as [Hn|Hn]; [|by rewrite seqZ_nil in H by lia; inversion H].
  rewrite seqZ_cons in H by done. by apply Forall2_cons in H.
Qed.

Lemma Forall2_seqZ_snoc {A} (P : Z -> A -> Prop) i n x l :
  0 <= n -> Forall2 P (seqZ i n) l -> P (i + n) x -> Forall2 P (seqZ i (n + 1)) (l ++ [x]).
Proof.
  intros Hn H Hx. rewrite seqZ_app by lia. apply Forall2_app; [done|].
  rewrite seqZ_cons, seqZ_nil by lia. by constructor.
Qed.

(** The port holds at most sixteen messages. *)
Lemma queued_le p : port_wf p -> (length (queued p) <= 16)%nat.
Proof. intros Hw. pose proof (length_queued p Hw). pose proof (p_count _ Hw). lia. Qed.

Lemma consumer_gets idc idp a s i Self m p' s' :
  exchange idc idp a s -> CurrentTask s = Some (Consumer a) -> here (cpc a) = true -> position (cpc a) = i ->
  popped m (TestPort a) s p' s' ->
  exists a', consumer_received i Self (CRet IpcOk) (Some m) (set_TestPort p' a) = (Done, a') /\
    exchange idc idp a' s' /\ cpc a' = PcLoop (i + 1) /\ ppc a' = ppc a /\
    (Consumer a' = Consumer a /\ Producer a' = Producer a) /\ 0 <= i < 40 /\ goes (Consumer a) s s' /\
    ProducerId a' = ProducerId a /\ (ProducerId a = idp -> ConsumerBad a' = ConsumerBad a).
Proof.
  intros H Hcur Hg <- (Eq & Hw' & Hok' & _ & ER & Hwk).
  pose proof H as [H1 H2 Hb H3 H4 H5 H6 [H7 H7'] H8 H9 H10 HGot HB Hlate H13 H14 H15].
  pose proof (queued_le _ H4) as Hle. rewrite Eq in H8, Hle. cbn [length] in Hle.
  apply Forall2_seqZ_cons in H8 as (Hn & (HL & HD & HS) & H8).
  destruct (side_runs _ _ _ _ _ _ H5) as (Hr & _); [done..|].
  pose proof (H3 (here_born _ Hg)) as Hne. pose proof (sd_lt _ _ _ _ _ _ H5 (here_born _ Hg)) as H32.
  destruct (side_wakes_calm _ _ _ _ _ _ _ _ (Consumer a) H6 H1 Hwk) as [Hcm Hl]; [done|].
  assert (Hf : flag (cpc a) = 0).
  { clear - Hn H7'. destruct (cpc a); cbn [position flag] in *; unfold IPC_TEST_MESSAGES in *; done || lia. }
  unfold consumer_received. rewrite decide_False by tauto. cbv zeta.
  change (default (cMessage (set_TestPort p' a)) (Some m)) with m.
  cbn [set_cMessage ProducerId set_TestPort]. rewrite HL, HD, HS.
  change (default 0 (Some (position (cpc a)))) with (position (cpc a)).
  rewrite !Z.eqb_refl. cbn [negb orb].
  set (bad := if decide (ProducerId a = idp) then ConsumerBad a else ConsumerBad a + 1).
  assert (Hbad : 0 <= bad <= position (cpc a) + 1 /\ (ProducerId a <> idp -> bad = position (cpc a) + 1) /\
    (ProducerId a = idp -> bad = ConsumerBad a)).
  { unfold bad. case_decide; [split; [lia|done]|]. pose proof (Hlate ltac:(done)). split; [lia|done || lia]. }
  exists (set_cpc (PcLoop (position (cpc a) + 1)) (set_ConsumerBad bad (set_cMessage m (set_TestPort p' a)))).
  split.
  { unfold bad. destruct (Z.eqb_spec idp (ProducerId a)) as [<-|Hx]; cbn [negb].
    - rewrite decide_True by done. unwrap. done.
    - rewrite decide_False by congruence. cbn [set_ConsumerBad set_cMessage set_TestPort ConsumerBad]. by unwrap. }
  split; [|cbn; do 3 (split; [done|]); split; [lia|]; split; [|split; [done|apply Hbad]];
    by eapply wakes_first_goes; [| |exact Hwk]].
  split; cbn [set_cpc set_ConsumerBad set_cMessage set_TestPort TestPort ConsumerDone ProducerDone ConsumerBad ProducerId
    Consumer Producer cpc ppc cMessage pMessage position flag]; try done.
  - congruence.
  - rewrite ER. eapply side_calm; [|intros _; exact Hcm]. by eapply side_moves.
  - eapply side_woken; [exact H6|done|done|]. lia.
  - lia.
  - by replace (position (ppc a) - (position (cpc a) + 1)) with (position (ppc a) - position (cpc a) - 1) by lia.
  - intros _. by replace (position (cpc a) + 1 - 1) with (position (cpc a)) by lia.
  - apply Hbad.
  - apply Hbad.
  - by rewrite H13.
Qed.

(** What is left to do, in turns: two for a message, the second in case the
    task has to sleep for it, and three at the end. *)
Definition work (pc : Pc) : Z :=
  match pc with
  | PcLoop i => 2 * (IPC_TEST_MESSAGES - i) + 3
  | PcPark i _ _ => 2 * (IPC_TEST_MESSAGES - i) + 2
  | PcUnborn => 2 * IPC_TEST_MESSAGES + 3
  | PcLeave => 2 | PcReturn => 1 | PcGone => 0
  end.

Definition left (a : Rendezvous) : Z := work (cpc a) + work (ppc a).

(** As long as their descriptors are not used again, those who are gone are dead. *)
Definition grave (a : Rendezvous) (s : Sched) : Prop :=
  (cpc a = PcGone -> State (task s (Consumer a)) = TaskDead) /\
  (ppc a = PcGone -> State (task s (Producer a)) = TaskDead).

(** A turn of task [t]: it returns, the invariant holds again and less is left. *)
Definition turn_ok (idc idp : Z) (t : nat) (a : Rendezvous) (s : Sched) (r : option (Out * Rendezvous * Sched)) : Prop :=
  exists out a' s', r = Some (out, a', s') /\ exchange idc idp a' s' /\
    match out with Done => True | Switched fs => Forall (own_frame t) fs end /\
    (Consumer a' = Consumer a /\ Producer a' = Producer a) /\ left a' < left a /\ goes t s s' /\
    (ProducerId a' = ProducerId a /\ (ProducerId a = idp -> ConsumerBad a' = ConsumerBad a)) /\
    (t <> Consumer a -> cpc a' = cpc a) /\ (t <> Producer a -> ppc a' = ppc a) /\ (grave a s -> grave a' s').

Lemma grave_consumer a a' s s' :
  ppc a' = ppc a -> Consumer a' = Consumer a -> Producer a' = Producer a -> goes (Consumer a) s s' ->
  Consumer a <> Producer a -> (ppc a <> PcUnborn -> (Producer a < 32)%nat) ->
  (cpc a' = PcGone -> State (task s' (Consumer a)) = TaskDead) -> grave a s -> grave a' s'.
Proof.
  intros E0 E1 E2 G Hne Hp HC [_ HP]. unfold grave. rewrite E0, E1, E2. split; [done|]. intros Hg.
  by apply (kp_Dead _ _ _ (go_kept _ _ _ G _ (Hp ltac:(by rewrite Hg)) (not_eq_sym Hne))), HP.
Qed.

Lemma grave_producer a a' s s' :
  cpc a' = cpc a -> Consumer a' = Consumer a -> Producer a' = Producer a -> goes (Producer a) s s' ->
  Consumer a <> Producer a -> (cpc a <> PcUnborn -> (Consumer a < 32)%nat) ->
  (ppc a' = PcGone -> State (task s' (Producer a)) = TaskDead) -> grave a s -> grave a' s'.
Proof.
  intros E0 E1 E2 G Hne Hp HC [HP _]. unfold grave. rewrite E0, E1, E2. split; [|done]. intros Hg.
  by apply (kp_Dead _ _ _ (go_kept _ _ _ G _ (Hp ltac:(by rewrite Hg)) Hne)), HP.
Qed.

Lemma no_waiters w : wait_wf w -> entries w = [] -> WCount w = 0.
Proof. intros Hw E. pose proof (length_entries w Hw) as H. rewrite E in H. pose proof (w_count _ Hw). cbn in H. lia. Qed.

(** The last turns: behind the loop, and out of the task. *)
Lemma consumer_leaves idc idp a s :
  exchange idc idp a s -> CurrentTask s = Some (Consumer a) ->
  (cpc a = PcLoop IPC_TEST_MESSAGES -> exchange idc idp (set_cpc PcLeave a) s) /\
  (cpc a = PcLeave -> exchange idc idp (set_cpc PcReturn (set_ConsumerDone 1 a)) s).
Proof.
  intros H Hcur. pose proof H as [H1 H2 Hb H3 H4 H5 H6 H7 H8 H9 H10 HGot HB Hlate H13 H14 H15].
  split; intros E; rewrite E in *; (destruct (side_runs _ _ _ _ _ _ H5) as (Hr & _); [done..|]);
    (split; cbn; try done; [by intros _; apply H3|by eapply side_moves]).
Qed.

Lemma consumer_sleeps idc idp a s Q i was w' s' :
  exchange idc idp a s -> can_sleep (Consumer a) s Q -> position (cpc a) = i -> i < 40 ->
  flag (cpc a) = 0 -> here (cpc a) = true -> queued (TestPort a) = [] -> wait_wf w' ->
  entries w' = entries (Receivers (TestPort a)) ++ [idc] -> asleep (Consumer a) s s' Q ->
  exchange idc idp (set_cpc (PcPark i idc was) (set_TestPort (set_Receivers w' (TestPort a)) a)) s'.
Proof.
  intros H Hcs <- Hi Hf Hg Hq Hw' Ew Ha. pose proof H as [H1 H2 Hb H3 H4 H5 H6 H7 H8 H9 H10 HGot HB Hlate H13 H14 H15].
  pose proof (asleep_ok _ _ _ _ Hcs Ha) as Hok'.
  pose proof (H3 (here_born _ Hg)) as Hne.
  destruct (side_runs _ _ _ _ _ _ H5) as (Hr & _); [done|done|exact (cs_cur _ _ _ Hcs)|done|].
  split; cbn [set_cpc set_TestPort TestPort ConsumerDone ProducerDone ConsumerBad ProducerId
    Consumer Producer cpc ppc cMessage pMessage position flag]; try done.
  - rewrite (as_Locked _ _ _ _ Ha). done.
  - destruct H4. by split.
  - eapply side_asleep; [exact H5|done..| |done|done]. change (queued (set_Receivers w' (TestPort a)))
      with (queued (TestPort a)). rewrite Hq. tauto.
  - eapply side_calm; [exact H6|]. intros Hg'. apply (as_others _ _ _ _ Ha); [by apply H6, here_born|done].
  - congruence.
  - by intros ? ? ? [= <- _ _].
Qed.

(** A task that runs again and may go on leaves the park loop at once. *)
Lemma IpcReceive_resume_ready fuel Self was p s :
  Self ∉ entries (Receivers p) -> 0 < PCount p ->
  IpcReceive_resume (S fuel) Self was p s = IpcReceive_loop (S fuel) p (SchedUnlockIrq was (set_irq_on false s)).
Proof.
  intros Hn Hc. unfold IpcReceive_resume. rewrite IpcPark_resume_eq.
  change (get_wait (Parkable := Port_as_receiver) p) with (Receivers p).
  rewrite IpcWaitRemove_absent by done.
  change (set_wait (Parkable := Port_as_receiver) (Receivers p) p) with (set_Receivers (Receivers p) p).
  rewrite (IpcPark_loop_ready (Parkable0 := Port_as_receiver)) by by apply Z.ltb_lt.
  rewrite some_bind, decide_False by tauto. by destruct p.
Qed.

Lemma IpcSend_resume_ready fuel Self was p m s :
  Self ∉ entries (Senders p) -> PCount p < 16 ->
  IpcSend_resume (S fuel) Self was p m s = IpcSend_loop (S fuel) p m (SchedUnlockIrq was (set_irq_on false s)).
Proof.
  intros Hn Hc. unfold IpcSend_resume. rewrite IpcPark_resume_eq.
  change (get_wait (Parkable := Port_as_sender) p) with (Senders p).
  rewrite IpcWaitRemove_absent by done.
  change (set_wait (Parkable := Port_as_sender) (Senders p) p) with (set_Senders (Senders p) p).
  rewrite (IpcPark_loop_ready (Parkable0 := Port_as_sender)) by by apply Z.ltb_lt.
  rewrite some_bind, decide_False by tauto. by destruct p.
Qed.

(** SchedExit by one of the two: it dies, the other is left alone. *)
Lemma side_exits s t id pc w (can can' : Prop) :
  side s t id pc w can -> sched_ok s -> SchedulerLocked s = 0 -> CurrentTask s = Some t -> here pc = true ->
  exists s' fs, SchedExit s = Some (Switched fs, s') /\ Forall (own_frame t) fs /\ sched_ok s' /\
    SchedulerLocked s' = 0 /\ side s' t id PcGone w can' /\ State (task s' t) = TaskDead /\ goes t s s' /\
    forall i, (i < 32)%nat -> i <> t -> calm i s s'.
Proof.
  intros H Hok Hl Hcur Hg. destruct (side_runs _ _ _ _ _ _ H) as (Hr & _ & Q & Hcs & HI); [done..|].
  destruct (SchedExit_goes t s Q) as (s' & fs & E & Hf & Hok' & Hl' & Hd & G & Hcm); [apply Hcs|done|apply Hcs|done|].
  exists s', fs. split; [done|]. split; [done|]. split; [done|]. split; [done|]. split; [by eapply side_dies; [..|by apply here_born]|done].
Qed.

(** What a branch of the consumer's turn has to show. *)
Lemma consumer_done idc idp a s out a' s' r :
  exchange idc idp a s -> here (cpc a) = true -> r = Some (out, a', s') -> exchange idc idp a' s' ->
  match out with Done => True | Switched fs => Forall (own_frame (Consumer a)) fs end ->
  Consumer a' = Consumer a /\ Producer a' = Producer a ->
  ProducerId a' = ProducerId a /\ (ProducerId a = idp -> ConsumerBad a' = ConsumerBad a) ->
  ppc a' = ppc a -> work (cpc a') < work (cpc a) ->
  goes (Consumer a) s s' -> (cpc a' = PcGone -> State (task s' (Consumer a)) = TaskDead) ->
  turn_ok idc idp (Consumer a) a s r.
Proof.
  intros H Hg -> H' Hf [E1 E2] HI E3 Hl G HC. exists out, a', s'. do 4 (split; [done|]). unfold left. rewrite E3.
  split; [lia|]. do 2 (split; [done|]). split; [by intros []|]. split; [done|].
  apply (grave_consumer a); try done; [by apply H, here_born|apply H].
Qed.

Lemma consumer_turn idc idp fuel a s :
  exchange idc idp a s -> CurrentTask s = Some (Consumer a) -> here (cpc a) = true ->
  turn_ok idc idp (Consumer a) a s (ipc_consumer_task (S fuel) a s).
Proof.
  intros H Hcur Hg. pose proof (ex_c _ _ _ _ H) as Hc. pose proof (ex_count _ _ _ _ H) as Hpos.
  pose proof (ex_port _ _ _ _ H) as Hw. pose proof (sd_lt _ _ _ _ _ _ Hc (here_born _ Hg)) as H32.
  destruct (side_runs _ _ _ _ _ _ Hc) as (Hr & He & Q & Hcs & HI); [apply H|apply H|done|done|].
  unfold ipc_consumer_task. destruct (cpc a) as [|i|i Self was| | |] eqn:Ec; [done|..|done].
  - destruct (Z.ltb_spec i IPC_TEST_MESSAGES) as [Hi|Hi].
    + destruct (IpcReceive_spec fuel (Consumer a) (TestPort a) s Q) as
        [(m & p' & s' & -> & Hp)|[(_ & Hf & _)|(Hq & w' & s' & -> & Hw' & Ew & Ha)]]; [done..|by rewrite He; set_solver| | |].
      * rewrite !some_bind.
        destruct (consumer_gets idc idp a s i (IpcSelfId s) m p' s') as (a' & -> & Hx & E1 & E2 & E3 & ? & G & HI');
          [done|done|by rewrite Ec|by rewrite Ec|done|].
        eapply consumer_done; try done; [by rewrite Ec|rewrite E1, Ec; cbn; lia|by rewrite E1].
      * rewrite no_waiters in Hf; [done|apply Hw|done].
      * rewrite !some_bind. cbn [consumer_received]. rewrite (can_sleep_self _ _ _ Hcs), HI.
        eapply consumer_done; [done|by rewrite Ec|done| |by repeat constructor|done|done|done|cbn; rewrite Ec; cbn; lia|by eapply asleep_goes|done].
        eapply consumer_sleeps; try done; [by rewrite Ec..|by rewrite <- HI].
    + cbn in Hpos. assert (i = IPC_TEST_MESSAGES) as -> by (unfold IPC_TEST_MESSAGES in *; lia).
      eapply consumer_done; try done; [by rewrite Ec|by apply (consumer_leaves _ _ _ _ H)|cbn; rewrite Ec; cbn; lia].
  - destruct (sd_awake _ _ _ _ _ _ Hc) with (i := i) (self := Self) (was := was) as [-> Hq]; [by rewrite Hr|done|].
    pose proof (length_queued _ Hw). rewrite IpcReceive_resume_ready
      by (rewrite ?He; set_solver || (destruct (queued (TestPort a)); [done|cbn in *; lia])).
    set (s1 := SchedUnlockIrq was (set_irq_on false s)).
    pose proof (exchange_irq _ _ _ _ was false H) as H1. fold s1 in H1.
    destruct (IpcReceive_loop_some fuel (TestPort a) s1) as (m & p' & s' & -> & Hp); [done|apply H1|done|].
    rewrite some_bind.
    destruct (consumer_gets idc idp a s1 i idc m p' s') as (a' & -> & Hx & E1 & E2 & E3 & ? & G & HI');
      [done|by unfold s1; destruct was|by rewrite Ec|by rewrite Ec|done|].
    eapply consumer_done; try done; [by rewrite Ec|rewrite E1, Ec; cbn; lia|etrans; [apply irq_goes|exact G]|by rewrite E1].
  - eapply consumer_done; try done; [by rewrite Ec|by apply (consumer_leaves _ _ _ _ H)|cbn; rewrite Ec; cbn; lia].
  - destruct (side_exits _ _ _ _ _ _ (queued (TestPort a) <> []) Hc) as (s' & fs & -> & Hf & Hok' & Hl' & Hd & Hdd & G & Hcm);
      [apply H|apply H|done|done|].
    rewrite some_bind. eapply consumer_done; try done; [by rewrite Ec| |cbn; rewrite Ec; cbn; lia].
    destruct H as [H1 H2 Hb H3 H4 H5 H6 H7 H8 H9 H10 HGot HB Hlate H13 H14 H15]. rewrite Ec in *.
    pose proof (H3 ltac:(done)) as Hne.
    split; cbn; try done. eapply side_calm; [exact H6|]. intros Hg'. apply Hcm; [by apply H6, here_born|done].
Qed.

(** ** Turns of the producer *)

(** The producer is created after the consumer. *)
Lemma producer_here idc idp a s :
  exchange idc idp a s -> here (ppc a) = true ->
  cpc a <> PcUnborn /\ Consumer a <> Producer a /\ (Producer a < 32)%nat.
Proof.
  intros H Hg. assert (Hb : cpc a <> PcUnborn) by (intros E; by apply (here_born _ Hg), H).
  split; [done|]. split; [by apply H|by apply H, here_born].
Qed.

Definition fill_message (i : Z) (a : Rendezvous) : IpcMessage :=
  mkMsg 1 (Sender (pMessage a)) (<[0%nat := i]> (Data (pMessage a))).

Lemma producer_fills idc idp a s i :
  exchange idc idp a s -> ppc a = PcLoop i ->
  exchange idc idp (set_pMessage (fill_message i a) a) s /\ Data (fill_message i a) !! 0%nat = Some i.
Proof.
  intros [H1 H2 Hb H3 H4 H5 H6 H7 H8 H9 H10 HGot HB Hlate H13 H14 H15] E. split.
  - split; cbn; try done; [by rewrite length_insert|]. intros ? ? ?. by rewrite E.
  - cbn. apply list_lookup_insert_eq. lia.
Qed.

Lemma producer_puts idc idp a s i Self p' s' :
  exchange idc idp a s -> CurrentTask s = Some (Producer a) -> here (ppc a) = true -> position (ppc a) = i ->
  i < 40 -> Length (pMessage a) = 1 -> Data (pMessage a) !! 0%nat = Some i ->
  pushed (pMessage a) (TestPort a) s p' s' ->
  exists a', producer_sent i Self (CRet IpcOk) (set_TestPort p' a) = (Done, a') /\
    exchange idc idp a' s' /\ ppc a' = PcLoop (i + 1) /\ cpc a' = cpc a /\
    (Consumer a' = Consumer a /\ Producer a' = Producer a) /\ goes (Producer a) s s' /\
    ProducerId a' = ProducerId a /\ ConsumerBad a' = ConsumerBad a.
Proof.
  intros H Hcur Hg <- Hi HL HD (Hw' & Hok' & _ & Eq & ES & Hwk).
  pose proof H as [H1 H2 Hb H3 H4 H5 H6 [H7 H7'] H8 H9 H10 HGot HB Hlate H13 H14 H15].
  destruct (producer_here _ _ _ _ H Hg) as (Hbo & Hne & H32).
  destruct (side_runs _ _ _ _ _ _ H6) as (Hr & _ & Q & Hcs & HI); [done..|].
  destruct (side_wakes_calm _ _ _ _ _ _ _ _ (Producer a) H5 H1 Hwk) as [Hcm Hl]; [done|].
  unfold producer_sent. rewrite decide_False by tauto. unwrap.
  eexists. split; [done|]. split; [|do 3 (split; [done|]); split; [by eapply wakes_first_goes; [| |exact Hwk]|done]].
  assert (Hf : flag (ppc a) = 0).
  { clear - Hi. destruct (ppc a); cbn [position flag] in *; unfold IPC_TEST_MESSAGES in *; done || lia. }
  split; cbn [set_ppc set_TestPort TestPort ConsumerDone ProducerDone ConsumerBad ProducerId
    Consumer Producer cpc ppc cMessage pMessage position flag]; try done.
  - congruence.
  - eapply side_woken; [exact H5|done|done|]. rewrite Eq. by destruct (queued (TestPort a)).
  - rewrite ES. eapply side_calm; [|intros _; exact Hcm]. by eapply side_moves.
  - lia.
  - replace (position (ppc a) + 1 - position (cpc a)) with (position (ppc a) - position (cpc a) + 1) by lia.
    rewrite Eq. apply Forall2_seqZ_snoc; [lia|done|].
    replace (position (cpc a) + (position (ppc a) - position (cpc a))) with (position (ppc a)) by lia.
    split; [done|]. split; [done|]. cbn. by rewrite (can_sleep_self _ _ _ Hcs).
  - by rewrite H14.
Qed.

Lemma producer_leaves idc idp a s :
  exchange idc idp a s -> CurrentTask s = Some (Producer a) ->
  (ppc a = PcLoop IPC_TEST_MESSAGES -> exchange idc idp (set_ppc PcLeave a) s) /\
  (ppc a = PcLeave -> exchange idc idp (set_ppc PcReturn (set_ProducerDone 1 a)) s).
Proof.
  intros H Hcur. pose proof H as [H1 H2 Hb H3 H4 H5 H6 H7 H8 H9 H10 HGot HB Hlate H13 H14 H15].
  split; intros E; rewrite E in *; (destruct (side_runs _ _ _ _ _ _ H6) as (Hr & _); [done..|]);
    (split; cbn; try done; [by intros Hn; apply Hb in Hn|by eapply side_moves]).
Qed.

Lemma producer_sleeps idc idp a s Q i was w' s' :
  exchange idc idp a s -> can_sleep (Producer a) s Q -> position (ppc a) = i -> flag (ppc a) = 0 ->
  here (ppc a) = true -> i < 40 -> Length (pMessage a) = 1 -> Data (pMessage a) !! 0%nat = Some i ->
  length (queued (TestPort a)) = 16%nat -> wait_wf w' ->
  entries w' = entries (Senders (TestPort a)) ++ [idp] -> asleep (Producer a) s s' Q ->
  exchange idc idp (set_ppc (PcPark i idp was) (set_TestPort (set_Senders w' (TestPort a)) a)) s'.
Proof.
  intros H Hcs <- Hf Hg Hi HL HD Hq Hw' Ew Ha. pose proof H as [H1 H2 Hb H3 H4 H5 H6 H7 H8 H9 H10 HGot HB Hlate H13 H14 H15].
  pose proof (asleep_ok _ _ _ _ Hcs Ha) as Hok'.
  destruct (producer_here _ _ _ _ H Hg) as (Hbo & Hne & H32).
  destruct (side_runs _ _ _ _ _ _ H6) as (Hr & _); [done|done|exact (cs_cur _ _ _ Hcs)|done|].
  split; cbn [set_ppc set_TestPort TestPort ConsumerDone ProducerDone ConsumerBad ProducerId
    Consumer Producer cpc ppc cMessage pMessage position flag]; try done.
  - rewrite (as_Locked _ _ _ _ Ha). done.
  - destruct H4. by split.
  - eapply side_calm; [exact H5|]. intros Hg'. apply (as_others _ _ _ _ Ha); [by apply H5, here_born|done].
  - eapply side_asleep; [exact H6|done..| |done|done]. change (queued (set_Senders w' (TestPort a)))
      with (queued (TestPort a)). lia.
  - by intros ? ? ? [= <- _ _].
  - congruence.
Qed.

Lemma producer_done idc idp a s out a' s' r :
  exchange idc idp a s -> Consumer a <> Producer a -> r = Some (out, a', s') -> exchange idc idp a' s' ->
  match out with Done => True | Switched fs => Forall (own_frame (Producer a)) fs end ->
  Consumer a' = Consumer a /\ Producer a' = Producer a ->
  ProducerId a' = ProducerId a /\ (ProducerId a = idp -> ConsumerBad a' = ConsumerBad a) ->
  cpc a' = cpc a -> work (ppc a') < work (ppc a) ->
  goes (Producer a) s s' -> (ppc a' = PcGone -> State (task s' (Producer a)) = TaskDead) ->
  turn_ok idc idp (Producer a) a s r.
Proof.
  intros H Hne -> H' Hf [E1 E2] HI E3 Hl G HC. exists out, a', s'. do 4 (split; [done|]). unfold left. rewrite E3.
  split; [lia|]. do 3 (split; [done|]). split; [by intros []|]. apply (grave_producer a); try done; apply H.
Qed.

Lemma producer_turn idc idp fuel a s :
  exchange idc idp a s -> CurrentTask s = Some (Producer a) -> here (ppc a) = true ->
  turn_ok idc idp (Producer a) a s (ipc_producer_task (S fuel) a s).
Proof.
  intros H Hcur Hg. pose proof (ex_p _ _ _ _ H) as Hp. pose proof (ex_count _ _ _ _ H) as Hpos.
  pose proof (ex_port _ _ _ _ H) as Hw. destruct (producer_here _ _ _ _ H Hg) as (Hbo & Hne & H32).
  destruct (side_runs _ _ _ _ _ _ Hp) as (Hr & He & Q & Hcs & HI); [apply H|apply H|done|done|].
  unfold ipc_producer_task. destruct (ppc a) as [|i|i Self was| | |] eqn:Ec; [done|..|done].
  - destruct (Z.ltb_spec i IPC_TEST_MESSAGES) as [Hi|Hi].
    + destruct (producer_fills _ _ _ _ _ H Ec) as [H1 HD]. fold (fill_message i a).
      set (a1 := set_pMessage (fill_message i a) a) in *. cbv zeta.
      destruct (IpcSend_spec fuel (Producer a) (TestPort a1) (fill_message i a) s Q) as
        [(_ & p' & s' & -> & Hpu)|[(_ & Hf & _)|(Hq & w' & s' & -> & Hw' & Ew & Ha)]];
        [done|done|cbn; lia|by cbn; rewrite He; set_solver| | |].
      * rewrite !some_bind.
        destruct (producer_puts idc idp a1 s i (IpcSelfId s) p' s') as (a' & -> & Hx & E1 & E2 & E3 & G & HI');
          [done|done|by cbn; rewrite Ec|by cbn; rewrite Ec|done..|].
        eapply producer_done; try done; [by split; [|intros _]; apply HI'|rewrite E1, Ec; cbn; lia|by rewrite E1].
      * rewrite no_waiters in Hf; [done|apply Hw|done].
      * rewrite !some_bind. cbn [producer_sent]. rewrite (can_sleep_self _ _ _ Hcs), HI.
        eapply producer_done; [done|done|done| |by repeat constructor|done|done|done|cbn; rewrite Ec; cbn; lia|by eapply asleep_goes|done].
        eapply (producer_sleeps idc idp a1); try done; [by cbn; rewrite Ec..|by rewrite <- HI].
    + cbn in Hpos. assert (i = IPC_TEST_MESSAGES) as -> by (unfold IPC_TEST_MESSAGES in *; lia).
      eapply producer_done; try done; [by apply (producer_leaves _ _ _ _ H)|cbn; rewrite Ec; cbn; lia].
  - destruct (sd_awake _ _ _ _ _ _ Hp) with (i := i) (self := Self) (was := was) as [-> Hq]; [by rewrite Hr|done|].
    pose proof (length_queued _ Hw). rewrite IpcSend_resume_ready by (rewrite ?He; set_solver || lia).
    set (s1 := SchedUnlockIrq was (set_irq_on false s)).
    pose proof (exchange_irq _ _ _ _ was false H) as H1. fold s1 in H1.
    destruct (ex_msg _ _ _ _ H i idp was Ec) as (HL & HD & Hi).
    destruct (IpcSend_loop_room fuel (TestPort a) (pMessage a) s1) as (p' & s' & -> & Hpu);
      [done|apply H1|lia|done|]. rewrite some_bind.
    destruct (producer_puts idc idp a s1 i idp p' s') as (a' & -> & Hx & E1 & E2 & E3 & G & HI');
      [done|by unfold s1; destruct was|by rewrite Ec|by rewrite Ec|done..|].
    eapply producer_done; try done; [by split; [|intros _]; apply HI'|rewrite E1, Ec; cbn; lia|etrans; [apply irq_goes|exact G]|by rewrite E1].
  - eapply producer_done; try done; [by apply (producer_leaves _ _ _ _ H)|cbn; rewrite Ec; cbn; lia].
  - destruct (side_exits _ _ _ _ _ _ (length (queued (TestPort a)) < 16)%nat Hp) as (s' & fs & -> & Hf & Hok' & Hl' & Hd & Hdd & G & Hcm);
      [apply H|apply H|done|done|].
    rewrite some_bind. eapply producer_done; try done; [|cbn; rewrite Ec; cbn; lia].
    destruct H as [H1 H2 Hb H3 H4 H5 H6 H7 H8 H9 H10 HGot HB Hlate H13 H14 H15]. rewrite Ec in *.
    split; cbn; try done. eapply side_calm; [exact H5|]. intros Hg'. apply Hcm; [by apply H5, here_born|done].
Qed.
