(* ===== verification/IpcSelfTestsTheorems.v ===== *)
(** * What the IPC self tests show

    The rendezvous of main.c under every interleaving with the timer interrupt,
    its set-up by the idle task included: the messages arrive in order, which of
    them the consumer counts as bad, it never deadlocks, and it ends. *)

From stdpp Require Import strings.
From S2P Require Import Prelude Sched SchedQueues SchedInv SchedOps SchedMachine TaskMachine Ipc Sync Message TaskFrame Strings Console Stdio KernelMain KernelMainTheorems IpcSelfTests IpcRendezvous.

(** ** The set-up *)

(** What ipc_test_tasks finds: room for two tasks, descriptors as SchedInit and
    SchedExit leave the dead ones, a port that was never claimed. *)
Record test_ready (port : IpcPort) (pM : IpcMessage) (s : Sched) : Prop := {
  tr_ok : sched_ok s;
  tr_free : SchedulerLocked s = 0;
  tr_room : TaskCountValue s <= 30;
  tr_ids : NextTaskId s + 2 < 4294967296;
  tr_dead : forall i, (i < 32)%nat -> State (task s i) = TaskDead -> WakeTick (task s i) = 0;
  tr_port : Magic port <> PORT_MAGIC /\ length (Slots port) = 16%nat;
  tr_data : length (Data pM) = 8%nat }.

Lemma create_ready stub nm eip esp s :
  sched_ok s -> TaskCountValue s < 32 -> NextTaskId s + 1 < 4294967296 ->
  exists t s', SchedCreate stub (Some nm) eip esp s = Some (Some t, s') /\ created eip esp t s s' /\
    sched_ok s' /\ (t < 32)%nat /\ State (task s t) = TaskDead /\ 0 < NextTaskId s.
Proof.
  intros (Q & Hinv & c & Hc & Hr) Hn Hi. pose proof (g_next _ _ (proj2 Hinv)).
  destruct (SchedCreate_spec stub nm eip esp s Q Hinv Hn Hi) as (t & s' & E & _ & Ht & _ & Hd & Hinv' & Hcr & _).
  exists t, s'. split; [done|]. split; [done|]. split; [|split; [done|split; [done|lia]]].
  eexists. split; [done|]. exists c. rewrite (cr_Current _ _ _ _ _ Hcr). split; [done|].
  rewrite <- Hr. refine (f_equal State (cr_other _ _ _ _ _ Hcr c _ : erase _ = erase _)). congruence.
Qed.

Lemma dead_nonzero s t : sched_ok s -> State (task s t) = TaskDead -> t <> 0%nat.
Proof. intros (Q & [_ G] & _) Hd ->. destruct (g_idle _ _ G); congruence. Qed.

Lemma created_side eip esp t s s' id w can :
  created eip esp t s s' -> (t < 32)%nat -> WakeTick (task s t) = 0 -> id = NextTaskId s -> 0 < id ->
  entries w = [] -> side s' t id (PcLoop 0) w can.
Proof.
  intros [H1 _ _ _ H5 H6 _ _ _ _ _ _] Ht Hw -> Hp He.
  split; rewrite ?H5, ?He; try done; [lia|]. intros _. split; [done|]. by rewrite H6.
Qed.

Lemma created_calm eip esp t s s' i : created eip esp t s s' -> i <> t -> calm i s s'.
Proof.
  intros C Hi. pose proof (cr_other _ _ _ _ _ C i Hi) as E.
  apply calm_same; [exact (f_equal State E)|exact (f_equal Id E)|exact (f_equal WakeTick E)].
Qed.

Lemma rendezvous_start_ok idc idp cM pM port c s :
  sched_ok s -> SchedulerLocked s = 0 -> idc <> 0 -> idp <> 0 ->
  Magic port <> PORT_MAGIC -> length (Slots port) = 16%nat -> length (Data pM) = 8%nat ->
  exists a, rendezvous_start cM pM port c = Some (Some a, c) /\ exchange idc idp a s /\
    cpc a = PcUnborn /\ ppc a = PcUnborn /\ ProducerId a = 0 /\ Consumer a = no_task /\ Producer a = no_task.
Proof.
  intros Hok Hl Hc Hp Hm Hs HD. unfold rendezvous_start.
  destruct (IpcPortCreate_spec port Hm Hs) as (p & -> & Hw & Hq & Hw1 & Hw2).
  eexists. split; [reflexivity|]. split; [|done]. split; cbn; try done; [..|by rewrite Hq; constructor];
    (split; try done; cbn; by rewrite ?Hw1, ?Hw2, decide_False by (by intros [])).
Qed.

(** The consumer is there. *)
Lemma consumer_born_ok idc idp eip esp t a s s' :
  exchange idc idp a s -> cpc a = PcUnborn -> NextTaskId s = idc -> created eip esp t s s' -> sched_ok s' ->
  (t < 32)%nat -> WakeTick (task s t) = 0 -> 0 < idc -> exchange idc idp (consumer_born (Some t) a) s'.
Proof.
  intros [H1 H2 Hb H3 H4 H5 H6 H7 H8 H9 H10 HGot HB Hlate H13 H14 H15] E En C Hok Ht Hw Hp.
  rewrite E in *. pose proof (Hb eq_refl) as Eb. pose proof (sd_none _ _ _ _ _ _ H6 Eb) as Ep.
  split; cbn; try done.
  - by rewrite (cr_Locked _ _ _ _ _ C).
  - intros _. rewrite Ep. unfold no_task. lia.
  - eapply created_side; try done. rewrite (sd_wait _ _ _ _ _ _ H5), decide_False; [done|by intros []].
  - eapply side_calm; [done|]. by rewrite Eb.
Qed.

(** Then the producer is. *)
Lemma producer_born_ok idc idp eip esp t a s s' :
  exchange idc idp a s -> cpc a <> PcUnborn -> ppc a = PcUnborn -> NextTaskId s = idp -> created eip esp t s s' ->
  sched_ok s' -> (t < 32)%nat -> State (task s t) = TaskDead -> WakeTick (task s t) = 0 -> 0 < idp ->
  exchange idc idp (producer_born (Some t) a) s'.
Proof.
  intros [H1 H2 Hb H3 H4 H5 H6 H7 H8 H9 H10 HGot HB Hlate H13 H14 H15] Hc E En C Hok Ht Hd Hw Hp.
  rewrite E in *. assert (Hh : here (cpc a) = true).
  { destruct (cpc a); try done. cbn in H7. unfold IPC_TEST_MESSAGES in H7. lia. }
  assert (Hne : Consumer a <> t) by (intros <-; by apply (sd_alive _ _ _ _ _ _ H5 Hh)).
  split; cbn; try done.
  - by rewrite (cr_Locked _ _ _ _ _ C).
  - eapply side_calm; [done|]. intros _. by eapply created_calm.
  - eapply created_side; try done. rewrite (sd_wait _ _ _ _ _ _ H6), decide_False; [done|by intros []].
Qed.

(** An id is stored. *)
Lemma exchange_ProducerId idc idp v a s :
  exchange idc idp a s -> ProducerId a <> idp -> exchange idc idp (set_ProducerId v a) s.
Proof. intros [] Hv. split; cbn; try done. by auto. Qed.

(** A task that runs was created, and stays so. *)
Lemma unborn_iff idc idp a s :
  exchange idc idp a s -> (cpc a = PcUnborn <-> Consumer a = no_task) /\ (ppc a = PcUnborn <-> Producer a = no_task).
Proof.
  intros H. split; (split; [by apply H|]).
  - intros E. destruct (decide (cpc a = PcUnborn)) as [|Hn]; [done|].
    pose proof (sd_lt _ _ _ _ _ _ (ex_c _ _ _ _ H) Hn). unfold no_task in E. lia.
  - intros E. destruct (decide (ppc a = PcUnborn)) as [|Hn]; [done|].
    pose proof (sd_lt _ _ _ _ _ _ (ex_p _ _ _ _ H) Hn). unfold no_task in E. lia.
Qed.

(** ** Worlds *)

(** The two tasks of the test. *)
Definition both (a : Rendezvous) : list nat := [Consumer a; Producer a].

(** Room for more tasks, in descriptors without a deadline. *)
Definition room (n : Z) (s : Sched) : Prop :=
  TaskCountValue s <= n /\ forall i, (i < 32)%nat -> State (task s i) = TaskDead -> WakeTick (task s i) = 0.

Lemma room_kept n s s' :
  sched_ok s -> sched_ok s' -> (forall i, (i < 32)%nat -> State (task s i) = TaskDead -> State (task s' i) = TaskDead) ->
  (forall i, (i < 32)%nat -> State (task s' i) = TaskDead -> WakeTick (task s' i) = 0) -> room n s -> room n s'.
Proof.
  intros (Q & [_ G] & _) (Q' & [_ G'] & _) Hd Hw [Hn _]. split; [|done].
  rewrite (g_count _ _ G) in Hn. rewrite (g_count _ _ G'). etrans; [|exact Hn]. unfold live_count, count.
  apply inj_le, submseteq_length, NoDup_submseteq; [apply NoDup_filter, NoDup_seq|].
  intros i [Ha%bool_decide_eq_true Hi]%list_elem_of_filter. apply list_elem_of_filter. split; [|done].
  apply bool_decide_eq_true. intros Hx. apply Ha, Hd; [|done]. apply elem_of_seq in Hi. lia.
Qed.

Lemma room_created n eip esp t s s' : room n s -> created eip esp t s s' -> room (n + 1) s'.
Proof.
  intros [Hn Hw] C. split; [rewrite (cr_Count _ _ _ _ _ C); lia|]. intros i Hi Hd.
  destruct (decide (i = t)) as [->|Hne]; [rewrite (cr_State _ _ _ _ _ C) in Hd; done|].
  destruct (created_calm _ _ _ _ _ _ C Hne) as [_ C2 _ C4]. apply C4, Hw; [done|]. by apply C2.
Qed.

(** Where the idle task stands in the set-up, and what it can rely on there. *)
Definition prepared (idc idp : Z) (p : SetUp) (a : Rendezvous) (s : Sched) : Prop :=
  (p <> SuDone -> ProducerId a = 0) /\
  match p with
  | SuConsumer => cpc a = PcUnborn /\ NextTaskId s = idc /\ idp = idc + 1 /\ idp + 1 < 4294967296 /\ room 30 s
  | SuProducer => cpc a <> PcUnborn /\ ppc a = PcUnborn /\ NextTaskId s = idp /\ idp + 1 < 4294967296 /\ room 31 s
  | SuLoad => ppc a <> PcUnborn
  | SuStore v => ppc a <> PcUnborn /\ (v = idp \/ ppc a = PcGone)
  | SuDone => ppc a <> PcUnborn /\ (ProducerId a = idp \/ ppc a = PcGone)
  | SuFailed => False
  end.

Lemma prepared_kept idc idp p a a' s s' :
  prepared idc idp p a s -> ProducerId a' = ProducerId a -> NextTaskId s' = NextTaskId s ->
  (cpc a' = PcUnborn <-> cpc a = PcUnborn) -> (ppc a' = PcUnborn <-> ppc a = PcUnborn) ->
  (ppc a = PcGone -> ppc a' = PcGone) -> (forall n, room n s -> room n s') -> prepared idc idp p a' s'.
Proof.
  intros [H0 H] E1 E2 E3 E4 E5 E6. unfold prepared. rewrite E1, E2. split; [done|].
  destruct p; naive_solver.
Qed.

(** What holds of the test between two turns; of the descriptors of the two
    tasks no other task makes use here. With [b], the producer's id is stored
    and so many messages were bad. *)
Definition arranged (idc idp : Z) (b : option Z) (x : SetUp * Rendezvous) (s : Sched) : Prop :=
  let (p, a) := x in
  exchange idc idp a s /\ grave a s /\ prepared idc idp p a s /\ (Consumer a <> 0%nat /\ Producer a <> 0%nat) /\
  match b with Some n => ProducerId a = idp /\ ConsumerBad a = n | None => True end.

Lemma arranged_calm idc idp b x s s' :
  arranged idc idp b x s -> sched_ok s' -> SchedulerLocked s' = SchedulerLocked s -> NextTaskId s' = NextTaskId s ->
  (forall i, (i < 32)%nat -> State (task s' i) = TaskDead <-> State (task s i) = TaskDead) ->
  (forall i, (i < 32)%nat -> untimed i s -> calm i s s') -> arranged idc idp b x s'.
Proof.
  destruct x as [p a]. intros (H & [G1 G2] & HP & H0 & Hb) Hok Hl HN HD Hc.
  assert (Hdead : forall i, (i < 32)%nat -> State (task s i) = TaskDead -> calm i s s').
  { intros i Hi Hd. apply Hc; [done|]. intros E. congruence. }
  split; [by eapply exchange_untimed|]. split; [|split; [|done]].
  - split; intros E; (apply HD; [|by auto]); apply H; by rewrite E.
  - eapply prepared_kept; [exact HP|done..|]. intros n Hr. apply (room_kept n s); try done; [apply H|by apply HD|].
    intros i Hi Hd. apply HD in Hd; [|done]. apply (Hdead i Hi Hd), Hr; done.
Qed.

Section Worlds.
Context (stub ce cs pe ps : Z) (fuel : nat) (idc idp : Z) (b : option Z).

(** A step of the set-up. *)
Lemma setup_ok p a s :
  arranged idc idp b (p, a) s -> CurrentTask s = Some 0%nat ->
  exists p' a' s', rendezvous_setup stub ce cs pe ps p a s = Some (p', a', s') /\
    arranged idc idp b (p', a') s' /\ left a' = left a.
Proof.
  intros (H & HG & [HZ HP] & [N1 N2] & Hb) Ht. pose proof (sd_id _ _ _ _ _ _ (ex_p _ _ _ _ H)) as Hid.
  destruct p as [| | |v| |]; cbn [rendezvous_setup]; cbv zeta; [..|done].
  - destruct HP as (E & <- & -> & Hi & Hr).
    destruct (create_ready stub (text "Consumer") ce cs s) as (t & s1 & -> & C & Hok & Ht' & Hd & Hp);
      [apply H|destruct Hr; lia|lia|].
    rewrite some_bind. exists SuProducer, (consumer_born (Some t) a), s1. split; [done|]. pose proof (ex_born _ _ _ _ H E) as Eb.
    split; [|unfold left; cbn; by rewrite E]. split; [eapply consumer_born_ok; try done; by apply Hr|].
    split; [split; cbn; [done|by rewrite Eb]|]. split; [|split; [|done]].
    + split; [intros _; by apply HZ|]. cbn. rewrite (cr_Next _ _ _ _ _ C). do 4 (split; [done|]). by apply (room_created 30 _ _ _ _ _ Hr C).
    + split; [|done]. cbn. by eapply dead_nonzero; [apply H|].
  - destruct HP as (Ec & E & <- & Hi & Hr).
    destruct (create_ready stub (text "Producer") pe ps s) as (t & s1 & -> & C & Hok & Ht' & Hd & Hp);
      [apply H|destruct Hr; lia|lia|].
    rewrite some_bind. exists SuLoad, (producer_born (Some t) a), s1. split; [done|].
    assert (Hx : exchange idc (NextTaskId s) (producer_born (Some t) a) s1) by (eapply producer_born_ok; try done; by apply Hr).
    split; [|unfold left; cbn; by rewrite E]. split; [done|].
    split; [|split; [by split; [intros _; apply HZ|]|split; [|done]]].
    + split; cbn; [|done]. intros Eg. pose proof (ex_count _ _ _ _ H) as Hc. rewrite Eg, E in Hc. cbn in Hc.
      unfold IPC_TEST_MESSAGES in Hc. lia.
    + split; [done|]. cbn. by eapply dead_nonzero; [apply H|].
  - destruct (unborn_iff _ _ _ _ H) as [Uc Up].
    rewrite decide_False by (rewrite <- Uc, <- Up; intros [E|E]; [apply HP, (ex_born _ _ _ _ H E)|done]).
    eexists _, a, s. split; [done|]. split; [|done]. do 2 (split; [done|]). split; [|done]. split; [by auto|]. split; [done|].
    destruct (decide (ppc a = PcGone)) as [|Hg]; [by right|left].
    apply (sd_alive _ _ _ _ _ _ (ex_p _ _ _ _ H)). by destruct (ppc a).
  - destruct HP as [Hb' Hv]. pose proof (HZ ltac:(done)) as Z0. exists SuDone, (set_ProducerId v a), s. split; [done|]. split; [|done].
    split; [by apply exchange_ProducerId; [|congruence]|]. split; [done|]. split; [by split; [|split]|]. split; [done|].
    destruct b; [|done]. destruct Hb. congruence.
  - exists SuDone, a, s. done.
Qed.

(** A turn of one of the two. *)
Lemma turn_arranged t p a s r :
  arranged idc idp b (p, a) s -> CurrentTask s = Some t ->
  (t = Consumer a /\ here (cpc a) = true \/ t = Producer a /\ here (ppc a) = true) -> turn_ok idc idp t a s r ->
  exists out a' s', r = Some (out, a', s') /\ arranged idc idp b (p, a') s' /\
    match out with Done => True | Switched fs => Forall (own_frame t) fs end /\ left a' + 1 <= left a /\ both a' = both a.
Proof.
  intros (H & HG & HP & H0 & Hb) Ht Hh (out & a' & s' & -> & Hx & Hf & [E1 E2] & Hl & G & [I1 I2] & P1 & P2 & HG').
  exists out, a', s'. split; [done|]. split; [|unfold both; rewrite E1, E2; split; [done|split; [lia|done]]].
  pose proof (ex_ok _ _ _ _ H) as Hok. destruct Hok as (Q & Hinv & _).
  destruct (g_cur _ _ (proj2 Hinv) t Ht) as [H32 Hd]. destruct (unborn_iff _ _ _ _ H) as [U1 U2], (unborn_iff _ _ _ _ Hx) as [U3 U4].
  split; [done|]. split; [by apply HG'|]. split; [|rewrite E1, E2; split; [done|destruct b; [|done]]].
  2: { destruct Hb as [Hb1 Hb2]. by rewrite I1, I2. }
  eapply prepared_kept; [exact HP|done|apply G|by rewrite U1, U3, E1|by rewrite U2, U4, E2|..].
  - intros Eg. destruct (decide (t = Producer a)) as [->|Hne]; [|by rewrite P2]. exfalso.
    destruct Hh as [[Et _]|[_ Hh]]; [|by rewrite Eg in Hh]. apply (ex_ne _ _ _ _ H); [|done].
    intros Ec%U1. unfold no_task in Ec. lia.
  - intros n Hr. apply (room_kept n s); [apply H|apply Hx| | |done].
    + intros i Hi Hdi. apply (go_kept _ _ _ G i Hi); [congruence|done].
    + intros i Hi Hdi. destruct (decide (i = t)) as [->|Hne].
      * apply (go_WakeTick _ _ _ G). destruct Hh as [[-> Hh]|[-> Hh]]; 
          [destruct (sd_alive _ _ _ _ _ _ (ex_c _ _ _ _ H) Hh)|destruct (sd_alive _ _ _ _ _ _ (ex_p _ _ _ _ H) Hh)]; tauto.
      * destruct (go_kept _ _ _ G i Hi Hne) as [K1 _ K3]. by apply K3, Hr, K1.
Qed.

#[export] Instance arranged_inv : TaskInvariant (test_body stub ce cs pe ps (S fuel))
    (arranged idc idp b) (fun x => both (snd x)) (fun x => left (snd x)).
Proof.
  split; [by intros [] ? (H & _); apply H|by intros; eapply arranged_calm|].
  intros t [p a] s Hx Ht. pose proof Hx as (H & HG & HP & [N1 N2] & Hb). unfold test_body. cbn [fst snd].
  destruct (ex_ok _ _ _ _ H) as (Q & Hinv & t' & Ht' & Hr). assert (t' = t) as -> by congruence.
  destruct (g_cur _ _ (proj2 Hinv) t Ht) as [H32 Hd].
  destruct (decide (t = 0%nat)) as [->|H0].
  { destruct (setup_ok p a s Hx Ht) as (p' & a' & s' & -> & Hx' & HL). rewrite some_bind.
    eexists Done, _, s'. split; [done|]. split; [done|]. split; [done|]. rewrite decide_False by set_solver. cbn [snd]. lia. }
  assert (Hgo : forall r, (t = Consumer a /\ here (cpc a) = true \/ t = Producer a /\ here (ppc a) = true) -> turn_ok idc idp t a s r ->
    exists out x' s', ('(out, a, s) ← r; Some (out, (p, a), s)) = Some (out, x', s') /\ arranged idc idp b x' s' /\
      match out with Done => True | Switched fs => Forall (own_frame t) fs end /\
      left (snd x') + (if decide (t ∈ both a) then 1 else 0) <= left a).
  { intros r Hh Hr'. destruct (turn_arranged t p a s r Hx Ht Hh Hr') as (out & a' & s' & -> & Hx' & Hf & HL & _). rewrite some_bind.
    eexists out, _, s'. split; [done|]. split; [done|]. split; [done|]. cbn [snd]. case_decide; lia. }
  destruct (unborn_iff _ _ _ _ H) as [Uc Up]. unfold rendezvous_body.
  assert (Hhere : forall pc, (pc = PcUnborn -> t = no_task) -> (pc = PcGone -> State (task s t) = TaskDead) -> here pc = true).
  { intros pc Hu Hg. destruct pc; try done; [|by destruct Hd; apply Hg]. exfalso. specialize (Hu eq_refl). unfold no_task in Hu. lia. }
  destruct (decide (t = Consumer a)) as [->|Hc].
  { assert (Hh : here (cpc a) = true) by (apply Hhere; [apply Uc|apply HG]). apply Hgo; [by left|]. by apply consumer_turn. }
  destruct (decide (t = Producer a)) as [->|Hp].
  { assert (Hh : here (ppc a) = true) by (apply Hhere; [apply Up|apply HG]). apply Hgo; [by right|]. by apply producer_turn. }
  rewrite some_bind. exists Done, (p, a), s. cbn [snd]. rewrite decide_False by set_solver. repeat (split; [done|]). lia.
Qed.
End Worlds.

(** ** No deadlock *)

(** A task of the test can run: it does, or it is ready. *)
Definition runnable (s : Sched) (t : nat) : Prop :=
  State (task s t) = TaskReady \/ State (task s t) = TaskRunning.

Lemma side_runnable s t id pc w can :
  side s t id pc w can -> here pc = true -> State (task s t) <> TaskBlocked -> runnable s t.
Proof.
  intros H Hg Hb. destruct (sd_alive _ _ _ _ _ _ H Hg) as (Hd & _). unfold runnable.
  destruct (State (task s t)); tauto.
Qed.

Lemma side_stands s t id pc w can :
  side s t id pc w can -> pc <> PcUnborn ->
  (pc = PcGone \/ State (task s t) = TaskBlocked /\ here pc = true) \/ runnable s t.
Proof.
  intros H Hu. destruct (decide (pc = PcGone)) as [|Hg]; [tauto|].
  assert (Hh : here pc = true) by by destruct pc.
  destruct (decide (State (task s t) = TaskBlocked)); [tauto|]. right. by eapply side_runnable.
Qed.

(** Once both are there and as long as one is not through, one of them can run. *)
Lemma exchange_progress idc idp a s :
  exchange idc idp a s -> ppc a <> PcUnborn -> ~ (cpc a = PcGone /\ ppc a = PcGone) ->
  exists t, t ∈ both a /\ runnable s t.
Proof.
  intros H Hu Hg. assert (Hu' : cpc a <> PcUnborn) by (intros E; by apply Hu, H). pose proof (ex_c _ _ _ _ H) as Hc. pose proof (ex_p _ _ _ _ H) as Hp.
  pose proof (side_stands _ _ _ _ _ _ Hc Hu') as HC. pose proof (side_stands _ _ _ _ _ _ Hp Hu) as HP.
  unfold both. destruct HC as [HC|HC]; [|exists (Consumer a); split; [set_solver|done]].
  destruct HP as [HP|HP]; [|exists (Producer a); split; [set_solver|done]].
  exfalso. pose proof (Forall2_length _ _ _ (ex_queue _ _ _ _ H)) as HL. rewrite length_seqZ in HL.
  pose proof (ex_count _ _ _ _ H) as Hpos.
  destruct HC as [HC|[HC HC']], HP as [HP|[HP HP']]; [tauto|..].
  - destruct (sd_blocked _ _ _ _ _ _ Hp HP HP') as (_ & i & was & E). destruct (ex_msg _ _ _ _ H _ _ _ E) as (_ & _ & Hi).
    rewrite HC, E in Hpos. cbn in Hpos. unfold IPC_TEST_MESSAGES in Hpos. lia.
  - destruct (sd_blocked _ _ _ _ _ _ Hc HC HC') as (Hq & i & was & E). pose proof (ex_cpark _ _ _ _ H _ _ _ E) as Hi.
    rewrite HP, E in HL. cbn [position] in HL. unfold IPC_TEST_MESSAGES in HL.
    apply Hq. intros Eq. rewrite Eq in HL. cbn in HL. lia.
  - destruct (sd_blocked _ _ _ _ _ _ Hc HC HC') as (Hq & _). destruct (sd_blocked _ _ _ _ _ _ Hp HP HP') as (Hf & _).
    apply Hq. intros Eq. rewrite Eq in Hf. cbn in Hf. lia.
Qed.

Lemma left_nonneg idc idp a s : exchange idc idp a s -> 0 <= left a.
Proof.
  intros H. pose proof (ex_count _ _ _ _ H) as Hp. unfold left, work.
  destruct (cpc a), (ppc a); cbn [position] in Hp; unfold IPC_TEST_MESSAGES in *; lia.
Qed.

(** ** Concrete inputs *)

(** The port as .bss has it, the table as SchedInit leaves it, and six slices of
    the idle task, each followed by sixty turns of whoever runs. *)
Definition bss_port : IpcPort := mkPort 0 0 0 (replicate 16 zero_msg) wait_empty wait_empty.
Definition blank_console : Console := mkConsole ∅ 0 0 false [(981, 0); (980, 14); (981, 0); (980, 15)].
Lemma blank_console_inv : con_inv blank_console.
Proof. split; [cbn; con; lia|cbn; con; lia|by eexists]. Qed.
Definition demo_slices : list event :=
  concat (replicate 6 (replicate 10 (Tick (Some 0)) ++ [Preempt] ++ replicate 60 Turn)).

Lemma demo_ready : test_ready bss_port zero_msg (SchedInit sched_bss).
Proof.
  split; [by apply SchedInit_ok|done|by vm_compute|by vm_compute| |done|done].
  assert (H : Forall (fun i => WakeTick (task (SchedInit sched_bss) i) = 0) (seq 0 32))
    by (apply (bool_decide_unpack _); by vm_compute).
  intros i Hi _. rewrite Forall_forall in H. apply H, elem_of_seq. lia.
Qed.

Definition demo_body : nat -> SetUp * Rendezvous -> Sched -> option (Out * (SetUp * Rendezvous) * Sched) :=
  test_body 4096 8192 65536 12288 131072 3.

(** What a run of [es] from the start comes to. *)
Definition demo_outcome {B} (f : World (SetUp * Rendezvous) -> B) (es : list event) : option B :=
  '(a, _) ← rendezvous_start zero_msg zero_msg bss_port blank_console;
  a ← a;
  w ← world_run 4096 demo_body es (mkWorld (mkMachine (SchedInit sched_bss) ∅) (SuConsumer, a));
  Some (f w).

Lemma demo_outcome_eq {B} (f : World (SetUp * Rendezvous) -> B) es a c w x :
  rendezvous_start zero_msg zero_msg bss_port blank_console = Some (Some a, c) ->
  world_run 4096 demo_body es (mkWorld (mkMachine (SchedInit sched_bss) ∅) (SuConsumer, a)) = Some w ->
  demo_outcome f es = Some x -> f w = x.
Proof.
  intros E1 E2 H. unfold demo_outcome in H. rewrite E1, !some_bind, E2, some_bind in H. by injection H.
Qed.

(** The set-up in one go, and with two slices of the idle task ending before the
    producer's id is stored: in between the consumer goes to sleep and the
    producer fills the port, and the sixteen messages of it are bad. *)
Definition demo_events : list event := replicate 4 Turn ++ demo_slices.
Definition early_events : list event := replicate 3 Turn ++ take 11 demo_slices ++ replicate 18 Turn ++ demo_slices.

Definition demo_counts (w : World (SetUp * Rendezvous)) : SetUp * Z * Z * Z :=
  let (p, a) := shared w in (p, ConsumerDone a, ProducerDone a, ConsumerBad a).

Lemma demo_done : demo_outcome demo_counts demo_events = Some (SuDone, 1, 1, 0).
Proof. by vm_compute. Qed.
Lemma early_preemption_counts_bad : demo_outcome demo_counts early_events = Some (SuDone, 1, 1, 16).
Proof. by vm_compute. Qed.

(** ** Properties *)

Definition rendezvous_text : list Z :=
  line "OK: 40 messages passed through a blocking port." ++ line "OK: port drained, no message lost or duplicated.".
Definition bad_text (n : Z) : list Z :=
  text "ERROR: ipc rendezvous reported " ++ decimal n ++ line " bad messages.".
Definition report_text (bad : Z) : list Z := if bad =? 0 then rendezvous_text else bad_text bad.

(** Both tasks behind their loop, so nothing is left in the port. *)
Lemma exchange_drained idc idp a s :
  exchange idc idp a s -> ConsumerDone a <> 0 -> ProducerDone a <> 0 -> PCount (TestPort a) = 0.
Proof.
  intros H HC HP. rewrite (ex_cdone _ _ _ _ H) in HC. rewrite (ex_pdone _ _ _ _ H) in HP.
  pose proof (length_queued _ (ex_port _ _ _ _ H)) as HL. pose proof (Forall2_length _ _ _ (ex_queue _ _ _ _ H)) as H8.
  rewrite length_seqZ in H8. destruct (cpc a), (ppc a); cbn in *; try done; rewrite Z.sub_diag in H8; cbn in H8; lia.
Qed.

Lemma rendezvous_report_ok idc idp a s c :
  exchange idc idp a s -> ConsumerDone a <> 0 -> ProducerDone a <> 0 -> con_inv c ->
  exists c', rendezvous_report a c = Some c' /\ prints (report_text (ConsumerBad a)) c c'.
Proof.
  intros H HC HP Hc. pose proof (exchange_drained _ _ _ _ H HC HP) as Hq.
  pose proof (ex_bad _ _ _ _ H) as HB. pose proof (ex_count _ _ _ _ H) as Hn. unfold rendezvous_report, report_text.
  rewrite (proj2 (Z.eqb_neq _ _) HC), (proj2 (Z.eqb_neq _ _) HP). cbn [orb]. destruct (Z.eqb_spec (ConsumerBad a) 0) as [E|E]; cbn [negb].
  - unfold IpcPortQueued. rewrite (port_created _ (ex_port _ _ _ _ H)), Hq. cbn [negb Z.eqb].
    destruct (say_spec (line "OK: %u messages passed through a blocking port.") [AWord IPC_TEST_MESSAGES]
      (line "OK: 40 messages passed through a blocking port.") c) as (c1 & -> & P1);
      [done|apply Forall_singleton; cbn; unfold IPC_TEST_MESSAGES; lia|by vm_compute|]. rewrite some_bind.
    destruct (say_spec (line "OK: port drained, no message lost or duplicated.") []
      (line "OK: port drained, no message lost or duplicated.") c1) as (c2 & -> & P2); [apply P1|by apply Forall_nil|by vm_compute|].
    exists c2. split; [done|]. by eapply prints_app.
  - apply say_spec; [done|apply Forall_singleton; cbn; lia|].
    change (line "ERROR: ipc rendezvous reported %u bad messages.") with
      (text "ERROR: ipc rendezvous reported " ++ 37 :: 117 :: line " bad messages.").
    rewrite render_lit by plain_text. rewrite render_dec. unfold bad_text.
    by rewrite <- (app_nil_r (line " bad messages.")), render_lit by plain_text.
Qed.

(** The start, as a world of the invariant. *)
Lemma test_start port cM pM c s saved :
  test_ready port pM s -> saved_ok saved ->
  exists a, rendezvous_start cM pM port c = Some (Some a, c) /\ left a = 166 /\
    world_inv (arranged (NextTaskId s) (NextTaskId s + 1) None) (mkWorld (mkMachine s saved) (SuConsumer, a)).
Proof.
  intros [Hok Hl Hn Hi Hd [Hm Hs] HD] Hsv. destruct Hok as (Q & Hinv & Hrun). pose proof (g_next _ _ (proj2 Hinv)) as H0.
  assert (Hok : sched_ok s) by by exists Q.
  destruct (rendezvous_start_ok (NextTaskId s) (NextTaskId s + 1) cM pM port c s) as (a & E & H & E1 & E2 & E3 & E4 & E5); [done|done|lia|lia|done..|].
  exists a. split; [done|]. split; [unfold left; by rewrite E1, E2|]. split; [by split|]. split; [done|].
  split; [unfold grave; by rewrite E1, E2|]. split; [|by rewrite E4, E5]. split; [done|]. do 3 (split; [done|]). split; [lia|done].
Qed.



(** C19. The rendezvous ends. In every run from its start, with the timer
    interrupt anywhere, the set-up included, the two tasks take at most 166
    turns between them, and at every point either both have set their flags and
    are dead, or one of the two is running or ready: they never wait for each
    other. Only before ipc_test_tasks has created the producer may neither be
    able to run; then ipc_test_tasks is. *)
Theorem rendezvous_finishes stub fuel ce cs pe ps cM pM port c s saved :
  test_ready port pM s -> saved_ok saved ->
  exists a, rendezvous_start cM pM port c = Some (Some a, c) /\
  let body := test_body stub ce cs pe ps (S fuel) in
  let w0 := mkWorld (mkMachine s saved) (SuConsumer, a) in
  forall es, exists w, world_run stub body es w0 = Some w /\
    (turns_of stub body (fun x => both (snd x)) es w0 <= 166)%nat /\
    let (p, r) := shared w in
    ((ConsumerDone r = 1 /\ ProducerDone r = 1 /\ forall t, t ∈ both r -> State (task (sched w) t) = TaskDead) \/
     (exists t, t ∈ both r /\ runnable (sched w) t) \/
     (p = SuConsumer \/ p = SuProducer) /\ Producer r = no_task /\ runnable (sched w) 0).
Proof.
  intros Ht Hsv. destruct (test_start port cM pM c s saved Ht Hsv) as (a & E & HL & H0). exists a. split; [exact E|]. cbv zeta.
  intros es. destruct (world_run_inv stub (test_body stub ce cs pe ps (S fuel)) _ _ _ es _ H0) as (w & Ew & [Hm Hw] & Hl).
  exists w. split; [exact Ew|]. unfold sched in *. destruct w as [m [p r]]. cbn [shared fst snd machine] in *.
  destruct Hw as (Hx & HG & HP & HN & _). pose proof (left_nonneg _ _ _ _ Hx). split; [lia|].
  destruct (decide (cpc r = PcGone /\ ppc r = PcGone)) as [[E1 E2]|Hn].
  { left. rewrite (ex_cdone _ _ _ _ Hx), (ex_pdone _ _ _ _ Hx), E1, E2. split; [done|]. split; [done|].
    intros t [->|[->|[]%elem_of_nil]%elem_of_cons]%elem_of_cons; by apply HG. }
  right. destruct (decide (ppc r = PcUnborn)) as [Eu|Hu]; [right|left; by apply (exchange_progress _ _ _ _ Hx)].
  split; [|split; [by apply (unborn_iff _ _ _ _ Hx)|]].
  - destruct HP as [_ HP]. destruct p; tauto.
  - destruct (ex_ok _ _ _ _ Hx) as (Q & [_ G] & _). apply (g_idle _ _ G).
Qed.

Lemma rendezvous_finishes_witness :
  exists a w, rendezvous_start zero_msg zero_msg bss_port blank_console = Some (Some a, blank_console) /\
    world_run 4096 demo_body demo_events (mkWorld (mkMachine (SchedInit sched_bss) ∅) (SuConsumer, a)) = Some w /\
    (turns_of 4096 demo_body (fun x => both (snd x)) demo_events
       (mkWorld (mkMachine (SchedInit sched_bss) ∅) (SuConsumer, a)) <= 166)%nat /\
    demo_counts w = (SuDone, 1, 1, 0).
Proof.
  destruct (rendezvous_finishes 4096 2 8192 65536 12288 131072 zero_msg zero_msg bss_port blank_console
              (SchedInit sched_bss) ∅ demo_ready) as (a & E & H); [by intros ? ? ?|].
  destruct (H demo_events) as (w & Ew & Hn & _).
  exists a, w. split; [exact E|]. split; [exact Ew|]. split; [exact Hn|].
  exact (demo_outcome_eq demo_counts demo_events a _ w _ E Ew demo_done).
Defined.

(** ** The tests of the idle task *)

Lemma IpcWakeOne_empty s : IpcWakeOne wait_empty s = Some (wait_empty, s).
Proof. unfold IpcWakeOne. cbn. by rewrite lock_unlock. Qed.

(** A test that finds what it expects passes on. *)
Section Passing.
Context {X : Type}.
Implicit Types (x y z : X).

Lemma unlike_pass call st x y : call x = Some (st, y) -> unlike call st x = Some (false, y).
Proof. intros E. unfold unlike. rewrite E, some_bind, bool_decide_eq_false_2; [done|tauto]. Qed.

Lemma orelse_pass p q x y z : p x = Some (false, y) -> q y = Some (false, z) -> orelse p q x = Some (false, z).
Proof. intros E1 E2. unfold orelse. by rewrite E1, some_bind. Qed.

Lemma reports_pass test message tests ok x y c r :
  test x = Some (false, y) -> reports tests ok y c = r -> reports ((test, message) :: tests) ok x c = r.
Proof. intros E <-. cbn [reports]. by rewrite E, some_bind. Qed.

Lemma reports_end ok x c c' : say (line ok) [] c = Some c' -> reports [] ok x c = Some (true, x, c').
Proof. intros E. cbn [reports]. by rewrite E, some_bind. Qed.
End Passing.

Create HintDb idle.
#[export] Hint Resolve unlike_pass orelse_pass reports_pass reports_end : idle.

Section IdleTests.
Context (fuel : nat) (s : Sched) (Hidle : IpcSelfId s = 0).
Let sem n : option IpcSemaphore * Sched := (Some (mkSem n 1 wait_empty), s).
Let mtx b : option IpcMutex * Sched := (Some (mkMutex b 0 wait_empty), s).

Lemma sem_wait_idle_empty : sem_wait (S fuel) (sem 0) = Some (IpcErrNoTask, sem 0).
Proof.
  unfold sem_wait, sem. cbn [fst snd SemWait SemWait_loop SemTryWait Count Z.eqb].
  rewrite lock_unlock, decide_False by tauto. unfold IpcPark. by rewrite Hidle.
Qed.

Lemma sem_wait_idle : sem_wait (S fuel) (sem 1) = Some (IpcOk, sem 0).
Proof.
  unfold sem_wait, sem. cbn [fst snd SemWait SemWait_loop SemTryWait Count Z.eqb].
  by rewrite lock_unlock, decide_True by done.
Qed.

Lemma sem_try_wait_idle : sem_try_wait (sem 0) = Some (IpcErrEmpty, sem 0).
Proof. unfold sem_try_wait, sem. cbn. by rewrite lock_unlock. Qed.

Lemma sem_post_idle : sem_post (sem 0) = Some (IpcOk, sem 1).
Proof.
  unfold sem_post, sem. cbn. rewrite !lock_unlock, IpcWakeOne_empty. done.
Qed.

Lemma sem_post_idle_full : sem_post (sem 1) = Some (IpcErrFull, sem 1).
Proof. unfold sem_post, sem. cbn. by rewrite !lock_unlock. Qed.

Lemma mutex_lock_idle : mutex_lock (S fuel) (mtx false) = Some (IpcOk, mtx true).
Proof.
  unfold mutex_lock, mtx. cbn [fst snd MutexLock MutexLock_loop MutexHeldByCaller MutexTryLock Locked negb MWait].
  change (IpcSelfId (set_irq_on false s)) with (IpcSelfId s). rewrite Hidle.
  by rewrite lock_unlock, decide_False by done.
Qed.

Lemma mutex_lock_idle_again : mutex_lock (S fuel) (mtx true) = Some (IpcErrOwner, mtx true).
Proof. unfold mutex_lock, mtx. cbn. by rewrite Hidle. Qed.

Lemma mutex_try_lock_idle : mutex_try_lock (mtx true) = Some (IpcErrBusy, mtx true).
Proof. unfold mutex_try_lock, mtx. cbn. by rewrite lock_unlock. Qed.

Lemma mutex_unlock_idle : mutex_unlock (mtx true) = Some (IpcOk, mtx false).
Proof.
  unfold mutex_unlock, mtx. cbn [fst snd MutexUnlock Locked Owner negb MWait].
  change (IpcSelfId (set_irq_on false s)) with (IpcSelfId s). rewrite Hidle. cbn. by rewrite lock_unlock.
Qed.

Lemma mutex_unlock_idle_again : mutex_unlock (mtx false) = Some (IpcErrOwner, mtx false).
Proof. unfold mutex_unlock, mtx. cbn. by rewrite lock_unlock. Qed.

Lemma mutex_held_idle : mutex_held false (mtx true) = Some (false, mtx true).
Proof. unfold mutex_held, mtx. cbn. by rewrite Hidle. Qed.
Lemma mutex_held_idle_not : mutex_held true (mtx false) = Some (false, mtx false).
Proof. done. Qed.

(** A message without arguments. *)
Lemma say_plain l c :
  con_inv c -> Forall (fun x => x <> 37) l -> exists c', say l [] c = Some c' /\ prints l c c'.
Proof.
  intros Hc Hl. apply say_spec; [done|by apply Forall_nil|]. rewrite <- (app_nil_r l) at 1.
  rewrite render_lit by done. cbn. by rewrite app_nil_r.
Qed.

Lemma semaphore_test_ok TestSem c :
  con_inv c -> exists c', semaphore_test (S fuel) TestSem c s = Some (true, sem 0, c') /\
    prints (line "OK: binary semaphore counted, blocked, and refused to park the idle.") c c'.
Proof.
  intros Hc. destruct (say_plain (line "OK: binary semaphore counted, blocked, and refused to park the idle.") c)
    as (c' & E & P); [done|plain_text|].
  exists c'. split; [|done]. unfold semaphore_test. change (SemInit (Some TestSem) 1 1, s) with (sem 1).
  rewrite sem_wait_idle, some_bind. cbv beta iota.
  assert (Hst : Some (bool_decide (IpcOk <> IpcOk), sem 0) = Some (false, sem 0)) by done.
  eapply reports_pass; [eapply orelse_pass; [exact Hst|apply unlike_pass, sem_try_wait_idle]|].
  eapply reports_pass; [eapply orelse_pass; [eapply unlike_pass, sem_post_idle|apply unlike_pass, sem_post_idle_full]|].
  eapply reports_pass; [eapply orelse_pass; [eapply unlike_pass, sem_wait_idle|apply unlike_pass, sem_wait_idle_empty]|].
  by apply reports_end.
Qed.

Lemma mutex_test_ok TestMutex c :
  con_inv c -> exists c', mutex_test (S fuel) TestMutex c s = Some (true, mtx false, c') /\
    prints (line "OK: mutex locked, refused a re-lock, and released.") c c'.
Proof.
  intros Hc. destruct (say_plain (line "OK: mutex locked, refused a re-lock, and released.") c)
    as (c' & E & P); [done|plain_text|].
  exists c'. split; [|done]. unfold mutex_test. change (MutexInit (Some TestMutex), s) with (mtx false).
  eauto 14 using mutex_lock_idle, mutex_lock_idle_again, mutex_try_lock_idle, mutex_unlock_idle,
    mutex_unlock_idle_again, mutex_held_idle, mutex_held_idle_not with idle.
Qed.
End IdleTests.

Lemma port_test_ok p c :
  Magic p = PORT_MAGIC -> WCount (Senders p) = 0 -> WCount (Receivers p) = 0 -> con_inv c ->
  exists p' c', port_test p c = Some (Some p', c') /\ Magic p' = 0 /\ queued p' = [] /\
    prints (line "OK: port rejected a second create and a second destroy.") c c'.
Proof.
  intros Hm Hs Hr Hc. destruct (say_plain (line "OK: port rejected a second create and a second destroy.") c)
    as (c' & E & P); [done|plain_text|].
  set (p0 := mkPort 0 0 0 (Slots (PortReset p)) wait_empty wait_empty).
  set (p1 := mkPort PORT_MAGIC 0 0 (Slots (PortReset p0)) wait_empty wait_empty).
  assert (E1 : port_destroy (Some p) = Some (IpcOk, Some p0)).
  { unfold port_destroy, IpcPortDestroy, IpcPortIsCreated. by rewrite Hm, Hs, Hr. }
  assert (E2 : port_destroy (Some p0) = Some (IpcErrInvalid, Some p0)) by done.
  assert (E3 : port_create (Some p0) = Some (IpcOk, Some p1)) by done.
  assert (E4 : port_create (Some p1) = Some (IpcErrInvalid, Some p1)) by done.
  assert (E5 : reports
    [(orelse (unlike port_destroy IpcOk) (unlike port_destroy IpcErrInvalid),
      "ERROR: port could not be destroyed cleanly."%string);
     (orelse (unlike port_create IpcOk) (unlike port_create IpcErrInvalid),
      "ERROR: port was claimed twice."%string)]
    "OK: port rejected a second create and a second destroy." (Some p) c = Some (true, Some p1, c'))
    by eauto 10 with idle.
  unfold port_test. rewrite E5, some_bind. by eexists _, c'.
Qed.

(** The tests the idle task runs alone pass: from any state in which it is
    current, on whatever the objects held before, with a claimed port nobody
    waits on, exactly the three OK lines are printed. On the way the binary
    semaphore refuses a second permit and a second post, the wait of a task that
    cannot sleep is refused, the mutex refuses a second lock and a second
    unlock, and the port a second destroy and a second create; afterwards the
    scheduler is as it was, the mutex free and the port unclaimed. *)
Theorem idle_self_tests_ok fuel TestSem TestMutex p c s :
  IpcSelfId s = 0 -> Magic p = PORT_MAGIC -> WCount (Senders p) = 0 -> WCount (Receivers p) = 0 -> con_inv c ->
  exists sem m p' c1 c2 c3,
    semaphore_test (S fuel) TestSem c s = Some (true, (Some sem, s), c1) /\
    mutex_test (S fuel) TestMutex c1 s = Some (true, (Some m, s), c2) /\
    port_test p c2 = Some (Some p', c3) /\
    prints (line "OK: binary semaphore counted, blocked, and refused to park the idle." ++
            line "OK: mutex locked, refused a re-lock, and released." ++
            line "OK: port rejected a second create and a second destroy.") c c3 /\
    Count sem = 0 /\ Locked m = false /\ Magic p' = 0 /\ queued p' = [].
Proof.
  intros Hi Hm Hs Hr Hc.
  destruct (semaphore_test_ok fuel s Hi TestSem c Hc) as (c1 & E1 & P1).
  destruct (mutex_test_ok fuel s Hi TestMutex c1) as (c2 & E2 & P2); [apply P1|].
  destruct (port_test_ok p c2) as (p' & c3 & E3 & Hm' & Hq & P3); [done..|apply P2|].
  eexists _, _, p', c1, c2, c3. do 3 (split; [done|]). split; [|done].
  eapply prints_app; [done|]. by eapply prints_app.
Qed.

Definition claimed_port : IpcPort := mkPort PORT_MAGIC 3 0 (replicate 16 zero_msg) wait_empty wait_empty.

Lemma idle_self_tests_ok_witness :
  exists sem m p' c1 c2 c3,
    semaphore_test 1 (mkSem 7 9 wait_empty) blank_console (SchedInit sched_bss) =
      Some (true, (Some sem, SchedInit sched_bss), c1) /\
    mutex_test 1 (mkMutex true 5 wait_empty) c1 (SchedInit sched_bss) =
      Some (true, (Some m, SchedInit sched_bss), c2) /\
    port_test claimed_port c2 = Some (Some p', c3) /\ Count sem = 0 /\ Locked m = false.
Proof.
  destruct (idle_self_tests_ok 0 (mkSem 7 9 wait_empty) (mkMutex true 5 wait_empty) claimed_port blank_console
    (SchedInit sched_bss)) as (sem & m & p' & c1 & c2 & c3 & E1 & E2 & E3 & _ & H1 & H2 & _);
    [done..|exact blank_console_inv|].
  exists sem, m, p', c1, c2, c3. split; [exact E1|]. split; [exact E2|]. split; [exact E3|]. split; [exact H1|exact H2].
Defined.
