(* ===== verification/IpcContention.v ===== *)
(** * Two tasks at one mutex (init/main.c, ipc_lock_task)

    The contention test: two tasks lock TestMutex, bump LockRounds and unlock
    again, while the idle task, which created them, waits for enough rounds and
    then stops them. The bodies are cut where the code can be switched away
    from, down to the single accesses of LockRounds and to each SchedCreate of
    the set-up, and run on the machine of [TaskMachine.v]. A call of the mutex
    is one turn up to its sleep. *)

From stdpp Require Import strings.
From S2P Require Import Prelude Sched SchedQueues SchedInv SchedOps SchedMachine TaskMachine Ipc Sync Message Strings Console Stdio KernelMain KernelMainTheorems IpcSelfTests IpcRendezvous IpcSelfTestsTheorems.

Definition IPC_TEST_ROUNDS : Z := 50.
Definition IPC_TEST_TIMEOUT : Z := 200.

(** ** The tasks *)

(** Where a lock task stands: not created yet, at the head of its loop, asleep in
    MutexLock, before each access of LockRounds, before MutexUnlock, out of the
    loop, or dead. *)
Inductive LockPc :=
| LpUnborn | LpTop | LpPark (Self : Z) (was_enabled : bool) | LpRead | LpWrite (Seen : Z) | LpCheck (Seen : Z)
| LpUnlock | LpReturn | LpGone.

#[global] Instance LockPc_eq_dec : EqDecision LockPc.
Proof. solve_decision. Defined.

(** Where the idle task stands: in one of its two waits, or between them. *)
Inductive MainPc := MpWait (Waited : Z) | MpStop | MpDrain (Waited : Z) | MpDone.

(** The static data the tasks share. *)
Record Lock := mkLock { TestMutex : IpcMutex; LockRounds : Z; LockStop : Z; LockBad : Z }.

Definition set_TestMutex v l := mkLock v (LockRounds l) (LockStop l) (LockBad l).
Definition set_LockRounds v l := mkLock (TestMutex l) v (LockStop l) (LockBad l).
Definition set_LockStop v l := mkLock (TestMutex l) (LockRounds l) v (LockBad l).
Definition set_LockBad v l := mkLock (TestMutex l) (LockRounds l) (LockStop l) v.

Record Contention := mkContention {
  lock : Lock; LockA : nat; LockB : nat; apc : LockPc; bpc : LockPc; mpc : MainPc }.

(** What a lock task does with the outcome of its MutexLock. *)
Definition lock_taken (Self : Z) (out : CallOut) (l : Lock) : Out * LockPc * Lock :=
  match out with
  | CSleep fs was => (Switched fs, LpPark Self was, l)
  | CRet Status => if decide (Status <> IpcOk) then (Done, LpReturn, set_LockBad (LockBad l +w 1) l)
                   else (Done, LpRead, l)
  end.

Definition ipc_lock_task (fuel : nat) (pc : LockPc) (l : Lock) (s : Sched)
    : option (Out * LockPc * Lock * Sched) :=
  match pc with
  | LpTop =>
      if LockStop l =? 0 then
        '(out, m, s') ← MutexLock fuel (Some (TestMutex l)) s;
        m ← m;
        Some (lock_taken (IpcSelfId s) out (set_TestMutex m l), s')
      else Some (Done, LpReturn, l, s)
  | LpPark Self was =>
      '(out, m, s') ← MutexLock_resume fuel Self was (TestMutex l) s;
      Some (lock_taken Self out (set_TestMutex m l), s')
  | LpRead => Some (Done, LpWrite (LockRounds l), l, s)
  | LpWrite Seen => Some (Done, LpCheck Seen, set_LockRounds (Seen +w 1) l, s)
  | LpCheck Seen =>
      Some (Done, LpUnlock, if negb (LockRounds l =? Seen +w 1) then set_LockBad (LockBad l +w 1) l else l, s)
  | LpUnlock =>
      '(_, m, s) ← MutexUnlock (Some (TestMutex l)) s;
      m ← m;
      Some (Done, LpTop, set_TestMutex m l, s)
  | LpReturn => '(out, s) ← SchedExit s; Some (out, LpGone, l, s)
  | LpUnborn | LpGone => Some (Done, pc, l, s)
  end.

(** The two waits of ipc_test_tasks; cpu_idle ends a turn. *)
Definition lock_wait (pc : MainPc) (l : Lock) : MainPc * Lock :=
  match pc with
  | MpWait Waited =>
      if Waited <? IPC_TEST_ROUNDS then
        if IPC_TEST_ROUNDS <=? LockRounds l then (MpStop, l) else (MpWait (Waited +w 1), l)
      else (MpStop, l)
  | MpStop => (MpDrain 0, set_LockStop 1 l)
  | MpDrain Waited =>
      if Waited <? IPC_TEST_TIMEOUT then
        if negb (Locked (TestMutex l)) then (MpDone, l) else (MpDrain (Waited +w 1), l)
      else (MpDone, l)
  | MpDone => (MpDone, l)
  end.

(** Descriptor 0 is the idle task's. *)
Definition contention_body (fuel : nat) (t : nat) (a : Contention) (s : Sched) : option (Out * Contention * Sched) :=
  if decide (t = LockA a) then
    '(out, pc, l, s) ← ipc_lock_task fuel (apc a) (lock a) s;
    Some (out, mkContention l (LockA a) (LockB a) pc (bpc a) (mpc a), s)
  else if decide (t = LockB a) then
    '(out, pc, l, s) ← ipc_lock_task fuel (bpc a) (lock a) s;
    Some (out, mkContention l (LockA a) (LockB a) (apc a) pc (mpc a), s)
  else if decide (t = 0%nat) then
    let '(pc, l) := lock_wait (mpc a) (lock a) in
    Some (Done, mkContention l (LockA a) (LockB a) (apc a) (bpc a) pc, s)
  else Some (Done, a, s).

(** Where ipc_test_tasks stands in the set-up: before it creates each of the two
    tasks, behind it, or at its error message. The first task may run before the
    second is there. *)
Inductive LockUp := LuA | LuB | LuDone | LuFailed.

#[global] Instance LockUp_eq_dec : EqDecision LockUp.
Proof. solve_decision. Defined.

(** The mutex and the counters are cleared. *)
Definition contention_start (m : IpcMutex) : option Contention :=
  m ← MutexInit (Some m); Some (mkContention (mkLock m 0 0 0) no_task no_task LpUnborn LpUnborn (MpWait 0)).

Definition LockA_born (t : option nat) (a : Contention) : Contention :=
  match t with Some t => mkContention (lock a) t (LockB a) LpTop (bpc a) (mpc a) | None => a end.
Definition LockB_born (t : option nat) (a : Contention) : Contention :=
  match t with Some t => mkContention (lock a) (LockA a) t (apc a) LpTop (mpc a) | None => a end.

(** The tasks' code and stacks, and SchedExitStub, at their addresses. *)
Section SetUp.
Context (SchedExitStub a_entry LockAStackEnd b_entry LockBStackEnd : Z).

(** One step of the set-up, by the idle task. *)
Definition lock_setup (p : LockUp) (a : Contention) (s : Sched) : option (LockUp * Contention * Sched) :=
  match p with
  | LuA =>
      '(A, s) ← SchedCreate SchedExitStub (Some (text "LockA")) a_entry LockAStackEnd s;
      Some (LuB, LockA_born A a, s)
  | LuB =>
      '(B, s) ← SchedCreate SchedExitStub (Some (text "LockB")) b_entry LockBStackEnd s;
      let a := LockB_born B a in
      Some (if decide (LockA a = no_task \/ LockB a = no_task) then LuFailed else LuDone, a, s)
  | LuDone | LuFailed => Some (p, a, s)
  end.

(** The whole test: the idle task sets it up before it waits. *)
Definition contest_body (fuel : nat) (t : nat) (x : LockUp * Contention) (s : Sched)
    : option (Out * (LockUp * Contention) * Sched) :=
  if decide (t = 0%nat /\ fst x <> LuDone) then
    '(p, a, s) ← lock_setup (fst x) (snd x) s; Some (Done, (p, a), s)
  else '(out, a, s) ← contention_body fuel t (snd x) s; Some (out, (fst x, a), s).
End SetUp.

Definition contention_report (l : Lock) (c : Console) : option Console :=
  if negb (LockBad l =? 0) then
    say (line "ERROR: mutex let %u tasks into the critical section at once.") [AWord (LockBad l)] c
  else if LockRounds l <? IPC_TEST_ROUNDS then
    say (line "ERROR: mutex contention stalled at %u of %u rounds.")
      [AWord (LockRounds l); AWord IPC_TEST_ROUNDS] c
  else say (line "OK: %u rounds of contention on one mutex, no overlap.") [AWord (LockRounds l)] c.
