(* ===== verification/IpcContentionTheorems.v ===== *)
(** * What the contention test shows

    The mutex excludes: under every interleaving at most one of the two tasks
    is between its lock and its unlock. And it does not survive contention: the
    hand-over puts both to sleep for good. *)

From stdpp Require Import strings.
From S2P Require Import Prelude Sched SchedQueues SchedInv SchedOps SchedMachine TaskMachine Ipc Sync Message TaskFrame Strings Console Stdio KernelMain KernelMainTheorems IpcSelfTests IpcRendezvous IpcSelfTestsTheorems IpcContention.

(** ** One lock task *)

Definition inside (pc : LockPc) : bool :=
  match pc with LpRead | LpWrite _ | LpCheck _ | LpUnlock => true | _ => false end.

(** Where a task neither has the mutex nor asks for it. *)
Definition outside (pc : LockPc) : bool :=
  match pc with LpUnborn | LpTop | LpReturn | LpGone => true | _ => false end.

(** Once the task is gone nothing is said of its descriptor. *)
Record seat (s : Sched) (t : nat) (id : Z) (pc : LockPc) (l : Lock) : Prop := {
  st_lt : (t < 32)%nat;
  st_t0 : t <> 0%nat;
  st_id : id <> 0;
  st_alive : pc <> LpGone -> State (task s t) <> TaskDead /\ Id (task s t) = id /\ WakeTick (task s t) = 0;
  st_wait : id ∈ entries (MWait (TestMutex l)) -> exists self was, pc = LpPark self was;
  st_park : forall self was, pc = LpPark self was -> self = id;
  st_out : outside pc = true -> Locked (TestMutex l) = true -> Owner (TestMutex l) <> id;
  st_in : inside pc = true -> Locked (TestMutex l) = true /\ Owner (TestMutex l) = id;
  st_write : forall Seen, pc = LpWrite Seen -> LockRounds l = Seen;
  st_check : forall Seen, pc = LpCheck Seen -> LockRounds l = Seen +w 1 }.

Lemma seat_kept s s' t id pc l : seat s t id pc l -> (pc <> LpGone -> kept t s s') -> seat s' t id pc l.
Proof.
  intros [H1 H2 H3 H4 H6 H7 H8 H9 H10 H11] K. split; try done.
  intros Hg. destruct (K Hg) as [K1 K2 K3], (H4 Hg) as (? & ? & ?). split; [by rewrite K1|]. split; [congruence|auto].
Qed.

Lemma seat_runs s t id pc l :
  seat s t id pc l -> sched_ok s -> SchedulerLocked s = 0 -> CurrentTask s = Some t -> pc <> LpGone ->
  exists Q, can_sleep t s Q /\ Id (task s t) = id.
Proof.
  intros H (Q & Hinv & c & Hc & Hr) Hl Ht Hg. assert (c = t) as -> by congruence.
  destruct (st_alive _ _ _ _ _ H Hg) as (_ & HI & _).
  exists Q. split; [|done]. split; try done. rewrite HI. apply H.
Qed.

(** ** The invariant *)

(** [x] is the task whose turn it is, [y] the other. *)
Record fight (s : Sched) (x y : nat) (ix iy : Z) (px py : LockPc) (l : Lock) : Prop := {
  fi_ok : sched_ok s;
  fi_free : SchedulerLocked s = 0;
  fi_x : seat s x ix px l;
  fi_y : seat s y iy py l;
  fi_ne : x <> y;
  fi_ids : ix <> iy;
  fi_wait : wait_wf (MWait (TestMutex l));
  fi_only : forall i, i ∈ entries (MWait (TestMutex l)) -> i = ix \/ i = iy;
  fi_bad : LockBad l = 0;
  fi_rounds : is_u32 (LockRounds l) }.

Lemma fight_swap s x y ix iy px py l : fight s x y ix iy px py l -> fight s y x iy ix py px l.
Proof. intros []. split; try done. intros i Hi. destruct (fi_only0 i Hi); tauto. Qed.

Lemma fight_kept s s' x y ix iy px py l :
  fight s x y ix iy px py l -> sched_ok s' -> SchedulerLocked s' = SchedulerLocked s ->
  (px <> LpGone -> kept x s s') -> (py <> LpGone -> kept y s s') -> fight s' x y ix iy px py l.
Proof.
  intros [H1 H2 H3 H4 H5 H6 H7 H8 H9] Hok Hl Hx Hy. split; try done; [congruence|by eapply seat_kept..].
Qed.

(** Two ids do not fill a queue of sixteen. *)
Lemma two_waiters s x y ix iy px py l :
  fight s x y ix iy px py l -> WCount (MWait (TestMutex l)) < 16.
Proof.
  intros H. pose proof (fi_wait _ _ _ _ _ _ _ _ H) as Hw. pose proof (length_entries _ Hw) as HL.
  assert (Hs : entries (MWait (TestMutex l)) ⊆+ [ix; iy]).
  { apply NoDup_submseteq; [apply Hw|]. intros i Hi. destruct (fi_only _ _ _ _ _ _ _ _ H i Hi); set_solver. }
  apply submseteq_length in Hs. cbn in Hs. lia.
Qed.

(** The rest of the queue when the caller leaves it. *)
Lemma entries_remove w id : wait_wf w ->
  wait_wf (IpcWaitRemove w id) /\ (forall i, i ∈ entries (IpcWaitRemove w id) <-> i ∈ entries w /\ i <> id) /\
  WCount (IpcWaitRemove w id) <= WCount w.
Proof.
  intros Hw. destruct (decide (id ∈ entries w)) as [Hin|Hin].
  - destruct (IpcWaitRemove_spec w id Hw Hin) as (Hw' & P & Hc). split; [done|]. split; [|lia].
    pose proof (w_nodup _ Hw) as Hnd. rewrite <- P in Hnd. apply NoDup_cons in Hnd as [Hn _].
    intros i. rewrite <- P. rewrite elem_of_cons. split; [intros Hi; split; [by right|by intros ->]|tauto].
  - rewrite IpcWaitRemove_absent by done. split; [done|]. split; [|lia].
    intros i. split; [intros Hi; split; [done|by intros ->]|tauto].
Qed.

(** MutexLock of a task that runs again, on both paths. *)
Lemma MutexLock_resume_spec fuel t was m s Q :
  can_sleep t s Q -> wait_wf (MWait m) -> WCount (MWait m) < 16 ->
  let w := IpcWaitRemove (MWait m) (Id (task s t)) in
  (Locked m = false /\ MutexLock_resume (S fuel) (Id (task s t)) was m s =
     Some (CRet IpcOk, mkMutex true (Id (task s t)) w, SchedUnlockIrq was (set_irq_on false s))) \/
  (Locked m = true /\ exists w' s', MutexLock_resume (S fuel) (Id (task s t)) was m s =
     Some (CSleep [FrSchedYield false; FrSchedBlockTask t] was, mkMutex true (Owner m) w', s') /\
     wait_wf w' /\ entries w' = entries w ++ [Id (task s t)] /\
     asleep t (SchedUnlockIrq was (set_irq_on false s)) s' Q).
Proof.
  intros Hcs Hw Hc w. destruct (entries_remove (MWait m) (Id (task s t)) Hw) as (Hw1 & He & Hc1).
  unfold MutexLock_resume. rewrite IpcPark_resume_eq. change (get_wait m) with (MWait m). fold w in Hw1, He, Hc1 |- *.
  set (s1 := SchedUnlockIrq was (set_irq_on false s)). set (m1 := set_wait w m).
  assert (Hcs1 : can_sleep t s1 Q) by (unfold s1; destruct was; by repeat apply can_sleep_irq).
  assert (Ht : Id (task s1 t) = Id (task s t)) by (unfold s1; by destruct was).
  assert (Hi : irq_on s1 = was) by (unfold s1; by destruct was).
  destruct (Locked m) eqn:El; [right|left]; (split; [done|]).
  - destruct (IpcPark_loop_sleeps fuel t m1 s1 Q) as (w' & s' & E & Hw' & Ew & Ha);
      [done|cbn; unfold MutexIsFree; cbn; by rewrite El|done|cbn; lia|rewrite Ht; cbn; rewrite He; tauto|].
    rewrite Ht in E, Ew. rewrite E, some_bind, Hi. exists w', s'. cbn. by rewrite El.
  - rewrite IpcPark_loop_ready by (cbn; unfold MutexIsFree; cbn; by rewrite El).
    rewrite some_bind, decide_False by tauto. cbn [MutexLock_loop].
    destruct (MutexTryLock_spec m1 s1) as [[Hl _]|[_ ->]]; [cbn in Hl; congruence|].
    by rewrite decide_False, (can_sleep_self t s1 Q Hcs1), Ht by done.
Qed.

(** ** Turns of a lock task *)

(** The other task is not inside, and sees only the mutex. *)
Lemma seat_outside s t id pc l l' :
  seat s t id pc l -> inside pc = false -> TestMutex l' = TestMutex l -> seat s t id pc l'.
Proof.
  intros [H1 H2 H3 H4 H6 H7 H8 H9 H10 H11] Hi E. split; rewrite ?E; try done; intros Seen ->; done.
Qed.

Lemma other_outside s x y ix iy px py l :
  fight s x y ix iy px py l -> inside px = true -> inside py = false.
Proof.
  intros H Hx. destruct (inside py) eqn:E; [|done].
  destruct (st_in _ _ _ _ _ (fi_x _ _ _ _ _ _ _ _ H) Hx) as [_ H1].
  destruct (st_in _ _ _ _ _ (fi_y _ _ _ _ _ _ _ _ H) E) as [_ H2]. destruct (fi_ids _ _ _ _ _ _ _ _ H). congruence.
Qed.

(** The task whose turn it was moves on to [pc']. *)
Lemma seat_next s t id pc pc' l l' :
  seat s t id pc l -> pc <> LpGone -> pc' <> LpGone ->
  (id ∈ entries (MWait (TestMutex l')) -> exists self was, pc' = LpPark self was) ->
  (forall self was, pc' = LpPark self was -> self = id) ->
  (outside pc' = true -> Locked (TestMutex l') = true -> Owner (TestMutex l') <> id) ->
  (inside pc' = true -> Locked (TestMutex l') = true /\ Owner (TestMutex l') = id) ->
  (forall Seen, pc' = LpWrite Seen -> LockRounds l' = Seen) ->
  (forall Seen, pc' = LpCheck Seen -> LockRounds l' = Seen +w 1) -> seat s t id pc' l'.
Proof. intros [H1 H2 H3 H4 _ _ _ _ _ _] Hg Hg'. intros. split; try done. by auto. Qed.

(** While a task does not park, it is in no queue. *)
Lemma not_queued s t id pc l :
  seat s t id pc l -> (forall self was, pc <> LpPark self was) -> id ∉ entries (MWait (TestMutex l)).
Proof. intros H Hp Hin. destruct (st_wait _ _ _ _ _ H Hin) as (self & was & E). by apply (Hp self was). Qed.

Definition lock_turn_ok (s : Sched) (x y : nat) (ix iy : Z) (py : LockPc)
    (r : option (Out * LockPc * Lock * Sched)) : Prop :=
  exists out px' l' s', r = Some (out, px', l', s') /\ fight s' x y ix iy px' py l' /\
    match out with Done => True | Switched fs => Forall (own_frame x) fs end /\ goes x s s'.

(** A turn inside the critical section touches LockRounds only. *)
Lemma inside_turn s x y ix iy px px' py l l' :
  fight s x y ix iy px py l -> inside px = true -> inside px' = true ->
  TestMutex l' = TestMutex l -> LockBad l' = 0 -> is_u32 (LockRounds l') ->
  (forall Seen, px' = LpWrite Seen -> LockRounds l' = Seen) ->
  (forall Seen, px' = LpCheck Seen -> LockRounds l' = Seen +w 1) -> fight s x y ix iy px' py l'.
Proof.
  intros H Hi Hi' Em Hb Hr Hw Hc. pose proof (other_outside _ _ _ _ _ _ _ _ H Hi) as Ho.
  destruct H as [H1 H2 H3 H4 H5 H6 H7 H8 H9 H10']. split; rewrite ?Em; try done; [|by eapply seat_outside].
  assert (Hg : px <> LpGone) by (intros ->; discriminate Hi).
  assert (Hg' : px' <> LpGone) by (intros ->; discriminate Hi').
  eapply seat_next; [exact H3|exact Hg|exact Hg'|rewrite Em|..]; try done.
  - intros Hin. by destruct (not_queued _ _ _ _ _ H3); [intros ? ? ->|].
  - by intros ? ? ->.
  - by destruct px'.
  - rewrite Em. intros _. by apply (st_in _ _ _ _ _ H3).
Qed.

(** The mutex was free and the task takes it. *)
Lemma takes_turn s x y ix iy px py l w :
  fight s x y ix iy px py l -> px <> LpGone -> Locked (TestMutex l) = false ->
  wait_wf w -> (forall i, i ∈ entries w <-> i ∈ entries (MWait (TestMutex l)) /\ i <> ix) ->
  fight s x y ix iy LpRead py (set_TestMutex (mkMutex true ix w) l).
Proof.
  intros [H1 H2 H3 H4 H5 H6 H7 H8 H9] Hg Hl Hw He. split; try done.
  - eapply seat_next; [exact H3|done..| | | | | |]; cbn; try done. rewrite He. tauto.
  - pose proof (st_in _ _ _ _ _ H4) as Hin. destruct H4 as [G1 G2 G3 G4 G6 G7 G8 G9 G10 G11].
    split; cbn; try done; [rewrite He; tauto|].
    intros Hi. destruct (Hin Hi) as [E _]. congruence.
  - cbn. intros i [Hi _]%He. by apply H8.
Qed.

(** The mutex was taken and the task sleeps behind those who wait. *)
Lemma parks_turn s s1 s' x y ix iy px py l w was Q :
  fight s x y ix iy px py l -> goes x s s1 -> kept x s s1 -> SchedulerLocked s1 = SchedulerLocked s ->
  can_sleep x s1 Q -> px <> LpGone -> Locked (TestMutex l) = true -> inside px = false -> wait_wf w ->
  (forall i, i ∈ entries w -> i ∈ entries (MWait (TestMutex l)) \/ i = ix) -> asleep x s1 s' Q ->
  fight s' x y ix iy (LpPark ix was) py (set_TestMutex (mkMutex true (Owner (TestMutex l)) w) l).
Proof.
  intros H G Kx HL Hcs Hg Hl Hi Hw He Ha. pose proof (asleep_ok _ _ _ _ Hcs Ha) as Hok.
  apply (fight_kept s).
  - destruct H as [H1 H2 H3 H4 H5 H6 H7 H8 H9 H10']. split; try done.
    + eapply seat_next; [exact H3|done..| | | | | |]; cbn; try done; [by eauto|by intros ? ? [= <- _]].
    + destruct H4 as [G1 G2 G3 G4 G6 G7 G8 G9 G10 G11]. split; cbn; try done.
      * intros Hin. destruct (He _ Hin) as [Hm|E]; [by apply G6|by destruct H6].
      * intros Et _. by apply G8.
      * intros Hy. split; [done|by apply G9].
    + cbn. intros i Hin. destruct (He i Hin) as [Hm|E]; [by apply H8|by left].
  - done.
  - by rewrite (as_Locked _ _ _ _ Ha).
  - assert (H32 : (x < 32)%nat) by apply H.
    pose proof (st_alive _ _ _ _ _ (fi_x _ _ _ _ _ _ _ _ H) Hg) as (Hd & HI & HT). destruct Kx as [K1 K2 K3].
    intros _. split.
    + rewrite (as_blocked _ _ _ _ Ha). split; [done|]. intros; by destruct Hd.
    + by rewrite (as_ids _ _ _ _ Ha).
    + intros _. rewrite (as_tick _ _ _ _ Ha). auto.
  - intros _. assert (H32 : (x < 32)%nat) by apply H.
    apply (go_kept x); [|apply H|intros ->; by apply (fi_ne _ _ _ _ _ _ _ _ H)].
    etrans; [exact G|by eapply asleep_goes].
Qed.

(** MutexUnlock, with or without a task waiting. *)
Lemma unlock_turn s x y ix iy py l :
  fight s x y ix iy LpUnlock py l -> CurrentTask s = Some x ->
  exists m s', MutexUnlock (Some (TestMutex l)) s = Some (IpcOk, Some m, s') /\
    fight s' x y ix iy LpTop py (set_TestMutex m l) /\ goes x s s'.
Proof.
  intros H Hcur. pose proof H as [H1 H2 H3 H4 H5 H6 H7 H8 H9 H10'].
  destruct (seat_runs _ _ _ _ _ H3) as (Q & Hcs & HI); [done..|].
  destruct (st_in _ _ _ _ _ H3 eq_refl) as [HL HO].
  assert (Hheld : MutexHeldByCaller (Some (TestMutex l)) s = true).
  { unfold MutexHeldByCaller. rewrite HL, HO, (can_sleep_self _ _ _ Hcs), HI. apply Z.eqb_refl. }
  pose proof (not_queued _ _ _ _ _ H3 ltac:(done)) as Hnx.
  pose proof (other_outside _ _ _ _ _ _ _ _ H eq_refl) as Ho.
  destruct (MutexUnlock_spec (TestMutex l) s H7 H1)
    as [[Hf _]|(_ & w' & Hw' & [(id & l1 & l2 & s' & E & _ & _ & P & Hwk & Hok' & Eu)|(Hst & Ew & Eu)])]; [congruence|..];
    rewrite Eu.
  - assert (Hin : id ∈ entries (MWait (TestMutex l))) by (rewrite E; set_solver).
    assert (id = iy) as -> by (destruct (H8 _ Hin) as [->|]; done).
    assert (Hsub : forall i, i ∈ entries w' -> i ∈ entries (MWait (TestMutex l))) by (intros i Hi; rewrite <- P; by right).
    destruct (st_wait _ _ _ _ _ H4 Hin) as (self & was & Epy).
    pose proof (q_len _ _ (proj1 (cs_inv _ _ _ Hcs))) as Hlen.
    eexists _, s'. split; [done|]. split; [|eapply wake_goes; [done|apply H3|done]].
    apply (fight_kept s); [|done|by apply (wake_Locked iy)|intros _; eapply wake_kept; [done|apply H3|done]|
      intros _; eapply wake_kept; [done|apply H4|done]].
    split; try done.
    + eapply seat_next; [exact H3|done..| | | | | |]; cbn; try done. intros Hi. by apply Hsub in Hi.
    + destruct H4 as [G1 G2 G3 G4 G6 G7 G8 G9 G10 G11].
      split; cbn; try done; try (by rewrite Epy). intros Hi. by apply G6, Hsub.
    + cbn. intros i Hi. by apply H8, Hsub.
  - eexists _, s. split; [done|]. split; [|done]. split; try done.
    + eapply seat_next; [exact H3|done..| | | | | |]; cbn; try done. by rewrite Ew; intros ?%elem_of_nil.
    + destruct H4 as [G1 G2 G3 G4 G6 G7 G8 G9 G10 G11].
      split; cbn; try done; [by rewrite Ew; intros ?%elem_of_nil|by rewrite Ho].
    + cbn. rewrite Ew. by intros i ?%elem_of_nil.
Qed.

Lemma fight_irq s x y ix iy px py l b :
  fight s x y ix iy px py l ->
  fight (SchedUnlockIrq b (set_irq_on false s)) x y ix iy px py l.
Proof.
  intros H. apply (fight_kept s); [done| |by destruct b|by destruct b..].
  destruct (fi_ok _ _ _ _ _ _ _ _ H) as (Q & Hinv & n & Hn & Hr). exists Q.
  split; [by apply sched_inv_unlock, sched_inv_irq|]. exists n. by destruct b.
Qed.

(** The task leaves the loop, and SchedExitStub buries it. *)
Lemma return_turn s x y ix iy py l :
  fight s x y ix iy LpTop py l -> fight s x y ix iy LpReturn py l.
Proof.
  intros H. pose proof H as [H1 H2 H3 H4 H5 H6 H7 H8 H9 H10']. split; try done.
  eapply seat_next; [exact H3|done..| | | | | |]; try done; [|by intros _; apply (st_out _ _ _ _ _ H3)].
  intros Hin. by destruct (not_queued _ _ _ _ _ H3 ltac:(done)).
Qed.

Lemma exit_turn s x y ix iy py l :
  fight s x y ix iy LpReturn py l -> CurrentTask s = Some x ->
  exists s' fs, SchedExit s = Some (Switched fs, s') /\ Forall (own_frame x) fs /\
    fight s' x y ix iy LpGone py l /\ goes x s s'.
Proof.
  intros H Hcur. pose proof H as [H1 H2 H3 H4 H5 H6 H7 H8 H9 H10'].
  destruct (seat_runs _ _ _ _ _ H3) as (Q & Hcs & HI); [done..|].
  destruct (SchedExit_goes x s Q) as (s' & fs & E & Hf & Hok' & Hl' & Hd & G & Hcm); [apply Hcs|done|apply Hcs|done|].
  exists s', fs. split; [done|]. split; [done|]. split; [|done]. split; try done.
  - pose proof (not_queued _ _ _ _ _ H3 ltac:(done)) as Hn'.
    destruct H3 as [G1 G2 G3 G4 G6 G7 G8 G9 G10 G11]. by split.
  - eapply seat_kept; [exact H4|]. intros _. apply calm_kept, Hcm; [apply H4|done].
Qed.

Lemma lock_turn fuel s x y ix iy px py l :
  fight s x y ix iy px py l -> CurrentTask s = Some x ->
  lock_turn_ok s x y ix iy py (ipc_lock_task (S fuel) px l s).
Proof.
  intros H Hcur. pose proof (fi_x _ _ _ _ _ _ _ _ H) as Hx. unfold lock_turn_ok.
  destruct (decide (px = LpGone)) as [->|Hg]; [by exists Done, LpGone, l, s|].
  destruct (decide (px = LpUnborn)) as [->|Hu]; [by exists Done, LpUnborn, l, s|].
  destruct (seat_runs _ _ _ _ _ Hx) as (Q & Hcs & HI); [apply H|apply H|done|done|].
  pose proof (two_waiters _ _ _ _ _ _ _ _ H) as H16. pose proof (fi_wait _ _ _ _ _ _ _ _ H) as Hw.
  pose proof (st_lt _ _ _ _ _ Hx) as H32.
  destruct px as [| |Self was| |Seen|Seen| | |]; cbn [ipc_lock_task]; [done|..|done].
  - destruct (LockStop l =? 0); [|by exists Done, LpReturn, l, s; split; [|split; [apply return_turn|]]].
    pose proof (not_queued _ _ _ _ _ Hx ltac:(done)) as Hn. pose proof (st_out _ _ _ _ _ Hx eq_refl) as Ht.
    destruct (MutexLock_spec fuel x (TestMutex l) s Q) as
      [(HL & HO & _)|[(HL & ->)|[(_ & _ & Hf & _)|(HL & HO & w' & s' & -> & Hw' & Ew & Ha)]]];
      [done|done|by rewrite HI|by destruct (Ht HL); rewrite HO| |lia|]; rewrite !some_bind.
    + rewrite HI. eexists _, _, _, s. split; [done|]. split; [|done].
      eapply takes_turn; try done. intros i. split; [intros Hi; split; [done|by intros ->]|tauto].
    + rewrite (can_sleep_self _ _ _ Hcs), HI. rewrite HI in Ew. eexists _, _, _, s'. split; [done|].
      split; [|split; [by repeat constructor|by eapply asleep_goes]]. eapply (parks_turn s s); try done.
      intros i. rewrite Ew, elem_of_app, elem_of_list_singleton'. done.
  - rewrite (st_park _ _ _ _ _ Hx Self was eq_refl), <- HI.
    pose proof (fight_irq _ _ _ _ _ _ _ _ was H) as H1. pose proof (irq_goes x was s) as G1.
    set (s1 := SchedUnlockIrq was (set_irq_on false s)) in *.
    destruct (entries_remove (MWait (TestMutex l)) (Id (task s x)) Hw) as (Hw1 & He & _).
    destruct (MutexLock_resume_spec fuel x was (TestMutex l) s Q Hcs Hw H16)
      as [(HL & ->)|(HL & w' & s' & -> & Hw' & Ew & Ha)]; rewrite some_bind; rewrite HI in *.
    + eexists _, _, _, s1. split; [done|]. split; [|done]. by eapply takes_turn.
    + eexists _, _, _, s'. split; [done|].
      split; [|split; [by repeat constructor|etrans; [exact G1|by eapply asleep_goes]]].
      eapply (parks_turn s s1); try done; try (by unfold s1; destruct was).
      * unfold s1. destruct was; by repeat apply can_sleep_irq.
      * intros i. rewrite Ew, elem_of_app, elem_of_list_singleton', He. tauto.
  - eexists _, _, _, s. split; [done|]. split; [|done].
    eapply inside_turn; try done; [apply H|apply H|by intros ? [= <-]].
  - eexists _, _, _, s. split; [done|]. split; [|done].
    eapply inside_turn; try done; [apply H|apply wrap32_range|by intros ? [= <-]].
  - pose proof (st_check _ _ _ _ _ Hx Seen eq_refl) as ->. rewrite Z.eqb_refl. cbn [negb].
    eexists _, _, _, s. split; [done|]. split; [|done]. eapply inside_turn; try done; apply H.
  - destruct (unlock_turn _ _ _ _ _ _ _ H Hcur) as (m & s' & -> & Hf & G). rewrite !some_bind.
    by eexists _, _, _, s'.
  - destruct (exit_turn _ _ _ _ _ _ _ H Hcur) as (s' & fs & -> & Hf & Hx' & G). rewrite some_bind.
    by eexists _, _, _, s'.
Qed.

(** ** Worlds *)

Definition contending (ia ib : Z) (a : Contention) (s : Sched) : Prop :=
  fight s (LockA a) (LockB a) ia ib (apc a) (bpc a) (lock a).

Lemma fight_stop v s x y ix iy px py l :
  fight s x y ix iy px py l -> fight s x y ix iy px py (set_LockStop v l).
Proof.
  intros [H1 H2 [] [] H5 H6 H7 H8 H9 H10']. by split.
Qed.

Lemma fight_wait pc s x y ix iy px py l :
  fight s x y ix iy px py l -> fight s x y ix iy px py (snd (lock_wait pc l)).
Proof.
  intros H. destruct pc; cbn; repeat case_match; try done. by apply fight_stop.
Qed.

(** ** The set-up *)

(** A turn neither stops the test nor, before it is stopped, ends the task. *)
Definition stays (pc : LockPc) : bool := match pc with LpReturn | LpGone => false | _ => true end.

Lemma lock_turn_stays fuel px l s out px' l' s' :
  ipc_lock_task fuel px l s = Some (out, px', l', s') -> LockBad l = 0 -> LockBad l' = 0 -> px <> LpUnborn ->
  LockStop l' = LockStop l /\ px' <> LpUnborn /\ (LockStop l = 0 -> stays px = true -> stays px' = true).
Proof.
  assert (Htaken : forall Self o m, LockBad l = 0 -> lock_taken Self o (set_TestMutex m l) = (out, px', l') -> LockBad l' = 0 ->
    LockStop l' = LockStop l /\ px' <> LpUnborn /\ stays px' = true).
  { intros Self o m Hb. unfold lock_taken. destruct o as [st|]; [case_decide|]; intros [= <- <- <-]; cbn; try done. by rewrite Hb. }
  intros E Hb Hb' Hu. destruct px as [| |Self was| |Seen|Seen| | |]; cbn [ipc_lock_task] in E; try done; try (by injection E as <- <- <- <-).
  - destruct (Z.eqb_spec (LockStop l) 0) as [_|Hs]; [|by injection E as <- <- <- <-].
    destruct (MutexLock _ _ _) as [[[o m] s1]|]; [|done]. rewrite some_bind in E. destruct m as [m|]; [|done].
    rewrite some_bind in E. injection E as E <-. destruct (Htaken _ _ _ Hb E Hb') as (? & ? & ?). by split_and!.
  - destruct (MutexLock_resume _ _ _ _ _) as [[[o m] s1]|]; [|done]. rewrite some_bind in E. injection E as E <-.
    destruct (Htaken _ _ _ Hb E Hb') as (? & ? & ?). by split_and!.
  - injection E as <- <- <- <-. by case_match.
  - destruct (MutexUnlock _ _) as [[[st m] s1]|]; [|done]. rewrite some_bind in E. destruct m as [m|]; [|done].
    rewrite some_bind in E. by injection E as <- <- <- <-.
  - destruct (SchedExit s) as [[o s1]|]; [|done]. rewrite some_bind in E. by injection E as <- <- <- <-.
Qed.

(** A lock task that is not created yet stands in [fight] as one that is gone,
    in a descriptor that does not matter. *)
Definition seated (x t : nat) (p pc : LockPc) : Prop :=
  pc = LpUnborn /\ t = no_task /\ p = LpGone \/ pc <> LpUnborn /\ t = x /\ p = pc.

Definition clean_lock : Lock := mkLock (mkMutex false 0 wait_empty) 0 0 0.

Definition fighting (ia ib : Z) (a : Contention) (s : Sched) : Prop :=
  exists x y pa pb, fight s x y ia ib pa pb (lock a) /\ seated x (LockA a) pa (apc a) /\ seated y (LockB a) pb (bpc a) /\
    (apc a = LpUnborn -> bpc a = LpUnborn /\ lock a = clean_lock) /\
    (bpc a = LpUnborn -> LockStop (lock a) = 0 /\ stays (apc a) = true /\ (apc a <> LpUnborn -> NextTaskId s = ib)).

Lemma fighting_unborn ia ib a s :
  fighting ia ib a s -> (apc a = LpUnborn <-> LockA a = no_task) /\ (bpc a = LpUnborn <-> LockB a = no_task).
Proof.
  intros (x & y & pa & pb & H & SA & SB & _). pose proof (st_lt _ _ _ _ _ (fi_x _ _ _ _ _ _ _ _ H)).
  pose proof (st_lt _ _ _ _ _ (fi_y _ _ _ _ _ _ _ _ H)). unfold seated, no_task in *.
  destruct SA as [(? & ? & ?)|(? & ? & ?)], SB as [(? & ? & ?)|(? & ? & ?)]; split; split; intros; done || lia.
Qed.

Lemma fighting_ok ia ib a s : fighting ia ib a s -> sched_ok s /\ SchedulerLocked s = 0.
Proof. by intros (? & ? & ? & ? & [] & _). Qed.

Lemma fighting_counts ia ib a s : fighting ia ib a s -> LockBad (lock a) = 0 /\ is_u32 (LockRounds (lock a)).
Proof. by intros (? & ? & ? & ? & [] & _). Qed.

Lemma fighting_contending ia ib a s :
  fighting ia ib a s -> apc a <> LpUnborn -> bpc a <> LpUnborn -> contending ia ib a s.
Proof. intros (x & y & pa & pb & H & [[]|(_ & <- & ->)] & [[]|(_ & <- & ->)] & _) Ha Hb; done. Qed.

Lemma fighting_apart ia ib a s : fighting ia ib a s -> ~ (inside (apc a) = true /\ inside (bpc a) = true).
Proof.
  intros H [H1 H2]. assert (Ha : apc a <> LpUnborn) by (intros E; by rewrite E in H1).
  assert (Hb : bpc a <> LpUnborn) by (intros E; by rewrite E in H2).
  pose proof (other_outside _ _ _ _ _ _ _ _ (fighting_contending _ _ _ _ H Ha Hb) H1). congruence.
Qed.

Lemma contending_fighting ia ib a s :
  contending ia ib a s -> apc a <> LpUnborn -> bpc a <> LpUnborn -> fighting ia ib a s.
Proof. intros H Ha Hb. exists (LockA a), (LockB a), (apc a), (bpc a). split; [done|]. by split_and!; [right|right|..]. Qed.

(** The task is there. *)
Definition present (pc : LockPc) : bool := match pc with LpUnborn | LpGone => false | _ => true end.

Lemma fighting_kept ia ib a s s' :
  fighting ia ib a s -> sched_ok s' -> SchedulerLocked s' = SchedulerLocked s ->
  (bpc a = LpUnborn -> NextTaskId s' = NextTaskId s) ->
  (present (apc a) = true -> kept (LockA a) s s') -> (present (bpc a) = true -> kept (LockB a) s s') ->
  fighting ia ib a s'.
Proof.
  intros (x & y & pa & pb & H & SA & SB & HA & HB) Hok Hl HN Ka Kb. exists x, y, pa, pb.
  split; [|split_and!; try done; intros E; destruct (HB E) as (? & ? & HB'); rewrite (HN E); done].
  apply (fight_kept _ _ _ _ _ _ _ _ _ H Hok Hl).
  - intros Hg. destruct SA as [(_ & _ & ->)|(Hu & <- & ->)]; [done|]. apply Ka. by destruct (apc a).
  - intros Hg. destruct SB as [(_ & _ & ->)|(Hu & <- & ->)]; [done|]. apply Kb. by destruct (bpc a).
Qed.

Lemma fighting_alive ia ib a s :
  fighting ia ib a s ->
  (present (apc a) = true -> (LockA a < 32)%nat /\ State (task s (LockA a)) <> TaskDead /\ WakeTick (task s (LockA a)) = 0) /\
  (present (bpc a) = true -> (LockB a < 32)%nat /\ State (task s (LockB a)) <> TaskDead /\ WakeTick (task s (LockB a)) = 0).
Proof.
  intros (x & y & pa & pb & H & SA & SB & _). split; intros Hp.
  - destruct SA as [(E & _)|(_ & -> & ->)]; [by rewrite E in Hp|]. pose proof (fi_x _ _ _ _ _ _ _ _ H) as Hx.
    split; [apply Hx|]. destruct (st_alive _ _ _ _ _ Hx) as (? & _ & ?); [intros E; by rewrite E in Hp|done].
  - destruct SB as [(E & _)|(_ & -> & ->)]; [by rewrite E in Hp|]. pose proof (fi_y _ _ _ _ _ _ _ _ H) as Hy.
    split; [apply Hy|]. destruct (st_alive _ _ _ _ _ Hy) as (? & _ & ?); [intros E; by rewrite E in Hp|done].
Qed.

(** Before either is there the ids are open. *)
Lemma fighting_clean ia ib a s :
  sched_ok s -> SchedulerLocked s = 0 -> ia <> 0 -> ib <> 0 -> ia <> ib -> lock a = clean_lock ->
  LockA a = no_task /\ LockB a = no_task -> apc a = LpUnborn /\ bpc a = LpUnborn -> fighting ia ib a s.
Proof.
  intros Hok Hl Ha Hb Hn El [EA EB] [Ea Eb]. exists 1%nat, 2%nat, LpGone, LpGone. rewrite El, Ea.
  split; [|by split_and!; [left|left|..]].
  assert (Hs : forall t id, (t < 32)%nat -> t <> 0%nat -> id <> 0 -> seat s t id LpGone clean_lock).
  { intros. split; try done. by intros ?%elem_of_nil. }
  split; cbn; try done; [apply Hs; done || lia..|apply wait_empty_wf|by intros i ?%elem_of_nil].
Qed.

Lemma fighting_ids ia ib ia' ib' a s :
  fighting ia ib a s -> apc a = LpUnborn -> ia' <> 0 -> ib' <> 0 -> ia' <> ib' -> fighting ia' ib' a s.
Proof.
  intros H E ? ? ?. destruct (fighting_unborn _ _ _ _ H) as [Ua Ub]. destruct H as (? & ? & ? & ? & [] & _ & _ & HA & _).
  destruct (HA E) as [Eb El]. apply fighting_clean; try done. by rewrite <- Ua, <- Ub.
Qed.

(** The start. *)
Lemma contention_start_ok m :
  exists a, contention_start m = Some a /\ lock a = clean_lock /\ (LockA a = no_task /\ LockB a = no_task) /\
    (apc a = LpUnborn /\ bpc a = LpUnborn) /\ mpc a = MpWait 0.
Proof. by eexists. Qed.

Lemma created_seat eip esp t s s' id l :
  created eip esp t s s' -> (t < 32)%nat -> t <> 0%nat -> WakeTick (task s t) = 0 -> id = NextTaskId s -> 0 < id ->
  id ∉ entries (MWait (TestMutex l)) -> (Locked (TestMutex l) = true -> Owner (TestMutex l) <> id) ->
  seat s' t id LpTop l.
Proof.
  intros [H1 _ _ _ H5 H6 _ _ _ _ _ _] Ht H0 Hw -> Hp He Hl.
  split; rewrite ?H5; try done; [lia|]. intros _. split; [done|]. by rewrite H6.
Qed.

(** LockA is there. *)
Lemma LockA_born_ok ia ib ae aS t a s s' :
  fighting ia ib a s -> apc a = LpUnborn -> created ae aS t s s' -> sched_ok s' -> (t < 32)%nat -> t <> 0%nat ->
  WakeTick (task s t) = 0 -> ia = NextTaskId s -> ib = ia + 1 -> 0 < ia -> fighting ia ib (LockA_born (Some t) a) s'.
Proof.
  intros (x & y & pa & pb & H & SA & SB & HA & HB) E C Hok Ht H0 Hw Ei Ei2 Hp. destruct (HA E) as [Eb El].
  destruct SB as [(_ & EB & _)|(Hn & _)]; [|done].
  exists t, (if decide (t = 1%nat) then 2%nat else 1%nat), LpTop, LpGone. cbn. rewrite El.
  split; [|split_and!; [by right|by left|done|intros _; split_and!; try done; rewrite (cr_Next _ _ _ _ _ C); lia]].
  split; cbn; try done; try lia.
  - rewrite (cr_Locked _ _ _ _ _ C). apply H.
  - eapply created_seat; try done. by intros ?%elem_of_nil.
  - split; try done; try (case_decide; lia); try lia. by intros ?%elem_of_nil.
  - case_decide; congruence.
  - apply wait_empty_wf.
  - by intros i ?%elem_of_nil.
Qed.

(** Then LockB is. *)
Lemma LockB_born_ok ia ib be bS t a s s' :
  fighting ia ib a s -> apc a <> LpUnborn -> bpc a = LpUnborn -> created be bS t s s' -> sched_ok s' ->
  (t < 32)%nat -> t <> 0%nat -> State (task s t) = TaskDead -> WakeTick (task s t) = 0 -> 0 < NextTaskId s ->
  fighting ia ib (LockB_born (Some t) a) s'.
Proof.
  intros (x & y & pa & pb & H & SA & SB & HA & HB) Ea Eb C Hok Ht H0 Hd Hw Hp.
  destruct (HB Eb) as (Hst & Hsy & HN). pose proof (HN Ea) as <-.
  destruct SA as [[]|(_ & Ex & ->)]; [done|]. destruct SB as [(_ & EB & ->)|(Hn & _)]; [|done].
  destruct H as [H1 H2 H3 H4 H5 H6 H7 H8 H9 H10'].
  assert (Hne : x <> t). { intros ->. apply (st_alive _ _ _ _ _ H3); [|done]. by destruct (apc a). }
  exists x, t, (apc a), LpTop. cbn. split; [|split; [by right|]; split; [by right|]; split; [by intros Ha; apply Ea in Ha|done]].
  split; cbn; try done.
  - by rewrite (cr_Locked _ _ _ _ _ C).
  - eapply seat_kept; [done|]. intros _. by eapply calm_kept, created_calm.
  - eapply created_seat; try done; [|by apply H4]. intros Hin. by destruct (st_wait _ _ _ _ _ H4 Hin) as (? & ? & ?).
Qed.

(** ** Turns *)

Lemma goes_room n t s s' :
  goes t s s' -> sched_ok s -> sched_ok s' -> State (task s t) <> TaskDead -> WakeTick (task s t) = 0 ->
  room n s -> room n s'.
Proof.
  intros G Hok Hok' Hd Hw Hr. apply (room_kept n s); try done.
  - intros i Hi Hdi. apply (go_kept _ _ _ G i Hi); [congruence|done].
  - intros i Hi Hdi. destruct (decide (i = t)) as [->|Hne]; [by apply (go_WakeTick _ _ _ G)|].
    destruct (go_kept _ _ _ G i Hi Hne) as [K1 _ K3]. by apply K3, Hr, K1.
Qed.

(** A turn of a task other than the idle one. *)
Lemma fighting_turn fuel ia ib a s t :
  fighting ia ib a s -> CurrentTask s = Some t -> t <> 0%nat ->
  exists out a' s', contention_body (S fuel) t a s = Some (out, a', s') /\ fighting ia ib a' s' /\
    match out with Done => True | Switched fs => Forall (own_frame t) fs end /\
    (LockA a' = LockA a /\ LockB a' = LockB a /\ mpc a' = mpc a) /\
    (t <> LockA a -> apc a' = apc a) /\ (t <> LockB a -> bpc a' = bpc a) /\ goes t s s' /\
    (forall n, room n s -> room n s').
Proof.
  intros HF Ht H0. destruct (fighting_unborn _ _ _ _ HF) as [Ua Ub]. destruct (fighting_alive _ _ _ _ HF) as [La Lb].
  pose proof HF as (x & y & pa & pb & H & SA & SB & HA & HB).
  pose proof (fi_ok _ _ _ _ _ _ _ _ H) as Hok. destruct Hok as (Q & Hinv & _).
  destruct (g_cur _ _ (proj2 Hinv) t Ht) as [H32 _]. unfold contention_body.
  assert (Ea : mkContention (lock a) (LockA a) (LockB a) (apc a) (bpc a) (mpc a) = a) by (by destruct a).
  assert (Hidle : exists out a' s', Some (Done, a, s) = Some (out, a', s') /\ fighting ia ib a' s' /\
    match out with Done => True | Switched fs => Forall (own_frame t) fs end /\
    (LockA a' = LockA a /\ LockB a' = LockB a /\ mpc a' = mpc a) /\
    (t <> LockA a -> apc a' = apc a) /\ (t <> LockB a -> bpc a' = bpc a) /\ goes t s s' /\
    (forall n, room n s -> room n s')) by (by exists Done, a, s).
  destruct (decide (t = LockA a)) as [->|Na].
  { destruct SA as [(_ & E & _)|(Hu & Ex & ->)]; [unfold no_task in E; lia|]. rewrite <- Ex in *. clear x Ex.
    destruct (decide (apc a = LpGone)) as [Eg|Hg].
    { replace (ipc_lock_task _ _ _ _) with (Some (Done, apc a, lock a, s)) by (by rewrite Eg).
    rewrite some_bind, Ea. exact Hidle. }
    destruct (lock_turn fuel s _ _ _ _ _ _ _ H Ht) as (out & pc & l & s' & E & Hf & Hout & G).
    destruct (lock_turn_stays _ _ _ _ _ _ _ _ E) as (Es & Hu' & Hst); [apply H|apply Hf|done|]. rewrite E, some_bind.
    eexists _, _, s'. split; [done|]. cbn [LockA LockB mpc apc bpc].
    split; [|split_and!; try done; intros n; apply (goes_room n (LockA a)); try done; [apply H|apply Hf|apply La; by destruct (apc a)..]].
    exists (LockA a), y, pc, pb. cbn. split; [done|]. split; [by right|]. split; [done|]. split; [done|].
    intros Eb. destruct (HB Eb) as (? & ? & HN). rewrite Es. split_and!; [done|by apply Hst|]. intros _. rewrite (go_NextId _ _ _ G). by apply HN. }
  destruct (decide (t = LockB a)) as [->|Nb]; [|by rewrite decide_False].
  destruct SB as [(_ & E & _)|(Hu & Ex & ->)]; [unfold no_task in E; lia|]. rewrite <- Ex in *. clear y Ex.
  destruct (decide (bpc a = LpGone)) as [Eg|Hg].
  { replace (ipc_lock_task _ _ _ _) with (Some (Done, bpc a, lock a, s)) by (by rewrite Eg).
    rewrite some_bind, Ea. exact Hidle. }
  destruct (lock_turn fuel s _ _ _ _ _ _ _ (fight_swap _ _ _ _ _ _ _ _ H) Ht) as (out & pc & l & s' & E & Hf & Hout & G).
  destruct (lock_turn_stays _ _ _ _ _ _ _ _ E) as (Es & Hu' & Hst); [apply H|apply Hf|done|]. rewrite E, some_bind. apply fight_swap in Hf.
  eexists _, _, s'. split; [done|]. cbn [LockA LockB mpc apc bpc].
  split; [|split_and!; try done; intros n; apply (goes_room n (LockB a)); try done; [apply H|apply Hf|apply Lb; by destruct (bpc a)..]].
  exists x, (LockB a), pa, pc. cbn. split; [done|]. split; [done|]. split; [by right|]. split; [|done].
  intros Eu. by destruct (HA Eu).
Qed.

(** A turn of the idle task in its waits. *)
Lemma fighting_wait ia ib a s :
  fighting ia ib a s -> apc a <> LpUnborn -> bpc a <> LpUnborn ->
  let (pc, l) := lock_wait (mpc a) (lock a) in fighting ia ib (mkContention l (LockA a) (LockB a) (apc a) (bpc a) pc) s.
Proof.
  intros H Ha Hb. pose proof (fight_wait (mpc a) _ _ _ _ _ _ _ _ (fighting_contending _ _ _ _ H Ha Hb)) as Hf.
  destruct (lock_wait (mpc a) (lock a)) as [pc l]. by apply contending_fighting.
Qed.

(** ** Worlds *)

(** What the test finds: as [test_ready], without the port. *)
Record lock_ready (s : Sched) : Prop := {
  lr_ok : sched_ok s;
  lr_free : SchedulerLocked s = 0;
  lr_room : TaskCountValue s <= 30;
  lr_ids : NextTaskId s + 2 < 4294967296;
  lr_dead : forall i, (i < 32)%nat -> State (task s i) = TaskDead -> WakeTick (task s i) = 0 }.

(** Where the idle task stands in the set-up, and what it can rely on there. *)
Definition lock_prepared (ia ib : Z) (p : LockUp) (a : Contention) (s : Sched) : Prop :=
  match p with
  | LuA => apc a = LpUnborn /\ NextTaskId s = ia /\ ib + 1 < 4294967296 /\ room 30 s
  | LuB => apc a <> LpUnborn /\ bpc a = LpUnborn /\ ib + 1 < 4294967296 /\ room 31 s
  | LuDone => apc a <> LpUnborn /\ bpc a <> LpUnborn
  | LuFailed => False
  end.

Definition contesting (ia ib : Z) (x : LockUp * Contention) (s : Sched) : Prop :=
  let (p, a) := x in fighting ia ib a s /\ lock_prepared ia ib p a s /\ ib = ia + 1.

Section Worlds.
Context (stub ae aS be bS : Z) (fuel : nat) (ia ib : Z).

Lemma lock_setup_ok p a s :
  contesting ia ib (p, a) s -> p <> LuDone ->
  exists p' a' s', lock_setup stub ae aS be bS p a s = Some (p', a', s') /\ contesting ia ib (p', a') s'.
Proof.
  intros (H & HP & Hi) Hne. pose proof H as (x & y & pa & pb & Hf & _). pose proof (fi_ok _ _ _ _ _ _ _ _ Hf) as Hok.
  destruct (fighting_unborn _ _ _ _ H) as [Ua Ub]. destruct p; cbn [lock_setup]; [..|done|done].
  - destruct HP as (E & En & Hb & Hr).
    destruct (create_ready stub (text "LockA") ae aS s) as (t & s1 & -> & C & Hok1 & Ht & Hd & Hp); [done|destruct Hr; lia|lia|].
    rewrite some_bind. pose proof (dead_nonzero _ _ Hok Hd). eexists LuB, _, s1. split; [done|].
    split; [eapply LockA_born_ok; try done; [by apply Hr|lia]|]. split; [|done]. cbn. split; [done|].
    destruct H as (? & ? & ? & ? & _ & _ & _ & HA & _). split; [by apply HA|]. split; [done|]. by apply (room_created 30 _ _ _ _ _ Hr C).
  - destruct HP as (Ea & Eb & Hb & Hr).
    assert (En : NextTaskId s = ib) by (destruct H as (? & ? & ? & ? & _ & _ & _ & _ & HB); by apply HB).
    destruct (create_ready stub (text "LockB") be bS s) as (t & s1 & -> & C & Hok1 & Ht & Hd & Hp); [done|destruct Hr; lia|lia|].
    rewrite some_bind. pose proof (dead_nonzero _ _ Hok Hd). cbv zeta. cbn [LockA LockB LockB_born].
    rewrite decide_False by (rewrite <- Ua; unfold no_task; intros [?|?]; [done|lia]).
    eexists LuDone, _, s1. split; [done|]. split; [eapply LockB_born_ok; try done; by apply Hr|]. split; [|done]. by split.
Qed.

#[export] Instance contesting_inv :
  TaskInvariant (contest_body stub ae aS be bS (S fuel)) (contesting ia ib) (fun _ => []) (fun _ => 0).
Proof.
  split; [by intros [p a] s ((? & ? & ? & ? & [] & _) & _)| |].
  - intros [p a] s s' (H & HP & Hi) Hok Hl HN HD Hc. destruct (fighting_alive _ _ _ _ H) as [La Lb].
    assert (Hcalm : forall t, (t < 32)%nat /\ State (task s t) <> TaskDead /\ WakeTick (task s t) = 0 -> kept t s s')
      by (intros t (? & _ & ?); apply calm_kept, Hc; [done|by intros _]).
    split; [apply (fighting_kept _ _ _ _ _ H Hok Hl); [done|intros Hp; by apply Hcalm, La|intros Hp; by apply Hcalm, Lb]|].
    split; [|done].
    assert (Hroom : forall n, room n s -> room n s').
    { destruct H as (? & ? & ? & ? & [] & _). intros n Hr. apply (room_kept n s); try done; [by apply HD|].
      intros i Hi' Hd. apply HD in Hd; [|done]. assert (Hw : WakeTick (task s i) = 0) by by apply Hr.
      apply (cm_WakeTick _ _ (Hc i Hi' (fun _ => Hw))), Hw. }
    unfold lock_prepared in *. rewrite HN. destruct p; naive_solver.
  - intros t [p a] s Hx Ht. rewrite (decide_False (P := t ∈ [])) by set_solver. unfold contest_body. cbn [fst snd].
    destruct (decide (t = 0%nat /\ p <> LuDone)) as [[-> Hp]|Hn].
    { destruct (lock_setup_ok p a s Hx Hp) as (p' & a' & s' & -> & Hx'). rewrite some_bind. by eexists Done, _, s'. }
    destruct Hx as (H & HP & Hi). destruct (decide (t = 0%nat)) as [->|H0].
    { assert (p = LuDone) as -> by (destruct (decide (p = LuDone)); tauto). destruct HP as [Ha Hb].
      destruct (fighting_unborn _ _ _ _ H) as [Ua Ub].
      assert (N1 : 0%nat <> LockA a /\ 0%nat <> LockB a).
      { destruct (fighting_contending _ _ _ _ H Ha Hb) as [_ _ [] [] _ _ _ _ _ _]. split; congruence. }
      unfold contention_body. rewrite !decide_False by apply N1. rewrite decide_True by done.
      pose proof (fighting_wait _ _ _ _ H Ha Hb) as Hw. destruct (lock_wait (mpc a) (lock a)) as [pc l]. rewrite some_bind.
      by eexists Done, _, s. }
    destruct (fighting_turn fuel _ _ _ _ _ H Ht H0) as (out & a' & s' & -> & H' & Hf & (E1 & E2 & _) & _ & _ & G & Hr).
    rewrite some_bind. eexists out, _, s'. split; [done|]. split; [|done]. split; [done|]. split; [|done].
    destruct (fighting_unborn _ _ _ _ H) as [Ua Ub], (fighting_unborn _ _ _ _ H') as [Ua' Ub'].
    assert (UA : apc a' = LpUnborn <-> apc a = LpUnborn) by (by rewrite Ua, Ua', E1).
    assert (UB : bpc a' = LpUnborn <-> bpc a = LpUnborn) by (by rewrite Ub, Ub', E2).
    unfold lock_prepared in *. rewrite (go_NextId _ _ _ G). destruct p; naive_solver.
Qed.
End Worlds.

(** ** Caught *)

(** One task, [x], is inside its critical section or has been, and the other,
    [y], waits in MutexLock: either asleep in the queue, or handed the mutex by
    an unlock that its park loop does not notice. [n] holds the number of rounds
    before the catcher's write of LockRounds and after it. *)
Definition due (n : Z * Z) (px : LockPc) (l : Lock) : Prop :=
  match px with LpRead | LpWrite _ => LockRounds l = n.1 /\ n.2 = n.1 +w 1 | _ => LockRounds l = n.2 end.

Record doomed (n : Z * Z) (s : Sched) (x y : nat) (ix iy : Z) (px py : LockPc) (l : Lock) : Prop := {
  dm_fight : fight s x y ix iy px py l;
  dm_born : px <> LpUnborn;
  dm_py : exists was, py = LpPark iy was;
  dm_locked : Locked (TestMutex l) = true;
  dm_owner : if inside px then iy ∈ entries (MWait (TestMutex l)) else Owner (TestMutex l) = iy;
  dm_px : forall self was, px = LpPark self was -> ix ∈ entries (MWait (TestMutex l));
  dm_bx : ix ∈ entries (MWait (TestMutex l)) -> State (task s x) = TaskBlocked;
  dm_by : iy ∈ entries (MWait (TestMutex l)) -> State (task s y) = TaskBlocked;
  dm_gone : px = LpGone -> State (task s x) = TaskDead;
  dm_due : due n px l }.

(** Turns the two still take: none once both are asleep or gone. *)
Definition throes (px : LockPc) (iy : Z) (l : Lock) : Z :=
  match px with
  | LpRead => 7 | LpWrite _ => 6 | LpCheck _ => 5 | LpUnlock => 4 | LpTop => 2 | LpReturn => 1
  | LpPark _ _ | LpUnborn | LpGone => 0
  end + (if decide (iy ∈ entries (MWait (TestMutex l))) then 0 else 1).

Lemma throes_bound px iy l : 0 <= throes px iy l <= 8.
Proof. unfold throes. destruct px, (decide _); lia. Qed.

Lemma throes_caught px iy l : iy ∈ entries (MWait (TestMutex l)) -> throes px iy l <= 7.
Proof. intros H. unfold throes. rewrite decide_True by done. destruct px; lia. Qed.

Lemma running_state s x : sched_ok s -> CurrentTask s = Some x -> State (task s x) = TaskRunning.
Proof. intros (Q & _ & c & Hc & Hr) Hx. congruence. Qed.

Lemma irq_calm i was s : calm i s (SchedUnlockIrq was (set_irq_on false s)).
Proof. by apply calm_same; destruct was. Qed.

(** The catcher's turn. *)
Lemma doomed_turn_x fuel n s x y ix iy px py l :
  doomed n s x y ix iy px py l -> CurrentTask s = Some x ->
  exists out px' l' s', ipc_lock_task (S fuel) px l s = Some (out, px', l', s') /\
    doomed n s' x y ix iy px' py l' /\
    match out with Done => True | Switched fs => Forall (own_frame x) fs end /\
    throes px' iy l' + 1 <= throes px iy l.
Proof.
  intros H Hcur. pose proof (dm_fight _ _ _ _ _ _ _ _ _ H) as Hf. pose proof (fi_x _ _ _ _ _ _ _ _ Hf) as Hx.
  pose proof (running_state _ _ (fi_ok _ _ _ _ _ _ _ _ Hf) Hcur) as Hrun.
  destruct (lock_turn fuel s x y ix iy px py l Hf Hcur) as (out & px' & l' & s' & E & Hf' & Hout & _).
  exists out, px', l', s'. split; [done|].
  assert (HD : doomed n s' x y ix iy px' py l' /\ throes px' iy l' + 1 <= throes px iy l);
    [|by destruct HD].
  pose proof H as [_ Hborn Hpy HL Ho Hpx Hbx Hby Hg Hdue].
  destruct px as [| |Self was| |Seen|Seen| | |]; cbn [ipc_lock_task inside due] in *; [done|..].
  - destruct (seat_runs _ _ _ _ _ Hx) as (Q & Hcs & HI); [apply Hf|apply Hf|done|done|].
    destruct (LockStop l =? 0); [|injection E as <- <- <- <-; split; [by split|unfold throes; lia]].
    pose proof (not_queued _ _ _ _ _ Hx ltac:(done)) as Hn.
    pose proof (two_waiters _ _ _ _ _ _ _ _ Hf). pose proof (st_out _ _ _ _ _ Hx eq_refl HL) as Hne.
    destruct (MutexLock_spec fuel x (TestMutex l) s Q) as
      [(_ & HO & _)|[(? & _)|[(_ & _ & ? & _)|(_ & _ & w' & s2 & Em & Hw' & Ew & Ha)]]];
      [apply Hf|done|by rewrite HI|congruence..|lia|].
    rewrite Em, !some_bind in E. injection E as <- <- <- <-. rewrite HI in Ew.
    assert (Hin : ix ∈ entries w') by (rewrite Ew; set_solver). split.
    + split; cbn [TestMutex set_TestMutex MWait Locked Owner]; try done.
      * intros _. apply Ha.
      * rewrite Ew. intros Hy. assert (iy ∈ entries (MWait (TestMutex l))) as Hy'.
        { apply elem_of_app in Hy as [|Hy%elem_of_list_singleton']; [done|].
          by destruct (fi_ids _ _ _ _ _ _ _ _ Hf). }
        apply (as_others _ _ _ _ Ha); [apply Hf|intros E'; by apply (fi_ne _ _ _ _ _ _ _ _ Hf)|by apply Hby].
    + unfold throes. do 2 case_decide; lia.
  - rewrite Hbx in Hrun by by eapply Hpx. done.
  - injection E as <- <- <- <-. split; [|unfold throes; lia]. by split.
  - injection E as <- <- <- <-. split; [|unfold throes; cbn; lia]. split; try done. cbn.
    destruct Hdue as [Hm ->]. by rewrite <- Hm, (st_write _ _ _ _ _ Hx Seen eq_refl).
  - rewrite (st_check _ _ _ _ _ Hx Seen eq_refl), Z.eqb_refl in E. cbn [negb] in E.
    injection E as <- <- <- <-. split; [|unfold throes; lia]. by split.
  - destruct (seat_runs _ _ _ _ _ Hx) as (Q & Hcs & HI); [apply Hf|apply Hf|done|done|].
    destruct (st_in _ _ _ _ _ Hx eq_refl) as [_ HO].
    pose proof (not_queued _ _ _ _ _ Hx ltac:(done)) as Hn. pose proof (fi_y _ _ _ _ _ _ _ _ Hf) as Hy.
    destruct Hpy as (was & Epy).
    assert (Hheld : MutexHeldByCaller (Some (TestMutex l)) s = true)
      by (unfold MutexHeldByCaller; rewrite HL, HO, (can_sleep_self _ _ _ Hcs), HI; apply Z.eqb_refl).
    assert (Hlive : live s iy).
    { destruct (st_alive _ _ _ _ _ Hy) as (Hd & HIy & _); [by rewrite Epy|].
      apply (live_task s Q); [apply Hcs|]. split; [apply Hy|]. exists y. rewrite <- HIy.
      eapply SchedFind_alive; [apply Hcs|apply Hy|done]. }
    destruct (MutexUnlock_spec (TestMutex l) s) as
      [[Hh _]|(_ & w' & Hw' & [(id & l1 & l2 & s2 & El & _ & _ & P & Hwk & _ & Eu)|(Hst & _)])];
      [apply Hf|apply Hf|congruence| |by destruct (Hst iy)].
    assert (id = iy) as ->.
    { destruct (fi_only _ _ _ _ _ _ _ _ Hf id) as [->|]; [rewrite El; set_solver| |done].
      destruct Hn. rewrite El. set_solver. }
    rewrite Eu, !some_bind in E. injection E as <- <- <- <-.
    assert (Hy' : iy ∉ entries w').
    { pose proof (w_nodup _ (fi_wait _ _ _ _ _ _ _ _ Hf)) as Hnd. rewrite <- P in Hnd.
      by apply NoDup_cons in Hnd as [? _]. }
    assert (Hx' : ix ∉ entries w') by (intros Hi; apply Hn; rewrite <- P; by right). split.
    + split; cbn [TestMutex set_TestMutex MWait Locked Owner inside]; try done. by exists was.
    + unfold throes. cbn. rewrite decide_False by done. case_decide; lia.
  - destruct (seat_runs _ _ _ _ _ Hx) as (Q & Hcs & HI); [apply Hf|apply Hf|done|done|].
    destruct (SchedExit_goes x s Q) as (s2 & fs & E2 & _ & _ & _ & Hd & _ & Hcm); [apply Hcs|done|apply Hcs|apply Hcs|].
    rewrite E2, some_bind in E. injection E as <- <- <- <-. split; [|unfold throes; lia].
    split; try done.
    + intros Hin. by destruct (not_queued _ _ _ _ _ Hx ltac:(done)).
    + intros Hin. apply Hcm; [apply Hf|intros E'; by apply (fi_ne _ _ _ _ _ _ _ _ Hf)|by apply Hby].
  - rewrite Hg in Hrun by done. done.
Qed.

(** The turn of the one that was handed the mutex: it parks again. *)
Lemma doomed_turn_y fuel n s x y ix iy px py l :
  doomed n s x y ix iy px py l -> CurrentTask s = Some y ->
  exists out py' l' s', ipc_lock_task (S fuel) py l s = Some (out, py', l', s') /\
    doomed n s' x y ix iy px py' l' /\
    match out with Done => True | Switched fs => Forall (own_frame y) fs end /\
    throes px iy l' + 1 <= throes px iy l.
Proof.
  intros H Hcur. pose proof (dm_fight _ _ _ _ _ _ _ _ _ H) as Hf. pose proof (fi_y _ _ _ _ _ _ _ _ Hf) as Hy.
  pose proof (running_state _ _ (fi_ok _ _ _ _ _ _ _ _ Hf) Hcur) as Hrun.
  pose proof H as [_ Hborn (was & Epy) HL Ho Hpx Hbx Hby Hg Hdue].
  destruct (lock_turn fuel s y x iy ix py px l (fight_swap _ _ _ _ _ _ _ _ Hf) Hcur)
    as (out & py' & l' & s' & E & Hf' & Hout & G). apply fight_swap in Hf'.
  exists out, py', l', s'. split; [done|].
  assert (HD : doomed n s' x y ix iy px py' l' /\ throes px iy l' + 1 <= throes px iy l); [|by destruct HD].
  assert (Hni : iy ∉ entries (MWait (TestMutex l))) by (intros Hi; rewrite Hby in Hrun by done; done).
  assert (Hin : inside px = false) by (destruct (inside px); [by destruct Hni|done]). rewrite Hin in Ho.
  destruct (seat_runs _ _ _ _ _ Hy) as (Q & Hcs & HI); [apply Hf|apply Hf|done|by rewrite Epy|].
  rewrite Epy in E. cbn [ipc_lock_task] in E. rewrite <- HI in E.
  destruct (MutexLock_resume_spec fuel y was (TestMutex l) s Q Hcs)
    as [(? & _)|(_ & w' & s2 & Em & Hw' & Ew & Ha)];
    [apply Hf|by apply (two_waiters _ _ _ _ _ _ _ _ Hf)|congruence|].
  rewrite Em, some_bind in E. injection E as <- <- <- <-. rewrite HI in Ew.
  rewrite (IpcWaitRemove_absent _ _ Hni) in Ew.
  assert (Hy' : iy ∈ entries w') by (rewrite Ew; set_solver).
  assert (Hix : ix ∈ entries w' <-> ix ∈ entries (MWait (TestMutex l))).
  { rewrite Ew, elem_of_app, elem_of_list_singleton'. split; [|tauto].
    intros [|E']; [done|by destruct (fi_ids _ _ _ _ _ _ _ _ Hf)]. }
  assert (Hcx : calm x s s2).
  { etrans; [apply (irq_calm x was)|]. apply (as_others _ _ _ _ Ha); [apply Hf|apply (fi_ne _ _ _ _ _ _ _ _ Hf)]. }
  split.
  - split; cbn [TestMutex set_TestMutex MWait Locked Owner]; rewrite ?Hin, ?Hix; try done.
    + rewrite HI. by exists was.
    + intros self was' Ep. apply Hix. by eapply Hpx.
    + intros Hi. by apply (cm_Blocked _ _ Hcx), Hbx.
    + intros _. apply Ha.
    + intros Ep. by apply (cm_Dead _ _ Hcx), Hg.
  - unfold throes. cbn. rewrite (decide_True (P := iy ∈ entries w')), (decide_False (P := iy ∈ _)) by done. lia.
Qed.

(** Either of the two may be the catcher: [LockA] when [b]. *)
Definition trapped (n : Z * Z) (b : bool) (ia ib : Z) (a : Contention) (s : Sched) : Prop :=
  if b then doomed n s (LockA a) (LockB a) ia ib (apc a) (bpc a) (lock a)
  else doomed n s (LockB a) (LockA a) ib ia (bpc a) (apc a) (lock a).

Definition agony (b : bool) (ia ib : Z) (a : Contention) : Z :=
  if b then throes (apc a) ib (lock a) else throes (bpc a) ia (lock a).

Lemma doomed_calm n s s' x y ix iy px py l :
  doomed n s x y ix iy px py l -> sched_ok s' -> SchedulerLocked s' = SchedulerLocked s ->
  (forall i, (i < 32)%nat -> untimed i s -> calm i s s') -> doomed n s' x y ix iy px py l.
Proof.
  intros H Hok Hl Hc. pose proof (dm_fight _ _ _ _ _ _ _ _ _ H) as Hf.
  destruct H as [_ Hborn Hpy HL Ho Hpx Hbx Hby Hg Hdue].
  assert (Hx : calm x s s').
  { apply Hc; [apply Hf|]. intros Hb. apply (st_alive _ _ _ _ _ (fi_x _ _ _ _ _ _ _ _ Hf)). intros Ep. rewrite (Hg Ep) in Hb. done. }
  assert (Hy : calm y s s').
  { apply Hc; [apply Hf|]. intros _. apply (st_alive _ _ _ _ _ (fi_y _ _ _ _ _ _ _ _ Hf)). by destruct Hpy as (was & ->). }
  split; try done.
  - eapply fight_kept; [exact Hf|done|done|by intros _; apply calm_kept..].
  - intros Hi. by apply (cm_Blocked _ _ Hx), Hbx.
  - intros Hi. by apply (cm_Blocked _ _ Hy), Hby.
  - intros Ep. by apply (cm_Dead _ _ Hx), Hg.
Qed.

Lemma doomed_wait pc n s x y ix iy px py l :
  doomed n s x y ix iy px py l -> doomed n s x y ix iy px py (snd (lock_wait pc l)).
Proof.
  intros H. pose proof (fight_wait pc _ _ _ _ _ _ _ _ (dm_fight _ _ _ _ _ _ _ _ _ H)) as Hf.
  destruct H as [_ Hborn Hpy HL Ho Hpx Hbx Hby Hg Hdue].
  assert (E : TestMutex (snd (lock_wait pc l)) = TestMutex l /\ due n px (snd (lock_wait pc l)) = due n px l)
    by (destruct pc; cbn; repeat case_match; done).
  destruct E as [E1 E2]. split; rewrite ?E1, ?E2; done.
Qed.

#[export] Instance trapped_inv fuel n b ia ib :
  TaskInvariant (contention_body (S fuel)) (trapped n b ia ib) (fun a => [LockA a; LockB a]) (agony b ia ib).
Proof.
  assert (HQ : forall a s, trapped n b ia ib a s -> LockA a <> LockB a /\ LockA a <> 0%nat /\ LockB a <> 0%nat).
  { intros a s H. unfold trapped in H.
    destruct b; destruct (dm_fight _ _ _ _ _ _ _ _ _ H) as [_ _ [] [] ? _ _ _ _ _]; done || congruence. }
  split.
  - unfold trapped. intros a s H. destruct b; apply H.
  - unfold trapped. intros a s s' H Hok Hl _ _ Hc. destruct b; by apply (doomed_calm n s).
  - intros t a s H Ht. destruct (HQ a s H) as (N1 & N2 & N3). unfold contention_body, trapped, agony in *.
    destruct (decide (t = LockA a)) as [->|Ha].
    { rewrite (decide_True (P := LockA a ∈ _)) by set_solver.
      destruct b.
      - destruct (doomed_turn_x fuel _ _ _ _ _ _ _ _ _ H Ht) as (out & pc & l & s' & -> & Hd & Hout & Hlt).
        rewrite some_bind. by eexists _, _, s'.
      - destruct (doomed_turn_y fuel _ _ _ _ _ _ _ _ _ H Ht) as (out & pc & l & s' & -> & Hd & Hout & Hlt).
        rewrite some_bind. by eexists _, _, s'. }
    destruct (decide (t = LockB a)) as [->|Hb].
    { rewrite (decide_True (P := LockB a ∈ _)) by set_solver.
      destruct b.
      - destruct (doomed_turn_y fuel _ _ _ _ _ _ _ _ _ H Ht) as (out & pc & l & s' & -> & Hd & Hout & Hlt).
        rewrite some_bind. by eexists _, _, s'.
      - destruct (doomed_turn_x fuel _ _ _ _ _ _ _ _ _ H Ht) as (out & pc & l & s' & -> & Hd & Hout & Hlt).
        rewrite some_bind. by eexists _, _, s'. }
    rewrite (decide_False (P := t ∈ _)) by set_solver.
    destruct (decide (t = 0%nat)) as [->|H0]; [|eexists _, _, s; split; [done|split; [exact H|split; [done|lia]]]].
    assert (Hm : TestMutex (snd (lock_wait (mpc a) (lock a))) = TestMutex (lock a))
      by (destruct (mpc a); cbn; repeat case_match; done).
    assert (Hw : forall x y ix iy px py, doomed n s x y ix iy px py (lock a) ->
      doomed n s x y ix iy px py (snd (lock_wait (mpc a) (lock a)))) by (intros; by apply doomed_wait).
    destruct (lock_wait (mpc a) (lock a)) as [pc l]. cbn in Hm, Hw.
    eexists _, _, s. split; [done|]. cbn. split; [destruct b; by apply Hw|]. split; [done|].
    unfold throes. rewrite Hm. destruct b; cbn; lia.
Qed.

(** The same with the set-up behind. *)
#[export] Instance trapped_contest_inv stub ae aS be bS fuel n b ia ib :
  TaskInvariant (contest_body stub ae aS be bS (S fuel)) (fun x s => fst x = LuDone /\ trapped n b ia ib (snd x) s)
    (fun x => [LockA (snd x); LockB (snd x)]) (fun x => agony b ia ib (snd x)).
Proof.
  split.
  - intros [p a] s [_ H]. by eapply (ti_ok (body := contention_body (S fuel))).
  - intros [p a] s s' [Hp H] ? ? ? ? ?. split; [done|]. by eapply (ti_calm (body := contention_body (S fuel))).
  - intros t [p a] s [Hp H] Ht. cbn [fst snd] in *. subst p. unfold contest_body. cbn [fst snd].
    rewrite decide_False by tauto. destruct (ti_turn (body := contention_body (S fuel)) t a s H Ht) as (out & a' & s' & -> & H' & Hf & Hc).
    rewrite some_bind. by eexists out, _, s'.
Qed.

(** The sleeper's id, its descriptor and its program counter; the catcher's
    program counter. *)
Definition sleeper_of (b : bool) (a : Contention) : nat * LockPc := if b then (LockB a, bpc a) else (LockA a, apc a).
Definition catcher_pc (b : bool) (a : Contention) : LockPc := if b then apc a else bpc a.

Lemma trapped_shows n b ia ib a s : trapped n b ia ib a s ->
  Locked (TestMutex (lock a)) = true /\ (exists self was, snd (sleeper_of b a) = LpPark self was) /\
  (LockRounds (lock a) = n.1 \/ LockRounds (lock a) = n.2) /\ LockBad (lock a) = 0 /\ is_u32 (LockRounds (lock a)).
Proof.
  assert (G : forall x y ix iy px py, doomed n s x y ix iy px py (lock a) ->
    Locked (TestMutex (lock a)) = true /\ (exists self was, py = LpPark self was) /\
    (LockRounds (lock a) = n.1 \/ LockRounds (lock a) = n.2) /\ LockBad (lock a) = 0 /\ is_u32 (LockRounds (lock a))).
  { intros x y ix iy px py [Hf _ (was & ->) HL _ _ _ _ _ Hdue]. split; [done|]. split; [by eauto|].
    split; [destruct px; cbn in Hdue; tauto|]. split; apply Hf. }
  unfold trapped. destruct b; apply G.
Qed.

(** One of the tasks is between its lock and its unlock, and the other, whose
    id is [id], is blocked in the mutex's queue. *)
Definition caught (b : bool) (id : Z) (a : Contention) (s : Sched) : Prop :=
  inside (catcher_pc b a) = true /\ id ∈ entries (MWait (TestMutex (lock a))) /\
  State (task s (fst (sleeper_of b a))) = TaskBlocked.

(** The rounds there are and the rounds there will have been. *)
Definition rounds_due (px : LockPc) (l : Lock) : Z * Z :=
  (LockRounds l, match px with LpRead | LpWrite _ => LockRounds l +w 1 | _ => LockRounds l end).

Lemma caught_trapped b ia ib a s :
  fighting ia ib a s -> caught b (if b then ib else ia) a s ->
  (apc a <> LpUnborn /\ bpc a <> LpUnborn) /\ trapped (rounds_due (catcher_pc b a) (lock a)) b ia ib a s.
Proof.
  intros HF (Hi & Hq & Hb).
  assert (Hborn : apc a <> LpUnborn /\ bpc a <> LpUnborn).
  { destruct HF as (x & y & pa & pb & H & SA & SB & HA & _). destruct b; cbn in Hi.
    - assert (Ha : apc a <> LpUnborn) by (intros E; by rewrite E in Hi). split; [done|].
      destruct SB as [(_ & _ & ->)|[? _]]; [|done].
      by destruct (st_wait _ _ _ _ _ (fi_y _ _ _ _ _ _ _ _ H) Hq) as (? & ? & ?).
    - assert (Hb' : bpc a <> LpUnborn) by (intros E; by rewrite E in Hi). split; [|done]. intros E. by apply Hb', HA. }
  split; [done|]. pose proof (fighting_contending _ _ _ _ HF (proj1 Hborn) (proj2 Hborn)) as H. unfold contending in H.
  assert (G : forall x y ix iy px py, fight s x y ix iy px py (lock a) -> inside px = true ->
    iy ∈ entries (MWait (TestMutex (lock a))) -> State (task s y) = TaskBlocked ->
    doomed (rounds_due px (lock a)) s x y ix iy px py (lock a)).
  { clear. intros x y ix iy px py Hf Hi Hq Hb. pose proof (fi_x _ _ _ _ _ _ _ _ Hf) as Hx.
    assert (Hn : ix ∉ entries (MWait (TestMutex (lock a))))
      by (apply (not_queued _ _ _ _ _ Hx); by intros ? ? ->).
    split; try done.
    - by intros ->.
    - destruct (st_wait _ _ _ _ _ (fi_y _ _ _ _ _ _ _ _ Hf) Hq) as (self & was & ->). exists was.
      by rewrite (st_park _ _ _ _ _ (fi_y _ _ _ _ _ _ _ _ Hf) self was eq_refl).
    - by apply (st_in _ _ _ _ _ Hx).
    - by rewrite Hi.
    - by intros ? ? ->.
    - by intros ->.
    - by destruct px. }
  unfold trapped. destruct b; [by apply G|]. apply G; [by apply fight_swap|done..].
Qed.

(** ** Concrete inputs *)

Lemma demo_lock_ready : lock_ready (SchedInit sched_bss).
Proof. pose proof demo_ready as []. by split. Qed.

Definition demo_contest : nat -> LockUp * Contention -> Sched -> option (Out * (LockUp * Contention) * Sched) :=
  contest_body 4096 8192 65536 12288 131072 3.

(** A whole time slice of the running task passes and the timer switches. *)
Definition slice_ends : list event := replicate 10 (Tick (Some 0)) ++ [Preempt].

(** The set-up; LockA gets through fifty rounds and loses the processor between
    its read and its write of LockRounds; LockB comes to MutexLock and sleeps. *)
Definition unlucky : list event :=
  replicate 2 Turn ++ slice_ends ++ replicate 252 Turn ++ slice_ends ++ replicate 2 Turn.

(** LockA goes on, unlocks and comes back; LockB runs. *)
Definition unlucky_end : list event := slice_ends ++ replicate 10 Turn.

Definition contention_run : list event -> World (LockUp * Contention) -> option (World (LockUp * Contention)) :=
  world_run 4096 demo_contest.

Definition contention_world (a : Contention) : World (LockUp * Contention) :=
  mkWorld (mkMachine (SchedInit sched_bss) ∅) (LuA, a).

Definition contention_outcome {B} (f : World (LockUp * Contention) -> B) (es : list event) : option B :=
  a ← contention_start (mkMutex false 0 wait_empty); w ← contention_run es (contention_world a); Some (f w).

(** [caught] with LockA inside, as a condition to evaluate. *)
Definition caught_check (w : World (LockUp * Contention)) : bool :=
  let a := snd (shared w) in
  bool_decide (inside (apc a) = true /\ 2 ∈ entries (MWait (TestMutex (lock a))) /\
    State (task (sched w) (LockB a)) = TaskBlocked /\ LockRounds (lock a) = 50).

Lemma contention_outcome_eq {B} (f : World (LockUp * Contention) -> B) es a w x :
  contention_start (mkMutex false 0 wait_empty) = Some a -> contention_run es (contention_world a) = Some w ->
  contention_outcome f es = Some x -> f w = x.
Proof.
  intros E1 E2 H. unfold contention_outcome in H. rewrite E1, some_bind, E2, some_bind in H. by injection H.
Qed.

Lemma unlucky_caught : contention_outcome caught_check unlucky = Some true.
Proof. by vm_compute. Qed.

Lemma unlucky_rounds :
  contention_outcome (fun w => LockRounds (lock (snd (shared w)))) (unlucky ++ unlucky_end) = Some 51.
Proof. by vm_compute. Qed.

Lemma contention_run_app es1 es2 w w1 w2 :
  contention_run es1 w = Some w1 -> contention_run es2 w1 = Some w2 -> contention_run (es1 ++ es2) w = Some w2.
Proof.
  revert w. unfold contention_run. induction es1 as [|e es1 IH]; intros w; cbn [world_run app]; [by intros [= ->]|].
  destruct (world_step _ _ _ w) as [w'|]; [|done]. rewrite !some_bind. apply IH.
Qed.

(** ** Properties *)

Definition contention_text (n : Z) : list Z :=
  if n <? IPC_TEST_ROUNDS
  then text "ERROR: mutex contention stalled at " ++ decimal n ++ line " of 50 rounds."
  else text "OK: " ++ decimal n ++ line " rounds of contention on one mutex, no overlap.".

Lemma contention_report_ok l c :
  LockBad l = 0 -> is_u32 (LockRounds l) -> con_inv c ->
  exists c', contention_report l c = Some c' /\ prints (contention_text (LockRounds l)) c c'.
Proof.
  intros Hb Hr Hc. unfold contention_report, contention_text. rewrite Hb. cbn [Z.eqb negb].
  destruct (LockRounds l <? IPC_TEST_ROUNDS).
  - apply say_spec; [done|apply Forall_cons; split; [done|apply Forall_singleton; cbn; unfold IPC_TEST_ROUNDS; lia]|].
    change (line "ERROR: mutex contention stalled at %u of %u rounds.") with
      (text "ERROR: mutex contention stalled at " ++ 37 :: 117 :: text " of " ++ 37 :: 117 :: line " rounds.").
    rewrite render_lit by plain_text. rewrite render_dec, render_lit by plain_text. rewrite render_dec.
    by rewrite <- (app_nil_r (line " rounds.")), render_lit by plain_text.
  - apply say_spec; [done|by apply Forall_singleton|].
    change (line "OK: %u rounds of contention on one mutex, no overlap.") with
      (text "OK: " ++ 37 :: 117 :: line " rounds of contention on one mutex, no overlap.").
    rewrite render_lit by plain_text. rewrite render_dec.
    by rewrite <- (app_nil_r (line " rounds of contention on one mutex, no overlap.")), render_lit by plain_text.
Qed.

(** The start, as a world of the invariant. *)
Lemma contest_start m s saved :
  lock_ready s -> saved_ok saved ->
  exists a, contention_start m = Some a /\
    world_inv (contesting (NextTaskId s) (NextTaskId s + 1)) (mkWorld (mkMachine s saved) (LuA, a)).
Proof.
  intros [Hok Hl Hn Hi Hd] Hsv. pose proof Hok as (Q & Hinv & _). pose proof (g_next _ _ (proj2 Hinv)) as H0.
  destruct (contention_start_ok m) as (a & E & El & Et & [E1 E2] & _).
  exists a. split; [done|]. split; [by split|]. split; [apply fighting_clean; done || lia|]. split; [|done]. do 2 (split; [done|]). split; [lia|done].
Qed.

(** C20. The mutex excludes. Wherever the contention test starts, and whatever the
    timer interrupt does between any two steps, those of the set-up included,
    the run goes on; the two tasks are never both between their MutexLock and
    their MutexUnlock; no access of LockRounds is disturbed, so LockBad stays 0;
    and what is printed at the end is the number of rounds or that they stalled,
    never that the two overlapped. *)
Theorem mutex_excludes stub fuel ae aS be bS m s saved :
  lock_ready s -> saved_ok saved ->
  exists a, contention_start m = Some a /\
  forall es, exists w, world_run stub (contest_body stub ae aS be bS (S fuel)) es (mkWorld (mkMachine s saved) (LuA, a)) = Some w /\
    let r := snd (shared w) in
    ~ (inside (apc r) = true /\ inside (bpc r) = true) /\ LockBad (lock r) = 0 /\
    forall con, con_inv con -> exists con', contention_report (lock r) con = Some con' /\
      prints (contention_text (LockRounds (lock r))) con con'.
Proof.
  intros Ht Hsv. destruct (contest_start m s saved Ht Hsv) as (a & E & H). exists a. split; [exact E|]. intros es.
  destruct (world_run_inv stub (contest_body stub ae aS be bS (S fuel)) _ _ _ es _ H) as (w & Ew & [_ Hw] & _).
  exists w. split; [exact Ew|]. destruct w as [m' [p r]]. cbn [shared snd] in *. destruct Hw as (HF & _).
  destruct (fighting_counts _ _ _ _ HF) as [Hbad Hu]. split; [by eapply fighting_apart|]. split; [done|].
  intros con Hc. by apply contention_report_ok.
Qed.

Lemma mutex_excludes_witness :
  exists a w, contention_start (mkMutex false 0 wait_empty) = Some a /\
    contention_run unlucky (contention_world a) = Some w /\ LockBad (lock (snd (shared w))) = 0.
Proof.
  destruct (mutex_excludes 4096 2 8192 65536 12288 131072 (mkMutex false 0 wait_empty)
              (SchedInit sched_bss) ∅ demo_lock_ready) as (a & E & H); [by intros ? ? ?|].
  destruct (H unlucky) as (w & Ew & _ & Hb & _).
  exists a, w. split; [exact E|]. split; [exact Ew|exact Hb].
Defined.

(** C21. And it deadlocks. Wherever the contention test starts, and after any run
    of it in which one of the two tasks (LockA when [b]) has lost the processor
    inside its critical section and the other has gone to sleep in MutexLock:
    whatever happens afterwards, the mutex stays locked, the sleeper never gets
    past its MutexLock, the two take at most seven further turns, at most one
    more round is counted, and the test says nothing of the deadlock: it
    prints OK when the rounds come to fifty and else that they stalled. (The
    unlock hands the mutex to the sleeper, whose park loop looks only at
    Locked and puts it back to sleep.) *)
Theorem contention_deadlocks stub fuel ae aS be bS m s saved es :
  lock_ready s -> saved_ok saved ->
  let run := world_run stub (contest_body stub ae aS be bS (S fuel)) in
  exists a w, contention_start m = Some a /\ run es (mkWorld (mkMachine s saved) (LuA, a)) = Some w /\
    forall b, caught b (if b then NextTaskId s + 1 else NextTaskId s) (snd (shared w)) (sched w) ->
    forall es2, exists w2, run es2 w = Some w2 /\
      let r := snd (shared w2) in
      Locked (TestMutex (lock r)) = true /\ (exists self was, snd (sleeper_of b r) = LpPark self was) /\
      (turns_of stub (contest_body stub ae aS be bS (S fuel)) (fun x => [LockA (snd x); LockB (snd x)]) es2 w <= 7)%nat /\
      (LockRounds (lock r) = LockRounds (lock (snd (shared w))) \/
       LockRounds (lock r) = LockRounds (lock (snd (shared w))) +w 1) /\
      forall con, con_inv con -> exists con', contention_report (lock r) con = Some con' /\
        prints (contention_text (LockRounds (lock r))) con con'.
Proof.
  intros Ht Hsv. destruct (contest_start m s saved Ht Hsv) as (a & E & H). cbv zeta.
  destruct (world_run_inv stub (contest_body stub ae aS be bS (S fuel)) _ _ _ es _ H) as (w & Ew & [Hm Hw] & _).
  exists a, w. split; [exact E|]. split; [exact Ew|]. intros b Hc es2. destruct w as [m' [p r]].
  unfold sched in *. cbn [shared snd machine] in *. destruct Hw as (HF & HP & _).
  destruct (caught_trapped b _ _ _ _ HF Hc) as [[Ha Hb] Hn]. set (n := rounds_due _ _) in Hn.
  assert (p = LuDone) as -> by (destruct p; cbn in HP; tauto).
  destruct (world_run_inv stub (contest_body stub ae aS be bS (S fuel))
    (fun x s0 => fst x = LuDone /\ trapped n b (NextTaskId s) (NextTaskId s + 1) (snd x) s0) _ _ es2 (mkWorld m' (LuDone, r)))
    as (w2 & E2 & [_ [_ H2]] & Hcost); [done|]. exists w2. split; [exact E2|].
  assert (HB : 0 <= agony b (NextTaskId s) (NextTaskId s + 1) (snd (shared w2)) /\
    agony b (NextTaskId s) (NextTaskId s + 1) r <= 7).
  { destruct Hc as (_ & Hq & _). unfold agony. destruct b; (split; [apply throes_bound|by apply throes_caught]). }
  destruct (trapped_shows n b _ _ _ _ H2) as (HL & Hs & Hr & Hbad & Hu). cbn [shared snd] in Hcost.
  split; [exact HL|]. split; [exact Hs|]. split; [lia|]. split; [|intros con Hcon; by apply contention_report_ok].
  unfold n, rounds_due in Hr. cbn in Hr. destruct Hr as [->| ->]; [by left|]. destruct (catcher_pc b r); auto.
Qed.

(** LockA is caught inside after fifty rounds; the test ends with fifty-one and
    prints OK. *)
Lemma contention_deadlocks_witness :
  exists a w w2, contention_start (mkMutex false 0 wait_empty) = Some a /\
    contention_run unlucky (contention_world a) = Some w /\ caught true 2 (snd (shared w)) (sched w) /\
    contention_run unlucky_end w = Some w2 /\ Locked (TestMutex (lock (snd (shared w2)))) = true /\
    forall con, con_inv con -> exists con', contention_report (lock (snd (shared w2))) con = Some con' /\
      prints (line "OK: 51 rounds of contention on one mutex, no overlap.") con con'.
Proof.
  destruct (contention_deadlocks 4096 2 8192 65536 12288 131072 (mkMutex false 0 wait_empty)
              (SchedInit sched_bss) ∅ unlucky demo_lock_ready) as (a & w & E & Ew & H); [by intros ? ? ?|].
  assert (Hc : caught true 2 (snd (shared w)) (sched w)).
  { pose proof (contention_outcome_eq caught_check unlucky a w true E Ew unlucky_caught) as Hb.
    apply bool_decide_eq_true in Hb as (H1 & H2 & H3 & _). split; [exact H1|]. split; [exact H2|exact H3]. }
  destruct (H true Hc unlucky_end) as (w2 & E2 & HL & _ & _ & _ & Hcon).
  exists a, w, w2. split; [exact E|]. split; [exact Ew|]. split; [exact Hc|]. split; [exact E2|]. split; [exact HL|].
  pose proof (contention_outcome_eq (fun w => LockRounds (lock (snd (shared w)))) (unlucky ++ unlucky_end) a w2 51 E
    (contention_run_app unlucky unlucky_end _ w w2 Ew E2) unlucky_rounds) as HR.
  cbv beta in HR. rewrite HR in Hcon. exact Hcon.
Defined.
