(* ===== verification/KernelTasks.v ===== *)
(** * The kernel's tasks (init/main.c)

    All of kernel_main from SchedInit on, with every task the kernel ever runs:
    kernel_main itself, which has become the idle task, runs the self tests one
    after the other and then loops; the test tasks; the worker; the shell over
    the keyboard and the console. They share one machine of [TaskMachine.v],
    and keystrokes come in between like the timer does. *)

From stdpp Require Import strings.
From S2P Require Import Prelude Sched SchedMachine TaskMachine Ipc Sync Message Strings Console Stdio Keyboard KernelMain Shell IpcSelfTests IpcContention.

(** What the linker and the memory give: the address of SchedExitStub, for each
    task its entry and the end of its stack, and what the stacks of the two
    rendezvous tasks hold where their message will be. *)
Record Image := mkImage {
  SchedExitStub : Z;
  consumer_code : Z; ConsumerStackEnd : Z; producer_code : Z; ProducerStackEnd : Z;
  lock_code : Z; LockAStackEnd : Z; LockBStackEnd : Z;
  worker_code : Z; WorkerStackEnd : Z; shell_code : Z; ShellStackEnd : Z;
  consumer_garbage : IpcMessage; producer_garbage : IpcMessage }.

(** Where kernel_main stands: in ipc_test_tasks (before its rendezvous, in its
    set-up, in the wait for it, before the report, before the semaphore's and
    the mutex's test, before the contention test, in its set-up and in its waits,
    before its report, before the port's test), behind it, or in the idle loop. *)
Inductive MainPoint :=
| MpStart | MpSetUp (p : SetUp) | MpRendezvous (Waited : Z) | MpReport | MpSemaphore | MpMutex | MpContend
| MpLocks (p : LockUp) | MpContention | MpLockReport | MpPort | MpNewline | MpWorker | MpShell | MpYield | MpIdle.

(** Where the shell stands: before its greeting, at the head of its loop, in
    front of SchedYield. *)
Inductive ShellPoint := SpBegin | SpLoop | SpYield.

(** The static data of main.c with the test tasks' places, and the devices the
    tasks use. Before its test a port or mutex is in [Port0] or [Mutex0]. *)
Record System := mkSystem {
  screen : Console; keys : Keyboard; main_at : MainPoint;
  Port0 : IpcPort; meeting_of : option Rendezvous;
  TestSem : IpcSemaphore; Mutex0 : IpcMutex; contest : option Contention;
  Worker : option nat; Shell : option nat; shell_at : ShellPoint }.

Definition set_screen v k := mkSystem v (keys k) (main_at k) (Port0 k) (meeting_of k) (TestSem k) (Mutex0 k)
  (contest k) (Worker k) (Shell k) (shell_at k).
Definition set_keys v k := mkSystem (screen k) v (main_at k) (Port0 k) (meeting_of k) (TestSem k) (Mutex0 k)
  (contest k) (Worker k) (Shell k) (shell_at k).
Definition set_main_at v k := mkSystem (screen k) (keys k) v (Port0 k) (meeting_of k) (TestSem k) (Mutex0 k)
  (contest k) (Worker k) (Shell k) (shell_at k).
Definition set_meeting v k := mkSystem (screen k) (keys k) (main_at k) (Port0 k) v (TestSem k) (Mutex0 k)
  (contest k) (Worker k) (Shell k) (shell_at k).
Definition set_TestSem v k := mkSystem (screen k) (keys k) (main_at k) (Port0 k) (meeting_of k) v (Mutex0 k)
  (contest k) (Worker k) (Shell k) (shell_at k).
Definition set_Mutex0 v k := mkSystem (screen k) (keys k) (main_at k) (Port0 k) (meeting_of k) (TestSem k) v
  (contest k) (Worker k) (Shell k) (shell_at k).
Definition set_contest v k := mkSystem (screen k) (keys k) (main_at k) (Port0 k) (meeting_of k) (TestSem k) (Mutex0 k)
  v (Worker k) (Shell k) (shell_at k).
Definition set_Worker v k := mkSystem (screen k) (keys k) (main_at k) (Port0 k) (meeting_of k) (TestSem k) (Mutex0 k)
  (contest k) v (Shell k) (shell_at k).
Definition set_Shell v k := mkSystem (screen k) (keys k) (main_at k) (Port0 k) (meeting_of k) (TestSem k) (Mutex0 k)
  (contest k) (Worker k) v (shell_at k).
Definition set_shell_at v k := mkSystem (screen k) (keys k) (main_at k) (Port0 k) (meeting_of k) (TestSem k) (Mutex0 k)
  (contest k) (Worker k) (Shell k) v.

Section Kernel.
Context (im : Image) (fuel : nat).

(** ** The test suite: ipc_test_tasks *)

(** The pieces of ipc_test_tasks that follow each other on the idle task; a
    wait's turn ends in cpu_idle. [None] is a fault. *)
Definition ipc_test_tasks (k : System) (s : Sched) : option (System * Sched) :=
  match main_at k, meeting_of k, contest k with
  | MpStart, _, _ =>
      '(r, c) ← rendezvous_start (consumer_garbage im) (producer_garbage im) (Port0 k) (screen k);
      Some (set_main_at (match r with Some _ => MpSetUp SuConsumer | None => MpNewline end)
              (set_meeting r (set_screen c k)), s)
  | MpSetUp p, Some r, _ =>
      '(p, r, s) ← rendezvous_setup (SchedExitStub im) (consumer_code im) (ConsumerStackEnd im)
                     (producer_code im) (ProducerStackEnd im) p r s;
      let k := set_meeting (Some r) k in
      match p with
      | SuDone => Some (set_main_at (MpRendezvous 0) k, s)
      | SuFailed =>
          c ← say (line "ERROR: ipc test tasks could not be created.") [] (screen k);
          Some (set_main_at MpNewline (set_screen c k), s)
      | _ => Some (set_main_at (MpSetUp p) k, s)
      end
  | MpRendezvous Waited, Some r, _ =>
      if Waited <? IPC_TEST_TIMEOUT then
        if negb (ConsumerDone r =? 0) && negb (ProducerDone r =? 0) then Some (set_main_at MpReport k, s)
        else Some (set_main_at (MpRendezvous (Waited +w 1)) k, s)
      else Some (set_main_at MpReport k, s)
  | MpReport, Some r, _ =>
      c ← rendezvous_report r (screen k);
      let passed := negb (ConsumerDone r =? 0) && negb (ProducerDone r =? 0) && (ConsumerBad r =? 0) in
      Some (set_main_at (if passed : bool then MpSemaphore else MpNewline) (set_screen c k), s)
  | MpSemaphore, _, _ =>
      '(_, (sem, s), c) ← semaphore_test fuel (TestSem k) (screen k) s;
      sem ← sem;
      Some (set_main_at MpMutex (set_TestSem sem (set_screen c k)), s)
  | MpMutex, _, _ =>
      '(_, (m, s), c) ← mutex_test fuel (Mutex0 k) (screen k) s;
      m ← m;
      Some (set_main_at MpContend (set_Mutex0 m (set_screen c k)), s)
  | MpContend, _, _ =>
      a ← contention_start (Mutex0 k); Some (set_main_at (MpLocks LuA) (set_contest (Some a) k), s)
  | MpLocks p, _, Some a =>
      '(p, a, s) ← lock_setup (SchedExitStub im) (lock_code im) (LockAStackEnd im) (lock_code im)
                     (LockBStackEnd im) p a s;
      let k := set_contest (Some a) k in
      match p with
      | LuDone => Some (set_main_at MpContention k, s)
      | LuFailed =>
          c ← say (line "ERROR: ipc lock tasks could not be created.") [] (screen k);
          Some (set_main_at MpNewline (set_screen c k), s)
      | _ => Some (set_main_at (MpLocks p) k, s)
      end
  | MpContention, _, Some a =>
      let '(pc, l) := lock_wait (mpc a) (lock a) in
      let a := mkContention l (LockA a) (LockB a) (apc a) (bpc a) pc in
      Some (set_main_at (match pc with MpDone => MpLockReport | _ => MpContention end) (set_contest (Some a) k), s)
  | MpLockReport, _, Some a =>
      c ← contention_report (lock a) (screen k); Some (set_main_at MpPort (set_screen c k), s)
  | MpPort, Some r, _ =>
      '(port, c) ← port_test (TestPort r) (screen k);
      port ← port;
      Some (set_main_at MpNewline (set_meeting (Some (set_TestPort port r)) (set_screen c k)), s)
  | _, _, _ => None
  end.

(** ** The tasks *)

(** The rest of kernel_main. *)
Definition kernel_main_task (k : System) (s : Sched) : option (Out * System * Sched) :=
  match main_at k with
  | MpNewline => c ← say (line "") [] (screen k); Some (Done, set_main_at MpWorker (set_screen c k), s)
  | MpWorker =>
      '(w, s) ← SchedCreate (SchedExitStub im) (Some (text "Worker")) (worker_code im) (WorkerStackEnd im) s;
      Some (Done, set_main_at MpShell (set_Worker w k), s)
  | MpShell =>
      '(t, s) ← SchedCreate (SchedExitStub im) (Some (text "Shell")) (shell_code im) (ShellStackEnd im) s;
      Some (Done, set_main_at MpYield (set_Shell t k), s)
  | MpYield => '(out, s) ← SchedYield s; Some (out, set_main_at MpIdle k, s)
  | MpIdle => Some (Done, set_main_at MpYield k, s)
  | _ => '(k, s) ← ipc_test_tasks k s; Some (Done, k, s)
  end.

Definition worker_task (k : System) (s : Sched) : option (Out * System * Sched) :=
  '(out, s) ← SchedYield s; Some (out, k, s).

(** A shell that waits for a key halts and looks again. *)
Definition shell_task (k : System) (s : Sched) : option (Out * System * Sched) :=
  match shell_at k with
  | SpBegin => c ← shell_begin (screen k); Some (Done, set_shell_at SpLoop (set_screen c k), s)
  | SpLoop =>
      '(out, kb, c) ← shell_turn (keys k) (screen k);
      Some (Done, set_shell_at (match out with ShYields => SpYield | _ => SpLoop end)
                    (set_keys kb (set_screen c k)), s)
  | SpYield => '(out, s) ← SchedYield s; Some (out, set_shell_at SpLoop k, s)
  end.

(** The code that runs in descriptor [t]: a descriptor that is used again runs
    the task it was created for last. *)
Definition kernel_body (t : nat) (k : System) (s : Sched) : option (Out * System * Sched) :=
  if decide (t = 0%nat) then kernel_main_task k s
  else if decide (Shell k = Some t) then shell_task k s
  else if decide (Worker k = Some t) then worker_task k s
  else match contest k, meeting_of k with
       | Some a, _ =>
           if decide (t = LockA a \/ t = LockB a) then
             '(out, a, s) ← contention_body fuel t a s; Some (out, set_contest (Some a) k, s)
           else match meeting_of k with
                | Some r => '(out, r, s) ← rendezvous_body fuel t r s; Some (out, set_meeting (Some r) k, s)
                | None => Some (Done, k, s)
                end
       | None, Some r => '(out, r, s) ← rendezvous_body fuel t r s; Some (out, set_meeting (Some r) k, s)
       | None, None => Some (Done, k, s)
       end.

(** ** Runs *)

(** A turn or a part of the timer interrupt, or a scancode from the keyboard. *)
Inductive kernel_event := Sys (e : TaskMachine.event) | Key (sc : Z).

Definition kernel_step (e : kernel_event) (w : World System) : option (World System) :=
  match e with
  | Sys e => world_step (SchedExitStub im) kernel_body e w
  | Key sc => Some (mkWorld (machine w) (set_keys (keyboard_callback sc (keys (shared w))) (shared w)))
  end.

Fixpoint kernel_run (es : list kernel_event) (w : World System) : option (World System) :=
  match es with
  | [] => Some w
  | e :: es => w ← kernel_step e w; kernel_run es w
  end.
End Kernel.

(** SchedInit and the line after it, with the statics as .bss leaves them. *)
Definition kernel_main_sched (port : IpcPort) (sem : IpcSemaphore) (m : IpcMutex) (kb : Keyboard)
    (c : Console) (s : Sched) : option (World System) :=
  let s := SchedInit s in
  c ← say (line "OK: Scheduling Init Succesfull" ++ line "") [] c;
  Some (mkWorld (mkMachine s ∅)
    (mkSystem c kb MpStart port None sem m None None None SpBegin)).
