(* ===== verification/KernelTasksInv.v ===== *)
(** * The kernel's tasks: the invariant

    What holds of all the kernel's tasks together in every state they can
    reach, and that a turn of each of them returns and keeps it: the task that
    runs may change its own part only, and the idle task, which creates the
    others, moves on along its tests. *)

From stdpp Require Import strings.
From S2P Require Import Prelude Sched SchedQueues SchedInv SchedOps SchedMachine TaskMachine Ipc Sync Message TaskFrame Strings Console Stdio Keyboard KernelMain KernelMainTheorems Shell IpcSelfTests IpcRendezvous IpcSelfTestsTheorems IpcContention IpcContentionTheorems KernelTasks.

(** ** Who is there *)

(** The tasks by age: those created last, with the lock tasks, all. *)
Definition last (k : System) : list nat := option_list (Worker k) ++ option_list (Shell k).
Definition later (k : System) : list nat :=
  match contest k with Some a => [LockA a; LockB a] | None => [] end ++ last k.
Definition crew (k : System) : list nat :=
  0%nat :: match meeting_of k with Some r => both r | None => [] end ++ later k.

(** A task that can always run. *)
Definition up (t : nat) (s : Sched) : Prop :=
  t <> 0%nat /\ (t < 32)%nat /\ State (task s t) <> TaskDead /\ State (task s t) <> TaskBlocked.

(** From [s] to [s'] only the tasks of [X] changed, which were dead. *)
Record grows (X : list nat) (s s' : Sched) : Prop := {
  gw_Locked : SchedulerLocked s' = SchedulerLocked s;
  gw_dead : forall x, x ∈ X -> State (task s x) = TaskDead;
  gw_calm : forall i, (i < 32)%nat -> i ∉ X -> calm i s s' }.

Lemma grows_calm X i s s' : grows X s s' -> (i < 32)%nat -> State (task s i) <> TaskDead -> calm i s s'.
Proof. intros H Hi Hd. apply H; [done|]. intros Hx. by apply Hd, (gw_dead _ _ _ H). Qed.

Lemma up_calm t s s' : up t s -> calm t s s' -> up t s'.
Proof. intros (H0 & H1 & H2 & H3) [C1 C2 _ _]. split; [done|]. split; [done|]. by rewrite C1, C2. Qed.

Lemma up_goes i t s s' : up i s -> i <> t -> goes t s s' -> up i s'.
Proof.
  intros (H0 & H1 & H2 & H3) Ht G. split; [done|]. split; [done|]. split.
  - by rewrite (kp_Dead _ _ _ (go_kept _ _ _ G i H1 Ht)).
  - intros Hb. by apply H3, (go_Blocked _ _ _ G i H1 Ht).
Qed.

(** ** The two sides of the rendezvous, during it and afterwards *)

Definition live (r : Rendezvous) (s : Sched) : Prop := exists idc idp, exchange idc idp r s.

Definition finished (t : nat) (pc : Pc) (s : Sched) : Prop := pc = PcReturn /\ up t s \/ pc = PcGone.
Definition over (r : Rendezvous) (s : Sched) : Prop :=
  finished (Consumer r) (cpc r) s /\ finished (Producer r) (ppc r) s /\ Consumer r <> Producer r.

Definition stage (p : MainPoint) : nat :=
  match p with
  | MpStart => 0 | MpSetUp _ | MpRendezvous _ => 1 | MpReport => 2 | MpSemaphore => 3 | MpMutex => 4 | MpContend => 5
  | MpLocks _ | MpContention => 6 | MpLockReport => 7 | MpPort => 8 | MpNewline => 9 | MpWorker => 10 | MpShell => 11
  | MpYield => 12 | MpIdle => 13
  end.

(** The exchange goes on until it has been reported, and for good if it took
    too long; the later tests run when it is over. *)
Definition allowed (p : MainPoint) (during after : Prop) : Prop :=
  (stage p <= 2 \/ 9 <= stage p)%nat /\ during \/ (3 <= stage p)%nat /\ after.

Record meet_ok (p : MainPoint) (alone : Prop) (lt : list nat) (r : Rendezvous) (s : Sched) : Prop := {
  mt_state : allowed p (live r s /\ alone) (over r s);
  mt_ids : Consumer r <> 0%nat /\ Producer r <> 0%nat;
  mt_c : here (cpc r) = true -> Consumer r ∉ lt;
  mt_p : here (ppc r) = true -> Producer r ∉ lt }.

Lemma finished_alive t pc s : finished t pc s -> here pc = true -> (t < 32)%nat /\ State (task s t) <> TaskDead.
Proof. intros [[_ H]| ->] Hg; [|done]. split; apply H. Qed.

Lemma meet_alive p alone lt r s :
  meet_ok p alone lt r s ->
  (here (cpc r) = true -> (Consumer r < 32)%nat /\ State (task s (Consumer r)) <> TaskDead) /\
  (here (ppc r) = true -> (Producer r < 32)%nat /\ State (task s (Producer r)) <> TaskDead).
Proof.
  intros H. destruct (mt_state _ _ _ _ _ H) as [[_ [(idc & idp & Hx) _]]|[_ (Hc & Hp & _)]].
  - pose proof (ex_c _ _ _ _ Hx) as C. pose proof (ex_p _ _ _ _ Hx) as P.
    split; intros Hg; split; [by apply C, here_born|by apply C|by apply P, here_born|by apply P].
  - split; by apply finished_alive.
Qed.

Lemma allowed_mono p (a b a' b' : Prop) : (a -> a') -> (b -> b') -> allowed p a b -> allowed p a' b'.
Proof. unfold allowed. tauto. Qed.

Lemma meet_grows X p (alone : Prop) lt lt' r s s' :
  meet_ok p alone lt r s -> sched_ok s' -> grows X s s' ->
  (forall x, x ∈ lt' -> x ∈ lt \/ x ∈ X \/ x = no_task) -> meet_ok p alone lt' r s'.
Proof.
  intros H Hok G Hl. destruct (meet_alive _ _ _ _ _ H) as [AC AP]. destruct H as [H1 H3 H4 H5]. split; [|done|..].
  - revert H1. apply allowed_mono.
    + intros [(idc & idp & Hx) Ha]. split; [|done]. exists idc, idp.
      apply (exchange_calm _ _ _ _ _ Hx Hok); [apply G|..]; intros Hg; eapply grows_calm; try done; by apply AC || by apply AP.
    + intros (HC & HP & Hne). split; [|split; [|done]]; [destruct HC as [[E U]|E]|destruct HP as [[E U]|E]]; try (by right); left; split; try done;
        (eapply up_calm; [exact U|]); eapply grows_calm; try done; apply U.
  - intros Hg [Hx|[Hx|Hx]]%Hl; [by apply H4|by apply AC, (gw_dead _ _ _ G)|]. apply AC in Hg as [? _]. unfold no_task in Hx. lia.
  - intros Hg [Hx|[Hx|Hx]]%Hl; [by apply H5|by apply AP, (gw_dead _ _ _ G)|]. apply AP in Hg as [? _]. unfold no_task in Hx. lia.
Qed.

Lemma finished_goes i t pc s s' : finished i pc s -> (here pc = true -> i <> t) -> goes t s s' -> finished i pc s'.
Proof. intros [[-> U]| ->] Hne G; [left|by right]. split; [done|]. eapply up_goes; [done| |done]. by apply Hne. Qed.

(** ** The lock tasks *)

Record contest_ok (lt : list nat) (a : Contention) (s : Sched) : Prop := {
  ct_fight : exists ia ib, fighting ia ib a s;
  ct_a : present (apc a) = true -> LockA a ∉ lt;
  ct_b : present (bpc a) = true -> LockB a ∉ lt }.

Lemma contest_grows X lt lt' a s s' :
  contest_ok lt a s -> sched_ok s' -> grows X s s' -> (bpc a = LpUnborn -> NextTaskId s' = NextTaskId s) ->
  (forall x, x ∈ lt' -> x ∈ lt \/ x ∈ X) -> contest_ok lt' a s'.
Proof.
  intros [(ia & ib & H) Ha Hb] Hok G HN Hl. destruct (fighting_alive _ _ _ _ H) as [AA AB]. split.
  - exists ia, ib. apply (fighting_kept _ _ _ _ _ H Hok); [apply G|done|..]; intros Hg; apply calm_kept;
      (eapply grows_calm; [done|by apply AA || by apply AB..]).
  - intros Hg [Hx|Hx]%Hl; [by apply Ha|]. by apply (AA Hg), (gw_dead _ _ _ G).
  - intros Hg [Hx|Hx]%Hl; [by apply Hb|]. by apply (AB Hg), (gw_dead _ _ _ G).
Qed.

Lemma contest_goes t lt a s s' :
  contest_ok lt a s -> sched_ok s' -> SchedulerLocked s' = SchedulerLocked s -> goes t s s' ->
  (present (apc a) = true -> LockA a <> t) -> (present (bpc a) = true -> LockB a <> t) -> contest_ok lt a s'.
Proof.
  intros [(ia & ib & H) Ha Hb] Hok HL G Na Nb. destruct (fighting_alive _ _ _ _ H) as [AA AB]. split; [|done..]. exists ia, ib.
  apply (fighting_kept _ _ _ _ _ H Hok HL); [intros _; apply (go_NextId _ _ _ G)|intros Hg; apply (go_kept _ _ _ G); auto; by apply AA|
    intros Hg; apply (go_kept _ _ _ G); auto; by apply AB].
Qed.

(** ** What has been printed *)

Definition timeout_text (q : Z) : list Z :=
  text "ERROR: ipc rendezvous did not finish, " ++ decimal q ++ line " of 40 messages.".
Definition semaphore_text : list Z :=
  rendezvous_text ++ line "OK: binary semaphore counted, blocked, and refused to park the idle.".
Definition mutex_text : list Z := semaphore_text ++ line "OK: mutex locked, refused a re-lock, and released.".
Definition lock_text (n : Z) : list Z := mutex_text ++ contention_text n.
Definition tests_text (n : Z) : list Z :=
  lock_text n ++ line "OK: port rejected a second create and a second destroy.".

(** All that ipc_test_tasks can print: the rendezvous took too long, or messages
    came before the producer's id was stored and count as bad, or every line is
    there, with the rounds of the contention test. *)
Definition tests_report (l : list Z) : Prop :=
  (exists q, 0 <= q <= 16 /\ l = timeout_text q) \/ (exists n, 1 <= n <= 40 /\ l = bad_text n) \/ exists n, is_u32 n /\ l = tests_text n.

Definition transcript (p : MainPoint) (l : list Z) : Prop :=
  match p with
  | MpStart | MpSetUp _ | MpRendezvous _ | MpReport => l = []
  | MpSemaphore => l = rendezvous_text
  | MpMutex => l = semaphore_text
  | MpContend | MpLocks _ | MpContention | MpLockReport => l = mutex_text
  | MpPort => exists n, is_u32 n /\ l = lock_text n
  | MpNewline => tests_report l
  | _ => exists t, tests_report t /\ l = t ++ line ""
  end.

(** ** The invariant *)

(** Tasks still to be created. *)
Definition coming (p : MainPoint) : Z :=
  match p with
  | MpStart | MpSetUp SuConsumer => 6 | MpSetUp SuProducer => 5
  | MpSetUp _ | MpRendezvous _ | MpReport | MpSemaphore | MpMutex | MpContend | MpLocks LuA => 4
  | MpLocks LuB => 3 | MpLocks _ | MpContention | MpLockReport | MpPort | MpNewline | MpWorker => 2 | MpShell => 1 | MpYield | MpIdle => 0
  end.

Definition wait_bound (m : MainPc) : Prop :=
  match m with MpWait n => 0 <= n <= IPC_TEST_ROUNDS | MpDrain n => 0 <= n <= IPC_TEST_TIMEOUT | _ => True end.

(** A port that port_test can claim and destroy. *)
Definition port_idle (p : IpcPort) : Prop :=
  Magic p = PORT_MAGIC /\ WCount (Senders p) = 0 /\ WCount (Receivers p) = 0.

(** Whom the set-up of the rendezvous has created where it stands. *)
Definition created_by (p : SetUp) (r : Rendezvous) : Prop :=
  match p with
  | SuConsumer => cpc r = PcUnborn
  | SuProducer => cpc r <> PcUnborn /\ ppc r = PcUnborn
  | SuLoad | SuStore _ => ppc r <> PcUnborn
  | SuDone | SuFailed => False
  end.

(** The same of the contention test. *)
Definition locks_created (p : MainPoint) (a : Contention) : Prop :=
  match p with
  | MpLocks LuA => apc a = LpUnborn /\ mpc a = MpWait 0
  | MpLocks LuB => apc a <> LpUnborn /\ bpc a = LpUnborn /\ mpc a = MpWait 0
  | MpLocks _ => False
  | _ => apc a <> LpUnborn /\ bpc a <> LpUnborn
  end.

Lemma locks_created_kept p a a' :
  (apc a' = LpUnborn <-> apc a = LpUnborn) -> (bpc a' = LpUnborn <-> bpc a = LpUnborn) -> mpc a' = mpc a ->
  locks_created p a -> locks_created p a'.
Proof. intros Ha Hb Em. unfold locks_created. rewrite Em. destruct p as [| | | | | | |[]| | | | | | | |]; naive_solver. Qed.

(** What kernel_main has and has not created where it stands. *)
Record stands (k : System) : Prop := {
  sn_start : main_at k = MpStart ->
    meeting_of k = None /\ Magic (Port0 k) <> PORT_MAGIC /\ length (Slots (Port0 k)) = 16%nat;
  sn_setup : forall p r, main_at k = MpSetUp p -> meeting_of k = Some r -> created_by p r /\ ProducerId r = 0;
  sn_meet : (1 <= stage (main_at k) <= 8)%nat -> is_Some (meeting_of k);
  sn_alone : (stage (main_at k) <= 5)%nat -> contest k = None;
  sn_contest : (6 <= stage (main_at k) <= 7)%nat -> is_Some (contest k);
  sn_locks : forall a, contest k = Some a -> locks_created (main_at k) a;
  sn_worker : (stage (main_at k) <= 10)%nat -> Worker k = None;
  sn_shell : (stage (main_at k) <= 11)%nat -> Shell k = None;
  sn_begin : Shell k = None -> shell_at k = SpBegin;
  sn_port : forall r, meeting_of k = Some r -> (3 <= stage (main_at k) <= 8)%nat -> port_idle (TestPort r);
  sn_wait : match main_at k with
            | MpRendezvous n => 0 <= n <= IPC_TEST_TIMEOUT
            | MpContention => forall a, contest k = Some a -> wait_bound (mpc a) /\ mpc a <> MpDone
            | _ => True
            end }.

Record system_ok (c0 : Console) (k : System) (s : Sched) : Prop := {
  so_ok : sched_ok s;
  so_free : SchedulerLocked s = 0;
  so_tick : forall i, (i < 32)%nat -> WakeTick (task s i) = 0;
  so_ids : NextTaskId s + coming (main_at k) < 4294967296;
  so_crew : forall i, (i < 32)%nat -> i ∉ crew k -> State (task s i) = TaskDead;
  so_keys : kbd_wf (keys k);
  so_screen : con_inv (screen k);
  so_meet : forall r, meeting_of k = Some r -> meet_ok (main_at k) (contest k = None) (later k) r s;
  so_contest : forall a, contest k = Some a -> contest_ok (last k) a s;
  so_last : NoDup (last k) /\ forall t, t ∈ last k -> up t s;
  so_stands : stands k;
  so_log : shell_at k = SpBegin -> exists l, transcript (main_at k) l /\ prints l c0 (screen k) }.

(** At most seven tasks are alive. *)
Lemma crew_count k s :
  sched_ok s -> (forall i, (i < 32)%nat -> i ∉ crew k -> State (task s i) = TaskDead) ->
  TaskCountValue s <= Z.of_nat (length (crew k)).
Proof.
  intros (Q & [_ G] & _) H. rewrite (g_count _ _ G). unfold live_count, count. apply inj_le.
  apply submseteq_length, NoDup_submseteq; [apply NoDup_filter, NoDup_seq|].
  intros i [Ha%bool_decide_eq_true Hi%elem_of_seq]%list_elem_of_filter.
  destruct (decide (i ∈ crew k)) as [|Hn]; [done|]. by destruct Ha; apply H; [lia|].
Qed.

Lemma length_last k : (length (last k) <= 2)%nat.
Proof. unfold last. destruct (Worker k), (Shell k); cbn; lia. Qed.

(** Nothing but times and queues has changed. *)
Lemma system_calm c0 k s s' :
  system_ok c0 k s -> sched_ok s' -> SchedulerLocked s' = SchedulerLocked s -> NextTaskId s' = NextTaskId s ->
  (forall i, (i < 32)%nat -> calm i s s') -> system_ok c0 k s'.
Proof.
  intros [H1 H2 H3 H4 H5 H6 H7 H8 H9 [H10 H10'] H11 H12] Hok HL HN Hc.
  assert (G : grows [] s s') by (split; [done|by intros x ?%elem_of_nil|by auto]).
  assert (Hsub : forall (l : list nat) x, x ∈ l -> x ∈ l \/ x ∈ []) by (intros; by left).
  split; try done; [congruence| |by rewrite HN| | | |].
  - intros i Hi. by apply Hc, H3.
  - intros i Hi Hn. apply (Hc i Hi). by apply H5.
  - intros r Hr. eapply meet_grows; eauto.
  - intros a Ha. eapply contest_grows; eauto.
  - split; [done|]. intros t Ht. eapply up_calm; [by apply H10'|]. apply Hc. by apply H10'.
Qed.

(** ** Turns *)

(** The turns of the idle task up to its loop are counted. *)
Definition busy (k : System) : list nat := if bool_decide (stage (main_at k) <= 11)%nat then [0%nat] else [].

Definition lock_cost (m : MainPc) : Z :=
  match m with MpWait n => 253 - n | MpStop => 202 | MpDrain n => 201 - n | MpDone => 0 end.
Definition remaining (k : System) : Z :=
  match main_at k with
  | MpStart => 470
  | MpSetUp p => match p with SuConsumer => 469 | SuProducer => 468 | SuLoad => 467 | _ => 466 end
  | MpRendezvous n => 465 - n | MpReport => 264 | MpSemaphore => 263 | MpMutex => 262 | MpContend => 261
  | MpLocks p => match p with LuA => 260 | _ => 259 end
  | MpContention => 5 + match contest k with Some a => lock_cost (mpc a) | None => 0 end
  | MpLockReport => 5 | MpPort => 4 | MpNewline => 3 | MpWorker => 2 | MpShell => 1 | MpYield | MpIdle => 0
  end.

(** A turn of task [t] goes well. *)
Definition turned (c0 : Console) (t : nat) (k : System) (r : option (Out * System * Sched)) : Prop :=
  exists out k' s', r = Some (out, k', s') /\ system_ok c0 k' s' /\
    match out with Done => True | Switched fs => Forall (own_frame t) fs end /\
    remaining k' + (if decide (t ∈ busy k) then 1 else 0) <= remaining k.

Lemma SchedYield_turn t s :
  sched_ok s -> CurrentTask s = Some t ->
  exists out s', SchedYield s = Some (out, s') /\ sched_ok s' /\ SchedulerLocked s' = SchedulerLocked s /\
    NextTaskId s' = NextTaskId s /\ (forall i, (i < 32)%nat -> calm i s s') /\
    match out with Done => True | Switched fs => Forall (own_frame t) fs end.
Proof.
  intros Hok Ht. destruct (SchedYield_ok s Hok) as (out & s' & E & Hok' & Hf). exists out, s'.
  destruct Hok as (Q & Hinv & _). split; [done|]. split; [done|].
  destruct (SchedYield_calm s Q 0 out s' Hinv ltac:(lia) E) as (_ & HL & HN). split; [done|]. split; [done|].
  split; [intros i Hi; by destruct (SchedYield_calm s Q i out s' Hinv Hi E)|].
  destruct out; [done|]. destruct Hf as (p & Hp & Hf). by assert (p = t) as -> by congruence.
Qed.

(** A SchedYield, between states that differ in where a task stands. *)
Lemma yield_turn c0 t k k' s :
  system_ok c0 k s -> CurrentTask s = Some t -> system_ok c0 k' s -> remaining k' = remaining k -> t ∉ busy k ->
  turned c0 t k ('(out, s) ← SchedYield s; Some (out, k', s)).
Proof.
  intros Hk Ht Hk' Hr Hb. destruct (SchedYield_turn t s) as (out & s' & -> & Hok & HL & HN & Hc & Hf); [apply Hk|done|].
  rewrite some_bind. exists out, k', s'. split; [done|]. split; [by eapply system_calm|]. split; [done|].
  rewrite decide_False by done. lia.
Qed.

Lemma not_busy t k : t <> 0%nat -> t ∉ busy k.
Proof. unfold busy. case_bool_decide; set_solver. Qed.

Lemma worker_turn c0 t k s :
  system_ok c0 k s -> CurrentTask s = Some t -> t <> 0%nat -> turned c0 t k (worker_task k s).
Proof. intros. apply (yield_turn c0 t k k); try done. by apply not_busy. Qed.

(** The shell's own state and the devices. *)
Lemma system_shell c0 k s kb c p :
  system_ok c0 k s -> kbd_wf kb -> con_inv c -> is_Some (Shell k) -> (p = SpBegin -> False) ->
  system_ok c0 (set_shell_at p (set_keys kb (set_screen c k))) s.
Proof.
  intros [H1 H2 H3 H4 H5 H6 H7 H8 H9 H10 [] H12] Hk Hc [x Hx] Hp. split; try done.
  split; try done. cbn. rewrite Hx. done.
Qed.

Lemma shell_key_inv key c : con_inv c -> exists c', shell_key key c = Some c' /\ con_inv c'.
Proof.
  intros Hi. unfold shell_key.
  destruct (putchar_inv 1 (key mod 256) (set_echo true c) (set_echo_inv true c Hi)) as (c1 & E & I1 & _).
  unfold putchar_fuel. rewrite E, some_bind. cbv zeta. pose proof (set_echo_inv false c1 I1) as I2.
  destruct (key =? 10); [|by eexists]. destruct (console_prompt_inv _ I2) as (c2 & -> & I3 & _). by eexists.
Qed.

Lemma shell_begin_inv c : con_inv c -> exists c', shell_begin c = Some c' /\ con_inv c'.
Proof.
  intros Hi. unfold shell_begin.
  destruct (say_plain (line "System ready. You can now type inside the console:") c) as (c1 & -> & [_ I1]); [done|plain_text|].
  rewrite some_bind. destruct (console_prompt_inv c1 I1) as (c' & -> & I2 & _). by eexists.
Qed.

Lemma shell_turn_inv kb c :
  kbd_wf kb -> con_inv c -> exists out kb' c', shell_turn kb c = Some (out, kb', c') /\ kbd_wf kb' /\ con_inv c'.
Proof.
  intros Hk Hc. unfold shell_turn. destruct (keyboard_getchar_spec kb Hk) as (kb' & -> & Hk' & _).
  rewrite some_bind. destruct (fst _) as [key|]; [|by eexists _, _, _].
  destruct (key <? 0); [by eexists _, _, _|].
  destruct (shell_key_inv key c Hc) as (c' & -> & Hc'). rewrite some_bind. by eexists _, _, _.
Qed.

Lemma shell_task_turn c0 t k s :
  system_ok c0 k s -> CurrentTask s = Some t -> t <> 0%nat -> is_Some (Shell k) ->
  turned c0 t k (shell_task k s).
Proof.
  intros Hk Ht H0 Hs. pose proof (so_screen _ _ _ Hk) as Hc. pose proof (so_keys _ _ _ Hk) as Hkb.
  assert (Hstep : forall p kb c, kbd_wf kb -> con_inv c -> p <> SpBegin ->
    turned c0 t k (Some (Done, set_shell_at p (set_keys kb (set_screen c k)), s))).
  { intros p kb c H1 H2 Hp. eexists _, _, s. split; [done|]. split; [by apply system_shell|]. split; [done|].
    rewrite decide_False by (by apply not_busy). cbn. change (remaining _) with (remaining k). lia. }
  unfold shell_task. destruct (shell_at k).
  - destruct (shell_begin_inv _ Hc) as (c & -> & Hc'). rewrite some_bind.
    replace (set_screen c k) with (set_keys (keys k) (set_screen c k)) by (by destruct k). by apply Hstep.
  - destruct (shell_turn_inv _ _ Hkb Hc) as (out & kb & c & -> & H1 & H2). rewrite some_bind.
    apply Hstep; [done|done|]. by destruct out.
  - apply (yield_turn c0 t k); try done; [|by apply not_busy].
    replace (set_shell_at SpLoop k) with (set_shell_at SpLoop (set_keys (keys k) (set_screen (screen k) k))) by (by destruct k).
    by apply system_shell.
Qed.

(** ** The test tasks *)

Lemma set_meeting_same k r : meeting_of k = Some r -> set_meeting (Some r) k = k.
Proof. destruct k. cbn. by intros ->. Qed.
Lemma set_contest_same k a : contest k = Some a -> set_contest (Some a) k = k.
Proof. destruct k. cbn. by intros ->. Qed.

Lemma goes_tick t s s' :
  goes t s s' -> (forall i, (i < 32)%nat -> WakeTick (task s i) = 0) ->
  forall i, (i < 32)%nat -> WakeTick (task s' i) = 0.
Proof.
  intros G H i Hi. destruct (decide (i = t)) as [->|Hne]; [by apply (go_WakeTick _ _ _ G), H|].
  by apply (go_kept _ _ _ G i Hi Hne), H.
Qed.

Lemma goes_dead t s s' i :
  goes t s s' -> (i < 32)%nat -> i <> t -> State (task s i) = TaskDead -> State (task s' i) = TaskDead.
Proof. intros G Hi Hne. by apply (go_kept _ _ _ G i Hi Hne). Qed.

Lemma last_goes c0 k s s' t :
  system_ok c0 k s -> goes t s s' -> t ∉ last k -> forall i, i ∈ last k -> up i s'.
Proof.
  intros H G Ht i Hi. eapply up_goes; [by apply (so_last _ _ _ H)| |done]. by intros ->.
Qed.

(** A turn of a rendezvous task that took [r] to [r'] and [s] to [s']. *)
Lemma system_meeting c0 k s r r' s' t :
  system_ok c0 k s -> meeting_of k = Some r -> t ∈ both r -> t ∉ later k ->
  sched_ok s' -> SchedulerLocked s' = 0 -> goes t s s' -> Consumer r' = Consumer r -> Producer r' = Producer r ->
  (t <> Consumer r -> cpc r' = cpc r) -> (t <> Producer r -> ppc r' = ppc r) ->
  allowed (main_at k) (live r' s' /\ contest k = None) (over r' s') ->
  ((3 <= stage (main_at k))%nat -> TestPort r' = TestPort r \/ (9 <= stage (main_at k))%nat) ->
  (forall p, main_at k = MpSetUp p -> created_by p r -> created_by p r' /\ ProducerId r' = ProducerId r) ->
  system_ok c0 (set_meeting (Some r') k) s'.
Proof.
  intros H Hr Ht Hl Hok HL G E1 E2 P1 P2 Ha HP HS. pose proof H as [H1 H2 H3 H4 H5 H6 H7 H8 H9 [H10 H10'] H11 H12].
  assert (Hla : t ∉ last k) by (intros Hx; apply Hl; unfold later; set_solver).
  destruct (H8 r Hr) as [_ M3 M4 M5]. split; try done.
  - by eapply goes_tick.
  - by rewrite (go_NextId _ _ _ G).
  - intros i Hi Hn. assert (Hn' : i ∉ crew k) by (revert Hn; unfold crew, both; cbn; by rewrite Hr, E1, E2).
    apply (goes_dead t s); [done|done| |by apply H5]. intros ->. apply Hn'. unfold crew. rewrite Hr. set_solver.
  - cbn. intros ? [= <-]. split; [exact Ha|by rewrite E1, E2..| |].
    + rewrite E1. intros Hg. destruct (decide (t = Consumer r)) as [->|Hne]; [done|]. apply M4. by rewrite <- P1.
    + rewrite E2. intros Hg. destruct (decide (t = Producer r)) as [->|Hne]; [done|]. apply M5. by rewrite <- P2.
  - intros a Hc. cbn in Hc. eapply contest_goes; [by apply H9|done|congruence|done|..]; intros _ <-;
      apply Hl; unfold later; rewrite Hc; set_solver.
  - split; [done|]. by eapply (last_goes c0 k).
  - destruct H11 as [S1 S1' S2 S3 S4 S4' S5 S6 S7 S8 S9]. split; try done; cbn.
    + intros E. destruct (S1 E) as [E' _]. congruence.
    + intros p ? E [= <-]. destruct (S1' p r E Hr) as [C1 C2]. destruct (HS p E C1) as [? ->]. done.
    + intros ? [= <-] Hs. destruct HP as [->|?]; [lia|by apply S8|lia].
Qed.

Lemma finished_exit t k s c0 :
  system_ok c0 k s -> CurrentTask s = Some t -> t <> 0%nat ->
  exists s' fs, SchedExit s = Some (Switched fs, s') /\ Forall (own_frame t) fs /\ sched_ok s' /\
    SchedulerLocked s' = 0 /\ goes t s s'.
Proof.
  intros H Ht H0. destruct (so_ok _ _ _ H) as (Q & Hinv & t' & Ht' & Hr). assert (t' = t) as -> by congruence.
  destruct (g_cur _ _ (proj2 Hinv) t Ht) as [H32 Hd].
  destruct (SchedExit_goes t s Q Hinv Ht) as (s' & fs & E & Hf & Hok & HL & _ & G & _); [|apply H|by exists s', fs].
  pose proof (g_ids _ _ (proj2 Hinv) t H32 H0 Hd). lia.
Qed.

Lemma meeting_turn c0 fuel t k s r :
  system_ok c0 k s -> CurrentTask s = Some t -> t <> 0%nat -> t ∉ later k -> meeting_of k = Some r ->
  turned c0 t k ('(out, r, s) ← rendezvous_body (S fuel) t r s; Some (out, set_meeting (Some r) k, s)).
Proof.
  intros H Ht H0 Hl Hr. pose proof (so_meet _ _ _ H r Hr) as M. pose proof (mt_state _ _ _ _ _ M) as Hst.
  assert (Hidle : turned c0 t k (Some (Done, set_meeting (Some r) k, s))).
  { rewrite set_meeting_same by done. exists Done, k, s. rewrite decide_False by by apply not_busy. repeat (split; [done|]). lia. }
  assert (Hdone : forall out r' s', system_ok c0 (set_meeting (Some r') k) s' ->
    match out with Done => True | Switched fs => Forall (own_frame t) fs end ->
    turned c0 t k (Some (out, set_meeting (Some r') k, s'))).
  { intros out r' s' Hs Hf. exists out, (set_meeting (Some r') k), s'. rewrite decide_False by by apply not_busy.
    do 3 (split; [done|]). change (remaining (set_meeting (Some r') k)) with (remaining k). lia. }
  assert (Hlive : allowed (main_at k) (live r s /\ contest k = None) False -> forall res, (forall idc idp, exchange idc idp r s -> turn_ok idc idp t r s res) ->
    t ∈ both r -> turned c0 t k ('(out, r, s) ← res; Some (out, set_meeting (Some r) k, s))).
  { intros [[Hs [(idc & idp & Hx) Ha]]|[_ []]] res Hres Hin.
    destruct (Hres idc idp Hx) as (out & r' & s' & -> & Hx' & Hf & [E1 E2] & _ & G & [I1 _] & P1 & P2 & _). rewrite some_bind.
    apply Hdone; [|done]. apply (system_meeting c0 k s r r' s' t); try done; [apply Hx'|apply Hx'|..].
    - left. split; [done|]. split; [by exists idc, idp|done].
    - intros. right. lia.
    - intros p _ Hp. split; [|done]. destruct (unborn_iff _ _ _ _ Hx) as [U1 U2], (unborn_iff _ _ _ _ Hx') as [U3 U4].
      destruct p; cbn in *; rewrite ?U1, ?U2, ?U3, ?U4, ?E1, ?E2 in *; done. }
  assert (Hover : (3 <= stage (main_at k))%nat -> forall r' p, main_at k = MpSetUp p -> created_by p r -> created_by p r' /\ ProducerId r' = ProducerId r)
    by (intros Hs r' p Em; rewrite Em in Hs; cbn in Hs; lia).
  unfold rendezvous_body. destruct (decide (t = Consumer r)) as [->|Hc].
  { destruct (here (cpc r)) eqn:Hg.
    2: { unfold ipc_consumer_task. destruct (cpc r); try done; exact Hidle. }
    destruct Hst as [Hst|[Hs ([[E U]|E] & HP & Hne)]]; [|unfold ipc_consumer_task; rewrite E|by rewrite E in Hg].
    { apply Hlive; [by left|intros; by apply consumer_turn|set_solver]. }
    destruct (finished_exit _ _ _ _ H Ht H0) as (s' & fs & -> & Hf & Hok & HL & G). rewrite !some_bind.
    apply Hdone; [|done]. apply (system_meeting c0 k s r _ s' (Consumer r)); try done; [set_solver| |by left|by apply Hover].
    right. split; [done|]. split; [by right|]. split; [|done]. eapply finished_goes; [exact HP|intros _; by apply not_eq_sym|exact G]. }
  destruct (decide (t = Producer r)) as [->|Hp]; [|by rewrite some_bind].
  destruct (here (ppc r)) eqn:Hg.
  2: { unfold ipc_producer_task. destruct (ppc r); try done; exact Hidle. }
  destruct Hst as [Hst|[Hs (HC & [[E U]|E] & Hne)]]; [|unfold ipc_producer_task; rewrite E|by rewrite E in Hg].
  { apply Hlive; [by left|intros; by apply producer_turn|set_solver]. }
  destruct (finished_exit _ _ _ _ H Ht H0) as (s' & fs & -> & Hf & Hok & HL & G). rewrite !some_bind.
  apply Hdone; [|done]. apply (system_meeting c0 k s r _ s' (Producer r)); try done; [set_solver| |by left|by apply Hover].
  right. split; [done|]. split; [|split; [by right|done]]. eapply finished_goes; [exact HC|done|exact G].
Qed.

(** A turn of a lock task: the meeting is over by then. *)
Lemma system_contest c0 k s a a' s' t :
  system_ok c0 k s -> contest k = Some a -> t = LockA a \/ t = LockB a -> t ∉ last k ->
  sched_ok s' -> goes t s s' -> LockA a' = LockA a -> LockB a' = LockB a -> mpc a' = mpc a ->
  contest_ok (last k) a' s' -> system_ok c0 (set_contest (Some a') k) s'.
Proof.
  intros H Ha Hin Hl Hok G E1 E2 E3 Hct. pose proof H as [H1 H2 H3 H4 H5 H6 H7 H8 H9 [H10 H10'] H11 H12].
  assert (Ht : t ∈ later k) by (unfold later; rewrite Ha; set_solver).
  split; try done.
  - destruct Hct as [(ia & ib & Hf) _ _]. by eapply fighting_ok.
  - by eapply goes_tick.
  - by rewrite (go_NextId _ _ _ G).
  - intros i Hi Hn. assert (Hn' : i ∉ crew k).
    { revert Hn. unfold crew, later. cbn. by rewrite Ha, E1, E2. }
    apply (goes_dead t s); [done|done| |by apply H5]. intros ->. apply Hn'. unfold crew. set_solver.
  - intros r Hr. cbn in Hr. destruct (H8 r Hr) as [M1 M3 M4 M5].
    assert (EL : later (set_contest (Some a') k) = later k) by (unfold later; cbn; by rewrite Ha, E1, E2).
    split; rewrite ?EL; try done. destruct M1 as [[_ [_ M1]]|[Hs (HC & HP & Hne)]]; [congruence|]. right. split; [done|].
    split; [|split; [|done]]; (eapply finished_goes; [done| |done]); intros Hg <-; [by apply M4|by apply M5].
  - by intros ? [= <-].
  - split; [done|]. by eapply (last_goes c0 k).
  - destruct H11 as [S1 S1' S2 S3 S4 S4' S5 S6 S7 S8 S9]. split; try done; cbn.
    + intros E. rewrite S3 in Ha by done. done.
    + intros ? [= <-]. destruct (H9 a Ha) as [(? & ? & HF) _ _], Hct as [(? & ? & HF') _ _].
      destruct (fighting_unborn _ _ _ _ HF) as [U1 U2], (fighting_unborn _ _ _ _ HF') as [U3 U4].
      apply (locks_created_kept _ a); [by rewrite U1, U3, E1|by rewrite U2, U4, E2|done|by apply S4'].
    + revert S9. destruct (main_at k); try done. intros S9 ? [= <-]. rewrite E3. by apply S9.
Qed.

Lemma contest_turn c0 fuel t k s a :
  system_ok c0 k s -> CurrentTask s = Some t -> t <> 0%nat -> t ∉ last k -> contest k = Some a ->
  t = LockA a \/ t = LockB a ->
  turned c0 t k ('(out, a, s) ← contention_body (S fuel) t a s; Some (out, set_contest (Some a) k, s)).
Proof.
  intros H Ht H0 Hl Ha Hin. destruct (so_contest _ _ _ H a Ha) as [(ia & ib & Hf) La Lb].
  assert (Hdone : forall out a' s', system_ok c0 (set_contest (Some a') k) s' -> mpc a' = mpc a ->
    match out with Done => True | Switched fs => Forall (own_frame t) fs end ->
    turned c0 t k (Some (out, set_contest (Some a') k, s'))).
  { intros out a' s' Hs E Hfr. exists out, (set_contest (Some a') k), s'. rewrite decide_False by by apply not_busy.
    do 3 (split; [done|]). unfold remaining. cbn [main_at contest set_contest]. rewrite Ha, E. lia. }
  destruct (fighting_turn fuel _ _ _ _ _ Hf Ht H0) as (out & a' & s' & -> & Hf' & Hout & (E1 & E2 & E3) & Pa & Pb & G & _).
  rewrite some_bind. apply Hdone; [|done|done]. apply (system_contest c0 k s a a' s' t); try done; [by eapply fighting_ok|].
  split; [by exists ia, ib|..]; intros Hp.
  - rewrite E1. destruct (decide (t = LockA a)) as [<-|Hne]; [done|]. apply La. by rewrite <- Pa.
  - rewrite E2. destruct (decide (t = LockB a)) as [<-|Hne]; [done|]. apply Lb. by rewrite <- Pb.
Qed.

(** ** Turns of the idle task *)

Lemma erase_calm i s s' : erase (task s' i) = erase (task s i) -> calm i s s'.
Proof.
  intros E. apply calm_same; [exact (f_equal State E)|exact (f_equal Id E)|exact (f_equal WakeTick E)].
Qed.

Lemma meet_at p p' alone lt r s :
  meet_ok p alone lt r s -> (allowed p (live r s /\ alone) (over r s) -> allowed p' (live r s /\ alone) (over r s)) ->
  meet_ok p' alone lt r s.
Proof. intros [] H. split; auto. Qed.

Lemma no_shell k : stands k -> (stage (main_at k) <= 11)%nat -> shell_at k = SpBegin.
Proof. intros H Hs. by apply H, H. Qed.

(** The idle task moves on, having printed [l], and no task has come or gone. *)
Lemma system_at c0 k s p c l :
  system_ok c0 k s -> coming p <= coming (main_at k) -> prints l (screen k) c ->
  (forall r, meeting_of k = Some r -> allowed (main_at k) (live r s /\ contest k = None) (over r s) ->
     allowed p (live r s /\ contest k = None) (over r s)) ->
  (shell_at k = SpBegin -> forall t, transcript (main_at k) t -> transcript p (t ++ l)) ->
  stands (set_main_at p (set_screen c k)) -> system_ok c0 (set_main_at p (set_screen c k)) s.
Proof.
  intros [H1 H2 H3 H4 H5 H6 H7 H8 H9 H10 H11 H12] Hi Hp Ha Ht Hs. split; try done; cbn [main_at set_main_at set_screen].
  - lia.
  - apply Hp.
  - intros r Hr. apply (meet_at (main_at k)); [by apply H8|]. by apply Ha.
  - cbn. intros Hb. destruct (H12 Hb) as (t & Htr & Hpr). exists (t ++ l). split; [by apply Ht|]. by eapply prints_app.
Qed.

Lemma prints_none c : con_inv c -> prints [] c c.
Proof. done. Qed.

(** The same without printing. *)
Lemma system_at_quiet c0 k s p :
  system_ok c0 k s -> coming p <= coming (main_at k) ->
  (forall r, meeting_of k = Some r -> allowed (main_at k) (live r s /\ contest k = None) (over r s) ->
     allowed p (live r s /\ contest k = None) (over r s)) ->
  (shell_at k = SpBegin -> forall t, transcript (main_at k) t -> transcript p t) ->
  stands (set_main_at p k) -> system_ok c0 (set_main_at p k) s.
Proof.
  intros H Hi Ha Ht Hs. replace (set_main_at p k) with (set_main_at p (set_screen (screen k) k)) by (by destruct k).
  apply (system_at _ _ _ _ _ []); try done; [apply prints_none, H|intros; rewrite app_nil_r; by auto].
Qed.

Lemma system_statics c0 k s sem m :
  system_ok c0 k s -> system_ok c0 (set_TestSem sem (set_Mutex0 m k)) s.
Proof. intros [H1 H2 H3 H4 H5 H6 H7 H8 H9 H10 [] H12]. by split. Qed.

(** What a branch of the idle task's turn has to show. *)
Lemma main_done c0 k k' s' r :
  r = Some (Done, k', s') -> system_ok c0 k' s' -> remaining k' + 1 <= remaining k -> turned c0 0 k r.
Proof. intros -> H Hr. exists Done, k', s'. split; [done|]. split; [done|]. split; [done|]. case_decide; lia. Qed.

(** Where nobody is being created. *)
Definition fixed (p : MainPoint) : bool := match p with MpStart | MpSetUp _ | MpLocks _ => false | _ => true end.

Lemma locks_created_fixed p q a : fixed p = true -> fixed q = true -> locks_created p a -> locks_created q a.
Proof. by destruct p, q. Qed.

(** What a step of the idle task has to show of what there is. *)
Lemma stands_at k p c :
  stands k -> fixed p = true -> fixed (main_at k) = true -> (stage (main_at k) <= stage p)%nat ->
  ((1 <= stage p <= 8)%nat -> is_Some (meeting_of k)) -> ((6 <= stage p <= 7)%nat -> is_Some (contest k)) ->
  (forall r, meeting_of k = Some r -> (3 <= stage p <= 8)%nat -> port_idle (TestPort r)) ->
  match p with
  | MpRendezvous n => 0 <= n <= IPC_TEST_TIMEOUT
  | MpContention => forall a, contest k = Some a -> wait_bound (mpc a) /\ mpc a <> MpDone
  | _ => True
  end -> stands (set_main_at p (set_screen c k)).
Proof.
  intros [S1 S1' S2 S3 S4 S4' S5 S6 S7 S8 S9] Hp Hk Hs HM HC HP HW.
  split; cbn [main_at set_main_at set_screen meeting_of contest Worker Shell shell_at Port0]; try done;
    intros; [by subst p..|apply S3; lia|by eapply locks_created_fixed; [exact Hk|..]; eauto|apply S5; lia|apply S6; lia].
Qed.

(** In the wait for the rendezvous. *)
Lemma rendezvous_wait_turn im fuel c0 k s n :
  system_ok c0 k s -> main_at k = MpRendezvous n -> turned c0 0 k (kernel_main_task im (S fuel) k s).
Proof.
  intros H Hm. unfold kernel_main_task, ipc_test_tasks. pose proof (so_stands _ _ _ H) as S.
  pose proof (sn_wait _ S) as Hw. rewrite Hm in *. cbv iota beta in Hw.
  destruct (sn_meet _ S) as [r Hr]; [rewrite Hm; cbn; lia|]. rewrite Hr.
  assert (Hgo : forall p, (p = MpReport \/ p = MpRendezvous (n + 1) /\ n < 200) ->
    turned c0 0 k ('(k, s) ← Some (set_main_at p k, s); Some (Done, k, s))).
  { intros p Hp. rewrite some_bind. assert (Hst : (stage p <= 2 /\ 1 <= stage p)%nat) by (destruct Hp as [->|[-> _]]; cbn; lia).
    eapply main_done; [done| |unfold remaining; rewrite Hm; destruct Hp as [->|[-> ?]]; cbn; unfold IPC_TEST_TIMEOUT in *; lia].
    apply system_at_quiet; [done| | | |].
    - rewrite Hm. destruct Hp as [->|[-> _]]; done.
    - rewrite Hm. intros r' _ [[_ ?]|[? _]]; [left; split; [lia|done]|cbn in *; lia].
    - rewrite Hm. intros _ t. destruct Hp as [->|[-> _]]; done.
    - replace (set_main_at p k) with (set_main_at p (set_screen (screen k) k)) by (by destruct k).
      apply stands_at; [done|by destruct Hp as [->|[-> _]]|by rewrite Hm|rewrite Hm; cbn; lia|by rewrite Hr|cbn; lia|intros; lia|].
      destruct Hp as [->|[-> ?]]; [done|]. unfold IPC_TEST_TIMEOUT in *. lia. }
  destruct (Z.ltb_spec n IPC_TEST_TIMEOUT); [|by apply Hgo; left].
  destruct (_ && _); [by apply Hgo; left|]. unfold IPC_TEST_TIMEOUT in *. unwrap. apply Hgo. right. done.
Qed.

(** The report of the rendezvous. *)
Lemma side_finished s t id pc w can :
  side s t id pc w can -> pc = PcReturn \/ pc = PcGone -> t <> 0%nat -> finished t pc s /\ entries w = [].
Proof.
  intros H Hpc H0. pose proof (sd_wait _ _ _ _ _ _ H) as He.
  destruct Hpc as [->| ->]; [|split; [by right|by rewrite He, decide_False by (by intros [])]].
  assert (Hb : State (task s t) <> TaskBlocked).
  { intros Hb. by destruct (sd_blocked _ _ _ _ _ _ H Hb) as (_ & i & was & E). }
  split; [|by rewrite He, decide_False by tauto]. left. split; [done|]. destruct (sd_alive _ _ _ _ _ _ H) as (Hd & _); [done|].
  split; [done|]. split; [by apply H|done].
Qed.

Lemma exchange_over idc idp r s :
  exchange idc idp r s -> ConsumerDone r <> 0 -> ProducerDone r <> 0 -> Consumer r <> 0%nat -> Producer r <> 0%nat ->
  over r s /\ port_idle (TestPort r).
Proof.
  intros H HC HP Hc0 Hp0. rewrite (ex_cdone _ _ _ _ H) in HC. rewrite (ex_pdone _ _ _ _ H) in HP.
  pose proof (ex_port _ _ _ _ H) as Hw.
  destruct (side_finished _ _ _ _ _ _ (ex_c _ _ _ _ H)) as [FC EC]; [destruct (cpc r); auto; done|done|].
  destruct (side_finished _ _ _ _ _ _ (ex_p _ _ _ _ H)) as [FP EP]; [destruct (ppc r); auto; done|done|].
  split; [split; [done|split; [done|]]|split; [apply Hw|]; split; apply no_waiters; done || apply Hw].
  apply (ex_ne _ _ _ _ H). intros E. by rewrite E in HC.
Qed.

Lemma rendezvous_report_timeout idc idp r s c :
  exchange idc idp r s -> ConsumerDone r = 0 \/ ProducerDone r = 0 -> con_inv c ->
  exists c' q, rendezvous_report r c = Some c' /\ 0 <= q <= 16 /\ prints (timeout_text q) c c'.
Proof.
  intros H Hd Hc. pose proof (p_count _ (ex_port _ _ _ _ H)) as Hq. unfold rendezvous_report, IpcPortQueued.
  rewrite (port_created _ (ex_port _ _ _ _ H)). cbn [negb].
  replace (_ || _) with true by (symmetry; apply orb_true_iff; by rewrite !Z.eqb_eq).
  destruct (say_spec (line "ERROR: ipc rendezvous did not finish, %u of %u messages.")
    [AWord (PCount (TestPort r)); AWord IPC_TEST_MESSAGES] (timeout_text (PCount (TestPort r))) c) as (c' & -> & P); [done| | |by eexists _, _].
  - apply Forall_cons; split; [|apply Forall_singleton]; cbn; unfold IPC_TEST_MESSAGES; lia.
  - change (line "ERROR: ipc rendezvous did not finish, %u of %u messages.") with
      (text "ERROR: ipc rendezvous did not finish, " ++ 37 :: 117 :: text " of " ++ 37 :: 117 :: line " messages.").
    rewrite render_lit by plain_text. rewrite render_dec, render_lit by plain_text. rewrite render_dec.
    by rewrite <- (app_nil_r (line " messages.")), render_lit by plain_text.
Qed.

(** The rendezvous is given up, and its tasks are left to themselves. *)
Lemma report_failed c0 k s r l c :
  system_ok c0 k s -> main_at k = MpReport -> meeting_of k = Some r -> live r s /\ contest k = None ->
  prints l (screen k) c -> tests_report l -> turned c0 0 k (Some (Done, set_main_at MpNewline (set_screen c k), s)).
Proof.
  intros H Hm Hr Hx P Hl. pose proof (so_stands _ _ _ H) as S.
  eapply main_done; [done| |unfold remaining; rewrite Hm; cbn; lia].
  apply (system_at _ _ _ _ _ l); [done|by rewrite Hm|done| |rewrite Hm; by intros _ t ->|].
  - intros ? ?. simplify_eq. intros _. left. split; [right; cbn; lia|done].
  - apply stands_at; [done|done|by rewrite Hm|rewrite Hm; cbn; lia|by eauto|cbn; lia| |done]. cbn. lia.
Qed.

Lemma report_turn im fuel c0 k s :
  system_ok c0 k s -> main_at k = MpReport -> turned c0 0 k (kernel_main_task im (S fuel) k s).
Proof.
  intros H Hm. unfold kernel_main_task, ipc_test_tasks. pose proof (so_stands _ _ _ H) as S. rewrite Hm.
  destruct (sn_meet _ S) as [r Hr]; [rewrite Hm; cbn; lia|]. rewrite Hr.
  pose proof (so_meet _ _ _ H r Hr) as M. pose proof (mt_ids _ _ _ _ _ M) as [N1 N2].
  destruct (mt_state _ _ _ _ _ M) as [[_ [(idc & idp & Hx) Ha]]|[Hs _]]; [|rewrite Hm in Hs; cbn in Hs; lia].
  assert (Hlive : live r s) by (by exists idc, idp).
  destruct (decide (ConsumerDone r <> 0 /\ ProducerDone r <> 0)) as [[HC HP]|Hn].
  - destruct (rendezvous_report_ok idc idp r s (screen k) Hx HC HP (so_screen _ _ _ H)) as (c & -> & P).
    rewrite (proj2 (Z.eqb_neq _ _) HC), (proj2 (Z.eqb_neq _ _) HP). cbn [negb andb].
    unfold report_text in P. destruct (Z.eqb_spec (ConsumerBad r) 0) as [_|Hbad]; rewrite !some_bind.
    2: { eapply report_failed; [done..|]. right. left. exists (ConsumerBad r).
         pose proof (ex_bad _ _ _ _ Hx). pose proof (ex_count _ _ _ _ Hx). split; [lia|done]. }
    destruct (exchange_over _ _ _ _ Hx HC HP N1 N2) as [Ho Hi].
    eapply main_done; [done| |unfold remaining; rewrite Hm; cbn; lia].
    apply (system_at _ _ _ _ _ rendezvous_text); [done|by rewrite Hm|done| |rewrite Hm; by intros _ t ->|].
    + intros ? ?. simplify_eq. intros _. right. split; [cbn; lia|done].
    + apply stands_at; [done|done|by rewrite Hm|rewrite Hm; cbn; lia|by eauto|cbn; lia| |done]. intros ? ? _. by simplify_eq.
  - destruct (rendezvous_report_timeout idc idp r s (screen k) Hx) as (c & q & -> & Hq & P); [lia|apply H|].
    replace (_ && _ && _) with false
      by (symmetry; rewrite !andb_false_iff, !negb_false_iff, !Z.eqb_eq; lia).
    rewrite !some_bind. eapply report_failed; [done..|]. left. by exists q.
Qed.

(** The tests without a second task. *)
Lemma idle_self c0 k s : system_ok c0 k s -> CurrentTask s = Some 0%nat -> IpcSelfId s = 0.
Proof.
  intros H Ht. destruct (so_ok _ _ _ H) as (Q & [_ G] & _). unfold IpcSelfId, SchedCurrent. rewrite Ht. apply G.
Qed.

(** A test that goes on to the next with everything in its place. *)
Lemma system_next c0 k s p c l :
  system_ok c0 k s -> fixed p = true -> fixed (main_at k) = true ->
  (3 <= stage (main_at k) < stage p)%nat -> (stage p <= 9)%nat -> prints l (screen k) c ->
  (forall t, transcript (main_at k) t -> transcript p (t ++ l)) ->
  ((6 <= stage p <= 7)%nat -> is_Some (contest k)) -> p <> MpContention ->
  system_ok c0 (set_main_at p (set_screen c k)) s.
Proof.
  intros H Hfp Hfk Hs Hs' Hp Ht HC Hne. pose proof (so_stands _ _ _ H) as S.
  apply (system_at _ _ _ _ _ l); [done| |done| |by auto|].
  - destruct (main_at k), p; cbn in *; lia.
  - unfold allowed. intros ? ?. intros [[? ?]|[? ?]]; [lia|right; split; [lia|done]].
  - apply stands_at; [done|done|done|lia| |done| |by destruct p; cbn in *; try lia].
    + intros _. apply S. lia.
    + intros r Hr _. apply (sn_port _ S r Hr). lia.
Qed.

Lemma semaphore_turn im fuel c0 k s :
  system_ok c0 k s -> main_at k = MpSemaphore -> CurrentTask s = Some 0%nat ->
  turned c0 0 k (kernel_main_task im (S fuel) k s).
Proof.
  intros H Hm Ht. unfold kernel_main_task, ipc_test_tasks. rewrite Hm. fold (ipc_test_tasks im).
  destruct (semaphore_test_ok fuel s (idle_self _ _ _ H Ht) (TestSem k) (screen k)) as (c & E & P); [apply H|].
  rewrite E, !some_bind.
  eapply main_done; [done| |unfold remaining; rewrite Hm; cbn; lia].
  apply (system_statics c0 (set_main_at MpMutex (set_screen c k)) s _ (Mutex0 k)).
  eapply system_next; [done|done|by rewrite Hm|rewrite Hm; cbn; lia|cbn; lia|exact P|rewrite Hm; by intros t ->|cbn; lia|done].
Qed.

Lemma mutex_turn im fuel c0 k s :
  system_ok c0 k s -> main_at k = MpMutex -> CurrentTask s = Some 0%nat ->
  turned c0 0 k (kernel_main_task im (S fuel) k s).
Proof.
  intros H Hm Ht. unfold kernel_main_task, ipc_test_tasks. rewrite Hm.
  destruct (mutex_test_ok fuel s (idle_self _ _ _ H Ht) (Mutex0 k) (screen k)) as (c & E & P); [apply H|].
  rewrite E, !some_bind.
  eapply main_done; [done| |unfold remaining; rewrite Hm; cbn; lia].
  apply (system_statics c0 (set_main_at MpContend (set_screen c k)) s (TestSem k) _).
  eapply system_next; [done|done|by rewrite Hm|rewrite Hm; cbn; lia|cbn; lia|exact P|rewrite Hm; by intros t ->|cbn; lia|done].
Qed.

Lemma lock_report_turn im fuel c0 k s :
  system_ok c0 k s -> main_at k = MpLockReport -> turned c0 0 k (kernel_main_task im (S fuel) k s).
Proof.
  intros H Hm. unfold kernel_main_task, ipc_test_tasks. rewrite Hm.
  destruct (sn_contest _ (so_stands _ _ _ H)) as [a Ha]; [rewrite Hm; cbn; lia|]. rewrite Ha.
  destruct (so_contest _ _ _ H a Ha) as [(ia & ib & Hf) _ _].
  destruct (fighting_counts _ _ _ _ Hf) as [Hbad Hu].
  destruct (contention_report_ok (lock a) (screen k)) as (c & E & P); [done|done|apply H|].
  rewrite E, !some_bind. eapply main_done; [done| |unfold remaining; rewrite Hm; cbn; lia].
  eapply system_next; [done|done|by rewrite Hm|rewrite Hm; cbn; lia|cbn; lia|exact P| |cbn; lia|done].
  rewrite Hm. intros t ->. by exists (LockRounds (lock a)).
Qed.

Lemma newline_turn im fuel c0 k s :
  system_ok c0 k s -> main_at k = MpNewline -> turned c0 0 k (kernel_main_task im (S fuel) k s).
Proof.
  intros H Hm. unfold kernel_main_task. rewrite Hm. pose proof (so_stands _ _ _ H) as S.
  destruct (say_plain (line "") (screen k)) as (c & -> & P); [apply H|plain_text|]. rewrite some_bind.
  eapply main_done; [done| |unfold remaining; rewrite Hm; cbn; lia].
  apply (system_at _ _ _ _ _ (line "")); [done|by rewrite Hm|done| |rewrite Hm; intros _ t Ht; by exists t|].
  - rewrite Hm. unfold allowed. cbn. intros ? ?. intros [[? ?]|[? ?]]; [left|right]; (split; [lia|done]).
  - apply stands_at; [done|done|by rewrite Hm|rewrite Hm; cbn; lia|cbn; lia|cbn; lia|cbn; lia|done].
Qed.

Lemma idle_loop_turn im fuel c0 k s :
  system_ok c0 k s -> main_at k = MpYield \/ main_at k = MpIdle -> CurrentTask s = Some 0%nat ->
  turned c0 0 k (kernel_main_task im (S fuel) k s).
Proof.
  intros H Hm Ht. pose proof (so_stands _ _ _ H) as S. unfold kernel_main_task.
  assert (Hat : forall p, p = MpYield \/ p = MpIdle -> system_ok c0 (set_main_at p k) s).
  { intros p Hp. apply system_at_quiet; [done| | | |].
    - destruct Hp as [->| ->], Hm as [->| ->]; done.
    - unfold allowed. intros ? ?. intros [[? ?]|[? ?]]; [left|right]; (split; [|done]);
        destruct Hp as [->| ->], Hm as [Hm|Hm]; cbn; lia.
    - destruct Hp as [->| ->], Hm as [->| ->]; done.
    - replace (set_main_at p k) with (set_main_at p (set_screen (screen k) k)) by (by destruct k).
      destruct S as [S1 S1' S2 S3 S4 S4' S5 S6 S7 S8 S9].
      split; cbn [main_at set_main_at set_screen meeting_of contest Worker Shell shell_at Port0]; try done;
        destruct Hp as [->| ->]; cbn; try lia; try done; destruct Hm as [Hm|Hm]; rewrite Hm in S4'; exact S4'. }
  assert (Hb : 0%nat ∉ busy k).
  { unfold busy. rewrite bool_decide_false; [set_solver|]. destruct Hm as [->| ->]; cbn; lia. }
  destruct Hm as [Hm|Hm]; rewrite Hm.
  - apply (yield_turn c0 0 k); [done|done|apply Hat; by right|unfold remaining; by rewrite Hm|done].
  - exists Done, (set_main_at MpYield k), s. split; [done|]. split; [apply Hat; by left|]. split; [done|].
    rewrite decide_False by done. unfold remaining. rewrite Hm. cbn. lia.
Qed.

(** The start of the rendezvous: nobody else is there yet. *)
Lemma alone_count c0 k s : system_ok c0 k s -> TaskCountValue s <= 7.
Proof.
  intros H. etrans; [apply (crew_count k); apply H|]. pose proof (length_last k). unfold crew, later.
  destruct (meeting_of k), (contest k); cbn [length app both]; rewrite ?length_app; cbn; lia.
Qed.

Lemma erased_tick (X : list nat) s s' :
  (forall i, (i < 32)%nat -> WakeTick (task s i) = 0) ->
  (forall i, (i < 32)%nat -> i ∉ X -> erase (task s' i) = erase (task s i)) ->
  (forall x, x ∈ X -> WakeTick (task s' x) = 0) -> forall i, (i < 32)%nat -> WakeTick (task s' i) = 0.
Proof.
  intros H1 H2 H3 i Hi. destruct (decide (i ∈ X)) as [Hx|Hx]; [by apply H3|].
  rewrite (f_equal WakeTick (H2 i Hi Hx) : WakeTick (task s' i) = WakeTick (task s i)). by apply H1.
Qed.

(** Before the rendezvous only kernel_main is there. *)
Lemma none_yet k :
  stands k -> (stage (main_at k) <= 5)%nat ->
  contest k = None /\ Worker k = None /\ Shell k = None /\ later k = [] /\ last k = [].
Proof.
  intros S Hs. assert (Hc : contest k = None) by by apply S.
  assert (Hw : Worker k = None) by (apply S; lia). assert (Hsh : Shell k = None) by (apply S; lia).
  unfold later, last. by rewrite Hc, Hw, Hsh.
Qed.

Lemma start_turn im fuel c0 k s :
  system_ok c0 k s -> main_at k = MpStart -> length (Data (producer_garbage im)) = 8%nat ->
  turned c0 0 k (kernel_main_task im (S fuel) k s).
Proof.
  intros H Hm Hg. unfold kernel_main_task, ipc_test_tasks. rewrite Hm. pose proof (so_stands _ _ _ H) as S.
  destruct (sn_start _ S Hm) as (Hr & Hmag & Hsl).
  assert (Hstage : stage (main_at k) = 0%nat) by by rewrite Hm.
  destruct (none_yet k S) as (Hc & Hw & Hs & Hla & Hl); [lia|].
  destruct (rendezvous_start_ok 1 1 (consumer_garbage im) (producer_garbage im) (Port0 k) (screen k) s)
    as (r & -> & Hx & E1 & E2 & E3 & E4 & E5); [apply H|apply H|done..|].
  rewrite !some_bind. eapply main_done; [done| |unfold remaining; rewrite Hm; cbn; lia].
  split; cbn [main_at keys screen meeting_of contest shell_at set_main_at set_meeting set_screen]; try apply H.
  - cbn. pose proof (so_ids _ _ _ H) as Hids. by rewrite Hm in Hids.
  - intros i Hi Hn. apply (so_crew _ _ _ H); [done|]. intros Hb. apply Hn. unfold crew in *. rewrite Hr in Hb.
    unfold later in *. cbn in *. set_solver.
  - intros ? [= <-]. split; [|by rewrite E4, E5|by rewrite E1|by rewrite E2].
    left. split; [left; cbn; lia|]. split; [by eexists _, _|done].
  - destruct S as [S1 S1' S2 S3 S4 S4' S5 S6 S7 S8 S9]. split; cbn; try done; try lia; [|by rewrite Hc].
    by intros ? ? [= <-] [= <-].
  - intros Hb. destruct (so_log _ _ _ H Hb) as (t & Ht & Hp). exists t. rewrite Hm in Ht. done.
Qed.

(** The ids of tasks still to be created are open. *)
Lemma side_unborn s t id id' w can : side s t id PcUnborn w can -> id' <> 0 -> side s t id' PcUnborn w can.
Proof.
  intros [H0 H1 H2 H3 H4 H5 H6] Hid. rewrite decide_False in H4 by (by intros []). split; try done.
  by rewrite decide_False by (by intros []).
Qed.

Lemma exchange_ids idc idp idc' idp' r s :
  exchange idc idp r s -> ppc r = PcUnborn -> idp' <> 0 -> cpc r = PcUnborn /\ idc' <> 0 \/ idc' = idc ->
  exchange idc' idp' r s.
Proof.
  intros [H1 H2 Hb H3 H4 H5 H6 H7 H8 H9 H10 HGot HB Hlate H13 H14 H15] Ep Hp Hc.
  assert (E0 : position (cpc r) = 0) by (rewrite Ep in H7; cbn in H7; lia).
  split; try done.
  - destruct Hc as [[Ec Hc]| ->]; [|done]. rewrite Ec in *. by eapply side_unborn.
  - rewrite Ep in *. by eapply side_unborn.
  - rewrite E0, Ep in *. cbn in H8 |- *. apply Forall2_length in H8. by destruct (queued (TestPort r)).
  - lia.
  - lia.
Qed.

(** One of the two tasks was created. *)
Lemma system_born c0 k s r r' s' eip esp t p q :
  system_ok c0 k s -> main_at k = MpSetUp p -> meeting_of k = Some r ->
  created eip esp t s s' -> sched_ok s' -> (t < 32)%nat -> State (task s t) = TaskDead ->
  live r' s' -> t ∈ both r' -> (forall x, x ∈ both r -> x ∈ both r' \/ x = no_task) ->
  (Consumer r' <> 0%nat /\ Producer r' <> 0%nat) -> coming (MpSetUp q) + 1 <= coming (MpSetUp p) ->
  created_by q r' /\ ProducerId r' = 0 -> system_ok c0 (set_main_at (MpSetUp q) (set_meeting (Some r') k)) s'.
Proof.
  intros H Hm Hr C Hok Ht Hd Hx Hin Hsub Hne Hco Hq. pose proof (so_stands _ _ _ H) as S.
  destruct (none_yet k S) as (Hc & Hw & Hs & Hla & Hl); [rewrite Hm; cbn; lia|].
  pose proof (so_ids _ _ _ H) as Hids. rewrite Hm in Hids.
  assert (Hla' : later (set_main_at (MpSetUp q) (set_meeting (Some r') k)) = []) by exact Hla.
  split; cbn [main_at keys screen meeting_of contest shell_at set_main_at set_meeting]; try apply H; try done.
  - rewrite (cr_Locked _ _ _ _ _ C). apply H.
  - intros i Hi. destruct (decide (i = t)) as [->|Hit]; [rewrite (cr_Wake _ _ _ _ _ C)|apply (created_calm _ _ _ _ _ _ C Hit)];
      by apply (so_tick _ _ _ H).
  - rewrite (cr_Next _ _ _ _ _ C). lia.
  - intros i Hi Hn. unfold crew in Hn. rewrite Hla' in Hn. cbn [meeting_of set_main_at set_meeting] in Hn.
    assert (Hit : i <> t) by (intros ->; set_solver).
    apply (created_calm _ _ _ _ _ _ C Hit), (so_crew _ _ _ H); [done|]. unfold crew. rewrite Hr, Hla.
    intros [->|[Hb|[]%elem_of_nil]%elem_of_app]%elem_of_cons; [set_solver|].
    destruct (Hsub i Hb) as [Hb'| ->]; [set_solver|]. unfold no_task in Hi. lia.
  - intros ? [= <-]. rewrite Hla'. split; [|done|set_solver..]. left. split; [left; cbn; lia|done].
  - intros a Ha. congruence.
  - unfold last in *. cbn. rewrite Hl. split; [constructor|]. by intros x ?%elem_of_nil.
  - destruct S as [S1 S1' S2 S3 S4 S4' S5 S6 S7 S8 S9]. split; cbn; try done; try lia; [|by rewrite Hc].
    by intros ? ? [= <-] [= <-].
  - intros Hb. destruct (so_log _ _ _ H Hb) as (l & Hl' & Hp). exists l. by rewrite Hm in Hl'.
Qed.

(** The set-up goes on without anything new but the producer's id. *)
Lemma system_set_up c0 k s r r' p p' :
  system_ok c0 k s -> main_at k = MpSetUp p -> meeting_of k = Some r -> live r' s ->
  both r' = both r -> (cpc r' = cpc r /\ ppc r' = ppc r) -> coming p' <= coming (MpSetUp p) ->
  (p' = MpRendezvous 0 \/ exists q, p' = MpSetUp q /\ created_by q r' /\ ProducerId r' = 0) ->
  system_ok c0 (set_main_at p' (set_meeting (Some r') k)) s.
Proof.
  intros H Hm Hr Hx Eb [Ec Ep] Hco Hp'. pose proof (so_stands _ _ _ H) as S.
  assert (Hst : stage p' = 1%nat) by (by destruct Hp' as [->|(q & -> & _)]).
  assert (Htr : forall l, transcript (main_at k) l -> transcript p' l) by (rewrite Hm; by destruct Hp' as [->|(q & -> & _)]).
  injection Eb as E1 E2. destruct H as [H1 H2 H3 H4 H5 H6 H7 H8 H9 H10 H11 H12].
  split; try done; cbn [main_at screen meeting_of contest shell_at set_main_at set_meeting].
  - rewrite Hm in H4. lia.
  - intros i Hi Hn. apply H5; [done|]. unfold crew, both in *. cbn [meeting_of set_main_at set_meeting] in Hn.
    rewrite Hr. by rewrite E1, E2 in Hn.
  - intros ? [= <-]. destruct (H8 r Hr) as [M1 M3 M4 M5]. split; rewrite ?E1, ?E2, ?Ec, ?Ep; try done.
    left. split; [left; lia|]. split; [done|]. apply H11. rewrite Hm. cbn. lia.
  - destruct H11 as [S1 S1' S2 S3 S4 S4' S5 S6 S7 S8 S9]. rewrite Hm in *. cbn [stage] in *.
    split; cbn [main_at set_main_at set_meeting meeting_of contest Worker Shell shell_at Port0]; rewrite ?Hst; try done; try lia.
    + by destruct Hp' as [->|(q & -> & _)].
    + intros q ? -> [= <-]. destruct Hp' as [|(? & [= <-] & ?)]; done.
    + intros a Ha. rewrite S3 in Ha by lia. done.
    + by destruct Hp' as [->|(q & -> & _)].
  - intros Hb. destruct (H12 Hb) as (l & Hl' & Hpr). by eauto.
Qed.

Lemma setup_turn im fuel c0 k s p :
  system_ok c0 k s -> main_at k = MpSetUp p -> turned c0 0 k (kernel_main_task im (S fuel) k s).
Proof.
  intros H Hm. unfold kernel_main_task, ipc_test_tasks. rewrite Hm. pose proof (so_stands _ _ _ H) as S.
  destruct (sn_meet _ S) as [r Hr]; [rewrite Hm; cbn; lia|]. rewrite Hr.
  destruct (sn_setup _ S p r Hm Hr) as [Hcr HZ]. pose proof (alone_count _ _ _ H) as HN.
  pose proof (so_ids _ _ _ H) as Hids. rewrite Hm in Hids.
  pose proof (so_meet _ _ _ H r Hr) as M. pose proof (mt_ids _ _ _ _ _ M) as N.
  destruct (mt_state _ _ _ _ _ M) as [[_ [(idc & idp & Hx) _]]|[Hs _]]; [|rewrite Hm in Hs; cbn in Hs; lia].
  destruct (unborn_iff _ _ _ _ Hx) as [Uc Up]. pose proof (sd_id _ _ _ _ _ _ (ex_p _ _ _ _ Hx)) as Hidp.
  assert (Hdone : forall k', system_ok c0 k' s -> remaining k' + 1 <= remaining k -> turned c0 0 k (Some (Done, k', s)))
    by (intros; by eapply main_done).
  destruct p as [| | |v| |]; cbn [rendezvous_setup created_by coming] in *; [..|done|done].
  - destruct (create_ready (SchedExitStub im) (text "Consumer") (consumer_code im) (ConsumerStackEnd im) s)
      as (t & s1 & -> & C & Hok & Ht & Hd & Hp); [apply H|lia..|]. rewrite !some_bind.
    eapply main_done; [done| |unfold remaining; rewrite Hm; cbn; lia].
    pose proof (ex_born _ _ _ _ Hx Hcr) as Eb.
    eapply (system_born c0 k s r); [done..| | | | | |done]; cbn.
    + exists (NextTaskId s), 1. eapply consumer_born_ok; [eapply exchange_ids; [exact Hx|done..|left; split; [done|lia]]|done..| |done].
      by apply (so_tick _ _ _ H).
    + unfold both. set_solver.
    + unfold both. cbn. rewrite (proj1 Uc Hcr). set_solver.
    + split; [by eapply dead_nonzero; [apply H|]|apply N].
    + lia.
  - destruct Hcr as [Hc Hu]. destruct (create_ready (SchedExitStub im) (text "Producer") (producer_code im) (ProducerStackEnd im) s)
      as (t & s1 & -> & C & Hok & Ht & Hd & Hp); [apply H|lia..|]. rewrite !some_bind.
    eapply main_done; [done| |unfold remaining; rewrite Hm; cbn; lia].
    eapply (system_born c0 k s r); [done..| | | | | |done]; cbn.
    + exists idc, (NextTaskId s). eapply producer_born_ok; [eapply exchange_ids; [exact Hx|done|lia|by right]|done..| |done].
      by apply (so_tick _ _ _ H).
    + unfold both. set_solver.
    + unfold both. cbn. rewrite (proj1 Up Hu). set_solver.
    + split; [apply N|by eapply dead_nonzero; [apply H|]].
    + lia.
  - rewrite decide_False by (rewrite <- Uc, <- Up; intros [E|E]; [apply Hcr, (ex_born _ _ _ _ Hx E)|done]).
    rewrite !some_bind. apply Hdone; [|unfold remaining; rewrite Hm; cbn; lia].
    eapply system_set_up; [done..|by eexists _, _|done|done|done|]. right. by eexists.
  - rewrite !some_bind. apply Hdone; [|unfold remaining; rewrite Hm; cbn; lia].
    eapply system_set_up; [done..| |done|done|done|by left]. exists idc, idp. by apply exchange_ProducerId; [|congruence].
Qed.

Lemma create_grows eip esp t s s' : created eip esp t s s' -> State (task s t) = TaskDead -> grows [t] s s'.
Proof.
  intros C D. split; [apply C|by intros x ->%elem_of_list_singleton'|]. intros i Hi Hx. apply erase_calm, (cr_other _ _ _ _ _ C).
  intros ->. set_solver.
Qed.

(** The start of the contention test. *)
Lemma contend_turn im fuel c0 k s :
  system_ok c0 k s -> main_at k = MpContend -> turned c0 0 k (kernel_main_task im (S fuel) k s).
Proof.
  intros H Hm. unfold kernel_main_task, ipc_test_tasks. rewrite Hm. pose proof (so_stands _ _ _ H) as S.
  destruct (none_yet k S) as (Hc & Hw & Hs & Hla & Hl); [rewrite Hm; cbn; lia|].
  destruct (contention_start_ok (Mutex0 k)) as (a & -> & El & Et & Eu & Em). rewrite !some_bind.
  eapply main_done; [done| |unfold remaining; rewrite Hm; cbn; lia].
  assert (Hlater : later (set_main_at (MpLocks LuA) (set_contest (Some a) k)) = [no_task; no_task]).
  { unfold later, last in *. cbn. by rewrite (proj1 Et), (proj2 Et), Hl. }
  split; cbn [main_at keys screen meeting_of contest shell_at set_main_at set_contest]; try apply H.
  - pose proof (so_ids _ _ _ H) as Hids. by rewrite Hm in Hids.
  - intros i Hi Hn. apply (so_crew _ _ _ H); [done|]. intros Hb. apply Hn. unfold crew in *. rewrite Hla, Hlater in *. set_solver.
  - intros r Hr. rewrite Hlater. pose proof (so_meet _ _ _ H r Hr) as M. rewrite Hla in M.
    assert (M' : meet_ok (main_at k) (contest k = None) [no_task; no_task] r s).
    { eapply (meet_grows []); [exact M|apply H|by split; [|intros x ?%elem_of_nil|]|set_solver]. }
    destruct M' as [[[Hst _]|[_ Hov]] M3 M4 M5]; [rewrite Hm in Hst; cbn in Hst; lia|].
    split; try done. right. split; [cbn; lia|done].
  - intros ? [= <-]. change (last _) with (last k). rewrite Hl. split; [|set_solver..].
    exists 1, 2. apply fighting_clean; try done; apply H.
  - destruct S as [S1 S1' S2 S3 S4 S4' S5 S6 S7 S8 S9]. rewrite Hm in *. cbn [stage] in *.
    split; cbn; try done; try lia; [intros _; apply S2; lia|intros ? [= <-]; tauto|
      intros r Hr _; apply S8; [done|lia]].
  - intros Hb. destruct (so_log _ _ _ H Hb) as (t & Ht & Hp). exists t. by rewrite Hm in Ht.
Qed.

(** One of the two lock tasks was created. *)
Lemma system_lock_born c0 k s a a' s' eip esp t p q :
  system_ok c0 k s -> main_at k = MpLocks p -> contest k = Some a ->
  created eip esp t s s' -> sched_ok s' -> (t < 32)%nat -> State (task s t) = TaskDead ->
  (exists ia ib, fighting ia ib a' s') -> t ∈ [LockA a'; LockB a'] ->
  (forall x, x ∈ [LockA a; LockB a] -> x ∈ [LockA a'; LockB a'] \/ x = no_task) ->
  (forall x, x ∈ [LockA a'; LockB a'] -> x ∈ [LockA a; LockB a] \/ x = t) ->
  coming q + 1 <= coming (main_at k) -> (q = MpLocks LuB \/ q = MpContention) -> locks_created q a' -> mpc a' = MpWait 0 ->
  system_ok c0 (set_main_at q (set_contest (Some a') k)) s'.
Proof.
  intros H Hm Ha C Hok Ht Hd Hf Hin Hsub Hsup Hco Hq Hcr Em. pose proof (so_stands _ _ _ H) as S.
  assert (Hst : stage q = 6%nat) by (by destruct Hq as [->| ->]).
  pose proof (create_grows _ _ _ _ _ C Hd) as G.
  assert (Hw : Worker k = None) by (apply S; rewrite Hm; cbn; lia). assert (Hs : Shell k = None) by (apply S; rewrite Hm; cbn; lia).
  assert (Hl : last k = []) by (unfold last; by rewrite Hw, Hs).
  assert (EL : later k = [LockA a; LockB a]) by (unfold later; by rewrite Ha, Hl).
  assert (EL' : later (set_main_at q (set_contest (Some a') k)) = [LockA a'; LockB a']).
  { unfold later. change (last (set_main_at q (set_contest (Some a') k))) with (last k). by rewrite Hl. }
  split; cbn [main_at keys screen meeting_of contest shell_at set_main_at set_contest]; try apply H; try done.
  - rewrite (cr_Locked _ _ _ _ _ C). apply H.
  - intros i Hi. destruct (decide (i = t)) as [->|Hit]; [rewrite (cr_Wake _ _ _ _ _ C)|apply (created_calm _ _ _ _ _ _ C Hit)];
      by apply (so_tick _ _ _ H).
  - pose proof (so_ids _ _ _ H). rewrite (cr_Next _ _ _ _ _ C). lia.
  - intros i Hi Hn. unfold crew in Hn. rewrite EL' in Hn. cbn [meeting_of set_main_at set_contest] in Hn.
    assert (Hit : i <> t) by (intros ->; set_solver).
    apply (created_calm _ _ _ _ _ _ C Hit), (so_crew _ _ _ H); [done|]. unfold crew. rewrite EL.
    intros [->|[Hb|Hb]%elem_of_app]%elem_of_cons; [set_solver|set_solver|].
    destruct (Hsub i Hb) as [Hb'| ->]; [set_solver|]. unfold no_task in Hi. lia.
  - intros r Hr. rewrite EL'. pose proof (so_meet _ _ _ H r Hr) as M. rewrite EL in M.
    assert (M' : meet_ok (main_at k) (contest k = None) [LockA a'; LockB a'] r s').
    { eapply meet_grows; [exact M|done|exact G|]. intros x Hx. destruct (Hsup x Hx) as [?| ->]; [by left|]. right. left. set_solver. }
    destruct M' as [[[Hst' _]|[_ Hov]] M3 M4 M5]; [rewrite Hm in Hst'; cbn in Hst'; lia|].
    split; try done. right. split; [lia|done].
  - intros ? [= <-]. change (last _) with (last k). rewrite Hl. by split; [|set_solver..].
  - change (last _) with (last k). rewrite Hl. split; [constructor|]. by intros x ?%elem_of_nil.
  - destruct S as [S1 S1' S2 S3 S4 S4' S5 S6 S7 S8 S9]. rewrite Hm in *. cbn [stage] in *.
    split; cbn [main_at set_main_at set_contest contest meeting_of shell_at Worker Shell Port0]; rewrite ?Hst; try done; try lia.
    + by destruct Hq as [->| ->].
    + by destruct Hq as [->| ->].
    + by intros ? [= <-].
    + destruct Hq as [->| ->]; [done|]. intros ? [= <-]. rewrite Em. cbn. unfold IPC_TEST_ROUNDS. split; [lia|done].
  - intros Hb. destruct (so_log _ _ _ H Hb) as (l & Hl' & Hp). exists l. rewrite Hm in Hl'. by destruct Hq as [->| ->].
Qed.

Lemma locks_turn im fuel c0 k s p :
  system_ok c0 k s -> main_at k = MpLocks p -> turned c0 0 k (kernel_main_task im (S fuel) k s).
Proof.
  intros H Hm. unfold kernel_main_task, ipc_test_tasks. rewrite Hm. pose proof (so_stands _ _ _ H) as S.
  destruct (sn_contest _ S) as [a Ha]; [rewrite Hm; cbn; lia|]. rewrite Ha.
  pose proof (sn_locks _ S a Ha) as Hcr. rewrite Hm in Hcr. pose proof (alone_count _ _ _ H) as HN.
  pose proof (so_ids _ _ _ H) as Hids. rewrite Hm in Hids. pose proof (so_ok _ _ _ H) as Hok.
  destruct (so_contest _ _ _ H a Ha) as [(ia & ib & Hf) _ _]. destruct (fighting_unborn _ _ _ _ Hf) as [Ua Ub].
  destruct p; cbn [lock_setup locks_created coming] in *; [..|done|done].
  - destruct Hcr as [Ea Em]. destruct (create_ready (SchedExitStub im) (text "LockA") (lock_code im) (LockAStackEnd im) s)
      as (t & s1 & -> & C & Hok1 & Ht & Hd & Hp); [done|lia..|]. rewrite !some_bind. pose proof (dead_nonzero _ _ Hok Hd).
    eapply main_done; [done| |unfold remaining; rewrite Hm; cbn; lia].
    eapply (system_lock_born c0 k s a); [done..| | | | | |by left| |done]; cbn.
    + exists (NextTaskId s), (NextTaskId s + 1). eapply LockA_born_ok; try done; [eapply fighting_ids; [exact Hf|done|lia..]|by apply (so_tick _ _ _ H)].
    + set_solver.
    + intros x. rewrite (proj1 Ua Ea). set_solver.
    + intros x. set_solver.
    + rewrite Hm. cbn. lia.
    + split; [done|]. split; [|done]. destruct Hf as (? & ? & ? & ? & _ & _ & _ & HA & _). by apply HA.
  - destruct Hcr as (Ea & Eb & Em). destruct (create_ready (SchedExitStub im) (text "LockB") (lock_code im) (LockBStackEnd im) s)
      as (t & s1 & -> & C & Hok1 & Ht & Hd & Hp); [done|lia..|]. rewrite !some_bind. pose proof (dead_nonzero _ _ Hok Hd).
    cbv zeta. cbn [LockA LockB LockB_born].
    rewrite decide_False by (rewrite <- Ua; unfold no_task; intros [?|?]; [done|lia]). rewrite !some_bind.
    eapply main_done; [done| |unfold remaining; rewrite Hm; cbn; rewrite Em; cbn; lia].
    eapply (system_lock_born c0 k s a); [done..| | | | | |by right| |done]; cbn.
    + exists ia, ib. eapply LockB_born_ok; try done. by apply (so_tick _ _ _ H).
    + set_solver.
    + intros x. rewrite (proj1 Ub Eb). set_solver.
    + intros x. set_solver.
    + rewrite Hm. cbn. lia.
    + done.
Qed.

(** The waits of the contention test. *)
Lemma lock_wait_step m l :
  wait_bound m -> m <> MpDone ->
  wait_bound (fst (lock_wait m l)) /\ lock_cost (fst (lock_wait m l)) + 1 <= lock_cost m /\ 1 <= lock_cost m.
Proof.
  unfold lock_wait. destruct m as [n| |n|]; cbn [wait_bound lock_cost]; intros Hb Hd; [| |..|done];
    unfold IPC_TEST_ROUNDS, IPC_TEST_TIMEOUT in *.
  - destruct (Z.ltb_spec n 50); [destruct (50 <=? LockRounds l)|]; cbn [fst wait_bound lock_cost]; unwrap;
      unfold IPC_TEST_ROUNDS; lia.
  - cbn [fst wait_bound lock_cost]. unfold IPC_TEST_TIMEOUT. lia.
  - destruct (Z.ltb_spec n 200); [destruct (negb _)|]; cbn [fst wait_bound lock_cost]; unwrap;
      unfold IPC_TEST_TIMEOUT; lia.
Qed.

Lemma contention_wait_turn im fuel c0 k s :
  system_ok c0 k s -> main_at k = MpContention -> turned c0 0 k (kernel_main_task im (S fuel) k s).
Proof.
  intros H Hm. unfold kernel_main_task, ipc_test_tasks. rewrite Hm. pose proof (so_stands _ _ _ H) as S.
  destruct (sn_contest _ S) as [a Ha]; [rewrite Hm; cbn; lia|]. rewrite Ha.
  pose proof (sn_wait _ S) as Hw. rewrite Hm in Hw. destruct (Hw a Ha) as [Hb Hd].
  destruct (lock_wait_step (mpc a) (lock a) Hb Hd) as (Hb' & Hcost & Hpos).
  destruct (so_contest _ _ _ H a Ha) as [(ia & ib & Hf) La Lb].
  pose proof (sn_locks _ S a Ha) as Hcr. rewrite Hm in Hcr. destruct Hcr as [Ua Ub].
  pose proof (fighting_wait _ _ _ _ Hf Ua Ub) as Hf'.
  destruct (lock_wait (mpc a) (lock a)) as [pc l]. cbn [fst snd] in *. rewrite some_bind.
  set (a' := mkContention l (LockA a) (LockB a) (apc a) (bpc a) pc).
  set (p := match pc with MpDone => MpLockReport | _ => MpContention end).
  assert (Hp : p = MpLockReport \/ p = MpContention /\ pc <> MpDone) by (unfold p; destruct pc; auto).
  eapply main_done; [done| |].
  2: { unfold remaining. cbn [main_at set_main_at contest set_contest]. rewrite Hm, Ha. unfold a'. cbn [mpc].
       destruct Hp as [->|[-> _]]; lia. }
  assert (EL : later (set_main_at p (set_contest (Some a') k)) = later k) by (unfold later; cbn; by rewrite Ha).
  assert (EC : crew (set_main_at p (set_contest (Some a') k)) = crew k) by (unfold crew; by rewrite EL).
  destruct H as [H1 H2 H3 H4 H5 H6 H7 H8 H9 H10 H11 H12].
  split; rewrite ?EC; try done; cbn [main_at set_main_at set_contest contest meeting_of shell_at screen].
  - rewrite Hm in H4. destruct Hp as [->|[-> _]]; done.
  - intros r Hr. rewrite EL. destruct (H8 r Hr) as [M1 M3 M4 M5]. split; try done.
    rewrite Hm in M1. destruct M1 as [[Hst _]|[_ Ho]]; [cbn in Hst; lia|]. right. split; [|done].
    destruct Hp as [->|[-> _]]; cbn; lia.
  - intros ? [= <-]. split; [by exists ia, ib|done..].
  - destruct S as [S1 S1' S2 S3 S4 S4' S5 S6 S7 S8 S9]. rewrite Hm in *. cbn in *.
    split; cbn [main_at set_main_at set_contest contest meeting_of shell_at Worker Shell Port0]; try done.
    + by destruct Hp as [->|[-> _]].
    + by destruct Hp as [->|[-> _]].
    + intros _. apply S2. lia.
    + destruct Hp as [->|[-> _]]; cbn; lia.
    + intros ? [= <-]. by destruct Hp as [->|[-> _]].
    + intros _. apply S5. lia.
    + intros _. apply S6. lia.
    + intros r Hr _. apply S8; [done|lia].
    + destruct Hp as [->|[-> ?]]; [done|]. by intros ? [= <-].
  - intros Hs. destruct (H12 Hs) as (t & Ht & Hpr). exists t. rewrite Hm in Ht. destruct Hp as [->|[-> _]]; done.
Qed.

(** The port's life cycle. *)
Lemma port_turn im fuel c0 k s :
  system_ok c0 k s -> main_at k = MpPort -> turned c0 0 k (kernel_main_task im (S fuel) k s).
Proof.
  intros H Hm. unfold kernel_main_task, ipc_test_tasks. rewrite Hm. pose proof (so_stands _ _ _ H) as S.
  destruct (sn_meet _ S) as [r Hr]; [rewrite Hm; cbn; lia|].
  destruct (sn_port _ S r Hr) as (Q1 & Q2 & Q3); [rewrite Hm; cbn; lia|].
  destruct (port_test_ok (TestPort r) (screen k) Q1 Q2 Q3) as (p' & c & E & _ & _ & P); [apply H|].
  rewrite Hr, E, !some_bind. eapply main_done; [done| |unfold remaining; rewrite Hm; cbn; lia].
  assert (HN : system_ok c0 (set_main_at MpNewline (set_screen c k)) s).
  { eapply system_next; [done|done|by rewrite Hm|rewrite Hm; cbn; lia|cbn; lia|exact P| |cbn; lia|done].
    rewrite Hm. intros t (n & Hn & ->). right. right. by exists n. }
  destruct HN as [H1 H2 H3 H4 H5 H6 H7 H8 H9 H10 H11 H12].
  assert (EC : crew (set_main_at MpNewline (set_meeting (Some (set_TestPort p' r)) (set_screen c k))) = crew k)
    by (unfold crew; cbn; by rewrite Hr).
  split; rewrite ?EC; try done; cbn [main_at set_main_at meeting_of set_meeting].
  - intros ? [= <-]. destruct (so_meet _ _ _ H r Hr) as [M1 M3 M4 M5]. split; try done.
    rewrite Hm in M1. destruct M1 as [[Hst _]|[_ Ho]]; [cbn in Hst; lia|]. right. split; [cbn; lia|done].
  - destruct H11 as [S1 S1' S2 S3 S4 S4' S5 S6 S7 S8 S9]. split; cbn; try done; lia.
Qed.

(** ** Creating the worker and the shell *)

Lemma created_up eip esp t s s' : created eip esp t s s' -> (t < 32)%nat -> t <> 0%nat -> up t s'.
Proof. intros C H32 H0. split; [done|]. split; [done|]. by rewrite (cr_State _ _ _ _ _ C). Qed.

(** [k'] is [k] with the new task [t], and the idle task a step further. *)
Lemma system_create c0 eip esp t k k' s s' :
  system_ok c0 k s -> (9 <= stage (main_at k))%nat -> (9 <= stage (main_at k'))%nat ->
  created eip esp t s s' -> sched_ok s' -> (t < 32)%nat -> State (task s t) = TaskDead ->
  coming (main_at k') + 1 = coming (main_at k) -> keys k' = keys k -> screen k' = screen k ->
  meeting_of k' = meeting_of k -> contest k' = contest k -> last k' ≡ₚ t :: last k -> shell_at k' = shell_at k ->
  (forall l, transcript (main_at k) l -> transcript (main_at k') l) -> stands k' -> system_ok c0 k' s'.
Proof.
  intros H Hs Hs' C Hok H32 D Hi Ek Esc Em Ec El Ea Ht Hst. pose proof H as [H1 H2 H3 H4 H5 H6 H7 H8 H9 [H10 H10'] H11 H12].
  pose proof (create_grows _ _ _ _ _ C D) as G. pose proof (dead_nonzero _ _ H1 D) as H0.
  assert (Hlast : forall x, x ∈ last k' <-> x ∈ last k \/ x ∈ [t]).
  { intros x. rewrite El, elem_of_cons, elem_of_list_singleton'. tauto. }
  assert (Hlater : forall x, x ∈ later k' <-> x ∈ later k \/ x ∈ [t]).
  { intros x. unfold later. rewrite Ec, !elem_of_app, Hlast. tauto. }
  split; rewrite ?Ek, ?Esc, ?Ea; try done.
  - by rewrite (cr_Locked _ _ _ _ _ C).
  - apply (erased_tick [t] s); [done| |].
    + intros i _ Hn. apply (cr_other _ _ _ _ _ C). intros ->. set_solver.
    + intros x ->%elem_of_list_singleton'. rewrite (cr_Wake _ _ _ _ _ C). by apply H3.
  - rewrite (cr_Next _ _ _ _ _ C). lia.
  - intros i Hi' Hn. assert (Hn' : i ∉ crew k /\ i <> t).
    { split; [intros Hx|intros ->]; apply Hn; revert Hlater; unfold crew; rewrite Em; intros Hlater.
      - unfold crew in Hx. apply elem_of_cons in Hx as [->|Hx]; [set_solver|]. apply elem_of_cons. right.
        apply elem_of_app in Hx as [Hx|Hx]; apply elem_of_app; [by left|right]. apply Hlater. by left.
      - apply elem_of_cons. right. apply elem_of_app. right. apply Hlater. right. set_solver. }
    destruct Hn' as [Hn' Hne]. rewrite (f_equal State (cr_other _ _ _ _ _ C i Hne) : State (task s' i) = State (task s i)). auto.
  - intros r Hr. rewrite Em in Hr. rewrite Ec. apply (meet_at (main_at k)); [|unfold allowed; intros [[? ?]|[? ?]]; [left|right]; (split; [lia|done])].
    eapply meet_grows; [by apply H8|done|done|]. intros x [Hx|Hx]%Hlater; tauto.
  - intros a Ha. rewrite Ec in Ha. eapply contest_grows; [by apply H9|done|done| |intros x; apply Hlast].
    intros E. pose proof (sn_locks _ H11 a Ha) as Hl. destruct (main_at k); cbn in *; tauto || lia.
  - split.
    + rewrite El. apply NoDup_cons. split; [|done]. intros Hx. by apply H10' in Hx as (_ & _ & ? & _).
    + intros x Hx. apply Hlast in Hx as [Hx|Hx]; [|apply elem_of_list_singleton' in Hx as ->; by eapply created_up].
      destruct (H10' x Hx) as (U1 & U2 & U3 & U4). eapply up_calm; [by apply H10'|]. by eapply grows_calm.
  - intros Hb. destruct (H12 Hb) as (l & Hl & Hp). exists l. auto.
Qed.

Lemma create_turn im fuel c0 k s :
  system_ok c0 k s -> main_at k = MpWorker \/ main_at k = MpShell -> turned c0 0 k (kernel_main_task im (S fuel) k s).
Proof.
  intros H Hm. pose proof (alone_count _ _ _ H) as HN. pose proof (so_ids _ _ _ H) as Hids.
  pose proof (so_stands _ _ _ H) as [S1 S1' S2 S3 S4 S4' S5 S6 S7 S8 S9]. unfold kernel_main_task.
  destruct Hm as [Hm|Hm]; rewrite Hm in *; cbn [stage] in *; cbn in Hids.
  - destruct (create_ready (SchedExitStub im) (text "Worker") (worker_code im) (WorkerStackEnd im) s)
      as (t & s' & -> & C & Hok & Ht & D & _); [apply H|lia..|]. rewrite some_bind.
    eapply main_done; [done| |unfold remaining; rewrite Hm; cbn; lia].
    eapply (system_create _ _ _ t k); try done; try (rewrite Hm; cbn; lia); try (cbn; lia).
    + unfold last. cbn. by rewrite S5, S6 by lia.
    + by rewrite Hm.
    + split; cbn; try done; try lia. intros _. apply S6. lia.
  - destruct (create_ready (SchedExitStub im) (text "Shell") (shell_code im) (ShellStackEnd im) s)
      as (t & s' & -> & C & Hok & Ht & D & _); [apply H|lia..|]. rewrite some_bind.
    eapply main_done; [done| |unfold remaining; rewrite Hm; cbn; lia].
    eapply (system_create _ _ _ t k); try done; try (rewrite Hm; cbn; lia); try (cbn; lia).
    + unfold last. cbn. rewrite S6 by lia. rewrite app_nil_r. apply Permutation_app_comm.
    + by rewrite Hm.
    + split; cbn; try done; lia.
Qed.
