(* ===== verification/KernelTasksTheorems.v ===== *)
(** * What the whole kernel does

    Runs of all the kernel's tasks under the timer and the keyboard: the self
    tests print what they should, kernel_main reaches its idle loop, nothing
    ever stops, and nobody disturbs the shell. *)

From stdpp Require Import strings.
From S2P Require Import Prelude Sched SchedQueues SchedInv SchedOps SchedMachine TaskMachine Ipc Sync Message TaskFrame Strings Console Stdio Keyboard KernelMain KernelMainTheorems Shell IpcSelfTests IpcRendezvous IpcSelfTestsTheorems IpcContention IpcContentionTheorems KernelTasks KernelTasksInv.

(** ** Runs *)

Section Runs.
Context (im : Image) (fuel : nat) (Himage : length (Data (producer_garbage im)) = 8%nat) (c0 : Console).

Lemma main_turn k s :
  system_ok c0 k s -> CurrentTask s = Some 0%nat -> turned c0 0 k (kernel_main_task im (S fuel) k s).
Proof using Himage.
  intros H Ht. destruct (main_at k) eqn:Hm.
  - by apply start_turn.
  - by eapply setup_turn.
  - by eapply rendezvous_wait_turn.
  - by apply report_turn.
  - by apply semaphore_turn.
  - by apply mutex_turn.
  - by apply contend_turn.
  - by eapply locks_turn.
  - by apply contention_wait_turn.
  - by apply lock_report_turn.
  - by apply port_turn.
  - by apply newline_turn.
  - apply create_turn; auto.
  - apply create_turn; auto.
  - apply idle_loop_turn; auto.
  - apply idle_loop_turn; auto.
Qed.

Lemma kernel_turn t k s :
  system_ok c0 k s -> CurrentTask s = Some t -> turned c0 t k (kernel_body im (S fuel) t k s).
Proof using Himage.
  intros H Ht. unfold kernel_body. destruct (decide (t = 0%nat)) as [->|H0]; [by apply main_turn|].
  destruct (decide (Shell k = Some t)) as [Hs|Hs]; [apply shell_task_turn; by eauto|].
  destruct (decide (Worker k = Some t)) as [Hw|Hw]; [by apply worker_turn|].
  assert (Hl : t ∉ last k).
  { unfold last. rewrite elem_of_app. intros [Hx|Hx]; [destruct (Worker k)|destruct (Shell k)]; cbn in Hx;
      try (by apply elem_of_nil in Hx); apply elem_of_list_singleton' in Hx; congruence. }
  assert (Hdone : turned c0 t k (Some (Done, k, s))).
  { exists Done, k, s. rewrite decide_False by by apply not_busy. repeat (split; [done|]). lia. }
  destruct (contest k) as [a|] eqn:Ha.
  - destruct (decide (t = LockA a \/ t = LockB a)) as [Hin|Hin]; [by apply contest_turn|].
    destruct (meeting_of k) as [r|] eqn:Hr; [|done]. apply meeting_turn; try done.
    unfold later. rewrite Ha. rewrite elem_of_app. intros [Hx|Hx]; [|done].
    apply Hin. apply elem_of_cons in Hx as [->|Hx]; [by left|]. apply elem_of_list_singleton' in Hx. by right.
  - destruct (meeting_of k) as [r|] eqn:Hr; [|done]. apply meeting_turn; try done.
    unfold later. by rewrite Ha.
Qed.

#[export] Instance system_inv : TaskInvariant (kernel_body im (S fuel)) (system_ok c0) busy remaining.
Proof using Himage.
  split; [by intros ? ? []| |].
  - intros k s s' H Hok HL HN _ Hc. apply (system_calm c0 k s); try done. intros i Hi. apply Hc; [done|].
    intros _. by apply (so_tick _ _ _ H).
  - intros t k s H Ht. by apply kernel_turn.
Qed.

(** How many of the events are turns of kernel_main before its idle loop. *)
Fixpoint main_turns (es : list kernel_event) (w : World System) : nat :=
  match es with
  | [] => 0
  | e :: es =>
      match e with Sys e => turns_of (SchedExitStub im) (kernel_body im (S fuel)) busy [e] w | Key _ => 0 end +
      match kernel_step im (S fuel) e w with Some w => main_turns es w | None => 0 end
  end.

Lemma system_key sc k s : system_ok c0 k s -> system_ok c0 (set_keys (keyboard_callback sc (keys k)) k) s.
Proof.
  intros [H1 H2 H3 H4 H5 H6 H7 H8 H9 H10 [] H12]. split; try done. cbn. by apply keyboard_callback_spec.
Qed.

Lemma kernel_run_inv es : forall w,
  world_inv (system_ok c0) w ->
  exists w', kernel_run im (S fuel) es w = Some w' /\ world_inv (system_ok c0) w' /\
    remaining (shared w') + Z.of_nat (main_turns es w) <= remaining (shared w).
Proof using Himage.
  induction es as [|e es IH]; intros w Hw; [exists w; cbn; repeat (split; [done|]); lia|].
  cbn [kernel_run main_turns]. destruct e as [e|sc].
  - destruct (world_step_inv (SchedExitStub im) (kernel_body im (S fuel)) (system_ok c0) busy remaining e w Hw)
      as (w1 & E1 & H1 & L1). cbn [kernel_step]. rewrite E1, some_bind.
    destruct (IH w1 H1) as (w' & E & H & L). exists w'. split; [done|]. split; [done|]. lia.
  - cbn [kernel_step]. rewrite some_bind. set (w1 := mkWorld _ _).
    destruct (IH w1) as (w' & E & H & L); [destruct Hw as [Hm Hs]; split; [done|by apply system_key]|].
    exists w'. split; [done|]. split; [done|]. change (remaining (shared w1)) with (remaining (shared w)) in L. lia.
Qed.
End Runs.

(** *** The start *)

(** What kernel_main has when it comes to SchedInit. *)
Record sched_ready (port : IpcPort) (kb : Keyboard) (c : Console) (s : Sched) : Prop := {
  sr_tasks : length (Tasks s) = 32%nat;
  sr_port : Magic port <> PORT_MAGIC /\ length (Slots port) = 16%nat;
  sr_keys : kbd_wf kb;
  sr_screen : con_inv c }.

Definition sched_text : list Z := line "OK: Scheduling Init Succesfull" ++ line "".

Lemma SchedInit_quiet s i : length (Tasks s) = 32%nat -> (i < 32)%nat -> WakeTick (task (SchedInit s) i) = 0.
Proof.
  intros Hl Hi. unfold SchedInit. cbv zeta.
  match goal with |- WakeTick (task (set_TaskCountValue _ (set_CurrentTask _ (set_NextTaskId _ ?x))) i) = 0 =>
    change (WakeTick (task x i) = 0) end.
  set (s1 := set_Tasks (SchedResetTask <$> _) _).
  assert (H1 : length (Tasks s1) = 32%nat) by (unfold s1; cbn; by rewrite length_fmap).
  assert (H : forall j, WakeTick (task s1 j) = 0).
  { intros j. unfold task, s1. cbn [Tasks set_Tasks]. rewrite list_lookup_fmap. by destruct (_ !! j). }
  rewrite task_upd by lia. case_decide; [|done]. subst. apply (H 0%nat).
Qed.

Lemma kernel_main_sched_ok port sem m kb c s :
  sched_ready port kb c s ->
  exists w c0, kernel_main_sched port sem m kb c s = Some w /\ prints sched_text c c0 /\
    world_inv (system_ok c0) w /\ remaining (shared w) = 470 /\ screen (shared w) = c0.
Proof.
  intros [Ht [Hm Hs] Hk Hc]. unfold kernel_main_sched.
  destruct (say_plain (line "OK: Scheduling Init Succesfull" ++ line "") c) as (c0 & -> & P); [done|plain_text|].
  rewrite some_bind. eexists _, c0. split; [done|]. split; [done|]. split; [|done].
  pose proof (SchedInit_ok s Ht) as Hok. split; [split; [done|by intros ? ? ?]|]. cbn [shared].
  split; cbn [main_at keys screen meeting_of contest shell_at]; try done.
  - intros i Hi. by apply SchedInit_quiet.
  - intros i Hi Hn. apply (SchedInit_tasks s Ht). intros ->. apply Hn. unfold crew. set_solver.
  - apply P.
  - split; [constructor|]. by intros t ?%elem_of_nil.
  - split; cbn; try done; lia.
  - intros _. exists []. split; [done|]. apply prints_none, P.
Qed.

(** ** The shell and the rest *)

(** The shell by itself: keystrokes and its own turns. *)
Inductive shell_input := InKey (sc : Z) | InTurn.

Definition shell_only (i : shell_input) (d : Keyboard * Console * ShellPoint) : option (Keyboard * Console * ShellPoint) :=
  let '(kb, c, p) := d in
  match i with
  | InKey sc => Some (keyboard_callback sc kb, c, p)
  | InTurn =>
      match p with
      | SpBegin => c ← shell_begin c; Some (kb, c, SpLoop)
      | SpLoop => '(out, kb, c) ← shell_turn kb c; Some (kb, c, match out with ShYields => SpYield | _ => SpLoop end)
      | SpYield => Some (kb, c, SpLoop)
      end
  end.

Fixpoint shell_alone (ins : list shell_input) (d : Keyboard * Console * ShellPoint)
    : option (Keyboard * Console * ShellPoint) :=
  match ins with
  | [] => Some d
  | i :: ins => d ← shell_only i d; shell_alone ins d
  end.

Definition devices (k : System) : Keyboard * Console * ShellPoint := (keys k, screen k, shell_at k).

(** The scancodes of a run. *)
Definition typed (es : list kernel_event) : list Z := omap (fun e => match e with Key sc => Some sc | _ => None end) es.
Definition received (ins : list shell_input) : list Z := omap (fun i => match i with InKey sc => Some sc | _ => None end) ins.

Definition looping (k : System) : Prop := main_at k = MpYield \/ main_at k = MpIdle.

(** What the shell gets of a run: the scancodes, and its own turns. *)
Definition shell_gets (e : kernel_event) (w : World System) : list shell_input :=
  match e with
  | Key sc => [InKey sc]
  | Sys Turn => if decide (CurrentTask (sched w) = Shell (shared w)) then [InTurn] else []
  | Sys _ => []
  end.

Fixpoint shell_inputs (im : Image) (fuel : nat) (es : list kernel_event) (w : World System) : list shell_input :=
  match es with
  | [] => []
  | e :: es => shell_gets e w ++ match kernel_step im fuel e w with Some w => shell_inputs im fuel es w | None => [] end
  end.

(** A turn reaches the devices through the shell only. *)
Lemma body_devices im fuel t k s out k' s' :
  looping k -> Shell k <> Some 0%nat -> kernel_body im fuel t k s = Some (out, k', s') ->
  looping k' /\ Shell k' = Shell k /\
  shell_alone (if decide (Some t = Shell k) then [InTurn] else []) (devices k) = Some (devices k').
Proof.
  intros Hk H0. unfold kernel_body, devices. destruct (decide (t = 0%nat)) as [->|].
  { rewrite (decide_False (P := Some 0%nat = Shell k)) by done. unfold kernel_main_task. destruct Hk as [->| ->].
    - destruct (SchedYield s) as [[o s1]|]; [|done]. intros [= _ <- _]. split; [by right|done].
    - intros [= _ <- _]. split; [by left|done]. }
  destruct (decide (Shell k = Some t)) as [Hs|Hs].
  { rewrite (decide_True (P := Some t = Shell k)) by done. unfold shell_task. cbn [shell_alone shell_only]. destruct (shell_at k).
    - destruct (shell_begin (screen k)) as [c|]; [|done]. by intros [= _ <- _].
    - destruct (shell_turn (keys k) (screen k)) as [[[o kb] c]|]; [|done]. by intros [= _ <- _].
    - destruct (SchedYield s) as [[o s1]|]; [|done]. by intros [= _ <- _]. }
  rewrite (decide_False (P := Some t = Shell k)) by done. cbn [shell_alone].
  destruct (decide (Worker k = Some t)).
  { unfold worker_task. destruct (SchedYield s) as [[o s1]|]; [|done]. by intros [= _ <- _]. }
  destruct (contest k) as [a|]; [destruct (decide _)|]; [|destruct (meeting_of k) as [r|]..];
    repeat match goal with |- context [_ ← ?x; _] => destruct x as [[[? ?] ?]|]; [rewrite some_bind|done] end;
    by intros [= _ <- _].
Qed.

Lemma step_devices im fuel e w w' :
  looping (shared w) -> Shell (shared w) <> Some 0%nat -> kernel_step im fuel e w = Some w' ->
  looping (shared w') /\ Shell (shared w') = Shell (shared w) /\ received (shell_gets e w) = typed [e] /\
  shell_alone (shell_gets e w) (devices (shared w)) = Some (devices (shared w')).
Proof.
  intros Hk H0. destruct e as [e|sc]; cbn [kernel_step shell_gets]; [|by intros [= <-]].
  unfold world_step. destruct (interrupt e) as [op|] eqn:Ei.
  { destruct (step _ _ _) as [m|]; [|done]. intros [= <-]. by destruct e. }
  assert (e = Turn) as -> by by destruct e.
  destruct (CurrentTask (sched w)) as [t|]; [|done].
  destruct (kernel_body im fuel t (shared w) (sched w)) as [[[out k'] s']|] eqn:E; [|done]. rewrite some_bind.
  destruct (settle _ _ _ _) as [m|]; [|done]. intros [= <-]. cbn [shared].
  destruct (body_devices _ _ _ _ _ _ _ _ Hk H0 E) as (Hl & Hs & Hd). do 2 (split; [done|]). split; [by case_decide|done].
Qed.

Lemma shell_alone_app is1 : forall is2 d, shell_alone (is1 ++ is2) d = d ← shell_alone is1 d; shell_alone is2 d.
Proof.
  induction is1 as [|i is1 IH]; intros is2 d; [done|]. cbn [app shell_alone].
  destruct (shell_only i d); [|done]. rewrite !some_bind. apply IH.
Qed.

Lemma run_devices im fuel es : forall w w',
  looping (shared w) -> Shell (shared w) <> Some 0%nat -> kernel_run im fuel es w = Some w' ->
  received (shell_inputs im fuel es w) = typed es /\
  shell_alone (shell_inputs im fuel es w) (devices (shared w)) = Some (devices (shared w')).
Proof.
  induction es as [|e es IH]; intros w w' Hk H0; cbn [kernel_run shell_inputs]; [by intros [= <-]|].
  destruct (kernel_step im fuel e w) as [w1|] eqn:E; [|done]. rewrite some_bind. intros Er.
  destruct (step_devices _ _ _ _ _ Hk H0 E) as (H1 & Hs & R1 & A1).
  destruct (IH w1 w' H1 ltac:(by rewrite Hs) Er) as [R2 A2].
  unfold received, typed in *. split.
  - rewrite omap_app, R1, R2. change (e :: es) with ([e] ++ es). by rewrite omap_app.
  - by rewrite shell_alone_app, A1, some_bind.
Qed.

(** ** A concrete start *)

Definition sample_image : Image :=
  mkImage 4096 8192 65536 12288 131072 16384 196608 262144 20480 327680 24576 393216 zero_msg zero_msg.
Definition bss_sem : IpcSemaphore := mkSem 0 0 wait_empty.
Definition bss_mutex : IpcMutex := mkMutex false 0 wait_empty.

Lemma sample_ready : sched_ready bss_port kbd_init blank_console sched_bss.
Proof. split; [done|done|apply kbd_init_wf|apply blank_console_inv]. Qed.

(** One task after the other takes its slice. *)
Definition slice (n : nat) : list kernel_event :=
  Sys <$> (replicate n Turn ++ replicate 10 (Tick (Some 0)) ++ [Preempt]).
Definition sample_run : list kernel_event := concat (replicate 400 (slice 7)).
Definition sample_keys : list kernel_event := Key <$> strokes 104.

Definition sample_outcome {B} (f : World System -> B) (es : list kernel_event) : option B :=
  w0 ← kernel_main_sched bss_port bss_sem bss_mutex kbd_init blank_console sched_bss;
  w ← kernel_run sample_image 3 es w0; Some (f w).

Lemma sample_outcome_eq {B} (f : World System -> B) es w0 w x :
  kernel_main_sched bss_port bss_sem bss_mutex kbd_init blank_console sched_bss = Some w0 ->
  kernel_run sample_image 3 es w0 = Some w -> sample_outcome f es = Some x -> f w = x.
Proof. intros E1 E2. unfold sample_outcome. rewrite E1, some_bind, E2, some_bind. by intros [= ->]. Qed.

(** ** Properties *)

Lemma up_runnable t s : up t s -> runnable s t.
Proof. intros (_ & _ & H1 & H2). unfold runnable. destruct (State (task s t)); auto; done. Qed.



(** C23. The self tests come to an end. In every run from SchedInit kernel_main
    takes at most 470 turns before it has returned from ipc_test_tasks, created
    the worker and the shell and reached its idle loop: no wait goes on for
    ever, whatever the test tasks do or fail to do. *)
Theorem self_tests_return im fuel port sem m kb c s :
  sched_ready port kb c s -> length (Data (producer_garbage im)) = 8%nat ->
  exists w0, kernel_main_sched port sem m kb c s = Some w0 /\
  forall es, exists w, kernel_run im (S fuel) es w0 = Some w /\
    (main_turns im fuel es w0 <= 470)%nat /\
    (main_turns im fuel es w0 = 470%nat -> looping (shared w)).
Proof.
  intros Hr Hi. destruct (kernel_main_sched_ok port sem m kb c s Hr) as (w0 & c0 & E & _ & Hw & Hrem & _).
  exists w0. split; [done|]. intros es. destruct (kernel_run_inv im fuel Hi c0 es w0 Hw) as (w & Ew & [_ H] & HL).
  exists w. split; [done|]. rewrite Hrem in HL. pose proof (sn_wait _ (so_stands _ _ _ H)) as Hb.
  assert (Hpos : 0 <= remaining (shared w) /\ (remaining (shared w) <= 0 -> looping (shared w))).
  { unfold remaining, looping, IPC_TEST_TIMEOUT in *. destruct (main_at (shared w)) eqn:Em; try (split; [lia|tauto || lia]); [destruct p; lia..|].
    destruct (sn_contest _ (so_stands _ _ _ H)) as [a Ha]; [rewrite Em; cbn; lia|]. rewrite Ha.
    destruct (Hb a Ha) as [Hb1 Hd]. destruct (lock_wait_step (mpc a) (lock a) Hb1 Hd) as (_ & _ & ?). lia. }
  split; [lia|]. intros. apply Hpos. lia.
Qed.

Lemma self_tests_return_witness :
  exists w0 w, kernel_main_sched bss_port bss_sem bss_mutex kbd_init blank_console sched_bss = Some w0 /\
    kernel_run sample_image 3 sample_run w0 = Some w /\ (main_turns sample_image 2 sample_run w0 <= 470)%nat /\
    main_at (shared w) = MpIdle.
Proof.
  destruct (self_tests_return sample_image 2 bss_port bss_sem bss_mutex kbd_init blank_console sched_bss
    sample_ready eq_refl) as (w0 & E & H).
  destruct (H sample_run) as (w & Ew & HN & _). exists w0, w.
  split; [exact E|]. split; [exact Ew|]. split; [exact HN|].
  apply (sample_outcome_eq (fun w => main_at (shared w)) _ w0 w _ E Ew). vm_compute. reflexivity.
Defined.

(** C24. Nobody disturbs the shell. Once kernel_main is in its idle loop, in any
    run of all the tasks with the timer, the keyboard buffer, the decoder, the
    screen and the shell's place are what the shell alone makes of them, from
    the same scancodes in the same order among its own turns: the worker, the
    idle task and test tasks that are left over change nothing of what the user
    sees. *)
Theorem shell_undisturbed im fuel port sem m kb c s :
  sched_ready port kb c s -> length (Data (producer_garbage im)) = 8%nat ->
  exists w0, kernel_main_sched port sem m kb c s = Some w0 /\
  forall es1 es2, exists w1 w2, kernel_run im (S fuel) es1 w0 = Some w1 /\ kernel_run im (S fuel) es2 w1 = Some w2 /\
    (looping (shared w1) ->
     received (shell_inputs im (S fuel) es2 w1) = typed es2 /\
     shell_alone (shell_inputs im (S fuel) es2 w1) (devices (shared w1)) = Some (devices (shared w2))).
Proof.
  intros Hr Hi. destruct (kernel_main_sched_ok port sem m kb c s Hr) as (w0 & c0 & E & _ & Hw & _).
  exists w0. split; [done|]. intros es1 es2.
  destruct (kernel_run_inv im fuel Hi c0 es1 w0 Hw) as (w1 & E1 & H1 & _).
  destruct (kernel_run_inv im fuel Hi c0 es2 w1 H1) as (w2 & E2 & _). exists w1, w2. split; [done|]. split; [done|].
  intros Hl. apply (run_devices im (S fuel)); [done| |done]. intros Hs.
  destruct (proj2 (so_last _ _ _ (proj2 H1)) 0%nat) as [? _]; [|done]. unfold last. rewrite Hs. set_solver.
Qed.

Lemma shell_undisturbed_witness :
  exists w0 w1 w2, kernel_main_sched bss_port bss_sem bss_mutex kbd_init blank_console sched_bss = Some w0 /\
    kernel_run sample_image 3 sample_run w0 = Some w1 /\
    kernel_run sample_image 3 (sample_keys ++ slice 7 ++ slice 7 ++ slice 7) w1 = Some w2 /\
    shell_alone (shell_inputs sample_image 3 (sample_keys ++ slice 7 ++ slice 7 ++ slice 7) w1) (devices (shared w1)) =
      Some (devices (shared w2)).
Proof.
  destruct (shell_undisturbed sample_image 2 bss_port bss_sem bss_mutex kbd_init blank_console sched_bss
    sample_ready eq_refl) as (w0 & E & H).
  destruct (H sample_run (sample_keys ++ slice 7 ++ slice 7 ++ slice 7)) as (w1 & w2 & E1 & E2 & Hl).
  destruct Hl as (R & A).
  { right. apply (sample_outcome_eq (fun w => main_at (shared w)) _ w0 w1 _ E E1). vm_compute. reflexivity. }
  exists w0, w1, w2. split; [exact E|]. split; [exact E1|]. split; [exact E2|exact A].
Defined.
